(** * Nexus core containers: TArray and TBitArray

    A shallow embedding of
    [Engine/Source/Runtime/Core/Public/Containers/Array.h] and
    [Engine/Source/Runtime/Core/Public/Containers/BitArray.h], with the
    count-zero primitives of [Mac/MacPlatformMath.h].

    Conventions.
    - An allocation is a list of slots; a slot is [None] while it holds no
      object (fresh storage, or an object whose destructor has run) and
      [Some v] while it holds the object [v].  The null allocation is [[]].
    - [uint32] values are numbers in [Z] and every operation writes its
      wrap-around modulo [2^32] out.
    - The allocator's size type is signed; leaving its range is undefined
      behaviour.
    - A function of the source becomes a function into [Result]: a failed
      [Check] is [AssertionFailed], an access outside an allocation, a read of
      a slot that holds no object and a signed overflow are
      [UndefinedBehaviour], and a call that has no well-formed instantiation
      (the translation unit that holds it does not compile) is [IllFormed]. *)

From Stdlib Require Import ZArith Lia Bool.
From stdpp Require Import base list.

Local Open Scope Z_scope.

(** ** Results of fallible code *)

Inductive Failure : Type :=
| AssertionFailed
| UndefinedBehaviour
| OutOfFuel
| IllFormed.

Inductive Result (A : Type) : Type :=
| Ok (a : A)
| Fail (e : Failure).

Arguments Ok {A} a.
Arguments Fail {A} e.

Definition Result_bind {A B : Type} (m : Result A) (k : A -> Result B) : Result B :=
  match m with
  | Ok a => k a
  | Fail e => Fail e
  end.

Notation "x <- m ;; k" := (Result_bind m (fun x => k))
  (at level 20, m at level 99, k at level 200, only parsing).
Notation "m ;; k" := (Result_bind m (fun _ => k))
  (at level 100, k at level 200, right associativity, only parsing).

(** Modelled from the spec: the diagnostics macro [Check] (the assertion
    layer is not among the sources), "a fatal-assertion primitive invoked on
    invariant violations". *)
Definition NexusCheck (cond : bool) : Result unit :=
  if cond then Ok tt else Fail AssertionFailed.

(** ** Storage *)

Abbreviation Slots T := (list (option T)) (only parsing).

Definition in_bounds {T : Type} (buf : list T) (off n : Z) : bool :=
  (0 <=? off) && (0 <=? n) && (off + n <=? Z.of_nat (length buf)).

(** Reading the object at [buf[i]]. *)
Definition load {T : Type} (buf : Slots T) (i : Z) : Result T :=
  if in_bounds buf i 1 then
    match buf !! Z.to_nat i with
    | Some (Some v) => Ok v
    | _ => Fail UndefinedBehaviour
    end
  else Fail UndefinedBehaviour.

(** Writing [buf[i]]: placement-new of an object, or a store to a word. *)
Definition store {T : Type} (buf : Slots T) (i : Z) (v : T) : Result (Slots T) :=
  if in_bounds buf i 1 then Ok (<[Z.to_nat i := Some v]> buf)
  else Fail UndefinedBehaviour.

(** Modelled from the spec: [FMemory::Memmove], one of the "low-level memory
    primitives" that are external to the sources; here within one allocation
    and in units of slots.  The slots are copied as they are, whether or not
    they hold an object; a range that leaves the allocation is undefined. *)
Definition Memmove {T : Type} (buf : Slots T) (dst src n : Z) : Result (Slots T) :=
  if n =? 0 then Ok buf
  else if in_bounds buf dst n && in_bounds buf src n then
    Ok (list_inserts (Z.to_nat dst) (take (Z.to_nat n) (drop (Z.to_nat src) buf)) buf)
  else Fail UndefinedBehaviour.

(** Modelled from the spec: [FMemory::Memcpy], from another allocation to
    the start of [buf]; [f] is what the copied bytes denote in the
    destination's type. *)
Definition Memcpy {T S : Type} (f : S -> T) (buf : Slots T) (src : Slots S) (n : Z)
  : Result (Slots T) :=
  if n =? 0 then Ok buf
  else if in_bounds buf 0 n && in_bounds src 0 n then
    Ok (list_inserts 0%nat (fmap (M:=list) (fmap (M:=option) f) (take (Z.to_nat n) src)) buf)
  else Fail UndefinedBehaviour.

(** Modelled from the spec: [FMemory::Memset] and [FMemory::Memzero], over
    [n] whole slots from [off]. *)
Definition Memset {T : Type} (buf : Slots T) (off : Z) (v : T) (n : Z) : Result (Slots T) :=
  if n =? 0 then Ok buf
  else if in_bounds buf off n then
    Ok (list_inserts (Z.to_nat off) (replicate (Z.to_nat n) (Some v)) buf)
  else Fail UndefinedBehaviour.

(** The bytes of a [uint32] word in memory, lowest byte first (the byte
    order of the platforms of [Mac/MacPlatformMath.h]). *)
Definition word_bytes (w : Z) : list Z :=
  [w mod 256; w / 256 mod 256; w / 65536 mod 256; w / 16777216 mod 256].

(** The words of [n] consecutive slots. *)
Fixpoint load_words (n : nat) (buf : Slots Z) (i : Z) : Result (list Z) :=
  match n with
  | O => Ok []
  | S n' =>
      w <- load buf i ;;
      ws <- load_words n' buf (i + 1) ;;
      Ok (w :: ws)
  end.

(** The difference of the first pair of bytes that differ, 0 when there is
    none. *)
Fixpoint compare_bytes (xs ys : list Z) : Z :=
  match xs, ys with
  | x :: xs', y :: ys' => if x =? y then compare_bytes xs' ys' else x - y
  | _, _ => 0
  end.

(** Modelled from the spec: [FMemory::Memcmp], one of the "low-level memory
    primitives" that are external to the sources, on two allocations of
    words from their starts: the first [NumBytes] bytes of each are read and
    compared in order. *)
Definition Memcmp (A B : Slots Z) (NumBytes : Z) : Result Z :=
  if NumBytes <? 0 then Fail UndefinedBehaviour
  else
    let NumWords := Z.to_nat ((NumBytes + 3) / 4) in
    xs <- load_words NumWords A 0 ;;
    ys <- load_words NumWords B 0 ;;
    Ok (compare_bytes (take (Z.to_nat NumBytes) (concat (map word_bytes xs)))
                      (take (Z.to_nat NumBytes) (concat (map word_bytes ys)))).

(** Modelled from the spec: the allocator's [ResizeAllocation] (the allocator
    is an external collaborator, [HAL/Allocators/AnsiAllocator.h] is not among
    the sources): "a resize-allocation operation parameterized by (old element
    count, new element count, element size in bytes) that preserves existing
    bytes up to the minimum of old/new sizes".  The slots past the preserved
    ones are fresh. *)
Definition ResizeAllocation {T : Type} (buf : Slots T) (PreviousNumElements NumElements : Z)
  : Slots T :=
  resize (Z.to_nat NumElements) None (take (Z.to_nat PreviousNumElements) buf).

(** Modelled from the spec: the allocator's [MoveToEmpty] (the allocator is
    not among the sources): "an O(1) ownership-transfer operation from another
    allocator instance of the same type"; the destination takes the source's
    allocation and the source is left with the null allocation.  [bits] is
    what the bytes of the source's elements denote in the destination's
    element type. *)
Definition MoveToEmpty {T S : Type} (bits : S -> T) (To : Slots T) (From : Slots S)
  : Slots T * Slots S :=
  (fmap (M:=list) (fmap (M:=option) bits) From, []).

(** ** The allocator and the element traits *)

(** The template parameter [FAllocator] of both containers.  No allocator
    is among the sources; what the containers use of one is a parameter: its
    size type (by the largest value it holds), its slack policies and its
    capability flags. *)
Class Allocator : Type := {
  FSizeType_Max : Z;
  CalculateSlackGrow : Z -> Z -> Z -> Z;
  CalculateSlackShrink : Z -> Z -> Z -> Z;
  RequireRangeCheck : bool;
  SupportsMove : bool
}.

(** The template parameter [FElementType]: the answers of the trait
    templates ([Templates/*.h] are not among the sources) for it, its size,
    its [operator==] and the bytes of its objects. *)
Class ElementTraits (E : Type) : Type := {
  sizeof_E : Z;
  TIsTriviallyDestructible : bool;
  TIsBitwiseConstructible : bool;
  TIsBitwiseRelocatable : bool;
  IsBytewiseComparable : bool;
  op_eq : E -> E -> bool;
  object_bytes : E -> list Z
}.

(** Construction of an [E] from an object of another element type [S]:
    the constructor [E(const S&)], what [S]'s bytes denote as an [E], and
    [TIsBitwiseConstructible<E, S>]. *)
Class ConstructibleFrom (E S : Type) : Type := {
  construct_from : S -> E;
  bitcopy_from : S -> E;
  TIsBitwiseConstructibleFrom : bool;
  TAreTypesEqual : bool
}.

(** Whether a count is a value of the size type. *)
Definition FSizeType_fits {Alloc : Allocator} (n : Z) : bool :=
  (- FSizeType_Max - 1 <=? n) && (n <=? FSizeType_Max).

(** Arithmetic of the signed size type: overflow is undefined. *)
Definition FSizeType_add {Alloc : Allocator} (a b : Z) : Result Z :=
  let r := a + b in
  if (- FSizeType_Max - 1 <=? r) && (r <=? FSizeType_Max) then Ok r
  else Fail UndefinedBehaviour.

(** [static_cast<FSizeType>] of a count: the value modulo the range of the
    size type. *)
Definition FSizeType_cast {Alloc : Allocator} (n : Z) : Z :=
  (n + FSizeType_Max + 1) mod (2 * (FSizeType_Max + 1)) - FSizeType_Max - 1.

(** ** TArray *)

Module Array.

Record TArray (E : Type) : Type := mkTArray {
  AllocatorInstance : Slots E;
  ArrayNum : Z;
  ArrayMax : Z
}.

Arguments mkTArray {E} _ _ _.
Arguments AllocatorInstance {E} _.
Arguments ArrayNum {E} _.
Arguments ArrayMax {E} _.

(** A reference argument [const FElementType& Item]: an object that lives
    outside the array's allocation, or the slot of the allocation it
    designates. *)
Inductive ItemRef (E : Type) : Type :=
| Outside (v : E)
| InBuffer (slot : Z).

Arguments Outside {E} v.
Arguments InBuffer {E} slot.

Section Definitions.
Context {E : Type} {Alloc : Allocator} {Traits : ElementTraits E}.

(** [TArray(void)] *)
Definition TArray_default : TArray E := mkTArray [] 0 0.

Definition GetData (a : TArray E) : Slots E := AllocatorInstance a.
Definition Num (a : TArray E) : Z := ArrayNum a.
Definition GetSlack (a : TArray E) : Z := ArrayMax a - ArrayNum a.

Definition CheckInvariants (a : TArray E) : Result unit :=
  NexusCheck ((ArrayNum a >=? 0) && (ArrayMax a >=? ArrayNum a)).

Definition RangeCheck (a : TArray E) (Index : Z) : Result unit :=
  CheckInvariants a ;;
  if RequireRangeCheck then NexusCheck ((Index >=? 0) && (Index <? ArrayNum a))
  else Ok tt.

(** [Check(Address < GetData() || Address >= GetData() + ArrayMax)] *)
Definition CheckAddress (a : TArray E) (Item : ItemRef E) : Result unit :=
  match Item with
  | Outside _ => Ok tt
  | InBuffer slot => NexusCheck ((slot <? 0) || (slot >=? ArrayMax a))
  end.

(** Reading through the reference. *)
Definition deref (a : TArray E) (Item : ItemRef E) : Result E :=
  match Item with
  | Outside v => Ok v
  | InBuffer slot => load (GetData a) slot
  end.

(** [operator[]], followed by a read of the element. *)
Definition operator_index (a : TArray E) (Index : Z) : Result E :=
  RangeCheck a Index ;;
  load (GetData a) Index.

(** *** Memory functions *)

Definition ResizeGrow (a : TArray E) (OldNum : Z) : TArray E :=
  let NewMax := CalculateSlackGrow (ArrayNum a) (ArrayMax a) sizeof_E in
  mkTArray (ResizeAllocation (AllocatorInstance a) OldNum NewMax) (ArrayNum a) NewMax.

Definition ResizeForCopy (a : TArray E) (NewMax PrevMax : Z) : TArray E :=
  let buf := if negb (NewMax =? PrevMax)
             then ResizeAllocation (AllocatorInstance a) 0 NewMax
             else AllocatorInstance a in
  mkTArray buf (ArrayNum a) NewMax.

Definition ResizeShrink (a : TArray E) : Result (TArray E) :=
  let NewArrayMax := CalculateSlackShrink (ArrayNum a) (ArrayMax a) sizeof_E in
  if negb (NewArrayMax =? ArrayMax a) then
    NexusCheck (NewArrayMax >=? ArrayNum a) ;;
    Ok (mkTArray (ResizeAllocation (AllocatorInstance a) (ArrayNum a) NewArrayMax)
                 (ArrayNum a) NewArrayMax)
  else Ok a.

Definition ResizeTo (a : TArray E) (NewMax : Z) : TArray E :=
  if negb (NewMax =? ArrayMax a) then
    mkTArray (ResizeAllocation (AllocatorInstance a) (ArrayNum a) NewMax) (ArrayNum a) NewMax
  else a.

Definition Shrink (a : TArray E) : Result (TArray E) :=
  CheckInvariants a ;;
  if negb (ArrayMax a =? ArrayNum a) then Ok (ResizeTo a (ArrayNum a)) else Ok a.

Definition AddUninitialized (a : TArray E) (Count : Z) : Result (Z * TArray E) :=
  CheckInvariants a ;;
  NexusCheck (Count >=? 0) ;;
  let OldNum := ArrayNum a in
  NewNum <- FSizeType_add (ArrayNum a) Count ;;
  let a1 := mkTArray (AllocatorInstance a) NewNum (ArrayMax a) in
  let a2 := if NewNum >? ArrayMax a1 then ResizeGrow a1 OldNum else a1 in
  Ok (OldNum, a2).

(** *** Ranges of items *)

(** The loop of [ConstructItems]: [Count] copy-constructions, one slot
    after the other. *)
Fixpoint ConstructItems_loop {S : Type} (ctor : S -> E) (n : nat) (Dest : Slots E) (d : Z)
    (Source : Slots S) (s : Z) : Result (Slots E) :=
  match n with
  | O => Ok Dest
  | Datatypes.S n' =>
      v <- load Source s ;;
      Dest' <- store Dest d (ctor v) ;;
      ConstructItems_loop ctor n' Dest' (d + 1) Source (s + 1)
  end.

Definition ConstructItems {S : Type} (bitwise : bool) (ctor bits : S -> E)
    (Dest : Slots E) (Source : Slots S) (Count : Z) : Result (Slots E) :=
  if Count <? 0 then Fail UndefinedBehaviour
  else if bitwise then Memcpy bits Dest Source Count
  else ConstructItems_loop ctor (Z.to_nat Count) Dest 0 Source 0.

(** The loop of [DestructItems]. *)
Fixpoint DestructItems_loop (n : nat) (buf : Slots E) (i : Z) : Result (Slots E) :=
  match n with
  | O => Ok buf
  | Datatypes.S n' =>
      _ <- load buf i ;;
      DestructItems_loop n' (<[Z.to_nat i := None]> buf) (i + 1)
  end.

Definition DestructItems (buf : Slots E) (Element Count : Z) : Result (Slots E) :=
  if TIsTriviallyDestructible then Ok buf
  else if Count <? 0 then Fail UndefinedBehaviour
  else DestructItems_loop (Z.to_nat Count) buf Element.

(** The loop of [RelocateConstructItems]: copy-construct into [Dest], run
    the destructor of [Source], advance both; first element first. *)
Fixpoint RelocateConstructItems_loop (n : nat) (buf : Slots E) (Dest Source : Z)
    : Result (Slots E) :=
  match n with
  | O => Ok buf
  | Datatypes.S n' =>
      v <- load buf Source ;;
      buf1 <- store buf Dest v ;;
      RelocateConstructItems_loop n' (<[Z.to_nat Source := None]> buf1) (Dest + 1) (Source + 1)
  end.

Definition RelocateConstructItems (buf : Slots E) (Dest Source Count : Z) : Result (Slots E) :=
  if Count <? 0 then Fail UndefinedBehaviour
  else if TIsBitwiseRelocatable then Memmove buf Dest Source Count
  else RelocateConstructItems_loop (Z.to_nat Count) buf Dest Source.

Definition bytes_of (l : list E) : list Z := concat (map object_bytes l).

(** The objects of [Count] consecutive slots. *)
Fixpoint load_range (n : nat) (buf : Slots E) (i : Z) : Result (list E) :=
  match n with
  | O => Ok []
  | Datatypes.S n' =>
      v <- load buf i ;;
      vs <- load_range n' buf (i + 1) ;;
      Ok (v :: vs)
  end.

Fixpoint CompareItems_loop (n : nat) (A : Slots E) (B : Slots E) (i : Z) : Result bool :=
  match n with
  | O => Ok true
  | Datatypes.S n' =>
      x <- load A i ;;
      y <- load B i ;;
      if negb (op_eq x y) then Ok false
      else CompareItems_loop n' A B (i + 1)
  end.

Definition CompareItems (A B : Slots E) (Count : Z) : Result bool :=
  if Count <? 0 then Fail UndefinedBehaviour
  else if IsBytewiseComparable then
    xs <- load_range (Z.to_nat Count) A 0 ;;
    ys <- load_range (Z.to_nat Count) B 0 ;;
    Ok (bool_decide (bytes_of xs = bytes_of ys))
  else CompareItems_loop (Z.to_nat Count) A B 0.

(** [CopyToEmpty]; [bitwise], [ctor] and [bits] are
    [TIsBitwiseConstructible<FElementType, FOtherElementType>], the
    constructor from the other element type and the meaning of its bytes. *)
Definition CopyToEmpty {S : Type} (bitwise : bool) (ctor bits : S -> E) (a : TArray E)
    (OtherData : Slots S) (OtherNum PrevMax ExtraSlack : Z) : Result (TArray E) :=
  let NewNum := OtherNum in
  NexusCheck (FSizeType_fits NewNum) ;;
  NexusCheck (ExtraSlack >=? 0) ;;
  let a1 := mkTArray (AllocatorInstance a) NewNum (ArrayMax a) in
  if negb (OtherNum =? 0) || negb (ExtraSlack =? 0) || negb (PrevMax =? 0) then
    NewMax <- FSizeType_add NewNum ExtraSlack ;;
    let a2 := ResizeForCopy a1 NewMax PrevMax in
    buf <- ConstructItems bitwise ctor bits (GetData a2) OtherData OtherNum ;;
    Ok (mkTArray buf (ArrayNum a2) (ArrayMax a2))
  else Ok (mkTArray (AllocatorInstance a1) (ArrayNum a1) 0).

Definition InsertUninitialized (a : TArray E) (Index Count : Z) : Result (TArray E) :=
  CheckInvariants a ;;
  NexusCheck ((Count >=? 0) && (Index >=? 0) && (Index <=? ArrayNum a)) ;;
  NexusCheck (FSizeType_fits Count) ;;
  let OldNum := ArrayNum a in
  NewNum <- FSizeType_add (ArrayNum a) Count ;;
  let a1 := mkTArray (AllocatorInstance a) NewNum (ArrayMax a) in
  let a2 := if NewNum >? ArrayMax a1 then ResizeGrow a1 OldNum else a1 in
  buf <- RelocateConstructItems (GetData a2) (Index + Count) Index (OldNum - Index) ;;
  Ok (mkTArray buf (ArrayNum a2) (ArrayMax a2)).

Definition RemoveAtImpl (a : TArray E) (Index Count : Z) (bAllowShrinking : bool)
    : Result (TArray E) :=
  if negb (Count =? 0) then
    CheckInvariants a ;;
    EndIndex <- FSizeType_add Index Count ;;
    NexusCheck ((Count >=? 0) && (Index >=? 0) && (EndIndex <=? ArrayNum a)) ;;
    buf1 <- DestructItems (GetData a) Index Count ;;
    let NumToMove := ArrayNum a - Index - Count in
    buf2 <- (if negb (NumToMove =? 0)
             then Memmove buf1 Index (Index + Count) NumToMove
             else Ok buf1) ;;
    let a1 := mkTArray buf2 (ArrayNum a - Count) (ArrayMax a) in
    if bAllowShrinking then ResizeShrink a1 else Ok a1
  else Ok a.

(** *** Content modifier functions *)

Definition Emplace (a : TArray E) (v : E) : Result (Z * TArray E) :=
  r <- AddUninitialized a 1 ;;
  let '(Index, a1) := r in
  buf <- store (GetData a1) Index v ;;
  Ok (Index, mkTArray buf (ArrayNum a1) (ArrayMax a1)).

(** [Add]: the item is read through its reference once the slot exists. *)
Definition Add (a : TArray E) (Item : ItemRef E) : Result (Z * TArray E) :=
  CheckAddress a Item ;;
  r <- AddUninitialized a 1 ;;
  let '(Index, a1) := r in
  v <- deref a1 Item ;;
  buf <- store (GetData a1) Index v ;;
  Ok (Index, mkTArray buf (ArrayNum a1) (ArrayMax a1)).

Definition Insert (a : TArray E) (Item : ItemRef E) (Index : Z) : Result (Z * TArray E) :=
  CheckAddress a Item ;;
  a1 <- InsertUninitialized a Index 1 ;;
  v <- deref a1 Item ;;
  buf <- store (GetData a1) Index v ;;
  Ok (Index, mkTArray buf (ArrayNum a1) (ArrayMax a1)).

Definition RemoveAt (a : TArray E) (Index : Z) : Result (TArray E) :=
  RemoveAtImpl a Index 1 true.

Fixpoint Contains_loop (Item : E) (n : nat) (buf : Slots E) (i : Z) : Result bool :=
  match n with
  | O => Ok false
  | Datatypes.S n' =>
      x <- load buf i ;;
      if op_eq x Item then Ok true else Contains_loop Item n' buf (i + 1)
  end.

Definition Contains (a : TArray E) (Item : E) : Result bool :=
  if ArrayNum a <? 0 then Fail UndefinedBehaviour
  else Contains_loop Item (Z.to_nat (ArrayNum a)) (GetData a) 0.

(** *** Assignment; the two operands are distinct objects (the source
    guards the same-object case with [this != &Other] and does nothing) *)

(** [operator=(const std::initializer_list<FElementType>&)] *)
Definition assign_list (a : TArray E) (InitList : list E) : Result (TArray E) :=
  buf <- DestructItems (GetData a) 0 (ArrayNum a) ;;
  CopyToEmpty TIsBitwiseConstructible id id (mkTArray buf (ArrayNum a) (ArrayMax a))
    (fmap (M:=list) Some InitList) (Z.of_nat (length InitList)) (ArrayMax a) 0.

(** [operator=(const TArray&)] and its allocator-changing version *)
Definition assign_copy (a Other : TArray E) : Result (TArray E) :=
  buf <- DestructItems (GetData a) 0 (ArrayNum a) ;;
  CopyToEmpty TIsBitwiseConstructible id id (mkTArray buf (ArrayNum a) (ArrayMax a))
    (GetData Other) (Num Other) (ArrayMax a) 0.

(** *** Move functions *)

(** The member type aliases of a container class that
    [TCanMoveTArrayPointersBetweenArrayTypes] names, by
    [typename FFromArrayType::FAllocator] and the like. *)
Record MemberAliases : Type := mkMemberAliases {
  declares_FAllocator : bool;
  declares_FElementType : bool
}.

(** [TArray] declares one member alias, the private [FSizeType].
    [FElementType] and [FAllocator] are its template parameters, and a
    template parameter is no member of the class. *)
Definition TArray_aliases : MemberAliases := mkMemberAliases false false.

(** [Private::TCanMoveTArrayPointersBetweenArrayTypes<FFromArrayType,
    FToArrayType>::Value]; the body of the trait names [FAllocator] and
    [FElementType] of both array types, and the trait has no instance
    ([None]) when one of them is not declared. *)
Definition TCanMoveTArrayPointersBetweenArrayTypes {S : Type} {Conv : ConstructibleFrom E S}
    (FFromArrayType FToArrayType : MemberAliases) (AllocatorsEqual : bool) : option bool :=
  if declares_FAllocator FFromArrayType && declares_FAllocator FToArrayType
     && declares_FElementType FFromArrayType && declares_FElementType FToArrayType
  then Some (AllocatorsEqual && (TAreTypesEqual || TIsBitwiseConstructibleFrom))
  else None.

(** The overload of [MoveOrCopy] that moves; the result is the pair of
    [ToArray] and [FromArray] after the call. *)
Definition MoveOrCopy_move {S : Type} {Conv : ConstructibleFrom E S}
    (ToArray : TArray E) (FromArray : TArray S) (PrevMax : Z) : TArray E * TArray S :=
  let '(t, f) := MoveToEmpty bitcopy_from (AllocatorInstance ToArray)
                   (AllocatorInstance FromArray) in
  (mkTArray t (ArrayNum FromArray) (ArrayMax FromArray), mkTArray f 0 0).

(** The overload of [MoveOrCopy] that copies. *)
Definition MoveOrCopy_copy {S : Type} {Conv : ConstructibleFrom E S}
    (ToArray : TArray E) (FromArray : TArray S) (PrevMax : Z)
    : Result (TArray E * TArray S) :=
  t <- CopyToEmpty TIsBitwiseConstructibleFrom construct_from bitcopy_from ToArray
         (AllocatorInstance FromArray) (ArrayNum FromArray) PrevMax 0 ;;
  Ok (t, FromArray).

(** Whether a call of [MoveOrCopy] on two [TArray]s has an instance: the
    return types of both overloads instantiate
    [TCanMoveTArrayPointersBetweenArrayTypes] for the two array types. *)
Definition MoveOrCopy_instance {S : Type} {Conv : ConstructibleFrom E S}
    (AllocatorsEqual : bool) : Result bool :=
  match TCanMoveTArrayPointersBetweenArrayTypes TArray_aliases TArray_aliases
          AllocatorsEqual with
  | Some Value => Ok Value
  | None => Fail IllFormed
  end.

(** A call [MoveOrCopy(ToArray, FromArray, PrevMax)] from a member of
    [TArray]: the overload that the trait selects, when the trait has an
    instance. *)
Definition MoveOrCopy {S : Type} {Conv : ConstructibleFrom E S} (AllocatorsEqual : bool)
    (ToArray : TArray E) (FromArray : TArray S) (PrevMax : Z)
    : Result (TArray E * TArray S) :=
  Value <- MoveOrCopy_instance AllocatorsEqual ;;
  if Value then Ok (MoveOrCopy_move ToArray FromArray PrevMax)
  else MoveOrCopy_copy ToArray FromArray PrevMax.

(** [operator==]: the source passes the identifier [Count] to
    [CompareItems]; no declaration of it is in scope of the function, so it
    is a parameter here. *)
Definition operator_eq (Count : Z) (a OtherArray : TArray E) : Result bool :=
  if Num a =? Num OtherArray
  then CompareItems (GetData a) (GetData OtherArray) Count
  else Ok false.

End Definitions.

(** Construction of an element from an element of the same type: the copy
    is the same value. *)
Definition SameType (E : Type) {Traits : ElementTraits E} : ConstructibleFrom E E :=
  {| construct_from := id;
     bitcopy_from := id;
     TIsBitwiseConstructibleFrom := TIsBitwiseConstructible;
     TAreTypesEqual := true |}.

Section ArrayMove.
Context {E : Type} {Alloc : Allocator} {Traits : ElementTraits E}.

(** [TArray(TArray&& Other)] *)
Definition move_construct (Other : TArray E) : Result (TArray E * TArray E) :=
  MoveOrCopy (Conv := SameType E) true TArray_default Other 0.

(** [operator=(TArray&& Other)] on two distinct objects; the function has
    an instance when the call of [MoveOrCopy] in its body has one. *)
Definition assign_move (a Other : TArray E) : Result (TArray E * TArray E) :=
  MoveOrCopy_instance (Conv := SameType E) true ;;
  buf <- DestructItems (GetData a) 0 (ArrayNum a) ;;
  MoveOrCopy (Conv := SameType E) true (mkTArray buf (ArrayNum a) (ArrayMax a)) Other (ArrayMax a).

End ArrayMove.

(** *** Constructors, the destructor and the simple functions *)

Section Construction.
Context {E : Type} {Alloc : Allocator} {Traits : ElementTraits E}.

(** [TArray(const FElementType* Ptr, FSizeType Count)]; [Ptr] is [None]
    for the null pointer and the storage it points to otherwise.  The
    constructors that copy give the counters no initializer; [CopyToEmpty]
    assigns both and reads neither. *)
Definition TArray_from_ptr (Ptr : option (Slots E)) (Count : Z) : Result (TArray E) :=
  NexusCheck (match Ptr with Some _ => true | None => false end || (Count =? 0)) ;;
  CopyToEmpty TIsBitwiseConstructible id id TArray_default
    (match Ptr with Some Data => Data | None => [] end) Count 0 0.

(** [TArray(const std::initializer_list<FElementType>& InitList)] *)
Definition TArray_from_list (InitList : list E) : Result (TArray E) :=
  CopyToEmpty TIsBitwiseConstructible id id TArray_default
    (fmap (M:=list) Some InitList) (FSizeType_cast (Z.of_nat (length InitList))) 0 0.

(** [TArray(const TArray& Other)] *)
Definition TArray_copy (Other : TArray E) : Result (TArray E) :=
  CopyToEmpty TIsBitwiseConstructible id id TArray_default (GetData Other) (Num Other) 0 0.

(** [TArray(const TArray<FOtherElementType, FOtherAllocator>& Other)] *)
Definition TArray_convert {S : Type} {Conv : ConstructibleFrom E S} (Other : TArray S)
    : Result (TArray E) :=
  CopyToEmpty TIsBitwiseConstructibleFrom construct_from bitcopy_from TArray_default
    (AllocatorInstance Other) (ArrayNum Other) 0 0.

(** [TArray(TArray<OtherElementType, OtherAllocator>&& Other)] *)
Definition move_convert {S : Type} {Conv : ConstructibleFrom E S} (AllocatorsEqual : bool)
    (Other : TArray S) : Result (TArray E * TArray S) :=
  MoveOrCopy AllocatorsEqual TArray_default Other 0.

(** [~TArray()]: the storage once the destructors of the elements have
    run, before the allocator releases it. *)
Definition TArray_dtor (a : TArray E) : Result (Slots E) :=
  DestructItems (GetData a) 0 (ArrayNum a).

(** [operator!=] *)
Definition operator_ne (Count : Z) (a OtherArray : TArray E) : Result bool :=
  r <- operator_eq Count a OtherArray ;;
  Ok (negb r).

(** [GetTypeSize] *)
Definition GetTypeSize (a : TArray E) : Z := sizeof_E mod 2 ^ 32.

End Construction.

(** *** Sequences of mutating calls *)

Inductive Operation (E : Type) : Type :=
| OpAdd (Item : ItemRef E)
| OpEmplace (v : E)
| OpInsert (Item : ItemRef E) (Index : Z)
| OpRemoveAt (Index : Z)
| OpShrink
| OpAddUninitialized (Count : Z)
| OpInsertUninitialized (Index Count : Z)
| OpRemoveAtImpl (Index Count : Z) (bAllowShrinking : bool)
| OpAssignList (InitList : list E)
| OpAssignCopy (Other : TArray E)
| OpAssignMove (Other : TArray E).

Arguments OpAdd {E} Item.
Arguments OpEmplace {E} v.
Arguments OpInsert {E} Item Index.
Arguments OpRemoveAt {E} Index.
Arguments OpShrink {E}.
Arguments OpAddUninitialized {E} Count.
Arguments OpInsertUninitialized {E} Index Count.
Arguments OpRemoveAtImpl {E} Index Count bAllowShrinking.
Arguments OpAssignList {E} InitList.
Arguments OpAssignCopy {E} Other.
Arguments OpAssignMove {E} Other.

Section Calls.
Context {E : Type} {Alloc : Allocator} {Traits : ElementTraits E}.

(** One call on the array; the value a call returns is dropped. *)
Definition step (op : Operation E) (a : TArray E) : Result (TArray E) :=
  match op with
  | OpAdd Item => r <- Add a Item ;; Ok (snd r)
  | OpEmplace v => r <- Emplace a v ;; Ok (snd r)
  | OpInsert Item Index => r <- Insert a Item Index ;; Ok (snd r)
  | OpRemoveAt Index => RemoveAt a Index
  | OpShrink => Shrink a
  | OpAddUninitialized Count => r <- AddUninitialized a Count ;; Ok (snd r)
  | OpInsertUninitialized Index Count => InsertUninitialized a Index Count
  | OpRemoveAtImpl Index Count bAllowShrinking => RemoveAtImpl a Index Count bAllowShrinking
  | OpAssignList InitList => assign_list a InitList
  | OpAssignCopy Other => assign_copy a Other
  | OpAssignMove Other => r <- assign_move a Other ;; Ok (fst r)
  end.

(** A sequence of calls; the result lists the state after every call. *)
Fixpoint run (ops : list (Operation E)) (a : TArray E) : Result (list (TArray E)) :=
  match ops with
  | [] => Ok []
  | op :: ops' =>
      a' <- step op a ;;
      rest <- run ops' a' ;;
      Ok (a' :: rest)
  end.

End Calls.

End Array.

(** ** Platform math and core constants *)

Definition wrap32 (x : Z) : Z := x mod 2 ^ 32.

(** [~x] on a [uint32]. *)
Definition not32 (x : Z) : Z := wrap32 (Z.lnot x).

Definition NUM_BITS_PER_DWORD : Z := 32.
Definition NUM_BITS_PER_DWORD_LOG_TWO : Z := 5.

(** Modelled from the spec: [FMath::DivideAndRoundUp] ([Math/MathUtility.h]
    is not among the sources), the platform math's "division rounding": the
    exact quotient, rounded up. *)
Definition DivideAndRoundUp (Dividend Divisor : Z) : Z :=
  (Dividend + Divisor - 1) / Divisor.

(** The compiler's [__builtin_ctz] on a non-zero value: the index of the
    lowest set bit. *)
Fixpoint builtin_ctz_from (n : nat) (Value i : Z) : Z :=
  match n with
  | O => i
  | S n' => if Z.testbit Value i then i else builtin_ctz_from n' Value (i + 1)
  end.

(** The compiler's [__builtin_clz] on a non-zero 32-bit value: the number
    of clear bits above the highest set bit. *)
Fixpoint builtin_clz_from (n : nat) (Value k : Z) : Z :=
  match n with
  | O => k
  | S n' => if Z.testbit Value (31 - k) then k else builtin_clz_from n' Value (k + 1)
  end.

(** [FMacPlatformMath::CountTrailingZeros] *)
Definition CountTrailingZeros (Value : Z) : Z :=
  if Value =? 0 then 32 else builtin_ctz_from 32 Value 0.

(** [FMacPlatformMath::CountLeadingZeros] *)
Definition CountLeadingZeros (Value : Z) : Z :=
  if Value =? 0 then 32 else builtin_clz_from 32 Value 0.

(** The compiler's [__builtin_clzll] on a non-zero 64-bit value. *)
Fixpoint builtin_clzll_from (n : nat) (Value k : Z) : Z :=
  match n with
  | O => k
  | S n' => if Z.testbit Value (63 - k) then k else builtin_clzll_from n' Value (k + 1)
  end.

(** [FMacPlatformMath::CountLeadingZeros64] *)
Definition CountLeadingZeros64 (Value : Z) : Z :=
  if Value =? 0 then 64 else builtin_clzll_from 64 Value 0.

(** [FMacPlatformMath::CountTrailingZeros64]; [__builtin_ctzll] is the
    same scan as [__builtin_ctz], over 64 bits. *)
Definition CountTrailingZeros64 (Value : Z) : Z :=
  if Value =? 0 then 64 else builtin_ctz_from 64 Value 0.

(** The constants of [CoreTypes.h] the containers use; the header is not
    among the sources. *)
Class CoreTypes : Type := {
  INVALID_INDEX : Z
}.

(** ** TBitArray *)

Module BitArray.

Record FRelativeBitReference : Type := mkRef {
  DwordIndex : Z;
  Mask : Z
}.

(** [FRelativeBitReference(BitIndex)] *)
Definition FRelativeBitReference_ctor (BitIndex : Z) : FRelativeBitReference :=
  mkRef (Z.shiftr BitIndex NUM_BITS_PER_DWORD_LOG_TWO)
        (wrap32 (Z.shiftl 1 (Z.land BitIndex (NUM_BITS_PER_DWORD - 1)))).

(** [FIterator] and [FConstIterator]: a relative bit reference and the index
    of the bit.  The two classes differ in the constness of the array they
    refer to only. *)
Record FIterator : Type := mkIterator {
  Ref : FRelativeBitReference;
  Index : Z
}.

Abbreviation FConstIterator := FIterator (only parsing).

Definition FIterator_ctor (StartIndex : Z) : FIterator :=
  mkIterator (FRelativeBitReference_ctor StartIndex) StartIndex.

(** [operator++] of the forward iterators. *)
Definition FIterator_incr (it : FIterator) : FIterator :=
  let Index' := wrap32 (Index it + 1) in
  let Mask' := wrap32 (Z.shiftl (Mask (Ref it)) 1) in
  if Mask' =? 0
  then mkIterator (mkRef (wrap32 (DwordIndex (Ref it) + 1)) 1) Index'
  else mkIterator (mkRef (DwordIndex (Ref it)) Mask') Index'.

(** [FBitReference::operator bool], on the word [buf[dword]]. *)
Definition FBitReference_get (buf : Slots Z) (dword mask : Z) : Result bool :=
  w <- load buf dword ;;
  Ok (negb (Z.land w mask =? 0)).

(** [FBitReference::operator=(bool)] *)
Definition FBitReference_assign (buf : Slots Z) (dword mask : Z) (bNewValue : bool)
  : Result (Slots Z) :=
  w <- load buf dword ;;
  store buf dword (if bNewValue then Z.lor w mask else Z.land w (not32 mask)).

(** [FBitReference::operator|=] *)
Definition FBitReference_or_assign (buf : Slots Z) (dword mask : Z) (bNewValue : bool)
  : Result (Slots Z) :=
  if bNewValue then
    w <- load buf dword ;;
    store buf dword (Z.lor w mask)
  else Ok buf.

(** [FBitReference::operator&=] *)
Definition FBitReference_and_assign (buf : Slots Z) (dword mask : Z) (bNewValue : bool)
  : Result (Slots Z) :=
  if negb bNewValue then
    w <- load buf dword ;;
    store buf dword (Z.land w (not32 mask))
  else Ok buf.

(** [FBitReference::operator=(const FBitReference& Copy)]; [Copy] refers to
    the word [CopyData[CopyDword]]. *)
Definition FBitReference_copy_assign (buf : Slots Z) (dword mask : Z)
    (CopyData : Slots Z) (CopyDword CopyMask : Z) : Result (Slots Z) :=
  b <- FBitReference_get CopyData CopyDword CopyMask ;;
  FBitReference_assign buf dword mask b.

(** [FConstBitReference::operator bool] *)
Definition FConstBitReference_get (buf : Slots Z) (dword mask : Z) : Result bool :=
  w <- load buf dword ;;
  Ok (negb (Z.land w mask =? 0)).

(** Conversion of a [uint32] to [int32]. *)
Definition to_int32 (x : Z) : Z := if x <? 2 ^ 31 then x else x - 2 ^ 32.

(** [FConstReverseIterator]: a relative bit reference and the index of the
    bit, an [int32]. *)
Record FConstReverseIterator : Type := mkReverseIterator {
  RRef : FRelativeBitReference;
  RIndex : Z
}.

(** [operator++] of the reverse iterator; stepping below the least
    [int32] is undefined. *)
Definition FConstReverseIterator_incr (it : FConstReverseIterator)
  : Result FConstReverseIterator :=
  if RIndex it =? - 2 ^ 31 then Fail UndefinedBehaviour
  else
    let Index' := RIndex it - 1 in
    let Mask' := Z.shiftr (Mask (RRef it)) 1 in
    if Mask' =? 0
    then Ok (mkReverseIterator
               (mkRef (wrap32 (DwordIndex (RRef it) - 1))
                      (wrap32 (Z.shiftl 1 (NUM_BITS_PER_DWORD - 1))))
               Index')
    else Ok (mkReverseIterator (mkRef (DwordIndex (RRef it)) Mask') Index').

(** [n] applications of [operator++] of the reverse iterator. *)
Fixpoint FConstReverseIterator_advance (n : nat) (it : FConstReverseIterator)
  : Result FConstReverseIterator :=
  match n with
  | O => Ok it
  | S n' =>
      it' <- FConstReverseIterator_incr it ;;
      FConstReverseIterator_advance n' it'
  end.

(** [FConstReverseIterator::operator bool] *)
Definition FConstReverseIterator_valid (it : FConstReverseIterator) : bool :=
  RIndex it >=? 0.

(** [FConstReverseIterator::GetIndex] *)
Definition FConstReverseIterator_GetIndex (it : FConstReverseIterator) : Z := RIndex it.

Record TBitArray : Type := mkTBitArray {
  AllocatorInstance : Slots Z;
  NumBits : Z;
  MaxBits : Z
}.

Section Definitions.
Context {Alloc : Allocator} {Core : CoreTypes}.

Definition GetData (a : TBitArray) : Slots Z := AllocatorInstance a.
Definition Num (a : TBitArray) : Z := NumBits a.

Definition GetAllocatedSize (a : TBitArray) : Z :=
  wrap32 (DivideAndRoundUp (MaxBits a) NUM_BITS_PER_DWORD * 4).

Definition Realloc (a : TBitArray) (PreviousNumBits : Z) : Result TBitArray :=
  let PreviousNumDwords := DivideAndRoundUp PreviousNumBits NUM_BITS_PER_DWORD in
  let MaxDwords := DivideAndRoundUp (MaxBits a) NUM_BITS_PER_DWORD in
  let buf := ResizeAllocation (AllocatorInstance a) PreviousNumDwords MaxDwords in
  if negb (MaxDwords =? 0) then
    buf' <- Memset buf PreviousNumDwords 0 (wrap32 (MaxDwords - PreviousNumDwords)) ;;
    Ok (mkTBitArray buf' (NumBits a) (MaxBits a))
  else Ok (mkTBitArray buf (NumBits a) (MaxBits a)).

Definition Empty (a : TBitArray) (ExpectedNumBits : Z) : Result TBitArray :=
  let a1 := mkTBitArray (AllocatorInstance a) 0 (MaxBits a) in
  let ExpectedNumBits' :=
    wrap32 (DivideAndRoundUp ExpectedNumBits NUM_BITS_PER_DWORD * NUM_BITS_PER_DWORD) in
  if negb (MaxBits a1 =? ExpectedNumBits')
  then Realloc (mkTBitArray (AllocatorInstance a1) (NumBits a1) ExpectedNumBits') 0
  else Ok a1.

Definition Init (a : TBitArray) (bValue : bool) (InNumBits : Z) : Result TBitArray :=
  a1 <- Empty a InNumBits ;;
  if negb (InNumBits =? 0) then
    buf <- Memset (GetData a1) 0 (if bValue then 4294967295 else 0)
             (DivideAndRoundUp InNumBits NUM_BITS_PER_DWORD) ;;
    Ok (mkTBitArray buf InNumBits (MaxBits a1))
  else Ok a1.

(** [TBitArray(const bool Value = false, const uint32 InNumBits = 0)] *)
Definition TBitArray_ctor (Value : bool) (InNumBits : Z) : Result TBitArray :=
  Init (mkTBitArray [] 0 0) Value InNumBits.

Definition Reserve (a : TBitArray) (Number : Z) : Result TBitArray :=
  if Number >? MaxBits a then
    let MaxDwords :=
      wrap32 (CalculateSlackGrow (DivideAndRoundUp Number NUM_BITS_PER_DWORD)
                                 (DivideAndRoundUp (MaxBits a) NUM_BITS_PER_DWORD) 4) in
    Realloc (mkTBitArray (AllocatorInstance a) (NumBits a)
                         (wrap32 (MaxDwords * NUM_BITS_PER_DWORD)))
            (NumBits a)
  else Ok a.

Definition Reset (a : TBitArray) : Result TBitArray :=
  buf <- Memset (GetData a) 0 0 (DivideAndRoundUp (NumBits a) NUM_BITS_PER_DWORD) ;;
  Ok (mkTBitArray buf 0 (MaxBits a)).

(** [operator[]]: the word and the mask of the bit reference. *)
Definition operator_index (a : TBitArray) (Index : Z) : Result (Z * Z) :=
  NexusCheck (Index <? NumBits a) ;;
  Ok (Index / NUM_BITS_PER_DWORD,
      wrap32 (Z.shiftl 1 (Z.land Index (NUM_BITS_PER_DWORD - 1)))).

(** Reading the bit reference of [operator[]] as a [bool]. *)
Definition get_bit (a : TBitArray) (Index : Z) : Result bool :=
  r <- operator_index a Index ;;
  FBitReference_get (GetData a) (fst r) (snd r).

(** Assigning [bValue] through the bit reference of [operator[]]. *)
Definition set_bit (a : TBitArray) (Index : Z) (bValue : bool) : Result TBitArray :=
  r <- operator_index a Index ;;
  buf <- FBitReference_assign (GetData a) (fst r) (snd r) bValue ;;
  Ok (mkTBitArray buf (NumBits a) (MaxBits a)).

Definition Add (a : TBitArray) (bValue : bool) : Result (Z * TBitArray) :=
  let Index := NumBits a in
  a1 <- Reserve a (wrap32 (Index + 1)) ;;
  let a2 := mkTBitArray (AllocatorInstance a1) (wrap32 (NumBits a1 + 1)) (MaxBits a1) in
  a3 <- set_bit a2 Index bValue ;;
  Ok (Index, a3).

Fixpoint AddMany_loop (fuel : nat) (a : TBitArray) (It End : Z) (Value : bool)
    : Result TBitArray :=
  match fuel with
  | O => Fail OutOfFuel
  | S fuel' =>
      if negb (It =? End) then
        a1 <- set_bit a It Value ;;
        AddMany_loop fuel' a1 (wrap32 (It + 1)) End Value
      else Ok a
  end.

(** [Add(const bool Value, uint32 NumToAdd)] *)
Definition AddMany (a : TBitArray) (Value : bool) (NumToAdd : Z) : Result (Z * TBitArray) :=
  let Index := NumBits a in
  a1 <- Reserve a (wrap32 (Index + NumToAdd)) ;;
  let a2 := mkTBitArray (AllocatorInstance a1) (wrap32 (NumBits a1 + NumToAdd)) (MaxBits a1) in
  a3 <- AddMany_loop (S (Z.to_nat NumToAdd)) a2 Index (wrap32 (Index + NumToAdd)) Value ;;
  Ok (Index, a3).

(** The interior loop of [SetRange]: [*Data++ = Fill] while [Count != 0]. *)
Fixpoint SetRange_fill (n : nat) (buf : Slots Z) (Data Fill : Z) : Result (Slots Z * Z) :=
  match n with
  | O => Ok (buf, Data)
  | S n' =>
      buf' <- store buf Data Fill ;;
      SetRange_fill n' buf' (Data + 1) Fill
  end.

Definition SetRange (a : TBitArray) (Index Num : Z) (bValue : bool) : Result TBitArray :=
  NexusCheck (wrap32 (Index + Num) <=? NumBits a) ;;
  if Num =? 0 then Ok a
  else
    let StartIndex := Index / NUM_BITS_PER_DWORD in
    let Count :=
      wrap32 (wrap32 (wrap32 (Index + Num) + (NUM_BITS_PER_DWORD - 1)) / NUM_BITS_PER_DWORD
              - StartIndex) in
    let StartMask := wrap32 (Z.shiftl 4294967295 (Index mod NUM_BITS_PER_DWORD)) in
    let EndMask :=
      Z.shiftr 4294967295
        ((NUM_BITS_PER_DWORD - wrap32 (Index + Num) mod NUM_BITS_PER_DWORD)
         mod NUM_BITS_PER_DWORD) in
    let Data := StartIndex in
    let buf := GetData a in
    buf' <-
      (if bValue then
         if Count =? 1 then
           w <- load buf Data ;;
           store buf Data (Z.lor w (Z.land StartMask EndMask))
         else
           w <- load buf Data ;;
           buf1 <- store buf Data (Z.lor w StartMask) ;;
           r <- SetRange_fill (Z.to_nat (wrap32 (Count - 2))) buf1 (Data + 1) 4294967295 ;;
           w' <- load (fst r) (snd r) ;;
           store (fst r) (snd r) (Z.lor w' EndMask)
       else
         if Count =? 1 then
           w <- load buf Data ;;
           store buf Data (Z.land w (not32 (Z.land StartMask EndMask)))
         else
           w <- load buf Data ;;
           buf1 <- store buf Data (Z.land w (not32 StartMask)) ;;
           r <- SetRange_fill (Z.to_nat (wrap32 (Count - 2))) buf1 (Data + 1) 0 ;;
           w' <- load (fst r) (snd r) ;;
           store (fst r) (snd r) (Z.land w' (not32 EndMask))) ;;
    Ok (mkTBitArray buf' (NumBits a) (MaxBits a)).

(** The loop of [RemoveAt]: [ReadIt] visits every bit, [WriteIt] follows
    with the bits that survive. *)
Fixpoint RemoveAt_loop (fuel : nat) (a : TBitArray) (BaseIndex NumBitsToRemove : Z)
    (WriteIt ReadIt : FIterator) : Result TBitArray :=
  match fuel with
  | O => Fail OutOfFuel
  | S fuel' =>
      if Index ReadIt <? Num a then
        if (Index ReadIt <? BaseIndex)
           || (Index ReadIt >=? wrap32 (BaseIndex + NumBitsToRemove)) then
          a1 <- (if negb (Index WriteIt =? Index ReadIt) then
                   b <- FBitReference_get (GetData a)
                          (DwordIndex (Ref ReadIt)) (Mask (Ref ReadIt)) ;;
                   buf <- FBitReference_assign (GetData a)
                            (DwordIndex (Ref WriteIt)) (Mask (Ref WriteIt)) b ;;
                   Ok (mkTBitArray buf (NumBits a) (MaxBits a))
                 else Ok a) ;;
          RemoveAt_loop fuel' a1 BaseIndex NumBitsToRemove
            (FIterator_incr WriteIt) (FIterator_incr ReadIt)
        else
          RemoveAt_loop fuel' a BaseIndex NumBitsToRemove WriteIt (FIterator_incr ReadIt)
      else Ok a
  end.

Definition RemoveAt (a : TBitArray) (BaseIndex NumBitsToRemove : Z) : Result TBitArray :=
  NexusCheck (wrap32 (BaseIndex + NumBitsToRemove) <=? NumBits a) ;;
  a1 <- (if negb (wrap32 (BaseIndex + NumBitsToRemove) =? NumBits a)
         then RemoveAt_loop (S (Z.to_nat (NumBits a))) a BaseIndex NumBitsToRemove
                (FIterator_ctor 0) (FIterator_ctor 0)
         else Ok a) ;;
  Ok (mkTBitArray (AllocatorInstance a1) (wrap32 (NumBits a1 - NumBitsToRemove)) (MaxBits a1)).

(** The scan of [Find] over whole words. *)
Fixpoint Find_scan (fuel : nat) (DwordArray : Slots Z) (Test DwordCount DwordIndex : Z)
    : Result Z :=
  match fuel with
  | O => Fail OutOfFuel
  | S fuel' =>
      if DwordIndex <? DwordCount then
        w <- load DwordArray DwordIndex ;;
        if w =? Test
        then Find_scan fuel' DwordArray Test DwordCount (wrap32 (DwordIndex + 1))
        else Ok DwordIndex
      else Ok DwordIndex
  end.

(** [Find]; [Assume(Bits != 0)] is a hint to the optimiser, so a run that
    contradicts it is undefined. *)
Definition Find (a : TBitArray) (bValue : bool) : Result Z :=
  let Test := if bValue then 0 else 4294967295 in
  let DwordArray := GetData a in
  let LocalNumBits := NumBits a in
  let DwordCount := DivideAndRoundUp LocalNumBits NUM_BITS_PER_DWORD in
  DwordIndex <- Find_scan (S (Z.to_nat DwordCount)) DwordArray Test DwordCount 0 ;;
  if DwordIndex <? DwordCount then
    w <- load DwordArray DwordIndex ;;
    let Bits := if bValue then w else not32 w in
    if Bits =? 0 then Fail UndefinedBehaviour
    else
      let LowestBitIndex :=
        wrap32 (CountTrailingZeros Bits
                + wrap32 (Z.shiftl DwordIndex NUM_BITS_PER_DWORD_LOG_TWO)) in
      if LowestBitIndex <? LocalNumBits then Ok LowestBitIndex else Ok INVALID_INDEX
  else Ok INVALID_INDEX.

(** The scan of [FindLast]: [None] when the words are exhausted, else the
    word that differs from the test pattern and the mask in force. *)
Fixpoint FindLast_scan (fuel : nat) (DwordArray : Slots Z) (Test DwordIndex Mask : Z)
    : Result (option (Z * Z)) :=
  match fuel with
  | O => Fail OutOfFuel
  | S fuel' =>
      if DwordIndex =? 0 then Ok None
      else
        let DwordIndex' := wrap32 (DwordIndex - 1) in
        w <- load DwordArray DwordIndex' ;;
        if negb (Z.land w Mask =? Z.land Test Mask) then Ok (Some (DwordIndex', Mask))
        else FindLast_scan fuel' DwordArray Test DwordIndex' 4294967295
  end.

(** [FindLast], with the same reading of [Assume]. *)
Definition FindLast (a : TBitArray) (bValue : bool) : Result Z :=
  let LocalNumBits := NumBits a in
  let SlackIndex := wrap32 (wrap32 (LocalNumBits - 1) mod NUM_BITS_PER_DWORD + 1) in
  let Mask := Z.shiftr 4294967295 (wrap32 (NUM_BITS_PER_DWORD - SlackIndex)) in
  let DwordIndex := DivideAndRoundUp LocalNumBits NUM_BITS_PER_DWORD in
  let DwordArray := GetData a in
  let Test := if bValue then 0 else 4294967295 in
  r <- FindLast_scan (S (Z.to_nat DwordIndex)) DwordArray Test DwordIndex Mask ;;
  match r with
  | None => Ok INVALID_INDEX
  | Some (DwordIndex', Mask') =>
      w <- load DwordArray DwordIndex' ;;
      let Bits := Z.land (if bValue then w else not32 w) Mask' in
      if Bits =? 0 then Fail UndefinedBehaviour
      else
        let BitIndex := wrap32 ((NUM_BITS_PER_DWORD - 1) - CountLeadingZeros Bits) in
        Ok (wrap32 (BitIndex + wrap32 (Z.shiftl DwordIndex' NUM_BITS_PER_DWORD_LOG_TWO)))
  end.

Definition Contains (a : TBitArray) (bValue : bool) : Result bool :=
  r <- Find a bValue ;;
  Ok (negb (r =? INVALID_INDEX)).

(** [operator=(const TBitArray& Copy)] on two distinct objects. *)
Definition assign_copy (a Copy : TBitArray) : Result TBitArray :=
  a1 <- Empty a (Num Copy) ;;
  let a2 := mkTBitArray (AllocatorInstance a1) (NumBits Copy) (MaxBits a1) in
  if negb (NumBits a2 =? 0) then
    let NumDwords := DivideAndRoundUp (MaxBits a2) NUM_BITS_PER_DWORD in
    buf <- Memcpy id (GetData a2) (GetData Copy) NumDwords ;;
    Ok (mkTBitArray buf (NumBits a2) (MaxBits a2))
  else Ok a2.

(** The two overloads of [MoveOrCopy], selected by
    [FAllocator::SupportsMove]; the result is the pair of [ToArray] and
    [FromArray] after the call. *)
Definition MoveOrCopy (ToArray FromArray : TBitArray) : Result (TBitArray * TBitArray) :=
  if SupportsMove then
    let '(t, f) := MoveToEmpty id (AllocatorInstance ToArray) (AllocatorInstance FromArray) in
    Ok (mkTBitArray t (NumBits FromArray) (MaxBits FromArray), mkTBitArray f 0 0)
  else
    t <- assign_copy ToArray FromArray ;;
    Ok (t, FromArray).

(** [TBitArray(TBitArray&& Other)]; the constructor gives [NumBits] and
    [MaxBits] no initializer.  The overload of [MoveOrCopy] that moves
    assigns both and reads neither; the one that copies begins with
    [Empty], which reads the indeterminate [MaxBits]. *)
Definition move_construct (Other : TBitArray) : Result (TBitArray * TBitArray) :=
  if SupportsMove then MoveOrCopy (mkTBitArray [] 0 0) Other
  else Fail UndefinedBehaviour.

(** [operator=(TBitArray&& Other)] on two distinct objects. *)
Definition assign_move (a Other : TBitArray) : Result (TBitArray * TBitArray) :=
  MoveOrCopy a Other.

(** [TBitArray(const TBitArray& Copy)] *)
Definition TBitArray_copy (Copy : TBitArray) : Result TBitArray :=
  assign_copy (mkTBitArray [] 0 0) Copy.

(** [operator==] *)
Definition operator_eq (a Other : TBitArray) : Result bool :=
  if negb (Num a =? Num Other) then Ok false
  else
    let NumBytes := wrap32 (DivideAndRoundUp (NumBits a) NUM_BITS_PER_DWORD * 4) in
    r <- Memcmp (GetData a) (GetData Other) NumBytes ;;
    Ok (r =? 0).

(** [operator!=] *)
Definition operator_ne (a Other : TBitArray) : Result bool :=
  r <- operator_eq a Other ;;
  Ok (negb r).

(** [FIterator::operator bool] and [FConstIterator::operator bool] on an
    iterator of the array [a]. *)
Definition FIterator_valid (a : TBitArray) (it : FIterator) : bool :=
  Index it <? Num a.

(** [operator !] of the iterators *)
Definition FIterator_not (a : TBitArray) (it : FIterator) : bool :=
  negb (FIterator_valid a it).

(** [GetIndex] of the forward iterators *)
Definition FIterator_GetIndex (it : FIterator) : Z := Index it.

(** [FConstIterator::GetValue], read as a [bool]. *)
Definition FConstIterator_GetValue (a : TBitArray) (it : FConstIterator) : Result bool :=
  FConstBitReference_get (GetData a) (DwordIndex (Ref it)) (Mask (Ref it)).

(** [FIterator::GetValue], assigned a [bool]. *)
Definition FIterator_SetValue (a : TBitArray) (it : FIterator) (bNewValue : bool)
    : Result TBitArray :=
  buf <- FBitReference_assign (GetData a) (DwordIndex (Ref it)) (Mask (Ref it)) bNewValue ;;
  Ok (mkTBitArray buf (NumBits a) (MaxBits a)).

(** [FConstReverseIterator(InArray)] *)
Definition FConstReverseIterator_ctor (InArray : TBitArray) : FConstReverseIterator :=
  mkReverseIterator (FRelativeBitReference_ctor (wrap32 (Num InArray - 1)))
                    (to_int32 (wrap32 (Num InArray - 1))).

(** [FConstReverseIterator::GetValue], read as a [bool]. *)
Definition FConstReverseIterator_GetValue (a : TBitArray) (it : FConstReverseIterator)
    : Result bool :=
  FConstBitReference_get (GetData a) (DwordIndex (RRef it)) (Mask (RRef it)).

End Definitions.

(** *** Sequences of mutating calls *)

Inductive Operation : Type :=
| OpInit (bValue : bool) (InNumBits : Z)
| OpReserve (Number : Z)
| OpEmpty (ExpectedNumBits : Z)
| OpReset
| OpAdd (bValue : bool)
| OpAddMany (Value : bool) (NumToAdd : Z)
| OpSetBit (Index : Z) (bValue : bool)
| OpSetRange (Index Num : Z) (bValue : bool)
| OpRemoveAt (BaseIndex NumBitsToRemove : Z)
| OpAssignCopy (Copy : TBitArray)
| OpAssignMove (Other : TBitArray).

Section Calls.
Context {Alloc : Allocator}.

(** One call on the bit array; the value a call returns is dropped. *)
Definition step (op : Operation) (a : TBitArray) : Result TBitArray :=
  match op with
  | OpInit bValue InNumBits => Init a bValue InNumBits
  | OpReserve Number => Reserve a Number
  | OpEmpty ExpectedNumBits => Empty a ExpectedNumBits
  | OpReset => Reset a
  | OpAdd bValue => r <- Add a bValue ;; Ok (snd r)
  | OpAddMany Value NumToAdd => r <- AddMany a Value NumToAdd ;; Ok (snd r)
  | OpSetBit Index bValue => set_bit a Index bValue
  | OpSetRange Index Num bValue => SetRange a Index Num bValue
  | OpRemoveAt BaseIndex NumBitsToRemove => RemoveAt a BaseIndex NumBitsToRemove
  | OpAssignCopy Copy => assign_copy a Copy
  | OpAssignMove Other => r <- assign_move a Other ;; Ok (fst r)
  end.

(** A sequence of calls; the result lists the state after every call. *)
Fixpoint run (ops : list Operation) (a : TBitArray) : Result (list TBitArray) :=
  match ops with
  | [] => Ok []
  | op :: ops' =>
      a' <- step op a ;;
      rest <- run ops' a' ;;
      Ok (a' :: rest)
  end.

End Calls.

End BitArray.

(** ** States the properties speak of *)

(** A well-formed array: the counters are in order, the allocation has
    [ArrayMax] slots and the first [ArrayNum] of them hold objects. *)
Record WellFormed {E : Type} (a : Array.TArray E) : Prop := {
  wf_bounds : 0 <= Array.ArrayNum a <= Array.ArrayMax a;
  wf_alloc : Z.of_nat (length (Array.AllocatorInstance a)) = Array.ArrayMax a;
  wf_live : forall i, 0 <= i < Array.ArrayNum a ->
              exists v, Array.AllocatorInstance a !! Z.to_nat i = Some (Some v)
}.

(** A well-formed bit array: the counters are [uint32] values in order,
    [MaxBits] is a whole number of words and the allocation has that many
    words. *)
Record BitWellFormed (b : BitArray.TBitArray) : Prop := {
  bwf_bounds : 0 <= BitArray.NumBits b <= BitArray.MaxBits b;
  bwf_words : BitArray.MaxBits b mod 32 = 0;
  bwf_uint32 : BitArray.MaxBits b < 2 ^ 32;
  bwf_alloc : Z.of_nat (length (BitArray.AllocatorInstance b)) = BitArray.MaxBits b / 32
}.

(** The growth policy answers with room for the requested length. *)
Definition GrowthCovers {Alloc : Allocator} : Prop :=
  forall NumElements NumAllocated BytesPerElement,
    NumElements <= CalculateSlackGrow NumElements NumAllocated BytesPerElement.

(** The growth policy, asked for a number of words whose bits a [uint32]
    counts, answers with such a number. *)
Definition GrowthWithinBits {Alloc : Allocator} : Prop :=
  forall NumElements NumAllocated,
    NumElements < 2 ^ 27 -> CalculateSlackGrow NumElements NumAllocated 4 < 2 ^ 27.

(** The shrink policy answers with room for the elements in use. *)
Definition ShrinkCovers {Alloc : Allocator} : Prop :=
  forall NumElements NumAllocated BytesPerElement,
    NumElements <= CalculateSlackShrink NumElements NumAllocated BytesPerElement.

(** The array holds exactly the objects [xs], in order. *)
Definition Holds {E : Type} (a : Array.TArray E) (xs : list E) : Prop :=
  Array.ArrayNum a = Z.of_nat (length xs) /\
  forall (k : nat) (x : E), xs !! k = Some x -> Array.AllocatorInstance a !! k = Some (Some x).

(** The invariant of [CheckInvariants]. *)
Definition CountersInOrder {E : Type} (a : Array.TArray E) : Prop :=
  0 <= Array.ArrayNum a <= Array.ArrayMax a.

(** The allocation of a bit array agrees with [MaxBits], whatever [NumBits]
    is. *)
Definition AllocationMatches (b : BitArray.TBitArray) : Prop :=
  BitArray.MaxBits b mod 32 = 0 /\ 0 <= BitArray.MaxBits b < 2 ^ 32 /\
  Z.of_nat (length (BitArray.AllocatorInstance b)) = BitArray.MaxBits b / 32.

(** The value of bit [i] of a word allocation, when its word holds a
    value. *)
Definition bit_at (d : Slots Z) (i : Z) : option bool :=
  match d !! Z.to_nat (i / 32) with
  | Some (Some w) => Some (Z.testbit w (i mod 32))
  | _ => None
  end.

(** An iterator that stands at bit [i]. *)
Definition IteratorAt (it : BitArray.FIterator) (i : Z) : Prop :=
  BitArray.Index it = i /\
  BitArray.DwordIndex (BitArray.Ref it) = i / 32 /\
  BitArray.Mask (BitArray.Ref it) = 2 ^ (i mod 32).

(** The bits of a bit array all have values. *)
Definition BitsInitialised (a : BitArray.TBitArray) : Prop :=
  forall i, 0 <= i < BitArray.NumBits a ->
    exists b, bit_at (BitArray.AllocatorInstance a) i = Some b.

(** Every slot of the allocation holds a value. *)
Definition AllSet {T : Type} (buf : Slots T) : Prop :=
  forall j : nat, (j < length buf)%nat -> exists w, buf !! j = Some (Some w).

(** Every word of the bit array's allocation holds a value. *)
Definition WordsSet (b : BitArray.TBitArray) : Prop :=
  AllSet (BitArray.AllocatorInstance b).

(** Where the write iterator of [RemoveAt(B, C)] stands when the read
    iterator stands at [r]. *)
Definition write_position (B C r : Z) : Z :=
  if r <=? B then r else if r <? B + C then B else r - C.

(** The bit of the original array that [RemoveAt(B, C)] brings to [i]. *)
Definition source_bit (B C i : Z) : Z := if i <? B then i else i + C.

(** The allocation of [RemoveAt(B, C)] on [d0] with [N] bits when the read
    iterator stands at [r]: the bits below the write position are in place,
    the bits from [r] on are untouched, every bit still has a value. *)
Definition Compacted (d0 : Slots Z) (N B C : Z) (d : Slots Z) (r : Z) : Prop :=
  (forall i, 0 <= i < write_position B C r -> bit_at d i = bit_at d0 (source_bit B C i)) /\
  (forall i, r <= i -> bit_at d i = bit_at d0 i) /\
  (forall i, 0 <= i < N -> exists b, bit_at d i = Some b).

(** The arguments of a call on an array: another array that is handed in
    has its counters in order. *)
Definition ArrayCallInRange {E : Type} (op : Array.Operation E) : Prop :=
  match op with
  | Array.OpAssignCopy Other | Array.OpAssignMove Other =>
      0 <= Array.ArrayNum Other <= Array.ArrayMax Other
  | _ => True
  end.

(** The arguments of a call on a bit array: [uint32] values; at most the
    largest capacity, [2^32 - 32] bits, for [Init] and [Reserve]; a removed
    range whose end does not wrap around; another bit array that is handed
    in is well formed. *)
Definition BitCallInRange (op : BitArray.Operation) : Prop :=
  match op with
  | BitArray.OpEmpty n | BitArray.OpAddMany _ n => 0 <= n < 2 ^ 32
  | BitArray.OpInit _ n | BitArray.OpReserve n => 0 <= n <= 2 ^ 32 - 32
  | BitArray.OpSetBit i _ => 0 <= i < 2 ^ 32
  | BitArray.OpSetRange i n _ => 0 <= i < 2 ^ 32 /\ 0 <= n < 2 ^ 32
  | BitArray.OpRemoveAt i n => 0 <= i /\ 0 <= n /\ i + n < 2 ^ 32
  | BitArray.OpAssignCopy Other | BitArray.OpAssignMove Other => BitWellFormed Other
  | BitArray.OpReset | BitArray.OpAdd _ => True
  end.

(** The bit arrays that a call receives have their words set. *)
Definition BitOperandsSet (op : BitArray.Operation) : Prop :=
  match op with
  | BitArray.OpAssignCopy Other | BitArray.OpAssignMove Other => WordsSet Other
  | _ => True
  end.

(** The reverse iterator that stands at bit [i]. *)
Definition ReverseIteratorAt (it : BitArray.FConstReverseIterator) (i : Z) : Prop :=
  BitArray.RIndex it = i /\
  BitArray.DwordIndex (BitArray.RRef it) = i / 32 /\
  BitArray.Mask (BitArray.RRef it) = 2 ^ (i mod 32).

(** A word through a mask: the masked bits set, or cleared. *)
Definition masked (v : bool) (w mask : Z) : Z :=
  if v then Z.lor w mask else Z.land w (not32 mask).

(** The words that the two branches of [SetRange] write: the first word
    through the start mask, the last through the end mask (one word through
    both), the words between as a whole. *)
Definition SetRange_word (v : bool) (First Count StartMask EndMask j w : Z) : Z :=
  if Count =? 1 then
    if j =? First then masked v w (Z.land StartMask EndMask) else w
  else if j =? First then masked v w StartMask
  else if j =? First + Count - 1 then masked v w EndMask
  else if (First <? j) && (j <? First + Count - 1) then (if v then 4294967295 else 0)
  else w.

(** The words of an allocation are [uint32] values. *)
Definition WordsAreUint32 (d : Slots Z) : Prop :=
  forall (j : nat) (w : Z), d !! j = Some (Some w) -> 0 <= w < 2 ^ 32.

(** The bits of a word that have the value [v]: what [Find] and [FindLast]
    call [Bits], before masking. *)
Definition bits_with_value (v : bool) (w : Z) : Z := if v then w else not32 w.

(** The mask that [FindLast] applies to word [j] of [n]: the slack mask
    to the last word, every bit to the others. *)
Definition FindLast_mask (n SlackMask j : Z) : Z :=
  if j =? n - 1 then SlackMask else 4294967295.

(** The words of the bit arrays that a call receives are [uint32] values. *)
Definition BitOperandsUint32 (op : BitArray.Operation) : Prop :=
  match op with
  | BitArray.OpAssignCopy Other | BitArray.OpAssignMove Other =>
      WordsAreUint32 (BitArray.AllocatorInstance Other)
  | _ => True
  end.

(** A slot that holds no word, or a [uint32]. *)
Definition uint32_slot (o : option Z) : Prop :=
  match o with Some w => 0 <= w < 2 ^ 32 | None => True end.

(** ** Instances for concrete runs *)

(** An allocator with 32-bit signed sizes that doubles on growth, up to
    [2^27 - 1] elements, and never shrinks. *)
Definition DoublingAllocator : Allocator :=
  {| FSizeType_Max := 2147483647;
     CalculateSlackGrow := fun NumElements NumAllocated _ =>
       Z.max NumElements (Z.min (2 * NumAllocated) 134217727);
     CalculateSlackShrink := fun _ NumAllocated _ => NumAllocated;
     RequireRangeCheck := true;
     SupportsMove := true |}.

(** Elements whose value is a 32-bit integer: [int32] itself when both
    flags are set, a class around one otherwise.  [relocatable] is
    [TIsBitwiseRelocatable] and [trivial] stands for the other traits. *)
Definition Int32Elements (relocatable trivial : bool) : ElementTraits Z :=
  {| sizeof_E := 4;
     TIsTriviallyDestructible := trivial;
     TIsBitwiseConstructible := trivial;
     TIsBitwiseRelocatable := relocatable;
     IsBytewiseComparable := trivial;
     op_eq := Z.eqb;
     object_bytes := fun v => [wrap32 v mod 256; wrap32 v / 256 mod 256;
                               wrap32 v / 65536 mod 256; wrap32 v / 16777216] |}.

(** Booleans converted to 32-bit integers, by a constructor that is not a
    copy of the bytes. *)
Definition BoolToInt32 : ConstructibleFrom Z bool :=
  {| construct_from := fun b : bool => if b then 1 else 0;
     bitcopy_from := fun b : bool => if b then 1 else 0;
     TIsBitwiseConstructibleFrom := false;
     TAreTypesEqual := false |}.

(** The bit array of the 40-bit scenario, after construction and after
    [SetRange(5, 10, true)]. *)
Definition forty_bits : BitArray.TBitArray :=
  BitArray.mkTBitArray [Some 0; Some 0] 40 64.
Definition forty_bits_set : BitArray.TBitArray :=
  BitArray.mkTBitArray [Some 32736; Some 0] 40 64.

(** [INVALID_INDEX] as the all-ones [uint32]. *)
Definition AllOnesInvalidIndex : CoreTypes := {| INVALID_INDEX := 4294967295 |}.

(** * Properties *)

(** ** Results and storage *)

Lemma Result_bind_Ok {A B : Type} (m : Result A) (k : A -> Result B) (b : B) :
  Result_bind m k = Ok b -> exists a, m = Ok a /\ k a = Ok b.
Proof. destruct m as [a|e]; simpl; [eauto | discriminate]. Qed.

Lemma NexusCheck_true (c : bool) (u : unit) : NexusCheck c = Ok u -> c = true.
Proof. destruct c; simpl; congruence. Qed.

(** Inversion of a successful run: every bind on the way is opened. *)
Ltac inv_ok H :=
  repeat match type of H with
  | Result_bind _ _ = Ok _ =>
      let a := fresh "r" in
      let H1 := fresh "Hr" in
      apply Result_bind_Ok in H; destruct H as (a & H1 & H)
  | Fail _ = Ok _ => discriminate H
  end.

Lemma in_bounds_true {T : Type} (buf : list T) (off n : Z) :
  in_bounds buf off n = true <-> 0 <= off /\ 0 <= n /\ off + n <= Z.of_nat (length buf).
Proof. unfold in_bounds. rewrite !andb_true_iff, !Z.leb_le. tauto. Qed.

Lemma load_Ok {T : Type} (buf : Slots T) (i : Z) (v : T) :
  load buf i = Ok v <-> 0 <= i /\ buf !! Z.to_nat i = Some (Some v).
Proof.
  unfold load. destruct (in_bounds buf i 1) eqn:Hb.
  - apply in_bounds_true in Hb.
    destruct (buf !! Z.to_nat i) as [[w|]|] eqn:Hl; split; intros Hx.
    all: try discriminate Hx.
    all: try (destruct Hx; congruence).
    injection Hx as ->. split; [lia | reflexivity].
  - split; [discriminate|]. intros [Hi Hl].
    apply lookup_lt_Some in Hl.
    assert (in_bounds buf i 1 = true) by (apply in_bounds_true; lia).
    congruence.
Qed.

Lemma store_Ok {T : Type} (buf buf' : Slots T) (i : Z) (v : T) :
  store buf i v = Ok buf' <->
  0 <= i < Z.of_nat (length buf) /\ buf' = <[Z.to_nat i := Some v]> buf.
Proof.
  unfold store. destruct (in_bounds buf i 1) eqn:Hb.
  - apply in_bounds_true in Hb. split.
    + intros Hx. injection Hx as <-. split; [lia | reflexivity].
    + intros [_ ->]. reflexivity.
  - split; [discriminate|]. intros [Hi _].
    assert (in_bounds buf i 1 = true) by (apply in_bounds_true; lia).
    congruence.
Qed.

Lemma store_length {T : Type} (buf buf' : Slots T) (i : Z) (v : T) :
  store buf i v = Ok buf' -> length buf' = length buf.
Proof. intros Hs. apply store_Ok in Hs as [_ ->]. apply length_insert. Qed.

Lemma ResizeAllocation_length {T : Type} (buf : Slots T) (p n : Z) :
  length (ResizeAllocation buf p n) = Z.to_nat n.
Proof. unfold ResizeAllocation. apply length_resize. Qed.

Lemma ResizeAllocation_lookup {T : Type} (buf : Slots T) (p n : Z) (i : nat) :
  (i < Z.to_nat p)%nat -> (i < Z.to_nat n)%nat -> (i < length buf)%nat ->
  ResizeAllocation buf p n !! i = buf !! i.
Proof.
  intros Hp Hn Hl. unfold ResizeAllocation.
  rewrite lookup_resize by (rewrite ?length_take; lia).
  apply lookup_take_lt. lia.
Qed.

Lemma Memmove_Ok {T : Type} (buf : Slots T) (dst src n : Z) :
  0 <= dst -> 0 <= src -> 0 <= n ->
  dst + n <= Z.of_nat (length buf) -> src + n <= Z.of_nat (length buf) ->
  exists buf', Memmove buf dst src n = Ok buf' /\
    length buf' = length buf /\
    (forall j, 0 <= j ->
       buf' !! Z.to_nat j
       = if (dst <=? j) && (j <? dst + n) then buf !! Z.to_nat (j - dst + src)
         else buf !! Z.to_nat j).
Proof.
  intros Hd Hs Hn Hdl Hsl. unfold Memmove.
  destruct (Z.eqb_spec n 0) as [->|Hne].
  - exists buf. repeat split. intros j Hj.
    destruct (Z.leb_spec dst j), (Z.ltb_spec j (dst + 0)); cbn [andb]; try reflexivity; lia.
  - assert (Hb1 : in_bounds buf dst n = true) by (apply in_bounds_true; lia).
    assert (Hb2 : in_bounds buf src n = true) by (apply in_bounds_true; lia).
    rewrite Hb1, Hb2. cbn [andb]. eexists. split; [reflexivity|]. split.
    + apply length_inserts.
    + intros j Hj.
      assert (Hk : length (take (Z.to_nat n) (drop (Z.to_nat src) buf)) = Z.to_nat n)
        by (rewrite length_take, length_drop; lia).
      destruct (Z.leb_spec dst j), (Z.ltb_spec j (dst + n)); cbn [andb].
      * rewrite list_lookup_inserts by (rewrite ?Hk; lia).
        rewrite lookup_take_lt by lia. rewrite lookup_drop. f_equal. lia.
      * apply list_lookup_inserts_ge. rewrite Hk. lia.
      * apply list_lookup_inserts_lt. lia.
      * apply list_lookup_inserts_lt. lia.
Qed.

(** ** uint32 arithmetic *)

Lemma wrap32_small (x : Z) : 0 <= x < 2 ^ 32 -> wrap32 x = x.
Proof. intros Hx. unfold wrap32. apply Z.mod_small. exact Hx. Qed.

(** ** The concrete bit-range scenario *)

Section BitArrayScenario.
Context {Core : CoreTypes}.
Import BitArray.

(** C5: a bit array of 40 bits, all false, after [SetRange(5, 10, true)]:
    the bits of [5, 15) read true, every other bit below 40 reads false,
    [Find(true)] is 5 and [FindLast(true)] is 14. *)
Theorem scenario_SetRange_Find :
  TBitArray_ctor false 40 = Ok forty_bits /\
  SetRange forty_bits 5 10 true = Ok forty_bits_set /\
  (forall i, 5 <= i < 15 -> get_bit forty_bits_set i = Ok true) /\
  (forall i, 0 <= i < 40 -> ~ (5 <= i < 15) -> get_bit forty_bits_set i = Ok false) /\
  Find forty_bits_set true = Ok 5 /\
  FindLast forty_bits_set true = Ok 14.
Proof.
  assert (Hall : Forall (fun i => get_bit forty_bits_set i
                                  = Ok ((5 <=? i) && (i <? 15))) (seqZ 0 40)).
  { repeat (constructor; [vm_compute; reflexivity|]). constructor. }
  rewrite Forall_forall in Hall.
  split; [vm_compute; reflexivity|].
  split; [vm_compute; reflexivity|].
  split; [|split; [|split; vm_compute; reflexivity]].
  - intros i Hi. rewrite Hall by (apply elem_of_seqZ; lia).
    f_equal. apply andb_true_iff. split; [apply Z.leb_le | apply Z.ltb_lt]; lia.
  - intros i Hi Hn. rewrite Hall by (apply elem_of_seqZ; lia).
    f_equal. apply andb_false_iff.
    destruct (Z.le_gt_cases 5 i); [right; apply Z.ltb_ge | left; apply Z.leb_gt]; lia.
Qed.
End BitArrayScenario.

(** ** Calls that change nothing *)

Section NoOps.
Context {E : Type} {Alloc : Allocator} {Traits : ElementTraits E}.

(** C9, as amended: [RemoveAtImpl] with a zero count returns the array
    as it is, for every state and index; [SetRange] with a zero count does
    so when the index is at most [NumBits] (its range check comes first);
    [Shrink] does so when the capacity equals a non-negative length. *)
Theorem zero_count_and_minimal_calls_change_nothing :
  (forall (a : Array.TArray E) (Index : Z) (bAllowShrinking : bool),
      Array.RemoveAtImpl a Index 0 bAllowShrinking = Ok a) /\
  (forall (b : BitArray.TBitArray) (Index : Z) (bValue : bool),
      0 <= Index < 2 ^ 32 -> Index <= BitArray.NumBits b ->
      BitArray.SetRange b Index 0 bValue = Ok b) /\
  (forall (a : Array.TArray E),
      0 <= Array.ArrayNum a -> Array.ArrayMax a = Array.ArrayNum a ->
      Array.Shrink a = Ok a).
Proof.
  split; [|split].
  - intros a Index b. reflexivity.
  - intros b Index v Hr Hle. unfold BitArray.SetRange.
    rewrite Z.add_0_r, wrap32_small by exact Hr.
    apply Z.leb_le in Hle. rewrite Hle. reflexivity.
  - intros a Hnum Hmax. unfold Array.Shrink, Array.CheckInvariants.
    rewrite Hmax.
    replace (Array.ArrayNum a >=? 0) with true by (symmetry; apply Z.geb_le; lia).
    replace (Array.ArrayNum a >=? Array.ArrayNum a) with true
      by (symmetry; apply Z.geb_le; lia).
    simpl. rewrite Z.eqb_refl. reflexivity.
Qed.
End NoOps.

(** C9 as stated fails: on the empty bit array [SetRange(1, 0, true)] stops
    in the range check. *)
Lemma SetRange_zero_count_past_end_asserts :
  BitArray.SetRange (BitArray.mkTBitArray [] 0 0) 1 0 true = Fail AssertionFailed /\
  BitArray.SetRange (BitArray.mkTBitArray [] 0 0) 1 0 true
    <> Ok (BitArray.mkTBitArray [] 0 0).
Proof. split; [reflexivity | discriminate]. Qed.

(** ** Suffix removal from a bit array *)

Section SuffixRemoval.
Import BitArray.

(** C10: removing a suffix ([BaseIndex + NumBitsToRemove = NumBits])
    leaves the allocation as it is and lowers [NumBits] by the count;
    every bit below the new [NumBits] reads as before. *)
Theorem RemoveAt_suffix_only_shrinks (a : TBitArray) (BaseIndex NumBitsToRemove : Z) :
  0 <= BaseIndex -> 0 <= NumBitsToRemove -> NumBits a < 2 ^ 32 ->
  BaseIndex + NumBitsToRemove = NumBits a ->
  RemoveAt a BaseIndex NumBitsToRemove
    = Ok (mkTBitArray (AllocatorInstance a) (NumBits a - NumBitsToRemove) (MaxBits a)) /\
  forall i, 0 <= i < NumBits a - NumBitsToRemove ->
    get_bit (mkTBitArray (AllocatorInstance a) (NumBits a - NumBitsToRemove) (MaxBits a)) i
    = get_bit a i.
Proof.
  intros Hb Hn Hlt Hsum. split.
  - unfold RemoveAt. rewrite Hsum.
    rewrite (wrap32_small (NumBits a)) by lia.
    rewrite Z.leb_refl, Z.eqb_refl. simpl.
    rewrite wrap32_small by lia. reflexivity.
  - intros i Hi. unfold get_bit, operator_index. simpl.
    replace (i <? NumBits a - NumBitsToRemove) with true by (symmetry; apply Z.ltb_lt; lia).
    replace (i <? NumBits a) with true by (symmetry; apply Z.ltb_lt; lia).
    reflexivity.
Qed.
End SuffixRemoval.

(** ** Ranges of items *)

Section ArrayFacts.
Context {E : Type} {Alloc : Allocator} {Traits : ElementTraits E}.
Import Array.

Lemma DestructItems_loop_Ok (n : nat) : forall (buf : Slots E) (i : Z),
  0 <= i -> i + Z.of_nat n <= Z.of_nat (length buf) ->
  (forall j, i <= j < i + Z.of_nat n -> exists v, buf !! Z.to_nat j = Some (Some v)) ->
  exists buf', DestructItems_loop n buf i = Ok buf' /\
    length buf' = length buf /\
    (forall j, 0 <= j -> ~ (i <= j < i + Z.of_nat n) -> buf' !! Z.to_nat j = buf !! Z.to_nat j).
Proof.
  induction n as [|n IH]; intros buf i Hi Hlen Hlive.
  - exists buf. simpl. auto.
  - cbn [DestructItems_loop].
    destruct (Hlive i) as [v Hv]; [lia|].
    assert (Hld : load buf i = Ok v) by (apply load_Ok; auto).
    rewrite Hld. cbn [Result_bind].
    destruct (IH (<[Z.to_nat i := None]> buf) (i + 1)) as (buf' & Hrun & Hl & Hrest).
    + lia.
    + rewrite length_insert. lia.
    + intros j Hj. destruct (Hlive j) as [w Hw]; [lia|].
      exists w. rewrite list_lookup_insert_ne by lia. exact Hw.
    + exists buf'. split; [exact Hrun|]. split.
      * rewrite Hl. apply length_insert.
      * intros j Hj0 Hj. rewrite Hrest by lia.
        apply list_lookup_insert_ne. lia.
Qed.

Lemma DestructItems_live (a : TArray E) :
  WellFormed a ->
  exists buf, DestructItems (GetData a) 0 (ArrayNum a) = Ok buf /\
              length buf = length (AllocatorInstance a).
Proof.
  intros [Hb Ha Hl]. unfold DestructItems.
  destruct TIsTriviallyDestructible; [eauto|].
  replace (ArrayNum a <? 0) with false by (symmetry; apply Z.ltb_ge; lia).
  destruct (DestructItems_loop_Ok (Z.to_nat (ArrayNum a)) (GetData a) 0)
    as (buf & Hrun & Hlen & _).
  - lia.
  - unfold GetData. lia.
  - intros j Hj. apply Hl. lia.
  - eauto.
Qed.
End ArrayFacts.

Section CopyFacts.
Context {E S : Type} {Alloc : Allocator} {Traits : ElementTraits E}.
Import Array.

Lemma ConstructItems_loop_Ok (ctor : S -> E) (n : nat) :
  forall (Dest : Slots E) (d : Z) (Source : Slots S) (s : Z),
  0 <= d -> 0 <= s -> d + Z.of_nat n <= Z.of_nat (length Dest) ->
  (forall k, 0 <= k < Z.of_nat n -> exists v, Source !! Z.to_nat (s + k) = Some (Some v)) ->
  exists Dest', ConstructItems_loop ctor n Dest d Source s = Ok Dest' /\
    length Dest' = length Dest /\
    (forall k v, 0 <= k < Z.of_nat n -> Source !! Z.to_nat (s + k) = Some (Some v) ->
                 Dest' !! Z.to_nat (d + k) = Some (Some (ctor v))) /\
    (forall j, 0 <= j -> ~ (d <= j < d + Z.of_nat n) -> Dest' !! Z.to_nat j = Dest !! Z.to_nat j).
Proof.
  induction n as [|n IH]; intros Dest d Source s Hd Hs Hlen Hsrc.
  - exists Dest. cbn. repeat split; auto. intros; lia.
  - cbn [ConstructItems_loop].
    destruct (Hsrc 0) as [v0 Hv0]; [lia|]. rewrite Z.add_0_r in Hv0.
    assert (Hld : load Source s = Ok v0) by (apply load_Ok; auto).
    rewrite Hld. cbn [Result_bind].
    assert (Hst : store Dest d (ctor v0) = Ok (<[Z.to_nat d := Some (ctor v0)]> Dest))
      by (apply store_Ok; split; [lia | reflexivity]).
    rewrite Hst. cbn [Result_bind].
    destruct (IH (<[Z.to_nat d := Some (ctor v0)]> Dest) (d + 1) Source (s + 1))
      as (Dest' & Hrun & Hl & Hcopied & Hrest).
    + lia.
    + lia.
    + rewrite length_insert. lia.
    + intros k Hk. destruct (Hsrc (k + 1)) as [v Hv]; [lia|].
      exists v. rewrite <- Hv. f_equal. lia.
    + exists Dest'. split; [exact Hrun|]. split; [|split].
      * rewrite Hl. apply length_insert.
      * intros k v Hk Hv.
        destruct (Z.eq_dec k 0) as [->|Hk0].
        -- rewrite Z.add_0_r in *. rewrite Hrest by lia.
           rewrite list_lookup_insert_eq by lia. congruence.
        -- replace (d + k) with (d + 1 + (k - 1)) by lia.
           apply Hcopied; [lia|]. rewrite <- Hv. f_equal. lia.
      * intros j Hj0 Hj. rewrite Hrest by lia.
        apply list_lookup_insert_ne. lia.
Qed.

Lemma ConstructItems_Ok (bitwise : bool) (ctor bits : S -> E) (Dest : Slots E)
    (Source : Slots S) (Count : Z) :
  0 <= Count -> Count <= Z.of_nat (length Dest) -> Count <= Z.of_nat (length Source) ->
  (forall k, 0 <= k < Count -> exists v, Source !! Z.to_nat k = Some (Some v)) ->
  exists Dest', ConstructItems bitwise ctor bits Dest Source Count = Ok Dest' /\
    length Dest' = length Dest /\
    (forall k v, 0 <= k < Count -> Source !! Z.to_nat k = Some (Some v) ->
       Dest' !! Z.to_nat k = Some (Some ((if bitwise then bits else ctor) v))).
Proof.
  intros Hc Hd Hs Hlive. unfold ConstructItems.
  replace (Count <? 0) with false by (symmetry; apply Z.ltb_ge; lia).
  destruct bitwise.
  - unfold Memcpy. destruct (Z.eqb_spec Count 0) as [->|Hne].
    + exists Dest. repeat split. intros; lia.
    + assert (Hin1 : in_bounds Dest 0 Count = true) by (apply in_bounds_true; lia).
      assert (Hin2 : in_bounds Source 0 Count = true) by (apply in_bounds_true; lia).
      rewrite Hin1, Hin2. cbn [andb]. eexists. split; [reflexivity|]. split.
      * apply length_inserts.
      * intros k v Hk Hv.
        rewrite list_lookup_inserts
          by (rewrite ?length_fmap, ?length_take; lia).
        rewrite Nat.sub_0_r, list_lookup_fmap, lookup_take_lt by lia.
        rewrite Hv. reflexivity.
  - destruct (ConstructItems_loop_Ok ctor (Z.to_nat Count) Dest 0 Source 0)
      as (Dest' & Hrun & Hl & Hcopied & _).
    + lia.
    + lia.
    + lia.
    + intros k Hk. apply Hlive. lia.
    + exists Dest'. split; [exact Hrun|]. split; [exact Hl|].
      intros k v Hk Hv. apply (Hcopied k v); [lia | exact Hv].
Qed.
End CopyFacts.


(** ** Moves *)

Section ArrayMoves.
Context {E S : Type} {Alloc : Allocator} {Traits : ElementTraits E}
  {Conv : ConstructibleFrom E S}.
Import Array.

(** C7: no move of a [TArray] leaves its source empty, because none has an
    instance: [TCanMoveTArrayPointersBetweenArrayTypes] names the members
    [FAllocator] and [FElementType] of the array types, [TArray] declares
    neither, and both overloads of [MoveOrCopy] instantiate the trait.  So
    the move constructor and the move assignment of [TArray] are ill-formed,
    whatever the arrays. *)
Theorem TArray_moves_have_no_instance :
  TCanMoveTArrayPointersBetweenArrayTypes (Conv := SameType E)
    TArray_aliases TArray_aliases true = None /\
  (forall Other : TArray E, move_construct Other = Fail IllFormed) /\
  (forall a Other : TArray E, assign_move a Other = Fail IllFormed).
Proof.
  split; [reflexivity|]. split.
  - intros Other. reflexivity.
  - intros a Other. reflexivity.
Qed.

(** C8: a move between [TArray]s that cannot hand the buffer over does not
    fall back to a copy: the overload of [MoveOrCopy] that copies is selected
    through [TCanMoveTArrayPointersBetweenArrayTypes], which has no instance
    for two [TArray]s, whatever their allocators and element types, so the
    call in the converting move constructor is ill-formed and nothing is
    copied. *)
Theorem TArray_move_never_reaches_the_copy
    (AllocatorsEqual : bool) (ToArray : TArray E) (FromArray : TArray S) (PrevMax : Z) :
  TCanMoveTArrayPointersBetweenArrayTypes TArray_aliases TArray_aliases AllocatorsEqual
    = None /\
  MoveOrCopy AllocatorsEqual ToArray FromArray PrevMax = Fail IllFormed /\
  move_convert (E := E) AllocatorsEqual FromArray = Fail IllFormed.
Proof. repeat split. Qed.

(** With both aliases declared by the two array types the trait has an
    instance, and its value is the one the comments of the source give:
    equal allocators, and element types that are equal or bitwise
    constructible. *)
Lemma TCanMoveTArrayPointersBetweenArrayTypes_declared (AllocatorsEqual : bool) :
  TCanMoveTArrayPointersBetweenArrayTypes (mkMemberAliases true true)
    (mkMemberAliases true true) AllocatorsEqual
  = Some (AllocatorsEqual && (TAreTypesEqual || TIsBitwiseConstructibleFrom)).
Proof. reflexivity. Qed.

(** The body of the overload that moves leaves the source in the state of
    a default-constructed array. *)
Lemma MoveOrCopy_move_empties_the_source
    (ToArray : TArray E) (FromArray : TArray S) (PrevMax : Z) :
  snd (MoveOrCopy_move ToArray FromArray PrevMax) = TArray_default /\
  ArrayNum (fst (MoveOrCopy_move ToArray FromArray PrevMax)) = ArrayNum FromArray /\
  ArrayMax (fst (MoveOrCopy_move ToArray FromArray PrevMax)) = ArrayMax FromArray.
Proof. repeat split. Qed.

(** The body of the overload that copies returns with a copy of every
    element of the source's live range in the destination and leaves the
    source array as it was. *)
Theorem MoveOrCopy_copy_copies_the_live_range
    (ToArray : TArray E) (FromArray : TArray S) (PrevMax : Z) :
  WellFormed FromArray ->
  ArrayNum FromArray <= FSizeType_Max ->
  Z.of_nat (length (AllocatorInstance ToArray)) = PrevMax ->
  exists t, MoveOrCopy_copy ToArray FromArray PrevMax = Ok (t, FromArray) /\
    ArrayNum t = ArrayNum FromArray /\
    ArrayMax t = ArrayNum FromArray /\
    forall i v, 0 <= i < ArrayNum FromArray ->
      AllocatorInstance FromArray !! Z.to_nat i = Some (Some v) ->
      AllocatorInstance t !! Z.to_nat i
      = Some (Some ((if TIsBitwiseConstructibleFrom then bitcopy_from else construct_from) v)).
Proof.
  intros [Hb Ha Hl] Hfit Hprev.
  unfold MoveOrCopy_copy, CopyToEmpty.
  assert (Hf : FSizeType_fits (ArrayNum FromArray) = true).
  { unfold FSizeType_fits. apply andb_true_iff. split; apply Z.leb_le; lia. }
  rewrite Hf. cbn [NexusCheck Result_bind Z.geb Z.compare].
  destruct (negb (ArrayNum FromArray =? 0) || negb (0 =? 0) || negb (PrevMax =? 0)) eqn:Hany.
  - unfold FSizeType_add. rewrite Z.add_0_r.
    unfold FSizeType_fits in Hf. rewrite Hf. cbn [Result_bind].
    set (a2 := ResizeForCopy _ _ _).
    assert (Hlen2 : Z.of_nat (length (GetData a2)) = ArrayNum FromArray).
    { unfold a2, ResizeForCopy, GetData. cbn [AllocatorInstance].
      destruct (Z.eqb_spec (ArrayNum FromArray) PrevMax) as [Heq|Hne]; cbn [negb].
      - lia.
      - rewrite ResizeAllocation_length. lia. }
    destruct (ConstructItems_Ok TIsBitwiseConstructibleFrom construct_from bitcopy_from
                (GetData a2) (AllocatorInstance FromArray) (ArrayNum FromArray))
      as (buf & Hrun & Hlen & Hcopied); try lia; try exact Hl.
    rewrite Hrun. cbn [Result_bind].
    eexists. split; [reflexivity|]. cbn. repeat split. exact Hcopied.
  - apply orb_false_iff in Hany as [Hany _]. apply orb_false_iff in Hany as [Hz _].
    apply negb_false_iff, Z.eqb_eq in Hz.
    cbn [Result_bind]. eexists. split; [reflexivity|]. cbn.
    repeat split; try lia.
Qed.
End ArrayMoves.

Section BitArrayMoves.
Context {Alloc : Allocator}.
Import BitArray.

(** X29: With an allocator that supports moves, [MoveOrCopy], the move
    constructor and the move assignment of a bit array return and leave the
    source with no bit and no room, in the very state the constructor
    [TBitArray(false, 0)] gives; the destination has the counters of the
    source. *)
Theorem TBitArray_move_leaves_source_empty (ToArray FromArray : TBitArray) :
  SupportsMove = true ->
  exists t f,
    MoveOrCopy ToArray FromArray = Ok (t, f) /\
    move_construct FromArray = Ok (t, f) /\
    assign_move ToArray FromArray = Ok (t, f) /\
    Num f = 0 /\ MaxBits f = 0 /\
    TBitArray_ctor false 0 = Ok f /\
    NumBits t = NumBits FromArray /\ MaxBits t = MaxBits FromArray.
Proof.
  intros Hmove. unfold move_construct, assign_move, MoveOrCopy. rewrite Hmove. cbn.
  eexists _, _. repeat split.
Qed.
End BitArrayMoves.

(** ** Appending *)

Lemma geb_true (x y : Z) : y <= x -> (x >=? y) = true.
Proof. intros Hxy. apply Z.geb_le. exact Hxy. Qed.

Lemma gtb_true (x y : Z) : y < x -> (x >? y) = true.
Proof. intros Hxy. rewrite Z.gtb_ltb. apply Z.ltb_lt. exact Hxy. Qed.

Lemma gtb_false (x y : Z) : x <= y -> (x >? y) = false.
Proof. intros Hxy. rewrite Z.gtb_ltb. apply Z.ltb_ge. exact Hxy. Qed.

Section AppendThenRead.
Context {E : Type} {Alloc : Allocator} {Traits : ElementTraits E}.
Import Array.

Lemma CheckInvariants_Ok (a : TArray E) :
  0 <= ArrayNum a <= ArrayMax a -> CheckInvariants a = Ok tt.
Proof.
  intros Hb. unfold CheckInvariants. rewrite !geb_true by lia. reflexivity.
Qed.

Lemma FSizeType_add_Ok (x y : Z) :
  - FSizeType_Max - 1 <= x + y <= FSizeType_Max -> FSizeType_add x y = Ok (x + y).
Proof.
  intros Hr. unfold FSizeType_add. cbv zeta.
  replace (- FSizeType_Max - 1 <=? x + y) with true by (symmetry; apply Z.leb_le; lia).
  replace (x + y <=? FSizeType_Max) with true by (symmetry; apply Z.leb_le; lia).
  reflexivity.
Qed.

(** C2: on a well-formed array below the largest size, [Add(x)] returns
    the length before the call; the capacity becomes what
    [CalculateSlackGrow] answers when [length + 1 > capacity] and stays
    otherwise; reading at the returned index yields [x].  The growth policy
    is taken to answer with room for the requested length. *)
Theorem Add_then_read (a : TArray E) (x : E) :
  WellFormed a ->
  ArrayNum a < FSizeType_Max ->
  (ArrayMax a < ArrayNum a + 1 ->
   ArrayNum a + 1 <= CalculateSlackGrow (ArrayNum a + 1) (ArrayMax a) sizeof_E) ->
  exists a', Add a (Outside x) = Ok (ArrayNum a, a') /\
    ArrayNum a' = ArrayNum a + 1 /\
    ArrayMax a' = (if ArrayNum a + 1 >? ArrayMax a
                   then CalculateSlackGrow (ArrayNum a + 1) (ArrayMax a) sizeof_E
                   else ArrayMax a) /\
    operator_index a' (ArrayNum a) = Ok x.
Proof.
  intros [Hb Ha Hl] Hmax Hgrow.
  unfold Add, AddUninitialized. cbn [CheckAddress Result_bind].
  rewrite CheckInvariants_Ok by exact Hb. cbn [Result_bind Z.geb Z.compare NexusCheck].
  rewrite FSizeType_add_Ok by lia. cbn [Result_bind ArrayMax deref].
  destruct (Z.lt_ge_cases (ArrayMax a) (ArrayNum a + 1)) as [Hfull|Hroom].
  - rewrite gtb_true by lia. specialize (Hgrow Hfull).
    unfold ResizeGrow, GetData. cbn [AllocatorInstance ArrayNum ArrayMax].
    set (NewMax := CalculateSlackGrow (ArrayNum a + 1) (ArrayMax a) sizeof_E) in *.
    set (buf := ResizeAllocation (AllocatorInstance a) (ArrayNum a) NewMax).
    assert (Hlen : length buf = Z.to_nat NewMax) by apply ResizeAllocation_length.
    assert (Hst : store buf (ArrayNum a) x = Ok (<[Z.to_nat (ArrayNum a) := Some x]> buf))
      by (apply store_Ok; split; [lia | reflexivity]).
    rewrite Hst. cbn [Result_bind].
    eexists. split; [reflexivity|]. cbn [ArrayNum ArrayMax]. repeat split.
    unfold operator_index, RangeCheck.
    rewrite CheckInvariants_Ok by (cbn; lia).
    cbn [Result_bind ArrayNum GetData AllocatorInstance].
    replace (if RequireRangeCheck
             then NexusCheck ((ArrayNum a >=? 0) && (ArrayNum a <? ArrayNum a + 1))
             else Ok tt) with (Ok tt).
    2:{ destruct RequireRangeCheck; [|reflexivity].
        rewrite geb_true by lia.
        replace (ArrayNum a <? ArrayNum a + 1) with true by (symmetry; apply Z.ltb_lt; lia).
        reflexivity. }
    cbn [Result_bind]. apply load_Ok. split; [lia|].
    apply list_lookup_insert_eq. lia.
  - rewrite gtb_false by lia. unfold GetData. cbn [AllocatorInstance ArrayNum ArrayMax].
    assert (Hst : store (AllocatorInstance a) (ArrayNum a) x
                  = Ok (<[Z.to_nat (ArrayNum a) := Some x]> (AllocatorInstance a)))
      by (apply store_Ok; split; [lia | reflexivity]).
    rewrite Hst. cbn [Result_bind].
    eexists. split; [reflexivity|]. cbn [ArrayNum ArrayMax]. repeat split.
    unfold operator_index, RangeCheck.
    rewrite CheckInvariants_Ok by (cbn; lia).
    cbn [Result_bind ArrayNum GetData AllocatorInstance].
    replace (if RequireRangeCheck
             then NexusCheck ((ArrayNum a >=? 0) && (ArrayNum a <? ArrayNum a + 1))
             else Ok tt) with (Ok tt).
    2:{ destruct RequireRangeCheck; [|reflexivity].
        rewrite geb_true by lia.
        replace (ArrayNum a <? ArrayNum a + 1) with true by (symmetry; apply Z.ltb_lt; lia).
        reflexivity. }
    cbn [Result_bind]. apply load_Ok. split; [lia|].
    apply list_lookup_insert_eq. lia.
Qed.
End AppendThenRead.

(** ** Equality of arrays *)

Section Equality.
Context {E : Type} {Traits : ElementTraits E}.
Import Array.

Lemma load_range_holds (xs : list E) : forall (buf : Slots E) (i : Z),
  0 <= i ->
  (forall (k : nat) (x : E), xs !! k = Some x -> buf !! (Z.to_nat i + k)%nat = Some (Some x)) ->
  load_range (length xs) buf i = Ok xs.
Proof.
  induction xs as [|x xs IH]; intros buf i Hi Hat; [reflexivity|].
  cbn [length load_range].
  assert (Hld : load buf i = Ok x).
  { apply load_Ok. split; [exact Hi|]. specialize (Hat 0%nat x eq_refl).
    rewrite Nat.add_0_r in Hat. exact Hat. }
  rewrite Hld. cbn [Result_bind]. rewrite (IH buf (i + 1)); [reflexivity | lia |].
  intros k y Hk. specialize (Hat (S k) y Hk).
  rewrite <- Hat. f_equal. lia.
Qed.

Lemma CompareItems_loop_holds (xs : list E) : forall (ys : list E) (A B : Slots E) (i : Z),
  0 <= i -> length xs = length ys ->
  (forall (k : nat) (x : E), xs !! k = Some x -> A !! (Z.to_nat i + k)%nat = Some (Some x)) ->
  (forall (k : nat) (y : E), ys !! k = Some y -> B !! (Z.to_nat i + k)%nat = Some (Some y)) ->
  exists r, CompareItems_loop (length xs) A B i = Ok r /\
    (r = true <-> Forall2 (fun x y => op_eq x y = true) xs ys).
Proof.
  induction xs as [|x xs IH]; intros ys A B i Hi Hlen HA HB; destruct ys as [|y ys];
    try discriminate.
  - exists true. split; [reflexivity|]. split; [constructor | reflexivity].
  - cbn [length CompareItems_loop].
    assert (HldA : load A i = Ok x).
    { apply load_Ok. split; [exact Hi|]. specialize (HA 0%nat x eq_refl).
      rewrite Nat.add_0_r in HA. exact HA. }
    assert (HldB : load B i = Ok y).
    { apply load_Ok. split; [exact Hi|]. specialize (HB 0%nat y eq_refl).
      rewrite Nat.add_0_r in HB. exact HB. }
    rewrite HldA, HldB. cbn [Result_bind].
    destruct (op_eq x y) eqn:Hxy; cbn [negb].
    + destruct (IH ys A B (i + 1)) as (r & Hrun & Hr).
      * lia.
      * cbn [length] in Hlen. lia.
      * intros k z Hk. specialize (HA (S k) z Hk). rewrite <- HA. f_equal. lia.
      * intros k z Hk. specialize (HB (S k) z Hk). rewrite <- HB. f_equal. lia.
      * exists r. split; [exact Hrun|]. rewrite Hr. split.
        -- intros Hall. constructor; assumption.
        -- intros Hall. inversion Hall. assumption.
    + exists false. split; [reflexivity|]. split; [discriminate|].
      intros Hall. inversion Hall. congruence.
Qed.

(** With the arrays' length in the place of [Count], [operator==] answers
    true exactly when the lengths are equal and the ranges compare equal:
    by their bytes for a byte-comparable element type, element by element
    with [==] otherwise. *)
Theorem operator_eq_over_the_length (a b : TArray E) (xs ys : list E) :
  Holds a xs -> Holds b ys ->
  exists r, operator_eq (Num a) a b = Ok r /\
    (r = true <->
     length xs = length ys /\
     if IsBytewiseComparable then bytes_of xs = bytes_of ys
     else Forall2 (fun x y => op_eq x y = true) xs ys).
Proof.
  intros [Hna Ha] [Hnb Hb]. unfold operator_eq, Num. rewrite Hna, Hnb.
  destruct (Z.eqb_spec (Z.of_nat (length xs)) (Z.of_nat (length ys))) as [Heq|Hne].
  2:{ exists false. split; [reflexivity|]. split; [discriminate|]. intros [Hl _]. lia. }
  assert (Hlen : length xs = length ys) by lia.
  unfold CompareItems, GetData.
  replace (Z.of_nat (length xs) <? 0) with false by (symmetry; apply Z.ltb_ge; lia).
  rewrite Nat2Z.id.
  destruct IsBytewiseComparable.
  - rewrite (load_range_holds xs) by (try lia; exact Ha).
    cbn [Result_bind]. rewrite Hlen.
    rewrite (load_range_holds ys) by (try lia; exact Hb).
    cbn [Result_bind]. eexists. split; [reflexivity|].
    rewrite bool_decide_eq_true. tauto.
  - destruct (CompareItems_loop_holds xs ys (AllocatorInstance a) (AllocatorInstance b) 0)
      as (r & Hrun & Hr); try assumption; try lia.
    exists r. split; [exact Hrun|]. rewrite Hr. tauto.
Qed.
End Equality.

(** C6, on the code: the range [operator==] compares is set by [Count],
    which the function does not bind to the arrays' length.  With [Count = 0]
    the one-element arrays [1] and [2] compare equal, for a byte-comparable
    element type and for one compared with [==]; with the length in its
    place they differ; with [Count = 2] the comparison leaves the
    allocations. *)
Lemma operator_eq_compares_Count_items :
  let a := Array.mkTArray [Some 1] 1 1 in
  let b := Array.mkTArray [Some 2] 1 1 in
  Array.operator_eq (Traits := Int32Elements true true) 0 a b = Ok true /\
  Array.operator_eq (Traits := Int32Elements true false) 0 a b = Ok true /\
  Array.operator_index (Alloc := DoublingAllocator) a 0 = Ok 1 /\
  Array.operator_index (Alloc := DoublingAllocator) b 0 = Ok 2 /\
  Array.operator_eq (Traits := Int32Elements true true) (Array.Num a) a b = Ok false /\
  Array.operator_eq (Traits := Int32Elements true true) 2 a b = Fail UndefinedBehaviour.
Proof. repeat split. Qed.


(** ** Insertion and removal *)

Section InsertRemove.
Context {E : Type} {Alloc : Allocator} {Traits : ElementTraits E}.
Import Array.

Lemma operator_index_Ok (a : TArray E) (j : Z) (v : E) :
  0 <= ArrayNum a <= ArrayMax a -> 0 <= j < ArrayNum a ->
  AllocatorInstance a !! Z.to_nat j = Some (Some v) ->
  operator_index a j = Ok v.
Proof.
  intros Hb Hj Hv. unfold operator_index, RangeCheck.
  rewrite CheckInvariants_Ok by exact Hb. cbn [Result_bind].
  replace (if RequireRangeCheck then NexusCheck ((j >=? 0) && (j <? ArrayNum a)) else Ok tt)
    with (Ok tt).
  2:{ destruct RequireRangeCheck; [|reflexivity]. rewrite geb_true by lia.
      replace (j <? ArrayNum a) with true by (symmetry; apply Z.ltb_lt; lia). reflexivity. }
  cbn [Result_bind]. apply load_Ok. split; [lia | exact Hv].
Qed.

(** For a bitwise relocatable element type, with slack policies that leave
    room for the elements in use: [Insert(x, i)] followed by [RemoveAt(i)]
    returns the original length and, at every index, the original element. *)
Theorem Insert_then_RemoveAt_restores (a : TArray E) (x : E) (i : Z) :
  TIsBitwiseRelocatable = true ->
  GrowthCovers -> ShrinkCovers ->
  WellFormed a -> ArrayNum a < FSizeType_Max -> 0 <= i <= ArrayNum a ->
  exists a1 a2,
    Insert a (Outside x) i = Ok (i, a1) /\
    RemoveAt a1 i = Ok a2 /\
    ArrayNum a2 = ArrayNum a /\
    forall j, 0 <= j < ArrayNum a ->
      exists v, operator_index a j = Ok v /\ operator_index a2 j = Ok v.
Proof.
  intros Hreloc Hgrow Hshrink [Hb Ha Hl] Hmax Hi.
  (* the allocation after a possible growth *)
  set (n := ArrayNum a) in *.
  set (buf2 := if n + 1 >? ArrayMax a
               then ResizeAllocation (AllocatorInstance a) n
                      (CalculateSlackGrow (n + 1) (ArrayMax a) sizeof_E)
               else AllocatorInstance a).
  set (max2 := if n + 1 >? ArrayMax a
               then CalculateSlackGrow (n + 1) (ArrayMax a) sizeof_E
               else ArrayMax a).
  assert (Hmax2 : n + 1 <= max2).
  { unfold max2. destruct (Z.lt_ge_cases (ArrayMax a) (n + 1)).
    - rewrite gtb_true by lia. apply Hgrow.
    - rewrite gtb_false by lia. lia. }
  assert (Hlen2 : Z.of_nat (length buf2) = max2).
  { unfold buf2, max2. destruct (n + 1 >? ArrayMax a).
    - rewrite ResizeAllocation_length. pose proof (Hgrow (n + 1) (ArrayMax a) sizeof_E). lia.
    - exact Ha. }
  assert (Hold2 : forall j, 0 <= j < n -> buf2 !! Z.to_nat j = AllocatorInstance a !! Z.to_nat j).
  { intros j Hj. unfold buf2. destruct (n + 1 >? ArrayMax a); [|reflexivity].
    pose proof (Hgrow (n + 1) (ArrayMax a) sizeof_E).
    apply ResizeAllocation_lookup; lia. }
  (* the tail moves up by one slot *)
  destruct (Memmove_Ok buf2 (i + 1) i (n - i)) as (buf3 & Hmove & Hlen3 & Hat3); try lia.
  (* Insert *)
  assert (Hins : Insert a (Outside x) i
                 = Ok (i, mkTArray (<[Z.to_nat i := Some x]> buf3) (n + 1) max2)).
  { unfold Insert, InsertUninitialized. cbn [CheckAddress Result_bind].
    rewrite CheckInvariants_Ok by exact Hb. cbn [Result_bind].
    fold n. rewrite !geb_true by lia.
    replace (i <=? n) with true by (symmetry; apply Z.leb_le; lia).
    cbn [andb NexusCheck Result_bind].
    replace (FSizeType_fits 1) with true
      by (symmetry; unfold FSizeType_fits; apply andb_true_iff;
          split; apply Z.leb_le; lia).
    cbn [NexusCheck Result_bind]. rewrite FSizeType_add_Ok by lia.
    cbn [Result_bind ArrayMax].
    replace (GetData (if n + 1 >? ArrayMax a
                      then ResizeGrow (mkTArray (AllocatorInstance a) (n + 1) (ArrayMax a)) n
                      else mkTArray (AllocatorInstance a) (n + 1) (ArrayMax a)))
      with buf2 by (unfold buf2, ResizeGrow, GetData; destruct (n + 1 >? ArrayMax a); reflexivity).
    unfold RelocateConstructItems. rewrite Hreloc.
    replace (n - i <? 0) with false by (symmetry; apply Z.ltb_ge; lia).
    rewrite Hmove. cbn [Result_bind deref GetData AllocatorInstance].
    assert (Hst : store buf3 i x = Ok (<[Z.to_nat i := Some x]> buf3))
      by (apply store_Ok; split; [lia | reflexivity]).
    rewrite Hst. cbn [Result_bind]. do 3 f_equal.
    - unfold ResizeGrow. destruct (n + 1 >? ArrayMax a); reflexivity.
    - unfold max2, ResizeGrow. destruct (n + 1 >? ArrayMax a); reflexivity. }
  set (buf4 := <[Z.to_nat i := Some x]> buf3) in *.
  assert (Hlen4 : Z.of_nat (length buf4) = max2)
    by (unfold buf4; rewrite length_insert; lia).
  (* RemoveAt: the destructor of the inserted element *)
  assert (Hdes : exists buf5, DestructItems buf4 i 1 = Ok buf5 /\
            length buf5 = length buf4 /\
            forall j, 0 <= j -> j <> i -> buf5 !! Z.to_nat j = buf4 !! Z.to_nat j).
  { unfold DestructItems. destruct TIsTriviallyDestructible; [eauto|].
    change (1 <? 0) with false. change (Z.to_nat 1) with 1%nat.
    cbn [DestructItems_loop].
    assert (Hld : load buf4 i = Ok x).
    { apply load_Ok. split; [lia|]. unfold buf4. apply list_lookup_insert_eq. lia. }
    rewrite Hld. cbn [Result_bind]. eexists. split; [reflexivity|]. split.
    - apply length_insert.
    - intros j Hj Hne. apply list_lookup_insert_ne. lia. }
  destruct Hdes as (buf5 & Hdes & Hlen5 & Hat5).
  destruct (Memmove_Ok buf5 i (i + 1) (n - i)) as (buf6 & Hback & Hlen6 & Hat6); try lia.
  set (max3 := CalculateSlackShrink n max2 sizeof_E).
  set (buf7 := if negb (max3 =? max2) then ResizeAllocation buf6 n max3 else buf6).
  assert (Hrem : RemoveAt (mkTArray buf4 (n + 1) max2) i
                 = Ok (mkTArray buf7 n (if negb (max3 =? max2) then max3 else max2))).
  { unfold RemoveAt, RemoveAtImpl. cbn [Z.eqb negb].
    rewrite CheckInvariants_Ok by (cbn; lia). cbn [Result_bind ArrayNum].
    rewrite FSizeType_add_Ok by lia. cbn [Result_bind].
    rewrite !geb_true by lia.
    replace (i + 1 <=? n + 1) with true by (symmetry; apply Z.leb_le; lia).
    cbn [andb NexusCheck Result_bind GetData AllocatorInstance].
    rewrite Hdes. cbn [Result_bind].
    replace (n + 1 - i - 1) with (n - i) by lia.
    replace (if negb (n - i =? 0) then Memmove buf5 i (i + 1) (n - i) else Ok buf5)
      with (Ok (A := Slots E) buf6).
    2:{ destruct (Z.eqb_spec (n - i) 0) as [Hz|_]; cbn [negb]; [|symmetry; exact Hback].
        rewrite Hz in Hback. unfold Memmove in Hback. cbn in Hback. symmetry. exact Hback. }
    cbn [Result_bind]. replace (n + 1 - 1) with n by lia.
    unfold ResizeShrink. cbn [ArrayNum ArrayMax AllocatorInstance]. fold max3.
    destruct (negb (max3 =? max2)); [|reflexivity].
    rewrite geb_true by apply Hshrink. reflexivity. }
  (* the slots of the result *)
  assert (Hslots : forall j, 0 <= j < n ->
            buf7 !! Z.to_nat j = AllocatorInstance a !! Z.to_nat j).
  { intros j Hj.
    assert (H6 : buf6 !! Z.to_nat j = AllocatorInstance a !! Z.to_nat j).
    { rewrite Hat6 by lia.
      destruct (Z.leb_spec i j), (Z.ltb_spec j (i + (n - i))); cbn [andb]; try lia.
      - rewrite Hat5 by lia. unfold buf4. rewrite list_lookup_insert_ne by lia.
        rewrite Hat3 by lia.
        replace ((i + 1 <=? j - i + (i + 1)) && (j - i + (i + 1) <? i + 1 + (n - i)))
          with true
          by (symmetry; apply andb_true_iff; split; [apply Z.leb_le | apply Z.ltb_lt]; lia).
        replace (j - i + (i + 1) - (i + 1) + i) with j by lia. apply Hold2. lia.
      - rewrite Hat5 by lia. unfold buf4. rewrite list_lookup_insert_ne by lia.
        rewrite Hat3 by lia.
        replace ((i + 1 <=? j) && (j <? i + 1 + (n - i))) with false
          by (symmetry; apply andb_false_iff; left; apply Z.leb_gt; lia).
        apply Hold2. lia. }
    unfold buf7. destruct (negb (max3 =? max2)); [|exact H6].
    rewrite ResizeAllocation_lookup; [exact H6 | lia | | lia].
    pose proof (Hshrink n max2 sizeof_E). fold max3 in H. lia. }
  eexists _, _. split; [exact Hins|]. split; [exact Hrem|]. split; [reflexivity|].
  intros j Hj. destruct (Hl j Hj) as [v Hv]. exists v. split.
  - apply operator_index_Ok; [exact Hb | exact Hj | exact Hv].
  - apply operator_index_Ok; cbn [ArrayNum ArrayMax AllocatorInstance].
    + pose proof (Hshrink n max2 sizeof_E). fold max3 in H.
      destruct (negb (max3 =? max2)); lia.
    + exact Hj.
    + rewrite Hslots by exact Hj. exact Hv.
Qed.
End InsertRemove.

(** C3, on the code: for an element type that is not bitwise relocatable,
    [Insert(99, 0)] into [10, 20, 30] relocates the tail first element
    first, so each copy lands on the next source before it is read: the
    array becomes [99, -, -, 10] with two slots whose objects are destroyed,
    and [RemoveAt(0)] leaves [-, -, 10] in place of [10, 20, 30]. *)
Lemma Insert_RemoveAt_clobbers_when_not_relocatable :
  let a := Array.mkTArray [Some 10; Some 20; Some 30; None] 3 4 in
  Array.Insert (Alloc := DoublingAllocator) (Traits := Int32Elements false false) a (Array.Outside 99) 0
    = Ok (0, Array.mkTArray [Some 99; None; None; Some 10] 4 4) /\
  Array.RemoveAt (Alloc := DoublingAllocator) (Traits := Int32Elements false false)
      (Array.mkTArray [Some 99; None; None; Some 10] 4 4) 0
    = Ok (Array.mkTArray [None; None; Some 10; Some 10] 3 4) /\
  Array.operator_index (Alloc := DoublingAllocator) a 0 = Ok 10 /\
  Array.operator_index (Alloc := DoublingAllocator) (Array.mkTArray [None; None; Some 10; Some 10] 3 4) 0
    = Fail UndefinedBehaviour /\
  Array.operator_index (Alloc := DoublingAllocator) a 2 = Ok 30 /\
  Array.operator_index (Alloc := DoublingAllocator) (Array.mkTArray [None; None; Some 10; Some 10] 3 4) 2
    = Ok 10.
Proof. repeat split. Qed.

(** ** The counters of an array after a call *)

Section ArrayCounters.
Context {E : Type} {Alloc : Allocator} {Traits : ElementTraits E}.
Import Array.

Lemma CheckInvariants_inv (a : TArray E) (u : unit) :
  CheckInvariants a = Ok u -> CountersInOrder a.
Proof.
  unfold CheckInvariants. intros Hc. apply NexusCheck_true in Hc.
  apply andb_true_iff in Hc as [H1 H2]. apply Z.geb_le in H1, H2.
  split; assumption.
Qed.

Lemma FSizeType_add_inv (x y r : Z) : FSizeType_add x y = Ok r -> r = x + y.
Proof.
  unfold FSizeType_add. cbv zeta.
  destruct ((- FSizeType_Max - 1 <=? x + y) && (x + y <=? FSizeType_Max));
    intros Hr; [injection Hr as <-; reflexivity | discriminate].
Qed.

Lemma grown_counters (a : TArray E) (NewNum OldNum : Z) :
  GrowthCovers -> 0 <= NewNum ->
  (NewNum <= ArrayMax a \/ ArrayMax a < NewNum) ->
  CountersInOrder
    (if NewNum >? ArrayMax (mkTArray (AllocatorInstance a) NewNum (ArrayMax a))
     then ResizeGrow (mkTArray (AllocatorInstance a) NewNum (ArrayMax a)) OldNum
     else mkTArray (AllocatorInstance a) NewNum (ArrayMax a)).
Proof.
  intros Hg Hn _. cbn [ArrayMax].
  destruct (Z.lt_ge_cases (ArrayMax a) NewNum) as [Hfull|Hroom].
  - rewrite gtb_true by lia. unfold CountersInOrder, ResizeGrow. cbn.
    split; [lia | apply Hg].
  - rewrite gtb_false by lia. unfold CountersInOrder. cbn. lia.
Qed.

Lemma AddUninitialized_counters (a a' : TArray E) (Count i : Z) :
  GrowthCovers -> AddUninitialized a Count = Ok (i, a') -> CountersInOrder a'.
Proof.
  intros Hg Hrun. unfold AddUninitialized in Hrun. inv_ok Hrun.
  apply CheckInvariants_inv in Hr. apply NexusCheck_true, Z.geb_le in Hr0.
  apply FSizeType_add_inv in Hr1. subst r1. injection Hrun as _ <-.
  apply grown_counters; [exact Hg | unfold CountersInOrder in Hr; lia | lia].
Qed.

Lemma InsertUninitialized_counters (a a' : TArray E) (Index Count : Z) :
  GrowthCovers -> InsertUninitialized a Index Count = Ok a' -> CountersInOrder a'.
Proof.
  intros Hg Hrun. unfold InsertUninitialized in Hrun. inv_ok Hrun.
  apply CheckInvariants_inv in Hr. apply NexusCheck_true in Hr0.
  apply andb_true_iff in Hr0 as [Hr0 _]. apply andb_true_iff in Hr0 as [Hc _].
  apply Z.geb_le in Hc.
  apply FSizeType_add_inv in Hr2. subst r2. injection Hrun as <-.
  pose proof (grown_counters a (ArrayNum a + Count) (ArrayNum a) Hg) as Hgc.
  unfold CountersInOrder in *. cbn [ArrayNum ArrayMax] in *.
  apply Hgc; lia.
Qed.

Lemma ResizeShrink_counters (a a' : TArray E) :
  CountersInOrder a -> ResizeShrink a = Ok a' -> CountersInOrder a'.
Proof.
  intros Ha Hrun. unfold ResizeShrink in Hrun.
  destruct (negb (CalculateSlackShrink (ArrayNum a) (ArrayMax a) sizeof_E =? ArrayMax a)).
  - inv_ok Hrun. apply NexusCheck_true, Z.geb_le in Hr. injection Hrun as <-.
    unfold CountersInOrder in *. cbn. lia.
  - injection Hrun as <-. exact Ha.
Qed.

Lemma RemoveAtImpl_counters (a a' : TArray E) (Index Count : Z) (bAllowShrinking : bool) :
  CountersInOrder a -> RemoveAtImpl a Index Count bAllowShrinking = Ok a' ->
  CountersInOrder a'.
Proof.
  intros Ha Hrun. unfold RemoveAtImpl in Hrun.
  destruct (negb (Count =? 0)); [|injection Hrun as <-; exact Ha].
  inv_ok Hrun. apply FSizeType_add_inv in Hr0. subst r0.
  apply NexusCheck_true in Hr1.
  apply andb_true_iff in Hr1 as [Hr1 Hend]. apply andb_true_iff in Hr1 as [Hc Hi].
  apply Z.geb_le in Hc, Hi. apply Z.leb_le in Hend.
  assert (Ha1 : CountersInOrder (mkTArray r3 (ArrayNum a - Count) (ArrayMax a)))
    by (unfold CountersInOrder in *; cbn; lia).
  destruct bAllowShrinking.
  - eapply ResizeShrink_counters; eassumption.
  - injection Hrun as <-. exact Ha1.
Qed.

Lemma CopyToEmpty_counters {S : Type} (bitwise : bool) (ctor bits : S -> E)
    (a a' : TArray E) (OtherData : Slots S) (OtherNum PrevMax : Z) :
  0 <= OtherNum ->
  CopyToEmpty bitwise ctor bits a OtherData OtherNum PrevMax 0 = Ok a' ->
  CountersInOrder a'.
Proof.
  intros Hn Hrun. unfold CopyToEmpty in Hrun. inv_ok Hrun.
  destruct (negb (OtherNum =? 0) || negb (0 =? 0) || negb (PrevMax =? 0)) eqn:Hany.
  - inv_ok Hrun. apply FSizeType_add_inv in Hr1. subst r1. injection Hrun as <-.
    unfold CountersInOrder, ResizeForCopy. cbn. lia.
  - injection Hrun as <-.
    apply orb_false_iff in Hany as [Hany _]. apply orb_false_iff in Hany as [Hz _].
    apply negb_false_iff, Z.eqb_eq in Hz.
    unfold CountersInOrder. cbn. lia.
Qed.

Lemma step_counters (op : Operation E) (a a' : TArray E) :
  GrowthCovers -> ArrayCallInRange op -> CountersInOrder a ->
  step op a = Ok a' -> CountersInOrder a'.
Proof.
  intros Hg Hop Ha Hrun. destruct op; cbn [step] in Hrun.
  - inv_ok Hrun. injection Hrun as <-. unfold Add in Hr. inv_ok Hr.
    destruct r1 as [i a1]. inv_ok Hr. injection Hr as <-.
    apply AddUninitialized_counters in Hr1; [|exact Hg]. exact Hr1.
  - inv_ok Hrun. injection Hrun as <-. unfold Emplace in Hr. inv_ok Hr.
    destruct r0 as [i a1]. inv_ok Hr. injection Hr as <-.
    apply AddUninitialized_counters in Hr0; [|exact Hg]. exact Hr0.
  - inv_ok Hrun. injection Hrun as <-. unfold Insert in Hr. inv_ok Hr. injection Hr as <-.
    apply InsertUninitialized_counters in Hr1; [|exact Hg]. exact Hr1.
  - eapply RemoveAtImpl_counters; eassumption.
  - unfold Shrink in Hrun. inv_ok Hrun. apply CheckInvariants_inv in Hr.
    destruct (negb (ArrayMax a =? ArrayNum a)) eqn:Hne; injection Hrun as <-; [|exact Hr].
    unfold ResizeTo. destruct (negb (ArrayNum a =? ArrayMax a)); [|exact Hr].
    unfold CountersInOrder in *. cbn. lia.
  - inv_ok Hrun. injection Hrun as <-. destruct r as [i a1].
    eapply AddUninitialized_counters; eassumption.
  - eapply InsertUninitialized_counters; eassumption.
  - eapply RemoveAtImpl_counters; eassumption.
  - unfold assign_list in Hrun. inv_ok Hrun.
    eapply CopyToEmpty_counters; [|exact Hrun]. lia.
  - unfold assign_copy in Hrun. inv_ok Hrun. cbn in Hop.
    eapply CopyToEmpty_counters; [|exact Hrun]. unfold Num. lia.
  - unfold assign_move in Hrun. cbn in Hrun. discriminate.
Qed.

Lemma run_counters (ops : list (Operation E)) :
  GrowthCovers -> Forall ArrayCallInRange ops ->
  forall (a : TArray E) (states : list (TArray E)),
    CountersInOrder a -> run ops a = Ok states -> Forall CountersInOrder states.
Proof.
  intros Hg Hops. induction Hops as [|op ops Hop Hops IH]; intros a states Ha Hrun.
  - injection Hrun as <-. constructor.
  - cbn [run] in Hrun. inv_ok Hrun. injection Hrun as <-.
    assert (Hr1 : CountersInOrder r) by (eapply step_counters; eassumption).
    constructor; [exact Hr1 | eapply IH; eassumption].
Qed.
End ArrayCounters.

(** ** The counters of a bit array after a call *)

Ltac zdiv := unfold wrap32, DivideAndRoundUp, NUM_BITS_PER_DWORD in *;
             Z.div_mod_to_equations; lia.

Lemma Memset_length {T : Type} (buf buf' : Slots T) (off : Z) (v : T) (n : Z) :
  Memset buf off v n = Ok buf' -> length buf' = length buf.
Proof.
  unfold Memset. destruct (n =? 0); [intros Hx; injection Hx as <-; reflexivity|].
  destruct (in_bounds buf off n); [|discriminate].
  intros Hx. injection Hx as <-. apply length_inserts.
Qed.

Lemma Memset_bounds {T : Type} (buf buf' : Slots T) (off : Z) (v : T) (n : Z) :
  Memset buf off v n = Ok buf' -> n <> 0 -> 0 <= off /\ 0 <= n /\ off + n <= Z.of_nat (length buf).
Proof.
  unfold Memset. destruct (Z.eqb_spec n 0); [intros _ Hn; contradiction|].
  destruct (in_bounds buf off n) eqn:Hb; [|discriminate].
  intros _ _. apply in_bounds_true. exact Hb.
Qed.

Lemma Memcpy_length {T S : Type} (f : S -> T) (buf buf' : Slots T) (src : Slots S) (n : Z) :
  Memcpy f buf src n = Ok buf' -> length buf' = length buf.
Proof.
  unfold Memcpy. destruct (n =? 0); [intros Hx; injection Hx as <-; reflexivity|].
  destruct (in_bounds buf 0 n && in_bounds src 0 n); [|discriminate].
  intros Hx. injection Hx as <-. apply length_inserts.
Qed.

Section BitCounters.
Context {Alloc : Allocator}.
Import BitArray.

Lemma BitWellFormed_matches (b : TBitArray) : BitWellFormed b -> AllocationMatches b.
Proof. intros [Hb Hw Hu Ha]. unfold AllocationMatches. repeat split; try assumption; lia. Qed.

Lemma matches_WellFormed (b : TBitArray) :
  AllocationMatches b -> 0 <= NumBits b <= MaxBits b -> BitWellFormed b.
Proof. intros (Hw & Hu & Ha) Hb. constructor; try assumption; lia. Qed.

Lemma Realloc_inv (a a' : TBitArray) (PreviousNumBits : Z) :
  MaxBits a mod 32 = 0 -> 0 <= MaxBits a < 2 ^ 32 -> 0 <= PreviousNumBits < 2 ^ 32 ->
  Realloc a PreviousNumBits = Ok a' ->
  NumBits a' = NumBits a /\ MaxBits a' = MaxBits a /\ AllocationMatches a' /\
  (MaxBits a <> 0 -> PreviousNumBits <= MaxBits a).
Proof.
  intros Hw Hu Hp Hrun. unfold Realloc in Hrun.
  set (buf := ResizeAllocation _ _ _) in Hrun.
  assert (Hlen : Z.of_nat (length buf) = MaxBits a / 32).
  { unfold buf. rewrite ResizeAllocation_length. zdiv. }
  destruct (Z.eqb_spec (DivideAndRoundUp (MaxBits a) NUM_BITS_PER_DWORD) 0) as [Hz|Hnz];
    cbn [negb] in Hrun.
  - injection Hrun as <-. cbn. unfold AllocationMatches. cbn.
    repeat split; try assumption; try lia. intros Hne. zdiv.
  - inv_ok Hrun. injection Hrun as <-. cbn. unfold AllocationMatches. cbn.
    pose proof (Memset_length _ _ _ _ _ Hr) as Hl.
    repeat split; try assumption; try lia.
    intros _.
    destruct (Z.eq_dec (wrap32 (DivideAndRoundUp (MaxBits a) NUM_BITS_PER_DWORD
                                - DivideAndRoundUp PreviousNumBits NUM_BITS_PER_DWORD)) 0)
      as [Hw0|Hw0].
    + zdiv.
    + apply Memset_bounds in Hr; [|exact Hw0]. rewrite Hlen in Hr. zdiv.
Qed.

Lemma Empty_inv (a a' : TBitArray) (ExpectedNumBits : Z) :
  BitWellFormed a -> 0 <= ExpectedNumBits < 2 ^ 32 ->
  Empty a ExpectedNumBits = Ok a' ->
  BitWellFormed a' /\ NumBits a' = 0 /\
  MaxBits a' = wrap32 (DivideAndRoundUp ExpectedNumBits NUM_BITS_PER_DWORD * NUM_BITS_PER_DWORD).
Proof.
  intros Ha He Hrun. pose proof (BitWellFormed_matches a Ha) as (Hw & Hu & Hl).
  unfold Empty in Hrun. cbn [MaxBits NumBits AllocatorInstance] in Hrun.
  set (Expected := wrap32 _) in *.
  assert (HE : Expected mod 32 = 0 /\ 0 <= Expected < 2 ^ 32) by (unfold Expected; zdiv).
  destruct (Z.eqb_spec (MaxBits a) Expected) as [Heq|Hne]; cbn [negb] in Hrun.
  - injection Hrun as <-. cbn. split; [|split; [reflexivity | exact Heq]].
    apply matches_WellFormed; [exact (conj Hw (conj Hu Hl)) | cbn; lia].
  - apply Realloc_inv in Hrun; cbn; try lia.
    destruct Hrun as (Hn & Hm & Hmatch & _). cbn in Hn, Hm.
    split; [|split; [exact Hn | exact Hm]].
    apply matches_WellFormed; [exact Hmatch | lia].
Qed.

Lemma Init_inv (a a' : TBitArray) (bValue : bool) (InNumBits : Z) :
  BitWellFormed a -> 0 <= InNumBits < 2 ^ 32 ->
  Init a bValue InNumBits = Ok a' -> BitWellFormed a'.
Proof.
  intros Ha Hn Hrun. unfold Init in Hrun. inv_ok Hrun.
  apply Empty_inv in Hr; [|exact Ha|exact Hn]. destruct Hr as (Hwf & Hz & Hm).
  destruct (Z.eqb_spec InNumBits 0) as [->|Hne]; cbn [negb] in Hrun.
  - injection Hrun as <-. exact Hwf.
  - inv_ok Hrun. injection Hrun as <-.
    pose proof (BitWellFormed_matches r Hwf) as (Hw & Hu & Hl).
    pose proof (Memset_length _ _ _ _ _ Hr) as Hlen.
    apply Memset_bounds in Hr; [|zdiv]. unfold GetData in *. rewrite Hl in Hr.
    apply matches_WellFormed.
    + unfold AllocationMatches. cbn. repeat split; try assumption; try lia.
    + cbn. zdiv.
Qed.

Lemma Reserve_matches (a a' : TBitArray) (Number : Z) :
  BitWellFormed a -> Reserve a Number = Ok a' ->
  NumBits a' = NumBits a /\ AllocationMatches a' /\
  (MaxBits a' = MaxBits a \/ (MaxBits a < Number /\ (MaxBits a' <> 0 -> NumBits a <= MaxBits a'))).
Proof.
  intros Ha Hrun. pose proof (BitWellFormed_matches a Ha) as Hmatch.
  destruct Ha as [Hb Hw Hu Hl].
  unfold Reserve in Hrun. destruct (Number >? MaxBits a) eqn:Hgt.
  - apply Realloc_inv in Hrun; cbn [MaxBits NumBits]; try zdiv.
    cbn [MaxBits NumBits] in Hrun. destruct Hrun as (Hn & Hm & Hma & Hprev).
    split; [exact Hn|]. split; [exact Hma|]. right.
    rewrite Z.gtb_ltb in Hgt. apply Z.ltb_lt in Hgt. split; [exact Hgt|].
    rewrite Hm. exact Hprev.
  - injection Hrun as <-. auto.
Qed.

Lemma Reserve_inv (a a' : TBitArray) (Number : Z) :
  GrowthCovers -> GrowthWithinBits ->
  BitWellFormed a -> 0 <= Number <= 2 ^ 32 - 32 ->
  Reserve a Number = Ok a' -> BitWellFormed a'.
Proof.
  intros Hg Hf Ha Hn Hrun.
  pose proof (Reserve_matches a a' Number Ha Hrun) as (Hnum & Hmatch & Hmax).
  apply matches_WellFormed; [exact Hmatch|]. rewrite Hnum.
  destruct Ha as [Hb Hw Hu Hl].
  destruct Hmax as [-> | [Hlt Himp]]; [exact Hb|].
  split; [lia|]. apply Himp.
  unfold Reserve in Hrun. rewrite gtb_true in Hrun by lia.
  apply Realloc_inv in Hrun; cbn [MaxBits NumBits]; try zdiv.
  cbn [MaxBits] in Hrun. destruct Hrun as (_ & -> & _ & _).
  pose proof (Hg (DivideAndRoundUp Number NUM_BITS_PER_DWORD)
                 (DivideAndRoundUp (MaxBits a) NUM_BITS_PER_DWORD) 4) as Hge.
  pose proof (Hf (DivideAndRoundUp Number NUM_BITS_PER_DWORD)
                 (DivideAndRoundUp (MaxBits a) NUM_BITS_PER_DWORD)) as Hlt'.
  assert (Hd : 1 <= DivideAndRoundUp Number NUM_BITS_PER_DWORD < 2 ^ 27) by zdiv.
  specialize (Hlt' ltac:(lia)).
  set (g := CalculateSlackGrow _ _ 4) in *.
  unfold wrap32, NUM_BITS_PER_DWORD.
  rewrite (Z.mod_small g) by lia. rewrite Z.mod_small by lia. lia.
Qed.

Lemma FBitReference_assign_inv (buf buf' : Slots Z) (dword mask : Z) (v : bool) :
  FBitReference_assign buf dword mask v = Ok buf' ->
  length buf' = length buf /\ 0 <= dword < Z.of_nat (length buf).
Proof.
  unfold FBitReference_assign. intros Hrun. inv_ok Hrun.
  apply store_Ok in Hrun as [Hd ->]. rewrite length_insert. auto.
Qed.

Lemma set_bit_inv (a a' : TBitArray) (i : Z) (v : bool) :
  set_bit a i v = Ok a' ->
  NumBits a' = NumBits a /\ MaxBits a' = MaxBits a /\
  length (AllocatorInstance a') = length (AllocatorInstance a) /\
  i < NumBits a /\ i / 32 < Z.of_nat (length (AllocatorInstance a)).
Proof.
  unfold set_bit, operator_index. intros Hrun.
  apply Result_bind_Ok in Hrun as (r & Hidx & Hrun).
  apply Result_bind_Ok in Hidx as (u & Hchk & Hidx).
  apply Result_bind_Ok in Hrun as (buf & Hasg & Hrun).
  apply NexusCheck_true, Z.ltb_lt in Hchk. injection Hidx as <-. injection Hrun as <-.
  cbn [fst snd] in Hasg. apply FBitReference_assign_inv in Hasg as [Hl Hd].
  cbn. unfold GetData, NUM_BITS_PER_DWORD in *. repeat split; try assumption; lia.
Qed.

Lemma Add_inv (a a' : TBitArray) (v : bool) (i : Z) :
  BitWellFormed a -> Add a v = Ok (i, a') -> BitWellFormed a'.
Proof.
  intros Ha Hrun. unfold Add in Hrun.
  apply Result_bind_Ok in Hrun as (a1 & Hr & Hrun).
  apply Result_bind_Ok in Hrun as (a3 & Hr0 & Hrun). injection Hrun as _ <-.
  apply Reserve_matches in Hr; [|exact Ha]. destruct Hr as (Hn & (Hw & Hu & Hl) & _).
  apply set_bit_inv in Hr0. cbn in Hr0. destruct Hr0 as (Hn' & Hm' & Hl' & Hlt & Hin).
  destruct Ha as [Hb _ _ _].
  apply matches_WellFormed.
  - unfold AllocationMatches. rewrite Hm', Hl'. auto.
  - rewrite Hn', Hm'. rewrite Hn in *. zdiv.
Qed.

Lemma AddMany_loop_inv (fuel : nat) : forall (a a' : TBitArray) (It End : Z) (v : bool),
  0 <= It <= End -> End < 2 ^ 32 ->
  AddMany_loop fuel a It End v = Ok a' ->
  NumBits a' = NumBits a /\ MaxBits a' = MaxBits a /\
  length (AllocatorInstance a') = length (AllocatorInstance a) /\
  (It < End -> End <= NumBits a /\ End - 1 < 32 * Z.of_nat (length (AllocatorInstance a))).
Proof.
  induction fuel as [|fuel IH]; intros a a' It End v Hit Hend Hrun; [discriminate|].
  cbn [AddMany_loop] in Hrun.
  destruct (Z.eqb_spec It End) as [->|Hne]; cbn [negb] in Hrun.
  - injection Hrun as <-. repeat split; lia.
  - apply Result_bind_Ok in Hrun as (a1 & Hr & Hrun).
    apply set_bit_inv in Hr as (Hn & Hm & Hl & Hlt & Hin).
    rewrite wrap32_small in Hrun by lia.
    apply IH in Hrun; [|lia|lia]. destruct Hrun as (Hn' & Hm' & Hl' & Hlast).
    rewrite Hn', Hm', Hl', Hn, Hm, Hl. repeat split; try reflexivity.
    + destruct (Z.eq_dec (It + 1) End) as [<-|Hmore]; [lia|].
      rewrite <- Hn. apply Hlast. lia.
    + destruct (Z.eq_dec (It + 1) End) as [<-|Hmore]; [zdiv|].
      rewrite <- Hl. apply Hlast. lia.
Qed.

Lemma AddMany_inv (a a' : TBitArray) (v : bool) (n i : Z) :
  BitWellFormed a -> 0 <= n < 2 ^ 32 -> AddMany a v n = Ok (i, a') -> BitWellFormed a'.
Proof.
  intros Ha Hn Hrun. unfold AddMany in Hrun.
  apply Result_bind_Ok in Hrun as (a1 & Hr & Hrun).
  apply Result_bind_Ok in Hrun as (a3 & Hr0 & Hrun). injection Hrun as _ <-.
  pose proof (Reserve_matches _ _ _ Ha Hr) as (Hnum & (Hw & Hu & Hl) & Hmax).
  destruct Ha as [Hb Hw0 Hu0 Hl0].
  rewrite Hnum in Hr0.
  destruct (Z.eq_dec n 0) as [->|Hn0].
  - rewrite Z.add_0_r, wrap32_small in Hr0 by lia.
    destruct Hmax as [Hsame | [Hlt _]]; [|rewrite Z.add_0_r, wrap32_small in Hlt by lia; lia].
    cbn [AddMany_loop] in Hr0. rewrite Z.eqb_refl in Hr0. injection Hr0 as <-.
    apply matches_WellFormed; [unfold AllocationMatches; cbn; auto|]. cbn. lia.
  - destruct (Z.lt_ge_cases (NumBits a + n) (2 ^ 32)) as [Hfit|Hwrap].
    + rewrite wrap32_small in Hr0 by lia.
      apply AddMany_loop_inv in Hr0; [|lia|lia]. cbn in Hr0.
      destruct Hr0 as (Hn' & Hm' & Hl' & Hlast).
      apply matches_WellFormed.
      * unfold AllocationMatches. rewrite Hm', Hl'. auto.
      * rewrite Hn', Hm'. specialize (Hlast ltac:(lia)). zdiv.
    + exfalso. cbn [AddMany_loop] in Hr0.
      assert (Hw32 : wrap32 (NumBits a + n) = NumBits a + n - 2 ^ 32) by zdiv.
      rewrite Hw32 in Hr0.
      destruct (Z.eqb_spec (NumBits a) (NumBits a + n - 2 ^ 32)); [lia|].
      cbn [negb] in Hr0. apply Result_bind_Ok in Hr0 as (a2 & Hr1 & _).
      apply set_bit_inv in Hr1. cbn in Hr1. lia.
Qed.

Lemma SetRange_fill_length (n : nat) : forall (buf buf' : Slots Z) (Data Fill Data' : Z),
  SetRange_fill n buf Data Fill = Ok (buf', Data') -> length buf' = length buf.
Proof.
  induction n as [|n IH]; intros buf buf' Data Fill Data' Hrun; cbn [SetRange_fill] in Hrun.
  - injection Hrun as <- _. reflexivity.
  - apply Result_bind_Ok in Hrun as (buf1 & Hst & Hrun).
    apply IH in Hrun. apply store_length in Hst. congruence.
Qed.

Lemma SetRange_inv (a a' : TBitArray) (Index Num : Z) (bValue : bool) :
  BitWellFormed a -> SetRange a Index Num bValue = Ok a' -> BitWellFormed a'.
Proof.
  intros Ha Hrun. unfold SetRange in Hrun.
  apply Result_bind_Ok in Hrun as (u & _ & Hrun).
  destruct (Num =? 0); [injection Hrun as <-; exact Ha|].
  cbv zeta in Hrun. apply Result_bind_Ok in Hrun as (buf' & Hw & Hrun).
  injection Hrun as <-.
  assert (Hlen : length buf' = length (AllocatorInstance a)).
  { unfold GetData in Hw.
    destruct bValue; match type of Hw with (if ?c then _ else _) = _ => destruct c end.
    all: apply Result_bind_Ok in Hw as (w & _ & Hw).
    1, 3: apply store_length in Hw; exact Hw.
    all: apply Result_bind_Ok in Hw as (buf1 & Hst & Hw);
      apply Result_bind_Ok in Hw as ([buf2 d] & Hfill & Hw);
      apply Result_bind_Ok in Hw as (w' & _ & Hst');
      cbn [fst snd] in Hst'; apply store_length in Hst, Hst';
      apply SetRange_fill_length in Hfill; congruence. }
  destruct Ha as [Hb Hwd Hu Hl]. constructor; cbn; try assumption. rewrite Hlen. exact Hl.
Qed.

Lemma RemoveAt_loop_inv (fuel : nat) :
  forall (a a' : TBitArray) (BaseIndex NumBitsToRemove : Z) (WriteIt ReadIt : FIterator),
  RemoveAt_loop fuel a BaseIndex NumBitsToRemove WriteIt ReadIt = Ok a' ->
  NumBits a' = NumBits a /\ MaxBits a' = MaxBits a /\
  length (AllocatorInstance a') = length (AllocatorInstance a).
Proof.
  induction fuel as [|fuel IH]; intros a a' B N W R Hrun; [discriminate|].
  cbn [RemoveAt_loop] in Hrun.
  destruct (Index R <? Num a); [|injection Hrun as <-; auto].
  destruct ((Index R <? B) || (Index R >=? wrap32 (B + N))).
  - apply Result_bind_Ok in Hrun as (a1 & Hwr & Hrun). apply IH in Hrun.
    destruct (negb (Index W =? Index R)).
    + apply Result_bind_Ok in Hwr as (b & _ & Hwr).
      apply Result_bind_Ok in Hwr as (buf & Hasg & Hwr). injection Hwr as <-.
      apply FBitReference_assign_inv in Hasg as [Hl _]. cbn in Hrun.
      unfold GetData in Hl. destruct Hrun as (-> & -> & ->). auto.
    + injection Hwr as <-. exact Hrun.
  - apply IH in Hrun. exact Hrun.
Qed.

Lemma RemoveAt_inv (a a' : TBitArray) (BaseIndex NumBitsToRemove : Z) :
  BitWellFormed a -> 0 <= BaseIndex -> 0 <= NumBitsToRemove ->
  BaseIndex + NumBitsToRemove < 2 ^ 32 ->
  RemoveAt a BaseIndex NumBitsToRemove = Ok a' -> BitWellFormed a'.
Proof.
  intros [Hb Hw Hu Hl] HB HN Hsum Hrun. unfold RemoveAt in Hrun.
  rewrite wrap32_small in Hrun by lia.
  apply Result_bind_Ok in Hrun as (u & Hchk & Hrun).
  apply NexusCheck_true, Z.leb_le in Hchk.
  apply Result_bind_Ok in Hrun as (a1 & Hloop & Hrun). injection Hrun as <-.
  assert (Hsame : NumBits a1 = NumBits a /\ MaxBits a1 = MaxBits a /\
                  length (AllocatorInstance a1) = length (AllocatorInstance a)).
  { destruct (negb (BaseIndex + NumBitsToRemove =? NumBits a)).
    - eapply RemoveAt_loop_inv. exact Hloop.
    - injection Hloop as <-. auto. }
  destruct Hsame as (Hn & Hm & Hlen).
  constructor; cbn; rewrite ?Hn, ?Hm, ?Hlen; try assumption.
  rewrite wrap32_small by lia. lia.
Qed.

Lemma Reset_inv (a a' : TBitArray) :
  BitWellFormed a -> Reset a = Ok a' -> BitWellFormed a'.
Proof.
  intros [Hb Hw Hu Hl] Hrun. unfold Reset in Hrun.
  apply Result_bind_Ok in Hrun as (buf & Hset & Hrun). injection Hrun as <-.
  apply Memset_length in Hset. unfold GetData in Hset.
  constructor; cbn; rewrite ?Hset; try assumption. lia.
Qed.

Lemma assign_copy_inv (a Copy a' : TBitArray) :
  BitWellFormed a -> BitWellFormed Copy -> assign_copy a Copy = Ok a' -> BitWellFormed a'.
Proof.
  intros Ha [Hb Hw Hu Hl] Hrun. unfold assign_copy in Hrun.
  apply Result_bind_Ok in Hrun as (a1 & Hemp & Hrun).
  apply Empty_inv in Hemp; [|exact Ha|unfold Num; lia].
  destruct Hemp as ([Hb1 Hw1 Hu1 Hl1] & Hn1 & Hm1). unfold Num in Hm1.
  cbn [NumBits MaxBits AllocatorInstance] in Hrun.
  assert (Hfit : NumBits Copy <= MaxBits a1) by (rewrite Hm1; zdiv).
  destruct (negb (NumBits Copy =? 0)).
  - apply Result_bind_Ok in Hrun as (buf & Hcpy & Hrun). injection Hrun as <-.
    apply Memcpy_length in Hcpy. unfold GetData in Hcpy. cbn in Hcpy.
    constructor; cbn; rewrite ?Hcpy; try assumption. lia.
  - injection Hrun as <-. constructor; cbn; try assumption. lia.
Qed.

Lemma MoveOrCopy_inv (ToArray FromArray t f : TBitArray) :
  BitWellFormed ToArray -> BitWellFormed FromArray ->
  MoveOrCopy ToArray FromArray = Ok (t, f) -> BitWellFormed t.
Proof.
  intros Ha Hf Hrun. unfold MoveOrCopy in Hrun. destruct SupportsMove.
  - cbn in Hrun. injection Hrun as <- _. destruct Hf as [Hb Hw Hu Hl].
    constructor; cbn; try assumption. rewrite !length_fmap. exact Hl.
  - apply Result_bind_Ok in Hrun as (t' & Hcpy & Hrun). injection Hrun as <- _.
    exact (assign_copy_inv _ _ _ Ha Hf Hcpy).
Qed.

Lemma bit_step_inv (op : Operation) (a a' : TBitArray) :
  GrowthCovers -> GrowthWithinBits -> BitCallInRange op -> BitWellFormed a ->
  step op a = Ok a' -> BitWellFormed a'.
Proof.
  intros Hg Hf Hop Ha Hrun. destruct op; cbn [step] in Hrun; cbn [BitCallInRange] in Hop.
  - apply (Init_inv a a' bValue InNumBits Ha); [lia | exact Hrun].
  - eapply Reserve_inv; eassumption.
  - eapply Empty_inv; eassumption.
  - eapply Reset_inv; eassumption.
  - apply Result_bind_Ok in Hrun as ([i b] & Hadd & Hrun). injection Hrun as <-.
    eapply Add_inv; eassumption.
  - apply Result_bind_Ok in Hrun as ([i b] & Hadd & Hrun). injection Hrun as <-.
    eapply AddMany_inv; eassumption.
  - apply set_bit_inv in Hrun as (Hn & Hm & Hl & _). destruct Ha as [Hb Hw Hu Hlen].
    constructor; rewrite ?Hn, ?Hm, ?Hl; assumption.
  - eapply SetRange_inv; eassumption.
  - destruct Hop as (HB & HN & Hsum). exact (RemoveAt_inv _ _ _ _ Ha HB HN Hsum Hrun).
  - exact (assign_copy_inv _ _ _ Ha Hop Hrun).
  - apply Result_bind_Ok in Hrun as ([t f] & Hmv & Hrun). injection Hrun as <-.
    exact (MoveOrCopy_inv _ _ _ _ Ha Hop Hmv).
Qed.

Lemma bit_run_inv (ops : list Operation) :
  GrowthCovers -> GrowthWithinBits -> Forall BitCallInRange ops ->
  forall (a : TBitArray) (states : list TBitArray),
    BitWellFormed a -> run ops a = Ok states -> Forall BitWellFormed states.
Proof.
  intros Hg Hf Hops. induction Hops as [|op ops Hop Hops IH]; intros a states Ha Hrun.
  - injection Hrun as <-. constructor.
  - cbn [run] in Hrun.
    apply Result_bind_Ok in Hrun as (a1 & Hstep & Hrun).
    apply Result_bind_Ok in Hrun as (rest & Hrest & Hrun). injection Hrun as <-.
    assert (Ha1 : BitWellFormed a1) by (eapply bit_step_inv; eassumption).
    constructor; [exact Ha1 | eapply IH; eassumption].
Qed.
End BitCounters.

(** ** The invariants after every call *)

Section Invariants.
Context {E : Type} {Alloc : Allocator} {Traits : ElementTraits E}.

(** X12: With a growth policy that answers with room for the request, after
    every call of a sequence of mutating calls on an array that returns,
    [0 <= ArrayNum <= ArrayMax] holds. *)
Theorem array_counters_in_order_after_every_call
    (ops : list (Array.Operation E)) (a : Array.TArray E) (states : list (Array.TArray E)) :
  GrowthCovers ->
  Forall ArrayCallInRange ops ->
  0 <= Array.ArrayNum a <= Array.ArrayMax a ->
  Array.run ops a = Ok states ->
  Forall (fun s => 0 <= Array.ArrayNum s <= Array.ArrayMax s) states.
Proof.
  intros Hg Hops Ha Hrun. exact (run_counters ops Hg Hops a states Ha Hrun).
Qed.

(** With a growth policy that answers with room for the request and
    within the words a [uint32] bit count holds, after every call of a
    sequence of mutating calls on a bit array that returns,
    [0 <= NumBits <= MaxBits] and [MaxBits mod 32 = 0] hold, when the calls
    ask [Init] and [Reserve] for at most [2^32 - 32] bits and remove ranges
    whose end [BaseIndex + NumBitsToRemove] stays below [2^32]. *)
Theorem bit_counters_in_order_after_every_call
    (ops : list BitArray.Operation) (b : BitArray.TBitArray)
    (states : list BitArray.TBitArray) :
  GrowthCovers -> GrowthWithinBits ->
  Forall BitCallInRange ops ->
  BitWellFormed b ->
  BitArray.run ops b = Ok states ->
  Forall (fun s => 0 <= BitArray.NumBits s <= BitArray.MaxBits s /\
                   BitArray.MaxBits s mod 32 = 0) states.
Proof.
  intros Hg Hf Hops Hb Hrun.
  pose proof (bit_run_inv ops Hg Hf Hops b states Hb Hrun) as Hall.
  eapply Forall_impl; [exact Hall|].
  intros s [Hs Hw _ _]. split; assumption.
Qed.
End Invariants.

(** C1: [0 <= NumBits <= MaxBits] does not hold after every call on a bit
    array.  [RemoveAt] guards its range by
    [Check(BaseIndex + NumBitsToRemove <= NumBits)], and the sum is taken in
    [uint32]: on a bit array of 32 bits, [RemoveAt(1, 4294967295)] passes the
    check, the sum having wrapped around to 0, writes nothing and leaves
    [NumBits = 33] above [MaxBits = 32]. *)
Lemma RemoveAt_wrapped_range_breaks_counters :
  BitArray.run (Alloc := DoublingAllocator)
    [BitArray.OpInit false 32; BitArray.OpRemoveAt 1 4294967295]
    (BitArray.mkTBitArray [] 0 0)
  = Ok [BitArray.mkTBitArray [Some 0] 32 32; BitArray.mkTBitArray [Some 0] 33 32] /\
  ~ (BitArray.NumBits (BitArray.mkTBitArray [Some 0] 33 32)
     <= BitArray.MaxBits (BitArray.mkTBitArray [Some 0] 33 32)).
Proof. split; [vm_compute; reflexivity | cbn; lia]. Qed.

Lemma DoublingAllocator_covers : GrowthCovers (Alloc := DoublingAllocator).
Proof. intros n m sz. cbn. lia. Defined.

Lemma DoublingAllocator_within_bits : GrowthWithinBits (Alloc := DoublingAllocator).
Proof. intros n m Hn. cbn. lia. Defined.

Lemma array_counters_in_order_after_every_call_run :
  Forall (fun s => 0 <= Array.ArrayNum s <= Array.ArrayMax s)
    [Array.mkTArray [Some 1] 1 1;
     Array.mkTArray [Some 2; Some 1] 2 2;
     Array.mkTArray [Some 1; Some 1] 1 2;
     Array.mkTArray [Some 1] 1 1].
Proof.
  apply (array_counters_in_order_after_every_call (E := Z) (Alloc := DoublingAllocator)
           (Traits := Int32Elements true true)
           [Array.OpAdd (Array.Outside 1); Array.OpInsert (Array.Outside 2) 0;
            Array.OpRemoveAt 0; Array.OpShrink] Array.TArray_default).
  - exact DoublingAllocator_covers.
  - repeat (constructor; [exact I|]). constructor.
  - cbn. lia.
  - vm_compute. reflexivity.
Defined.

Lemma bit_counters_in_order_after_every_call_run :
  Forall (fun s => 0 <= BitArray.NumBits s <= BitArray.MaxBits s /\
                   BitArray.MaxBits s mod 32 = 0)
    [BitArray.mkTBitArray [Some 0; Some 0] 40 64;
     BitArray.mkTBitArray [Some 32736; Some 0] 40 64;
     BitArray.mkTBitArray [Some 1023; Some 0] 35 64].
Proof.
  apply (bit_counters_in_order_after_every_call (Alloc := DoublingAllocator)
           [BitArray.OpInit false 40; BitArray.OpSetRange 5 10 true;
            BitArray.OpRemoveAt 0 5] (BitArray.mkTBitArray [] 0 0)).
  - exact DoublingAllocator_covers.
  - exact DoublingAllocator_within_bits.
  - repeat (constructor; [unfold BitCallInRange; lia|]). constructor.
  - constructor; cbn [BitArray.NumBits BitArray.MaxBits BitArray.AllocatorInstance length];
      try reflexivity; lia.
  - vm_compute. reflexivity.
Defined.

(** ** Removal of bits *)

Lemma pow2_mask_range (k : Z) : 0 <= k < 32 -> 0 < 2 ^ k < 2 ^ 32.
Proof.
  intros Hk. split; [apply Z.pow_pos_nonneg; lia | apply Z.pow_lt_mono_r; lia].
Qed.

Lemma testbit_mask (w k : Z) :
  0 <= k -> negb (Z.land w (2 ^ k) =? 0) = Z.testbit w k.
Proof.
  intros Hk. destruct (Z.testbit w k) eqn:Hb.
  - destruct (Z.eqb_spec (Z.land w (2 ^ k)) 0) as [Hz|]; [|reflexivity].
    assert (Hbit : Z.testbit (Z.land w (2 ^ k)) k = true).
    { rewrite Z.land_spec, Hb, Z.pow2_bits_true by lia. reflexivity. }
    rewrite Hz, Z.bits_0 in Hbit. discriminate.
  - assert (Hz : Z.land w (2 ^ k) = 0).
    { apply Z.bits_inj'. intros n Hn. rewrite Z.land_spec, Z.bits_0.
      rewrite Z.pow2_bits_eqb by lia.
      destruct (Z.eqb_spec k n) as [<-|_]; [rewrite Hb|]; auto using andb_false_r. }
    rewrite Hz. reflexivity.
Qed.

Lemma testbit_set_mask (w k m : Z) :
  0 <= k -> 0 <= m ->
  Z.testbit (Z.lor w (2 ^ k)) m = if k =? m then true else Z.testbit w m.
Proof.
  intros Hk Hm. rewrite Z.lor_spec, Z.pow2_bits_eqb by lia.
  destruct (k =? m); [apply orb_true_r | apply orb_false_r].
Qed.

Lemma testbit_clear_mask (w k m : Z) :
  0 <= k -> 0 <= m < 32 ->
  Z.testbit (Z.land w (not32 (2 ^ k))) m = if k =? m then false else Z.testbit w m.
Proof.
  intros Hk Hm. unfold not32, wrap32.
  rewrite Z.land_spec, Z.mod_pow2_bits_low, Z.lnot_spec, Z.pow2_bits_eqb by lia.
  destruct (k =? m); cbn [negb]; [apply andb_false_r | apply andb_true_r].
Qed.

Lemma index_mask (i : Z) :
  0 <= i -> wrap32 (Z.shiftl 1 (Z.land i (NUM_BITS_PER_DWORD - 1))) = 2 ^ (i mod 32).
Proof.
  intros Hi. change (NUM_BITS_PER_DWORD - 1) with (Z.ones 5).
  rewrite Z.land_ones by lia. change (2 ^ 5) with 32.
  assert (Hm : 0 <= i mod 32 < 32) by (apply Z.mod_pos_bound; lia).
  rewrite Z.shiftl_1_l. apply wrap32_small.
  pose proof (pow2_mask_range (i mod 32) Hm). lia.
Qed.

Lemma FIterator_ctor_at_0 : IteratorAt (BitArray.FIterator_ctor 0) 0.
Proof. repeat split. Qed.

Lemma FIterator_incr_at (it : BitArray.FIterator) (i : Z) :
  IteratorAt it i -> 0 <= i -> i + 1 < 2 ^ 32 ->
  IteratorAt (BitArray.FIterator_incr it) (i + 1).
Proof.
  intros (Hidx & Hdw & Hmask) Hi Hlt. unfold BitArray.FIterator_incr.
  rewrite Hidx, Hdw, Hmask.
  assert (Hm : 0 <= i mod 32 < 32) by (apply Z.mod_pos_bound; lia).
  rewrite Z.shiftl_mul_pow2 by lia. rewrite <- Z.pow_add_r by lia.
  rewrite (wrap32_small (i + 1)) by lia.
  destruct (Z.eq_dec (i mod 32) 31) as [H31|Hn31].
  - rewrite H31. change (wrap32 (2 ^ (31 + 1))) with 0. cbn [Z.eqb].
    unfold IteratorAt. cbn [BitArray.Index BitArray.Ref BitArray.DwordIndex BitArray.Mask].
    assert (Hq : (i + 1) / 32 = i / 32 + 1) by (Z.div_mod_to_equations; lia).
    assert (Hr : (i + 1) mod 32 = 0) by (Z.div_mod_to_equations; lia).
    rewrite Hq, Hr. rewrite wrap32_small by (Z.div_mod_to_equations; lia).
    repeat split.
  - pose proof (pow2_mask_range (i mod 32 + 1) ltac:(lia)) as Hp.
    rewrite wrap32_small by lia.
    destruct (Z.eqb_spec (2 ^ (i mod 32 + 1)) 0) as [Hz|_]; [lia|].
    unfold IteratorAt. cbn [BitArray.Index BitArray.Ref BitArray.DwordIndex BitArray.Mask].
    assert (Hq : (i + 1) / 32 = i / 32) by (Z.div_mod_to_equations; lia).
    assert (Hr : (i + 1) mod 32 = i mod 32 + 1) by (Z.div_mod_to_equations; lia).
    rewrite Hq, Hr. repeat split.
Qed.

Lemma FBitReference_get_at (d : Slots Z) (i : Z) (b : bool) :
  0 <= i -> bit_at d i = Some b ->
  BitArray.FBitReference_get d (i / 32) (2 ^ (i mod 32)) = Ok b.
Proof.
  intros Hi Hb. unfold bit_at in Hb.
  destruct (d !! Z.to_nat (i / 32)) as [[w|]|] eqn:Hw; try discriminate.
  injection Hb as <-. unfold BitArray.FBitReference_get.
  assert (Hld : load d (i / 32) = Ok w)
    by (apply load_Ok; split; [Z.div_mod_to_equations; lia | exact Hw]).
  rewrite Hld. cbn [Result_bind]. f_equal. apply testbit_mask.
  apply Z.mod_pos_bound. lia.
Qed.

Lemma FBitReference_assign_at (d : Slots Z) (i : Z) (b0 v : bool) :
  0 <= i -> bit_at d i = Some b0 ->
  exists d', BitArray.FBitReference_assign d (i / 32) (2 ^ (i mod 32)) v = Ok d' /\
    length d' = length d /\
    bit_at d' i = Some v /\
    (forall j, 0 <= j -> j <> i -> bit_at d' j = bit_at d j).
Proof.
  intros Hi Hb. unfold bit_at in Hb.
  destruct (d !! Z.to_nat (i / 32)) as [[w|]|] eqn:Hw; try discriminate.
  assert (Hq : 0 <= i / 32) by (Z.div_mod_to_equations; lia).
  assert (Hm : 0 <= i mod 32 < 32) by (apply Z.mod_pos_bound; lia).
  assert (Hlt : (Z.to_nat (i / 32) < length d)%nat) by (eapply lookup_lt_Some; exact Hw).
  assert (Hld : load d (i / 32) = Ok w) by (apply load_Ok; auto).
  unfold BitArray.FBitReference_assign. rewrite Hld. cbn [Result_bind].
  set (w' := if v then Z.lor w (2 ^ (i mod 32)) else Z.land w (not32 (2 ^ (i mod 32)))).
  assert (Hw' : forall m, 0 <= m < 32 ->
            Z.testbit w' m = if i mod 32 =? m then v else Z.testbit w m).
  { intros m Hm'. unfold w'. destruct v.
    - apply testbit_set_mask; lia.
    - apply testbit_clear_mask; lia. }
  exists (<[Z.to_nat (i / 32) := Some w']> d). split; [|split; [|split]].
  - apply store_Ok. split; [lia | reflexivity].
  - apply length_insert.
  - unfold bit_at. rewrite list_lookup_insert_eq by exact Hlt.
    rewrite Hw' by lia. rewrite Z.eqb_refl. reflexivity.
  - intros j Hj Hne. unfold bit_at.
    destruct (Z.eq_dec (j / 32) (i / 32)) as [Heq|Hdiff].
    + rewrite Heq, list_lookup_insert_eq, Hw by exact Hlt.
      assert (Hjm : 0 <= j mod 32 < 32) by (apply Z.mod_pos_bound; lia).
      rewrite Hw' by lia.
      destruct (Z.eqb_spec (i mod 32) (j mod 32)) as [Hmm|_]; [|reflexivity].
      exfalso. apply Hne. Z.div_mod_to_equations. lia.
    + rewrite list_lookup_insert_ne; [reflexivity|].
      assert (0 <= j / 32) by (Z.div_mod_to_equations; lia). lia.
Qed.

Lemma get_bit_at (a : BitArray.TBitArray) (i : Z) (b : bool) :
  0 <= i < BitArray.NumBits a ->
  bit_at (BitArray.AllocatorInstance a) i = Some b ->
  BitArray.get_bit a i = Ok b.
Proof.
  intros Hi Hb. unfold BitArray.get_bit, BitArray.operator_index.
  replace (i <? BitArray.NumBits a) with true by (symmetry; apply Z.ltb_lt; lia).
  cbn [NexusCheck Result_bind fst snd]. rewrite index_mask by lia.
  apply FBitReference_get_at; [lia | exact Hb].
Qed.

Section Compaction.
Variables (d0 : Slots Z) (N M B C : Z).
Hypothesis HB : 0 <= B.
Hypothesis HC : 0 <= C.
Hypothesis Hrange : B + C <= N.
Hypothesis HN : N < 2 ^ 32.

Lemma write_position_le (r : Z) : 0 <= r -> 0 <= write_position B C r <= r.
Proof.
  intros Hr. unfold write_position.
  destruct (Z.leb_spec r B); [lia|]. destruct (Z.ltb_spec r (B + C)); lia.
Qed.

Lemma RemoveAt_loop_compacts (fuel : nat) :
  forall (r : Z) (a : BitArray.TBitArray) (WriteIt ReadIt : BitArray.FIterator),
    0 <= r <= N -> N - r < Z.of_nat fuel ->
    BitArray.NumBits a = N -> BitArray.MaxBits a = M ->
    IteratorAt ReadIt r -> IteratorAt WriteIt (write_position B C r) ->
    Compacted d0 N B C (BitArray.AllocatorInstance a) r ->
    exists a', BitArray.RemoveAt_loop fuel a B C WriteIt ReadIt = Ok a' /\
      BitArray.NumBits a' = N /\ BitArray.MaxBits a' = M /\
      Compacted d0 N B C (BitArray.AllocatorInstance a') N.
Proof.
  induction fuel as [|fuel IH]; intros r a W R Hr Hfuel Hnum Hmax HR HW Hcomp; [lia|].
  cbn [BitArray.RemoveAt_loop]. unfold BitArray.Num.
  destruct HR as (HRi & HRd & HRm). destruct HW as (HWi & HWd & HWm).
  rewrite HRi, Hnum, (wrap32_small (B + C)) by lia.
  destruct (Z.ltb_spec r N) as [Hlt|Hge].
  2:{ exists a. assert (Hr' : r = N) by lia. rewrite Hr' in Hcomp.
      split; [reflexivity|]. split; [exact Hnum|]. split; [exact Hmax | exact Hcomp]. }
  assert (HR' : IteratorAt (BitArray.FIterator_incr R) (r + 1))
    by (apply FIterator_incr_at; [repeat split; assumption | lia | lia]).
  pose proof (write_position_le r ltac:(lia)) as Hwle.
  destruct Hcomp as (Hlow & Hhigh & Hdef).
  destruct ((r <? B) || (r >=? B + C)) eqn:Hkeep.
  - (* the bit at [r] survives *)
    assert (Hsurv : r < B \/ B + C <= r).
    { apply orb_true_iff in Hkeep as [Hk|Hk];
        [left; apply Z.ltb_lt in Hk; lia | right; apply Z.geb_le in Hk; lia]. }
    assert (Hnext : write_position B C (r + 1) = write_position B C r + 1).
    { unfold write_position.
      destruct (Z.leb_spec r B), (Z.leb_spec (r + 1) B),
               (Z.ltb_spec r (B + C)), (Z.ltb_spec (r + 1) (B + C)); lia. }
    assert (Hsrc : source_bit B C (write_position B C r) = r).
    { unfold source_bit, write_position.
      destruct (Z.leb_spec r B), (Z.ltb_spec r (B + C)); 
        try (destruct (Z.ltb_spec r B); lia);
        try (destruct (Z.ltb_spec B B); lia);
        try (destruct (Z.ltb_spec (r - C) B); lia). }
    assert (HW' : IteratorAt (BitArray.FIterator_incr W) (write_position B C (r + 1))).
    { rewrite Hnext. apply FIterator_incr_at; [repeat split; assumption | lia | lia]. }
    rewrite HWi.
    destruct (Z.eqb_spec (write_position B C r) r) as [Hsame|Hdiff]; cbn [negb Result_bind].
    + (* nothing to copy *)
      apply (IH (r + 1) a); try assumption; try lia.
      split; [|split].
      * intros i Hi. rewrite Hnext in Hi.
        destruct (Z.eq_dec i (write_position B C r)) as [->|Hne].
        -- rewrite Hsrc. rewrite Hsame. apply Hhigh. lia.
        -- apply Hlow. lia.
      * intros i Hi. apply Hhigh. lia.
      * exact Hdef.
    + (* the bit moves down to the write position *)
      destruct (Hdef r ltac:(lia)) as [b Hb].
      unfold BitArray.GetData. rewrite HRd, HRm, HWd, HWm.
      rewrite (FBitReference_get_at _ r b) by (try lia; exact Hb).
      cbn [Result_bind].
      destruct (Hdef (write_position B C r) ltac:(lia)) as [b0 Hb0].
      destruct (FBitReference_assign_at (BitArray.AllocatorInstance a) (write_position B C r)
                  b0 b ltac:(lia) Hb0)
        as (d' & Hasg & Hlen & Hnew & Hothers).
      rewrite Hasg. cbn [Result_bind].
      apply (IH (r + 1)); cbn [BitArray.NumBits BitArray.MaxBits BitArray.AllocatorInstance];
        try assumption; try lia.
      split; [|split].
      * intros i Hi. rewrite Hnext in Hi.
        destruct (Z.eq_dec i (write_position B C r)) as [->|Hne].
        -- rewrite Hsrc, Hnew, <- Hb. apply Hhigh. lia.
        -- rewrite Hothers by lia. apply Hlow. lia.
      * intros i Hi. rewrite Hothers by lia. apply Hhigh. lia.
      * intros i Hi. destruct (Z.eq_dec i (write_position B C r)) as [->|Hne].
        -- eauto.
        -- rewrite Hothers by lia. apply Hdef. exact Hi.
  - (* the bit at [r] is removed *)
    apply orb_false_iff in Hkeep as [Hk1 Hk2].
    apply Z.ltb_ge in Hk1. rewrite Z.geb_leb in Hk2. apply Z.leb_gt in Hk2.
    assert (Hnext : write_position B C (r + 1) = write_position B C r).
    { unfold write_position.
      destruct (Z.leb_spec r B), (Z.leb_spec (r + 1) B),
               (Z.ltb_spec r (B + C)), (Z.ltb_spec (r + 1) (B + C)); lia. }
    apply (IH (r + 1) a); try assumption; try lia.
    + rewrite Hnext. repeat split; assumption.
    + split; [|split].
      * intros i Hi. rewrite Hnext in Hi. apply Hlow. exact Hi.
      * intros i Hi. apply Hhigh. lia.
      * exact Hdef.
Qed.
End Compaction.

Section RemoveBits.
Import BitArray.

(** C4: on a bit array whose bits have values, [RemoveAt(BaseIndex,
    NumBitsToRemove)] with [BaseIndex + NumBitsToRemove <= NumBits] returns,
    lowers [NumBits] by the count, leaves every bit below [BaseIndex] as it
    was and gives every bit [i] from [BaseIndex] up to the new [NumBits]
    the old value of bit [i + NumBitsToRemove]. *)
Theorem RemoveAt_compacts_survivors (a : TBitArray) (BaseIndex NumBitsToRemove : Z) :
  0 <= BaseIndex -> 0 <= NumBitsToRemove ->
  BaseIndex + NumBitsToRemove <= NumBits a -> NumBits a < 2 ^ 32 ->
  BitsInitialised a ->
  exists a', RemoveAt a BaseIndex NumBitsToRemove = Ok a' /\
    NumBits a' = NumBits a - NumBitsToRemove /\
    (forall i, 0 <= i < BaseIndex ->
       exists b, get_bit a i = Ok b /\ get_bit a' i = Ok b) /\
    (forall i, BaseIndex <= i < NumBits a - NumBitsToRemove ->
       exists b, get_bit a (i + NumBitsToRemove) = Ok b /\ get_bit a' i = Ok b).
Proof.
  intros HB HC Hrange HN Hinit. unfold RemoveAt.
  rewrite (wrap32_small (BaseIndex + NumBitsToRemove)) by lia.
  replace (BaseIndex + NumBitsToRemove <=? NumBits a) with true
    by (symmetry; apply Z.leb_le; lia).
  cbn [NexusCheck Result_bind].
  destruct (Z.eqb_spec (BaseIndex + NumBitsToRemove) (NumBits a)) as [Hsuffix|Hinner];
    cbn [negb Result_bind].
  - rewrite wrap32_small by lia.
    eexists. split; [reflexivity|]. cbn [NumBits]. split; [reflexivity|]. split.
    + intros i Hi. destruct (Hinit i ltac:(lia)) as [b Hb]. exists b.
      split; apply get_bit_at; cbn [NumBits AllocatorInstance]; try lia; exact Hb.
    + intros i Hi. lia.
  - destruct (RemoveAt_loop_compacts (AllocatorInstance a) (NumBits a) (MaxBits a)
                BaseIndex NumBitsToRemove HB HC Hrange HN
                (S (Z.to_nat (NumBits a))) 0 a (FIterator_ctor 0) (FIterator_ctor 0))
      as (a1 & Hrun & Hnum & Hmax & Hlow & _ & _).
    + lia.
    + lia.
    + reflexivity.
    + reflexivity.
    + exact FIterator_ctor_at_0.
    + replace (write_position BaseIndex NumBitsToRemove 0) with 0
        by (unfold write_position; destruct (Z.leb_spec 0 BaseIndex); lia).
      exact FIterator_ctor_at_0.
    + split; [|split].
      * intros i Hi. unfold write_position in Hi.
        destruct (Z.leb_spec 0 BaseIndex); lia.
      * reflexivity.
      * exact Hinit.
    + rewrite Hrun. cbn [Result_bind]. rewrite Hnum, wrap32_small by lia.
      eexists. split; [reflexivity|]. cbn [NumBits]. split; [reflexivity|].
      assert (Hend : write_position BaseIndex NumBitsToRemove (NumBits a)
                     = NumBits a - NumBitsToRemove).
      { unfold write_position.
        destruct (Z.leb_spec (NumBits a) BaseIndex),
                 (Z.ltb_spec (NumBits a) (BaseIndex + NumBitsToRemove)); lia. }
      rewrite Hend in Hlow. split.
      * intros i Hi. destruct (Hinit i ltac:(lia)) as [b Hb]. exists b.
        split; [apply get_bit_at; [lia | exact Hb]|].
        apply get_bit_at; cbn [NumBits AllocatorInstance]; [lia|].
        rewrite Hlow by lia. unfold source_bit.
        destruct (Z.ltb_spec i BaseIndex); [exact Hb | lia].
      * intros i Hi. destruct (Hinit (i + NumBitsToRemove) ltac:(lia)) as [b Hb]. exists b.
        split; [apply get_bit_at; [lia | exact Hb]|].
        apply get_bit_at; cbn [NumBits AllocatorInstance]; [lia|].
        rewrite Hlow by lia. unfold source_bit.
        destruct (Z.ltb_spec i BaseIndex); [lia | exact Hb].
Qed.
End RemoveBits.


(** ** Bits keep their values *)

Lemma AllSet_insert {T : Type} (buf : Slots T) (i : nat) (v : T) :
  AllSet buf -> AllSet (<[i := Some v]> buf).
Proof.
  intros Hset j Hj. rewrite length_insert in Hj.
  destruct (Nat.eq_dec i j) as [->|Hne].
  - exists v. apply list_lookup_insert_eq. exact Hj.
  - rewrite list_lookup_insert_ne by exact Hne. apply Hset. exact Hj.
Qed.

Lemma store_set {T : Type} (buf buf' : Slots T) (i : Z) (v : T) :
  AllSet buf -> store buf i v = Ok buf' -> AllSet buf'.
Proof. intros Hset Hst. apply store_Ok in Hst as [_ ->]. apply AllSet_insert. exact Hset. Qed.

Lemma Memset_fills {T : Type} (buf buf' : Slots T) (off : Z) (v : T) (n : Z) :
  (forall j : nat, Z.of_nat j < off -> (j < length buf)%nat ->
     exists w, buf !! j = Some (Some w)) ->
  (n = 0 -> Z.of_nat (length buf) <= off) ->
  (n <> 0 -> off + n = Z.of_nat (length buf)) ->
  Memset buf off v n = Ok buf' -> AllSet buf'.
Proof.
  intros Hlow Hzero Hfull Hrun. unfold Memset in Hrun.
  destruct (Z.eqb_spec n 0) as [Hn|Hn].
  - injection Hrun as <-. intros j Hj. apply Hlow; [specialize (Hzero Hn); lia | exact Hj].
  - destruct (in_bounds buf off n) eqn:Hb; [|discriminate]. injection Hrun as <-.
    apply in_bounds_true in Hb. specialize (Hfull Hn).
    intros j Hj. rewrite length_inserts in Hj.
    destruct (Z.lt_ge_cases (Z.of_nat j) off) as [Hlt|Hge].
    + rewrite list_lookup_inserts_lt by lia. apply Hlow; assumption.
    + exists v. rewrite list_lookup_inserts by (rewrite ?length_replicate; lia).
      apply lookup_replicate_2. lia.
Qed.

Lemma Memset_set {T : Type} (buf buf' : Slots T) (off : Z) (v : T) (n : Z) :
  AllSet buf -> Memset buf off v n = Ok buf' -> AllSet buf'.
Proof.
  intros Hset Hrun. unfold Memset in Hrun.
  destruct (n =? 0); [injection Hrun as <-; exact Hset|].
  destruct (in_bounds buf off n) eqn:Hb; [|discriminate]. injection Hrun as <-.
  apply in_bounds_true in Hb.
  intros j Hj. rewrite length_inserts in Hj.
  destruct (Z.lt_ge_cases (Z.of_nat j) off) as [Hlt|Hge].
  - rewrite list_lookup_inserts_lt by lia. apply Hset. exact Hj.
  - destruct (Z.lt_ge_cases (Z.of_nat j) (off + n)) as [Hin|Hout].
    + exists v. rewrite list_lookup_inserts by (rewrite ?length_replicate; lia).
      apply lookup_replicate_2. lia.
    + rewrite list_lookup_inserts_ge by (rewrite ?length_replicate; lia).
      apply Hset. exact Hj.
Qed.

Lemma Memcpy_set {T S : Type} (f : S -> T) (buf buf' : Slots T) (src : Slots S) (n : Z) :
  AllSet buf -> AllSet src -> Memcpy f buf src n = Ok buf' -> AllSet buf'.
Proof.
  intros Hset Hsrc Hrun. unfold Memcpy in Hrun.
  destruct (n =? 0); [injection Hrun as <-; exact Hset|].
  destruct (in_bounds buf 0 n && in_bounds src 0 n) eqn:Hb; [|discriminate].
  injection Hrun as <-. apply andb_true_iff in Hb as [Hb1 Hb2].
  apply in_bounds_true in Hb1, Hb2.
  intros j Hj. rewrite length_inserts in Hj.
  assert (Hk : length (fmap (M:=list) (fmap (M:=option) f) (take (Z.to_nat n) src))
               = Z.to_nat n) by (rewrite length_fmap, length_take; lia).
  destruct (Z.lt_ge_cases (Z.of_nat j) n) as [Hin|Hout].
  - rewrite list_lookup_inserts by (rewrite ?Hk; lia).
    rewrite Nat.sub_0_r, list_lookup_fmap, lookup_take_lt by lia.
    destruct (Hsrc j ltac:(lia)) as [w Hw]. rewrite Hw. eexists. reflexivity.
  - rewrite list_lookup_inserts_ge by (rewrite ?Hk; lia). apply Hset. exact Hj.
Qed.

Lemma BitsInitialised_of_words (b : BitArray.TBitArray) :
  BitWellFormed b -> WordsSet b -> BitsInitialised b.
Proof.
  intros [Hb Hw Hu Hl] Hset i Hi. unfold bit_at.
  destruct (Hset (Z.to_nat (i / 32))) as [w Hw'].
  - Z.div_mod_to_equations. lia.
  - rewrite Hw'. eexists. reflexivity.
Qed.

Section WordsStaySet.
Context {Alloc : Allocator}.
Import BitArray.

Lemma Realloc_set (a a' : TBitArray) (PreviousNumBits : Z) :
  MaxBits a mod 32 = 0 -> 0 <= MaxBits a < 2 ^ 32 -> 0 <= PreviousNumBits < 2 ^ 32 ->
  DivideAndRoundUp PreviousNumBits NUM_BITS_PER_DWORD
    <= Z.of_nat (length (AllocatorInstance a)) ->
  WordsSet a -> Realloc a PreviousNumBits = Ok a' -> WordsSet a'.
Proof.
  intros Hw Hu Hp Hprev Hset Hrun. unfold Realloc in Hrun.
  set (Prev := DivideAndRoundUp PreviousNumBits NUM_BITS_PER_DWORD) in *.
  set (MaxDw := DivideAndRoundUp (MaxBits a) NUM_BITS_PER_DWORD) in *.
  assert (HP : 0 <= Prev <= 2 ^ 27) by (unfold Prev; zdiv).
  assert (HM : 0 <= MaxDw < 2 ^ 27) by (unfold MaxDw; zdiv).
  set (buf := ResizeAllocation _ _ _) in Hrun.
  assert (Hlen : Z.of_nat (length buf) = MaxDw)
    by (unfold buf; rewrite ResizeAllocation_length; lia).
  assert (Hlow : forall j : nat, Z.of_nat j < Prev -> (j < length buf)%nat ->
            exists w, buf !! j = Some (Some w)).
  { intros j Hj Hjl. unfold buf. rewrite ResizeAllocation_lookup by lia.
    apply Hset. lia. }
  destruct (Z.eqb_spec MaxDw 0) as [Hz|Hnz]; cbn [negb] in Hrun.
  - injection Hrun as <-. intros j Hj. cbn [AllocatorInstance] in Hj. lia.
  - apply Result_bind_Ok in Hrun as (buf' & Hms & Hrun). injection Hrun as <-.
    unfold WordsSet. cbn [AllocatorInstance].
    apply (Memset_fills buf buf' Prev 0 (wrap32 (MaxDw - Prev))); try assumption.
    + intros Hn0. unfold wrap32 in Hn0. Z.div_mod_to_equations. lia.
    + intros Hn0. apply Memset_bounds in Hms; [|exact Hn0].
      unfold wrap32 in *. Z.div_mod_to_equations. lia.
Qed.

Lemma Empty_set (a a' : TBitArray) (ExpectedNumBits : Z) :
  WordsSet a -> Empty a ExpectedNumBits = Ok a' -> WordsSet a'.
Proof.
  intros Hset Hrun. unfold Empty in Hrun. cbn [MaxBits NumBits AllocatorInstance] in Hrun.
  set (Expected := wrap32 _) in *.
  destruct (negb (MaxBits a =? Expected)).
  - apply Realloc_set in Hrun; cbn [MaxBits AllocatorInstance]; try assumption.
    + unfold Expected. zdiv.
    + unfold Expected. zdiv.
    + lia.
    + change (DivideAndRoundUp 0 NUM_BITS_PER_DWORD) with 0. lia.
  - injection Hrun as <-. exact Hset.
Qed.

Lemma set_bit_set (a a' : TBitArray) (i : Z) (v : bool) :
  WordsSet a -> set_bit a i v = Ok a' -> WordsSet a'.
Proof.
  intros Hset Hrun. unfold set_bit in Hrun.
  apply Result_bind_Ok in Hrun as (r & _ & Hrun).
  apply Result_bind_Ok in Hrun as (buf & Hasg & Hrun). injection Hrun as <-.
  unfold FBitReference_assign in Hasg.
  apply Result_bind_Ok in Hasg as (w & _ & Hst).
  unfold WordsSet. cbn [AllocatorInstance]. eapply store_set; [exact Hset | exact Hst].
Qed.

Lemma AddMany_loop_set (fuel : nat) : forall (a a' : TBitArray) (It End : Z) (v : bool),
  WordsSet a -> AddMany_loop fuel a It End v = Ok a' -> WordsSet a'.
Proof.
  induction fuel as [|fuel IH]; intros a a' It End v Hset Hrun; [discriminate|].
  cbn [AddMany_loop] in Hrun. destruct (negb (It =? End)).
  - apply Result_bind_Ok in Hrun as (a1 & Hsb & Hrun).
    apply set_bit_set in Hsb; [|exact Hset]. eapply IH; eassumption.
  - injection Hrun as <-. exact Hset.
Qed.

Lemma SetRange_fill_set (n : nat) : forall (buf buf' : Slots Z) (Data Fill Data' : Z),
  AllSet buf -> SetRange_fill n buf Data Fill = Ok (buf', Data') -> AllSet buf'.
Proof.
  induction n as [|n IH]; intros buf buf' Data Fill Data' Hset Hrun;
    cbn [SetRange_fill] in Hrun.
  - injection Hrun as <- _. exact Hset.
  - apply Result_bind_Ok in Hrun as (buf1 & Hst & Hrun).
    apply store_set in Hst; [|exact Hset]. eapply IH; eassumption.
Qed.

Lemma SetRange_set (a a' : TBitArray) (Index Num : Z) (bValue : bool) :
  WordsSet a -> SetRange a Index Num bValue = Ok a' -> WordsSet a'.
Proof.
  intros Hset Hrun. unfold SetRange in Hrun.
  apply Result_bind_Ok in Hrun as (u & _ & Hrun).
  destruct (Num =? 0); [injection Hrun as <-; exact Hset|].
  cbv zeta in Hrun. apply Result_bind_Ok in Hrun as (buf' & Hw & Hrun).
  injection Hrun as <-. unfold WordsSet. cbn [AllocatorInstance].
  unfold WordsSet, GetData in *.
  destruct bValue; match type of Hw with (if ?c then _ else _) = _ => destruct c end.
  all: apply Result_bind_Ok in Hw as (w & _ & Hw).
  1, 3: eapply store_set; [exact Hset | exact Hw].
  all: apply Result_bind_Ok in Hw as (buf1 & Hst & Hw);
    apply Result_bind_Ok in Hw as ([buf2 d] & Hfill & Hw);
    apply Result_bind_Ok in Hw as (w' & _ & Hst');
    cbn [fst snd] in Hst'; apply store_set in Hst; [|exact Hset];
    apply SetRange_fill_set in Hfill; [|exact Hst];
    eapply store_set; [exact Hfill | exact Hst'].
Qed.

Lemma RemoveAt_loop_set (fuel : nat) :
  forall (a a' : TBitArray) (BaseIndex NumBitsToRemove : Z) (WriteIt ReadIt : FIterator),
  WordsSet a ->
  RemoveAt_loop fuel a BaseIndex NumBitsToRemove WriteIt ReadIt = Ok a' -> WordsSet a'.
Proof.
  induction fuel as [|fuel IH]; intros a a' B N W R Hset Hrun; [discriminate|].
  cbn [RemoveAt_loop] in Hrun.
  destruct (Index R <? Num a); [|injection Hrun as <-; exact Hset].
  destruct ((Index R <? B) || (Index R >=? wrap32 (B + N))).
  - apply Result_bind_Ok in Hrun as (a1 & Hwr & Hrun).
    refine (IH a1 a' B N _ _ _ Hrun).
    destruct (negb (Index W =? Index R)).
    + apply Result_bind_Ok in Hwr as (b & _ & Hwr).
      apply Result_bind_Ok in Hwr as (buf & Hasg & Hwr). injection Hwr as <-.
      unfold FBitReference_assign in Hasg.
      apply Result_bind_Ok in Hasg as (w & _ & Hst).
      unfold WordsSet. cbn [AllocatorInstance]. eapply store_set; [exact Hset | exact Hst].
    + injection Hwr as <-. exact Hset.
  - eapply IH; eassumption.
Qed.

Lemma assign_copy_set (a Copy a' : TBitArray) :
  WordsSet a -> WordsSet Copy -> assign_copy a Copy = Ok a' -> WordsSet a'.
Proof.
  intros Hset Hcopy Hrun. unfold assign_copy in Hrun.
  apply Result_bind_Ok in Hrun as (a1 & Hemp & Hrun).
  apply Empty_set in Hemp; [|exact Hset].
  cbn [NumBits MaxBits AllocatorInstance] in Hrun.
  destruct (negb (NumBits Copy =? 0)).
  - apply Result_bind_Ok in Hrun as (buf & Hcpy & Hrun). injection Hrun as <-.
    unfold WordsSet. cbn [AllocatorInstance].
    eapply Memcpy_set; [exact Hemp | exact Hcopy | exact Hcpy].
  - injection Hrun as <-. exact Hemp.
Qed.

Lemma bit_step_set (op : Operation) (a a' : TBitArray) :
  BitCallInRange op -> BitOperandsSet op -> BitWellFormed a -> WordsSet a ->
  step op a = Ok a' -> WordsSet a'.
Proof.
  intros Hop Hops Ha Hset Hrun.
  destruct op; cbn [step] in Hrun; cbn [BitCallInRange BitOperandsSet] in Hop, Hops.
  - unfold Init in Hrun. apply Result_bind_Ok in Hrun as (a1 & Hemp & Hrun).
    apply Empty_set in Hemp; [|exact Hset].
    destruct (negb (InNumBits =? 0)); [|injection Hrun as <-; exact Hemp].
    apply Result_bind_Ok in Hrun as (buf & Hms & Hrun). injection Hrun as <-.
    unfold WordsSet. cbn [AllocatorInstance]. eapply Memset_set; [exact Hemp | exact Hms].
  - unfold Reserve in Hrun. destruct (Number >? MaxBits a); [|injection Hrun as <-; exact Hset].
    destruct Ha as [Hb Hw Hu Hl].
    apply Realloc_set in Hrun; cbn [MaxBits NumBits AllocatorInstance]; try assumption;
      zdiv.
  - eapply Empty_set; eassumption.
  - unfold Reset in Hrun. apply Result_bind_Ok in Hrun as (buf & Hms & Hrun).
    injection Hrun as <-. unfold WordsSet. cbn [AllocatorInstance].
    eapply Memset_set; [exact Hset | exact Hms].
  - apply Result_bind_Ok in Hrun as ([i b] & Hadd & Hrun). injection Hrun as <-.
    unfold Add in Hadd. apply Result_bind_Ok in Hadd as (a1 & Hres & Hadd).
    apply Result_bind_Ok in Hadd as (a3 & Hsb & Hadd). injection Hadd as _ <-.
    assert (Hset1 : WordsSet a1).
    { unfold Reserve in Hres.
      destruct (wrap32 (NumBits a + 1) >? MaxBits a); [|injection Hres as <-; exact Hset].
      destruct Ha as [Hb Hw Hu Hl].
      apply Realloc_set in Hres; cbn [MaxBits NumBits AllocatorInstance]; try assumption;
        zdiv. }
    eapply set_bit_set; [|exact Hsb]. exact Hset1.
  - apply Result_bind_Ok in Hrun as ([i b] & Hadd & Hrun). injection Hrun as <-.
    unfold AddMany in Hadd. apply Result_bind_Ok in Hadd as (a1 & Hres & Hadd).
    apply Result_bind_Ok in Hadd as (a3 & Hloop & Hadd). injection Hadd as _ <-.
    assert (Hset1 : WordsSet a1).
    { unfold Reserve in Hres.
      destruct (wrap32 (NumBits a + NumToAdd) >? MaxBits a);
        [|injection Hres as <-; exact Hset].
      destruct Ha as [Hb Hw Hu Hl].
      apply Realloc_set in Hres; cbn [MaxBits NumBits AllocatorInstance]; try assumption;
        zdiv. }
    eapply AddMany_loop_set; [|exact Hloop]. exact Hset1.
  - eapply set_bit_set; eassumption.
  - eapply SetRange_set; eassumption.
  - unfold RemoveAt in Hrun. apply Result_bind_Ok in Hrun as (u & _ & Hrun).
    apply Result_bind_Ok in Hrun as (a1 & Hloop & Hrun). injection Hrun as <-.
    unfold WordsSet. cbn [AllocatorInstance].
    destruct (negb (wrap32 (BaseIndex + NumBitsToRemove) =? NumBits a)).
    + eapply RemoveAt_loop_set; eassumption.
    + injection Hloop as <-. exact Hset.
  - exact (assign_copy_set _ _ _ Hset Hops Hrun).
  - apply Result_bind_Ok in Hrun as ([t f] & Hmv & Hrun). injection Hrun as <-.
    unfold assign_move, MoveOrCopy in Hmv. destruct SupportsMove.
    + cbn in Hmv. injection Hmv as <- _. intros j Hj. cbn [AllocatorInstance] in *.
      rewrite !length_fmap in Hj. destruct (Hops j Hj) as [w Hw].
      rewrite list_lookup_fmap, Hw. eexists. reflexivity.
    + apply Result_bind_Ok in Hmv as (t' & Hcpy & Hmv). injection Hmv as <- _.
      exact (assign_copy_set _ _ _ Hset Hops Hcpy).
Qed.

(** After every call of a sequence of calls in range that returns, the bit
    array is well formed and all its bits have values, so that [RemoveAt]
    of any range within [NumBits] compacts it. *)
Theorem bits_have_values_after_every_call (ops : list Operation) :
  GrowthCovers -> GrowthWithinBits ->
  Forall BitCallInRange ops -> Forall BitOperandsSet ops ->
  forall (a : TBitArray) (states : list TBitArray),
    BitWellFormed a -> WordsSet a -> run ops a = Ok states ->
    Forall (fun s => BitWellFormed s /\ BitsInitialised s) states.
Proof.
  intros Hg Hf Hops Hsets. revert Hsets.
  induction Hops as [|op ops Hop Hops IH]; intros Hsets a states Ha Hset Hrun.
  - injection Hrun as <-. constructor.
  - cbn [run] in Hrun.
    apply Result_bind_Ok in Hrun as (a1 & Hstep & Hrun).
    apply Result_bind_Ok in Hrun as (rest & Hrest & Hrun). injection Hrun as <-.
    inversion Hsets as [|? ? Hset1 Hsets']. subst.
    assert (Ha1 : BitWellFormed a1) by exact (bit_step_inv op a a1 Hg Hf Hop Ha Hstep).
    assert (Hs1 : WordsSet a1) by exact (bit_step_set op a a1 Hop Hset1 Ha Hset Hstep).
    constructor.
    + split; [exact Ha1 | apply BitsInitialised_of_words; assumption].
    + eapply IH; eassumption.
Qed.
End WordsStaySet.


(** ** Counting zero bits *)

Lemma builtin_ctz_from_lowest (Value : Z) (n : nat) : forall i k : Z,
  0 <= i <= k -> k < i + Z.of_nat n -> Z.testbit Value k = true ->
  i <= builtin_ctz_from n Value i <= k /\
  Z.testbit Value (builtin_ctz_from n Value i) = true /\
  forall j, i <= j < builtin_ctz_from n Value i -> Z.testbit Value j = false.
Proof.
  induction n as [|n IH]; intros i k Hik Hk Hbit; [lia|].
  cbn [builtin_ctz_from]. destruct (Z.testbit Value i) eqn:Hi.
  - split; [lia|]. split; [exact Hi|]. intros j Hj. lia.
  - assert (Hne : i <> k) by congruence.
    destruct (IH (i + 1) k ltac:(lia) ltac:(lia) Hbit) as (Hr & Ht & Hlow).
    split; [lia|]. split; [exact Ht|]. intros j Hj.
    destruct (Z.eq_dec j i) as [->|Hji]; [exact Hi | apply Hlow; lia].
Qed.

Lemma nonzero_has_bit (Value w : Z) :
  0 < w -> 0 < Value < 2 ^ w ->
  0 <= Z.log2 Value < w /\ Z.testbit Value (Z.log2 Value) = true /\
  forall j, Z.log2 Value < j -> Z.testbit Value j = false.
Proof.
  intros Hw HV. split; [|split].
  - split; [apply Z.log2_nonneg | apply Z.log2_lt_pow2; lia].
  - apply Z.bit_log2. lia.
  - intros j Hj. apply Z.bits_above_log2; lia.
Qed.

Lemma builtin_clz_from_highest (Value : Z) (n : nat) : forall k : Z,
  0 < Value -> 0 <= k -> Z.log2 Value <= 31 - k ->
  31 - k - Z.log2 Value < Z.of_nat n ->
  builtin_clz_from n Value k = 31 - Z.log2 Value.
Proof.
  induction n as [|n IH]; intros k HV Hk Hlog Hn; [lia|].
  cbn [builtin_clz_from]. destruct (Z.testbit Value (31 - k)) eqn:Hbit.
  - destruct (Z.eq_dec (Z.log2 Value) (31 - k)) as [->|Hne]; [lia|].
    rewrite Z.bits_above_log2 in Hbit by lia. discriminate.
  - assert (Z.log2 Value <> 31 - k).
    { intros Heq. rewrite <- Heq, Z.bit_log2 in Hbit by lia. discriminate. }
    apply IH; lia.
Qed.

Lemma builtin_clzll_from_highest (Value : Z) (n : nat) : forall k : Z,
  0 < Value -> 0 <= k -> Z.log2 Value <= 63 - k ->
  63 - k - Z.log2 Value < Z.of_nat n ->
  builtin_clzll_from n Value k = 63 - Z.log2 Value.
Proof.
  induction n as [|n IH]; intros k HV Hk Hlog Hn; [lia|].
  cbn [builtin_clzll_from]. destruct (Z.testbit Value (63 - k)) eqn:Hbit.
  - destruct (Z.eq_dec (Z.log2 Value) (63 - k)) as [->|Hne]; [lia|].
    rewrite Z.bits_above_log2 in Hbit by lia. discriminate.
  - assert (Z.log2 Value <> 63 - k).
    { intros Heq. rewrite <- Heq, Z.bit_log2 in Hbit by lia. discriminate. }
    apply IH; lia.
Qed.

(** The lowest set bit of a non-zero word, as [CountTrailingZeros] finds
    it. *)
Lemma CountTrailingZeros_spec (Value : Z) :
  0 < Value < 2 ^ 32 ->
  0 <= CountTrailingZeros Value < 32 /\
  Z.testbit Value (CountTrailingZeros Value) = true /\
  forall i, 0 <= i < CountTrailingZeros Value -> Z.testbit Value i = false.
Proof.
  intros HV. unfold CountTrailingZeros.
  destruct (Z.eqb_spec Value 0) as [?|_]; [lia|].
  destruct (nonzero_has_bit Value 32 ltac:(lia) HV) as (Hlog & Hbit & _).
  destruct (builtin_ctz_from_lowest Value 32 0 (Z.log2 Value) ltac:(lia) ltac:(lia) Hbit)
    as (Hr & Ht & Hlow).
  split; [lia|]. split; [exact Ht | exact Hlow].
Qed.

Lemma CountLeadingZeros_spec (Value : Z) :
  0 < Value < 2 ^ 32 -> CountLeadingZeros Value = 31 - Z.log2 Value.
Proof.
  intros HV. unfold CountLeadingZeros.
  destruct (Z.eqb_spec Value 0) as [?|_]; [lia|].
  destruct (nonzero_has_bit Value 32 ltac:(lia) HV) as (Hlog & _ & _).
  apply builtin_clz_from_highest; lia.
Qed.

(** X2: [CountTrailingZeros] of a [uint32] is 32 for 0 and nothing else; for
    a non-zero value it is the index of the lowest set bit. *)
Theorem CountTrailingZeros_lowest_set_bit (Value : Z) :
  0 <= Value < 2 ^ 32 ->
  (CountTrailingZeros Value = 32 <-> Value = 0) /\
  (Value <> 0 ->
   0 <= CountTrailingZeros Value < 32 /\
   Z.testbit Value (CountTrailingZeros Value) = true /\
   forall i, 0 <= i < CountTrailingZeros Value -> Z.testbit Value i = false).
Proof.
  intros HV. split.
  - split.
    + intros H32. destruct (Z.eq_dec Value 0) as [|Hne]; [assumption|].
      destruct (CountTrailingZeros_spec Value ltac:(lia)) as (Hr & _). lia.
    + intros ->. reflexivity.
  - intros Hne. apply CountTrailingZeros_spec. lia.
Qed.

(** X1: [CountLeadingZeros] of a [uint32] is 32 for 0 and nothing else; for a
    non-zero value it leaves the index of the highest set bit, the binary
    logarithm, when taken from 31. *)
Theorem CountLeadingZeros_highest_set_bit (Value : Z) :
  0 <= Value < 2 ^ 32 ->
  (CountLeadingZeros Value = 32 <-> Value = 0) /\
  (Value <> 0 ->
   31 - CountLeadingZeros Value = Z.log2 Value /\
   2 ^ (31 - CountLeadingZeros Value) <= Value < 2 ^ (32 - CountLeadingZeros Value)).
Proof.
  intros HV. split.
  - split.
    + intros H32. destruct (Z.eq_dec Value 0) as [|Hne]; [assumption|].
      rewrite CountLeadingZeros_spec in H32 by lia.
      pose proof (Z.log2_nonneg Value). 
      assert (Z.log2 Value < 32) by (apply Z.log2_lt_pow2; lia). lia.
    + intros ->. reflexivity.
  - intros Hne. rewrite CountLeadingZeros_spec by lia.
    split; [lia|].
    replace (31 - (31 - Z.log2 Value)) with (Z.log2 Value) by lia.
    replace (32 - (31 - Z.log2 Value)) with (Z.succ (Z.log2 Value)) by lia.
    apply Z.log2_spec. lia.
Qed.

(** X3: the 64-bit counts are 64 for 0; for a non-zero value
    [CountLeadingZeros64] leaves the binary logarithm when taken from 63 and
    [CountTrailingZeros64] is the index of the lowest set bit; on a non-zero
    value that fits 32 bits they are the 32-bit counts, with 32 more leading
    zeros. *)
Theorem counts_of_64_bits (Value : Z) :
  0 <= Value < 2 ^ 64 ->
  (Value = 0 -> CountLeadingZeros64 Value = 64 /\ CountTrailingZeros64 Value = 64) /\
  (Value <> 0 ->
   63 - CountLeadingZeros64 Value = Z.log2 Value /\
   0 <= CountTrailingZeros64 Value <= Z.log2 Value /\
   Z.testbit Value (CountTrailingZeros64 Value) = true /\
   (forall i, 0 <= i < CountTrailingZeros64 Value -> Z.testbit Value i = false)) /\
  (Value <> 0 -> Value < 2 ^ 32 ->
   CountLeadingZeros64 Value = CountLeadingZeros Value + 32 /\
   CountTrailingZeros64 Value = CountTrailingZeros Value).
Proof.
  intros HV. split; [|split].
  - intros ->. split; reflexivity.
  - intros Hne.
    destruct (nonzero_has_bit Value 64 ltac:(lia) ltac:(lia)) as (Hlog & Hbit & _).
    unfold CountLeadingZeros64, CountTrailingZeros64.
    destruct (Z.eqb_spec Value 0) as [?|_]; [lia|].
    rewrite builtin_clzll_from_highest by lia.
    destruct (builtin_ctz_from_lowest Value 64 0 (Z.log2 Value) ltac:(lia) ltac:(lia) Hbit)
      as (Hr & Ht & Hlow).
    split; [lia|]. split; [lia|]. split; [exact Ht | exact Hlow].
  - intros Hne H32.
    assert (H0 : 0 <= Value) by (clear H32; lia). clear HV.
    assert (HV' : 0 < Value < 2 ^ 32) by lia.
    destruct (nonzero_has_bit Value 32 ltac:(lia) HV') as (Hlog & Hbit & _).
    pose proof (CountLeadingZeros_spec Value HV') as Hclz.
    split.
    + unfold CountLeadingZeros64.
      destruct (Z.eqb_spec Value 0) as [?|_]; [lia|].
      rewrite builtin_clzll_from_highest by lia. lia.
    + unfold CountTrailingZeros64, CountTrailingZeros.
      destruct (Z.eqb_spec Value 0) as [?|_]; [lia|].
      destruct (builtin_ctz_from_lowest Value 64 0 (Z.log2 Value) ltac:(lia) ltac:(lia) Hbit)
        as (Hr & Ht & Hlow).
      destruct (builtin_ctz_from_lowest Value 32 0 (Z.log2 Value) ltac:(lia) ltac:(lia) Hbit)
        as (Hr' & Ht' & Hlow').
      set (x := builtin_ctz_from 64 Value 0) in *.
      set (y := builtin_ctz_from 32 Value 0) in *.
      destruct (Z.lt_trichotomy x y) as [Hlt|[Heq|Hgt]]; [|exact Heq|].
      * rewrite Hlow' in Ht by lia. discriminate.
      * rewrite Hlow in Ht' by lia. discriminate.
Qed.

(** ** Arrays built from a source *)

Lemma FSizeType_cast_small {Alloc : Allocator} (n : Z) :
  0 <= n <= FSizeType_Max -> FSizeType_cast n = n.
Proof. intros Hn. unfold FSizeType_cast. rewrite Z.mod_small by lia. lia. Qed.

Lemma Holds_live {E : Type} (a : Array.TArray E) (xs : list E) (i : Z) :
  Holds a xs -> 0 <= i < Array.ArrayNum a ->
  exists v, xs !! Z.to_nat i = Some v /\
            Array.AllocatorInstance a !! Z.to_nat i = Some (Some v).
Proof.
  intros [Hn Hx] Hi.
  destruct (lookup_lt_is_Some_2 xs (Z.to_nat i)) as [v Hv]; [lia|].
  exists v. split; [exact Hv | exact (Hx _ _ Hv)].
Qed.

Section ArrayCopies.
Context {E : Type} {Alloc : Allocator} {Traits : ElementTraits E}.
Import Array.

Lemma CopyToEmpty_holds {T : Type} (bitwise : bool) (ctor bits : T -> E) (a : TArray E)
    (Source : Slots T) (xs : list T) (PrevMax : Z) :
  Z.of_nat (length xs) <= FSizeType_Max ->
  (forall (k : nat) (x : T), xs !! k = Some x -> Source !! k = Some (Some x)) ->
  Z.of_nat (length (AllocatorInstance a)) = PrevMax ->
  exists a', CopyToEmpty bitwise ctor bits a Source (Z.of_nat (length xs)) PrevMax 0 = Ok a' /\
    WellFormed a' /\
    Holds a' ((if bitwise then bits else ctor) <$> xs) /\
    ArrayMax a' = Z.of_nat (length xs).
Proof.
  intros Hfit Hsrc Hprev. set (n := Z.of_nat (length xs)) in *.
  assert (Hlive : forall k, 0 <= k < n -> exists v, Source !! Z.to_nat k = Some (Some v)).
  { intros k Hk. destruct (lookup_lt_is_Some_2 xs (Z.to_nat k)) as [v Hv]; [lia|].
    exists v. exact (Hsrc _ _ Hv). }
  assert (HlenS : n <= Z.of_nat (length Source)).
  { destruct (Z.eq_dec n 0) as [->|Hne]; [lia|].
    destruct (Hlive (n - 1)) as [v Hv]; [lia|].
    apply lookup_lt_Some in Hv. lia. }
  unfold CopyToEmpty.
  assert (Hf : FSizeType_fits n = true).
  { unfold FSizeType_fits. apply andb_true_iff. split; apply Z.leb_le; lia. }
  rewrite Hf. cbn [NexusCheck Result_bind Z.geb Z.compare].
  destruct (negb (n =? 0) || negb (0 =? 0) || negb (PrevMax =? 0)) eqn:Hany.
  - unfold FSizeType_add. rewrite Z.add_0_r.
    unfold FSizeType_fits in Hf. rewrite Hf. cbn [Result_bind].
    set (a2 := ResizeForCopy _ _ _).
    assert (Hlen2 : Z.of_nat (length (GetData a2)) = n).
    { unfold a2, ResizeForCopy, GetData. cbn [AllocatorInstance].
      destruct (Z.eqb_spec n PrevMax) as [Heq|Hne]; cbn [negb].
      - lia.
      - rewrite ResizeAllocation_length. lia. }
    destruct (ConstructItems_Ok bitwise ctor bits (GetData a2) Source n)
      as (buf & Hrun & Hlen & Hcopied); try lia; try exact Hlive.
    rewrite Hrun. cbn [Result_bind].
    eexists. split; [reflexivity|].
    assert (Hat : forall (k : nat) (y : E),
              ((if bitwise then bits else ctor) <$> xs) !! k = Some y ->
              buf !! k = Some (Some y)).
    { intros k y Hy. rewrite list_lookup_fmap in Hy.
      destruct (xs !! k) as [x|] eqn:Hx; [|discriminate]. injection Hy as <-.
      pose proof (lookup_lt_Some _ _ _ Hx) as Hk.
      specialize (Hcopied (Z.of_nat k) x). rewrite Nat2Z.id in Hcopied.
      apply Hcopied; [lia | exact (Hsrc _ _ Hx)]. }
    split; [|split].
    + constructor; cbn [ArrayNum ArrayMax AllocatorInstance a2 ResizeForCopy].
      * lia.
      * rewrite Hlen. exact Hlen2.
      * intros i Hi. destruct (lookup_lt_is_Some_2 xs (Z.to_nat i)) as [x Hx]; [lia|].
        eexists. apply Hat. rewrite list_lookup_fmap, Hx. reflexivity.
    + split; [cbn [ArrayNum a2 ResizeForCopy]; rewrite length_fmap; reflexivity|].
      exact Hat.
    + reflexivity.
  - apply orb_false_iff in Hany as [Hany Hp]. apply orb_false_iff in Hany as [Hz _].
    apply negb_false_iff, Z.eqb_eq in Hz. apply negb_false_iff, Z.eqb_eq in Hp.
    cbn [Result_bind]. eexists. split; [reflexivity|].
    assert (Hnil : xs = []) by (destruct xs; [reflexivity | cbn in n; lia]).
    subst xs. cbn [ArrayNum ArrayMax AllocatorInstance].
    split; [|split].
    + constructor; cbn [ArrayNum ArrayMax AllocatorInstance]; try lia.
    + split; [cbn; lia|]. intros k y Hy. rewrite list_lookup_fmap in Hy. discriminate.
    + lia.
Qed.

Lemma same_type_copies (bitwise : bool) (xs : list E) :
  (if bitwise then id else id) <$> xs = xs.
Proof. destruct bitwise; apply list_fmap_id. Qed.

Lemma Holds_length (a : TArray E) (xs : list E) :
  Holds a xs -> ArrayNum a = Z.of_nat (length xs).
Proof. intros [Hn _]. exact Hn. Qed.

End ArrayCopies.

Section ArrayConstruction.
Context {E S : Type} {Alloc : Allocator} {Traits : ElementTraits E}
  {Conv : ConstructibleFrom E S}.
Import Array.

(** X4: the constructors from an initializer list, from a pointer and
    a count, from another array and from an array of another element type
    return a well-formed array that holds the elements of the source, in
    order, in storage for exactly that many elements.  From the null pointer
    the array is empty for the count 0, and any other count fails the
    assertion. *)
Theorem TArray_constructors_copy_the_source :
  (forall InitList : list E, Z.of_nat (length InitList) <= FSizeType_Max ->
     exists a, TArray_from_list InitList = Ok a /\
       WellFormed a /\ Holds a InitList /\ ArrayMax a = Z.of_nat (length InitList)) /\
  (forall (Data : Slots E) (xs : list E),
     (forall (k : nat) (x : E), xs !! k = Some x -> Data !! k = Some (Some x)) ->
     Z.of_nat (length xs) <= FSizeType_Max ->
     exists a, TArray_from_ptr (Some Data) (Z.of_nat (length xs)) = Ok a /\
       WellFormed a /\ Holds a xs /\ ArrayMax a = Z.of_nat (length xs)) /\
  (0 <= FSizeType_Max -> TArray_from_ptr (E := E) None 0 = Ok TArray_default) /\
  (forall Count : Z, Count <> 0 ->
     TArray_from_ptr (E := E) None Count = Fail AssertionFailed) /\
  (forall (Other : TArray E) (xs : list E),
     Holds Other xs -> ArrayNum Other <= FSizeType_Max ->
     exists a, TArray_copy Other = Ok a /\
       WellFormed a /\ Holds a xs /\ ArrayMax a = ArrayNum Other) /\
  (forall (Other : TArray S) (xs : list S),
     Holds Other xs -> ArrayNum Other <= FSizeType_Max ->
     exists a, TArray_convert Other = Ok a /\
       WellFormed a /\
       Holds a ((if TIsBitwiseConstructibleFrom then bitcopy_from else construct_from) <$> xs) /\
       ArrayMax a = ArrayNum Other).
Proof.
  repeat split.
  - intros InitList Hfit. unfold TArray_from_list.
    rewrite FSizeType_cast_small by lia.
    destruct (CopyToEmpty_holds TIsBitwiseConstructible id id TArray_default
                (Some <$> InitList) InitList 0 Hfit) as (a & Hrun & Hwf & Hh & Hmax).
    + intros k x Hx. rewrite list_lookup_fmap, Hx. reflexivity.
    + reflexivity.
    + rewrite same_type_copies in Hh. exact (ex_intro _ a (conj Hrun (conj Hwf (conj Hh Hmax)))).
  - intros Data xs Hsrc Hfit. unfold TArray_from_ptr. cbn [orb NexusCheck Result_bind].
    destruct (CopyToEmpty_holds TIsBitwiseConstructible id id TArray_default
                Data xs 0 Hfit Hsrc) as (a & Hrun & Hwf & Hh & Hmax).
    + reflexivity.
    + rewrite same_type_copies in Hh. exact (ex_intro _ a (conj Hrun (conj Hwf (conj Hh Hmax)))).
  - intros HM. unfold TArray_from_ptr, CopyToEmpty. cbn [orb Z.eqb NexusCheck Result_bind].
    replace (FSizeType_fits 0) with true
      by (symmetry; unfold FSizeType_fits; apply andb_true_iff; split; apply Z.leb_le; lia).
    reflexivity.
  - intros Count Hc. unfold TArray_from_ptr. cbn [orb].
    replace (Count =? 0) with false by (symmetry; apply Z.eqb_neq; exact Hc).
    reflexivity.
  - intros Other xs Hh Hfit. unfold TArray_copy, Num, GetData.
    rewrite (Holds_length _ _ Hh) in *.
    destruct (CopyToEmpty_holds TIsBitwiseConstructible id id TArray_default
                (AllocatorInstance Other) xs 0 Hfit (proj2 Hh)) as (a & Hrun & Hwf & Hh' & Hmax).
    + reflexivity.
    + rewrite same_type_copies in Hh'. exact (ex_intro _ a (conj Hrun (conj Hwf (conj Hh' Hmax)))).
  - intros Other xs Hh Hfit. unfold TArray_convert.
    rewrite (Holds_length _ _ Hh) in *.
    destruct (CopyToEmpty_holds TIsBitwiseConstructibleFrom construct_from bitcopy_from
                TArray_default (AllocatorInstance Other) xs 0 Hfit (proj2 Hh))
      as (a & Hrun & Hwf & Hh' & Hmax).
    + reflexivity.
    + exact (ex_intro _ a (conj Hrun (conj Hwf (conj Hh' Hmax)))).
Qed.

End ArrayConstruction.

Section ArrayAssignment.
Context {E : Type} {Alloc : Allocator} {Traits : ElementTraits E}.
Import Array.

(** X5: the assignment of an initializer list, and of another array, to a
    well-formed array returns a well-formed array that holds the elements of
    the source, in order; the room of the array becomes the number of
    elements of the source, whatever it was. *)
Theorem assignment_replaces_the_elements (a : TArray E) :
  WellFormed a ->
  (forall InitList : list E, Z.of_nat (length InitList) <= FSizeType_Max ->
     exists a', assign_list a InitList = Ok a' /\
       WellFormed a' /\ Holds a' InitList /\ ArrayMax a' = Z.of_nat (length InitList)) /\
  (forall (Other : TArray E) (xs : list E),
     Holds Other xs -> ArrayNum Other <= FSizeType_Max ->
     exists a', assign_copy a Other = Ok a' /\
       WellFormed a' /\ Holds a' xs /\ ArrayMax a' = ArrayNum Other).
Proof.
  intros Hwf. destruct (DestructItems_live a Hwf) as (buf & Hdes & Hlen).
  pose proof (wf_alloc a Hwf) as Halloc.
  split.
  - intros InitList Hfit. unfold assign_list. rewrite Hdes. cbn [Result_bind].
    destruct (CopyToEmpty_holds TIsBitwiseConstructible id id
                (mkTArray buf (ArrayNum a) (ArrayMax a))
                (Some <$> InitList) InitList (ArrayMax a) Hfit) as (a' & Hrun & Hwf' & Hh & Hmax).
    + intros k x Hx. rewrite list_lookup_fmap, Hx. reflexivity.
    + cbn [AllocatorInstance]. lia.
    + rewrite same_type_copies in Hh. exact (ex_intro _ a' (conj Hrun (conj Hwf' (conj Hh Hmax)))).
  - intros Other xs Hh Hfit. unfold assign_copy, Num. rewrite Hdes. cbn [Result_bind].
    unfold GetData. rewrite (Holds_length _ _ Hh) in *.
    destruct (CopyToEmpty_holds TIsBitwiseConstructible id id
                (mkTArray buf (ArrayNum a) (ArrayMax a))
                (AllocatorInstance Other) xs (ArrayMax a) Hfit (proj2 Hh))
      as (a' & Hrun & Hwf' & Hh' & Hmax).
    + cbn [AllocatorInstance]. lia.
    + rewrite same_type_copies in Hh'. exact (ex_intro _ a' (conj Hrun (conj Hwf' (conj Hh' Hmax)))).
Qed.

End ArrayAssignment.

(** ** The elements of an array *)

Lemma geb_false (x y : Z) : x < y -> (x >=? y) = false.
Proof. intros H. rewrite Z.geb_leb. apply Z.leb_gt. exact H. Qed.

Section ArrayElements.
Context {E : Type} {Alloc : Allocator} {Traits : ElementTraits E}.
Import Array.

Lemma Contains_loop_holds (Item : E) (xs : list E) : forall (buf : Slots E) (i : Z),
  0 <= i ->
  (forall (k : nat) (x : E), xs !! k = Some x -> buf !! (Z.to_nat i + k)%nat = Some (Some x)) ->
  Contains_loop Item (length xs) buf i = Ok (existsb (fun x => op_eq x Item) xs).
Proof.
  induction xs as [|x xs IH]; intros buf i Hi Hx; [reflexivity|].
  cbn [length Contains_loop existsb].
  assert (Hl : load buf i = Ok x).
  { apply load_Ok. split; [exact Hi|]. specialize (Hx 0%nat x eq_refl).
    rewrite Nat.add_0_r in Hx. exact Hx. }
  rewrite Hl. cbn [Result_bind]. destruct (op_eq x Item); [reflexivity|].
  cbn [orb]. apply IH; [lia|].
  intros k y Hy. specialize (Hx (Datatypes.S k) y Hy).
  replace (Z.to_nat (i + 1) + k)%nat with (Z.to_nat i + Datatypes.S k)%nat by lia. exact Hx.
Qed.

(** X9: [Contains(Item)] is true exactly when some element of the array
    compares equal to [Item], by the [operator==] of the elements with the
    element on the left; on the empty array it is false. *)
Theorem Contains_some_element (a : TArray E) (xs : list E) (Item : E) :
  Holds a xs ->
  exists r, Contains a Item = Ok r /\
    r = existsb (fun x => op_eq x Item) xs /\
    (r = true <-> exists (k : nat) (x : E), xs !! k = Some x /\ op_eq x Item = true).
Proof.
  intros [Hn Hx]. exists (existsb (fun x => op_eq x Item) xs). split; [|split].
  - unfold Contains. replace (ArrayNum a <? 0) with false by (symmetry; apply Z.ltb_ge; lia).
    rewrite Hn, Nat2Z.id. apply Contains_loop_holds; [lia|].
    intros k x Hk. cbn. exact (Hx _ _ Hk).
  - reflexivity.
  - rewrite existsb_exists. split.
    + intros (x & Hin & Heq). apply list_elem_of_In, list_elem_of_lookup in Hin.
      destruct Hin as [k Hk]. eauto.
    + intros (k & x & Hk & Heq). exists x. split; [|exact Heq].
      apply list_elem_of_In, list_elem_of_lookup. eauto.
Qed.

(** The allocation after [AddUninitialized(1)]-like growth. *)
Lemma grown_allocation (a : TArray E) (n : Z) :
  GrowthCovers -> WellFormed a -> ArrayNum a <= n ->
  let a2 := if n >? ArrayMax a
            then ResizeGrow (mkTArray (AllocatorInstance a) n (ArrayMax a)) (ArrayNum a)
            else mkTArray (AllocatorInstance a) n (ArrayMax a) in
  ArrayNum a2 = n /\ n <= ArrayMax a2 /\
  Z.of_nat (length (AllocatorInstance a2)) = ArrayMax a2 /\
  forall j, 0 <= j < ArrayNum a ->
    AllocatorInstance a2 !! Z.to_nat j = AllocatorInstance a !! Z.to_nat j.
Proof.
  intros Hg [Hb Ha Hl] Hn. cbn zeta.
  destruct (Z.lt_ge_cases (ArrayMax a) n) as [Hlt|Hge].
  - rewrite gtb_true by lia. unfold ResizeGrow. cbn [ArrayNum ArrayMax AllocatorInstance].
    pose proof (Hg n (ArrayMax a) sizeof_E) as Hc.
    split; [reflexivity|]. split; [exact Hc|]. split.
    + rewrite ResizeAllocation_length. lia.
    + intros j Hj. apply ResizeAllocation_lookup; lia.
  - rewrite gtb_false by lia. cbn [ArrayNum ArrayMax AllocatorInstance].
    split; [reflexivity|]. split; [lia|]. split; [exact Ha|]. reflexivity.
Qed.

(** X6: [Add(x)] and [Emplace(x)] of an element that lives outside the
    array return the old number of elements and a well-formed array that
    holds the old elements followed by [x]. *)
Theorem Add_appends_the_element (a : TArray E) (xs : list E) (x : E) :
  GrowthCovers -> WellFormed a -> Holds a xs -> ArrayNum a < FSizeType_Max ->
  exists a', Add a (Outside x) = Ok (ArrayNum a, a') /\
    Emplace a x = Ok (ArrayNum a, a') /\
    WellFormed a' /\ Holds a' (xs ++ [x]).
Proof.
  intros Hg Hwf Hh Hmax. pose proof Hwf as [Hb Ha Hl].
  destruct (grown_allocation a ((ArrayNum a) + 1) Hg Hwf ltac:(lia)) as (Hnum & Hroom & Hlen & Hold).
  set (a2 := if (ArrayNum a) + 1 >? ArrayMax a
             then ResizeGrow (mkTArray (AllocatorInstance a) ((ArrayNum a) + 1) (ArrayMax a)) (ArrayNum a)
             else mkTArray (AllocatorInstance a) ((ArrayNum a) + 1) (ArrayMax a)) in *.
  assert (Hau : AddUninitialized a 1 = Ok ((ArrayNum a), a2)).
  { unfold AddUninitialized. rewrite CheckInvariants_Ok by exact Hb.
    cbn [Result_bind Z.geb Z.compare NexusCheck].
    rewrite FSizeType_add_Ok by lia. cbn [Result_bind ArrayMax]. reflexivity. }
  assert (Hst : store (GetData a2) (ArrayNum a) x = Ok (<[Z.to_nat (ArrayNum a) := Some x]> (AllocatorInstance a2))).
  { apply store_Ok. unfold GetData. split; [lia | reflexivity]. }
  exists (mkTArray (<[Z.to_nat (ArrayNum a) := Some x]> (AllocatorInstance a2)) (ArrayNum a2) (ArrayMax a2)).
  split; [|split; [|split]].
  - unfold Add. cbn [CheckAddress Result_bind]. rewrite Hau. cbn [Result_bind deref].
    rewrite Hst. reflexivity.
  - unfold Emplace. rewrite Hau. cbn [Result_bind]. rewrite Hst. reflexivity.
  - constructor; cbn [ArrayNum ArrayMax AllocatorInstance].
    + lia.
    + rewrite length_insert. exact Hlen.
    + intros i Hi. destruct (Z.eq_dec i (ArrayNum a)) as [->|Hne].
      * exists x. apply list_lookup_insert_eq. lia.
      * rewrite list_lookup_insert_ne by lia. rewrite Hold by lia. apply Hl. lia.
  - destruct Hh as [Hn Hx]. split; cbn [ArrayNum AllocatorInstance].
    + rewrite length_app. cbn [length]. lia.
    + intros k y Hy. apply lookup_app_Some in Hy as [Hy|[Hk Hy]].
      * pose proof (lookup_lt_Some _ _ _ Hy) as Hk.
        rewrite list_lookup_insert_ne by lia.
        specialize (Hold (Z.of_nat k)). rewrite Nat2Z.id in Hold. rewrite Hold by lia.
        exact (Hx _ _ Hy).
      * destruct (k - length xs)%nat as [|m] eqn:Hm; [|destruct m; discriminate].
        injection Hy as <-.
        replace k with (Z.to_nat (ArrayNum a)) by lia. apply list_lookup_insert_eq. lia.
Qed.

(** X10: [Shrink] gives the slack back: the room becomes the number of
    elements, and the array holds the same elements. *)
Theorem Shrink_gives_the_slack_back (a : TArray E) (xs : list E) :
  WellFormed a -> Holds a xs ->
  exists a', Shrink a = Ok a' /\
    ArrayMax a' = ArrayNum a /\ WellFormed a' /\ Holds a' xs.
Proof.
  intros Hwf [Hn Hx]. pose proof Hwf as [Hb Ha Hl].
  unfold Shrink. rewrite CheckInvariants_Ok by exact Hb. cbn [Result_bind].
  destruct (Z.eqb_spec (ArrayMax a) (ArrayNum a)) as [Heq|Hne]; cbn [negb].
  - exists a. split; [reflexivity|]. split; [exact Heq|]. split; [exact Hwf|].
    split; assumption.
  - unfold ResizeTo.
    replace (ArrayNum a =? ArrayMax a) with false by (symmetry; apply Z.eqb_neq; lia).
    cbn [negb]. eexists. split; [reflexivity|]. cbn [ArrayNum ArrayMax AllocatorInstance].
    split; [reflexivity|].
    assert (Hat : forall j, 0 <= j < ArrayNum a ->
              ResizeAllocation (AllocatorInstance a) (ArrayNum a) (ArrayNum a) !! Z.to_nat j
              = AllocatorInstance a !! Z.to_nat j).
    { intros j Hj. apply ResizeAllocation_lookup; lia. }
    split.
    + constructor; cbn [ArrayNum ArrayMax AllocatorInstance].
      * lia.
      * rewrite ResizeAllocation_length. lia.
      * intros i Hi. rewrite Hat by lia. apply Hl. exact Hi.
    + split; [exact Hn|]. cbn [AllocatorInstance]. intros k y Hy.
      pose proof (lookup_lt_Some _ _ _ Hy) as Hk.
      specialize (Hat (Z.of_nat k)). rewrite Nat2Z.id in Hat. rewrite Hat by lia.
      exact (Hx _ _ Hy).
Qed.

(** X11: a call with an index out of range or with a reference into the
    array's own storage stops at an assertion: [operator[]] outside
    [0, ArrayNum) under an allocator that asks for range checks, [Insert]
    outside [0, ArrayNum], [RemoveAt] outside [0, ArrayNum), and [Add] and
    [Insert] of an element of the array itself. *)
Theorem calls_out_of_range_fail_the_assertion (a : TArray E) (Index : Z) :
  CountersInOrder a ->
  (RequireRangeCheck = true -> ~ (0 <= Index < ArrayNum a) ->
   operator_index a Index = Fail AssertionFailed) /\
  (~ (0 <= Index <= ArrayNum a) ->
   forall x : E, Insert a (Outside x) Index = Fail AssertionFailed) /\
  (~ (0 <= Index < ArrayNum a) -> - FSizeType_Max - 1 <= Index < FSizeType_Max ->
   RemoveAt a Index = Fail AssertionFailed) /\
  (forall slot : Z, 0 <= slot < ArrayMax a ->
   Add a (InBuffer slot) = Fail AssertionFailed /\
   Insert a (InBuffer slot) Index = Fail AssertionFailed).
Proof.
  intros Hb. unfold CountersInOrder in Hb. repeat split.
  - intros Hrc Hout. unfold operator_index, RangeCheck.
    rewrite CheckInvariants_Ok by exact Hb. cbn [Result_bind]. rewrite Hrc.
    replace ((Index >=? 0) && (Index <? ArrayNum a)) with false; [reflexivity|].
    symmetry. apply andb_false_iff.
    destruct (Z.lt_ge_cases Index 0); [left; apply geb_false; lia|].
    right. apply Z.ltb_ge. lia.
  - intros Hout x. unfold Insert, InsertUninitialized. cbn [CheckAddress Result_bind].
    rewrite CheckInvariants_Ok by exact Hb. cbn [Result_bind].
    replace ((1 >=? 0) && (Index >=? 0) && (Index <=? ArrayNum a)) with false; [reflexivity|].
    symmetry. apply andb_false_iff.
    destruct (Z.lt_ge_cases Index 0).
    + left. apply andb_false_iff. right. apply geb_false. lia.
    + right. apply Z.leb_gt. lia.
  - intros Hout Hfit. unfold RemoveAt, RemoveAtImpl. cbn [Z.eqb negb].
    rewrite CheckInvariants_Ok by exact Hb. cbn [Result_bind].
    rewrite FSizeType_add_Ok by lia. cbn [Result_bind].
    replace ((1 >=? 0) && (Index >=? 0) && (Index + 1 <=? ArrayNum a)) with false;
      [reflexivity|].
    symmetry. apply andb_false_iff.
    destruct (Z.lt_ge_cases Index 0).
    + left. apply andb_false_iff. right. apply geb_false. lia.
    + right. apply Z.leb_gt. lia.
  - unfold Add. cbn [CheckAddress].
    replace ((slot <? 0) || (slot >=? ArrayMax a)) with false; [reflexivity|].
    symmetry. apply orb_false_iff. split; [apply Z.ltb_ge; lia|].
    apply geb_false. lia.
  - unfold Insert. cbn [CheckAddress].
    replace ((slot <? 0) || (slot >=? ArrayMax a)) with false; [reflexivity|].
    symmetry. apply orb_false_iff. split; [apply Z.ltb_ge; lia|].
    apply geb_false. lia.
Qed.

End ArrayElements.

(** ** Removal and insertion of elements *)

Lemma lookup_without_range {T : Type} (xs : list T) (i c k : nat) (y : T) :
  (take i xs ++ drop (i + c) xs) !! k = Some y ->
  (k < i)%nat /\ xs !! k = Some y \/ (i <= k)%nat /\ xs !! (k + c)%nat = Some y.
Proof.
  intros Hy. apply lookup_app_Some in Hy as [Hy|[Hk Hy]].
  - apply lookup_take_Some in Hy as [Hy Hk]. left. split; [exact Hk | exact Hy].
  - rewrite lookup_drop in Hy. pose proof (lookup_lt_Some _ _ _ Hy) as Hlt.
    rewrite length_take in Hk, Hy, Hlt. right. split; [lia|].
    replace (k + c)%nat with (i + c + (k - i `min` length xs))%nat by lia. exact Hy.
Qed.

Lemma lookup_with_inserted {T : Type} (xs : list T) (i k : nat) (x y : T) :
  (i <= length xs)%nat ->
  (take i xs ++ x :: drop i xs) !! k = Some y ->
  (k < i)%nat /\ xs !! k = Some y \/
  k = i /\ y = x \/
  (i < k)%nat /\ xs !! (k - 1)%nat = Some y.
Proof.
  intros Hi Hy. apply lookup_app_Some in Hy as [Hy|[Hk Hy]].
  - apply lookup_take_Some in Hy as [Hy Hk]. left. split; [exact Hk | exact Hy].
  - rewrite length_take in Hk, Hy. replace (i `min` length xs)%nat with i in * by lia.
    destruct (k - i)%nat as [|m] eqn:Hm.
    + change ((x :: drop i xs) !! 0%nat) with (Some x) in Hy.
      injection Hy as <-. right. left. split; [lia | reflexivity].
    + change ((x :: drop i xs) !! Datatypes.S m) with (drop i xs !! m) in Hy.
      rewrite lookup_drop in Hy. right. right. split; [lia|].
      replace (k - 1)%nat with (i + m)%nat by lia. exact Hy.
Qed.

Section ArrayRemoval.
Context {E : Type} {Alloc : Allocator} {Traits : ElementTraits E}.
Import Array.

Lemma DestructItems_range (buf : Slots E) (i c : Z) :
  0 <= i -> 0 <= c -> i + c <= Z.of_nat (length buf) ->
  (forall j, i <= j < i + c -> exists v, buf !! Z.to_nat j = Some (Some v)) ->
  exists buf', DestructItems buf i c = Ok buf' /\
    length buf' = length buf /\
    (forall j, 0 <= j -> ~ (i <= j < i + c) -> buf' !! Z.to_nat j = buf !! Z.to_nat j).
Proof.
  intros Hi Hc Hlen Hlive. unfold DestructItems.
  destruct TIsTriviallyDestructible; [eauto|].
  replace (c <? 0) with false by (symmetry; apply Z.ltb_ge; lia).
  destruct (DestructItems_loop_Ok (Z.to_nat c) buf i) as (buf' & Hrun & Hl & Hat).
  - exact Hi.
  - lia.
  - intros j Hj. apply Hlive. lia.
  - exists buf'. split; [exact Hrun|]. split; [exact Hl|].
    intros j Hj Hout. apply Hat; [exact Hj | lia].
Qed.

Lemma ResizeShrink_keeps (a : TArray E) :
  ArrayNum a <= CalculateSlackShrink (ArrayNum a) (ArrayMax a) sizeof_E ->
  0 <= ArrayNum a <= ArrayMax a ->
  Z.of_nat (length (AllocatorInstance a)) = ArrayMax a ->
  exists a', ResizeShrink a = Ok a' /\
    ArrayNum a' = ArrayNum a /\ ArrayNum a <= ArrayMax a' /\
    Z.of_nat (length (AllocatorInstance a')) = ArrayMax a' /\
    forall j, 0 <= j < ArrayNum a ->
      AllocatorInstance a' !! Z.to_nat j = AllocatorInstance a !! Z.to_nat j.
Proof.
  intros Hc Hb Hlen. unfold ResizeShrink.
  destruct (negb (CalculateSlackShrink (ArrayNum a) (ArrayMax a) sizeof_E =? ArrayMax a)).
  - rewrite geb_true by exact Hc. cbn [NexusCheck Result_bind].
    eexists. split; [reflexivity|]. cbn [ArrayNum ArrayMax AllocatorInstance].
    split; [reflexivity|]. split; [exact Hc|]. split.
    + rewrite ResizeAllocation_length. lia.
    + intros j Hj. apply ResizeAllocation_lookup; lia.
  - exists a. split; [reflexivity|]. split; [reflexivity|]. split; [lia|].
    split; [exact Hlen|]. reflexivity.
Qed.

(** X8: [RemoveAtImpl(Index, Count, bAllowShrinking)] with
    [Index + Count <= ArrayNum] returns a well-formed array that holds the
    elements before [Index] followed by the elements from [Index + Count]
    on, in their order, for every element type, when the shrink policy
    answers with room for them; the room is unchanged when shrinking is not
    allowed.  [RemoveAt(Index)] is the call with the count
    1 that allows shrinking. *)
Theorem RemoveAtImpl_removes_the_range
    (a : TArray E) (xs : list E) (Index Count : Z) (bAllowShrinking : bool) :
  (bAllowShrinking = true ->
   ArrayNum a - Count <= CalculateSlackShrink (ArrayNum a - Count) (ArrayMax a) sizeof_E) ->
  WellFormed a -> Holds a xs -> ArrayNum a <= FSizeType_Max ->
  0 <= Index -> 0 <= Count -> Index + Count <= ArrayNum a ->
  exists a', RemoveAtImpl a Index Count bAllowShrinking = Ok a' /\
    WellFormed a' /\
    Holds a' (take (Z.to_nat Index) xs ++ drop (Z.to_nat (Index + Count)) xs) /\
    (bAllowShrinking = false -> ArrayMax a' = ArrayMax a) /\
    RemoveAt a Index = RemoveAtImpl a Index 1 true.
Proof.
  intros Hs Hwf Hh Hfit Hi Hc Hend. pose proof Hwf as [Hb Ha Hl].
  pose proof Hh as [Hn Hx].
  destruct (Z.eq_dec Count 0) as [->|Hne].
  - exists a. unfold RemoveAtImpl. cbn [Z.eqb negb]. split; [reflexivity|].
    split; [exact Hwf|]. split; [|split; reflexivity].
    rewrite Z.add_0_r, take_drop. exact Hh.
  - destruct (DestructItems_range (GetData a) Index Count) as (buf1 & Hdes & Hlen1 & Hat1);
      try lia.
    { unfold GetData. lia. }
    { intros j Hj. apply Hl. lia. }
    unfold GetData in Hlen1, Hat1.
    destruct (Memmove_Ok buf1 Index (Index + Count) (ArrayNum a - Index - Count))
      as (buf2 & Hmove & Hlen2 & Hat2); try lia.
    assert (Hslots : forall j, 0 <= j < ArrayNum a - Count ->
              buf2 !! Z.to_nat j
              = AllocatorInstance a !! Z.to_nat (if j <? Index then j else j + Count)).
    { intros j Hj. rewrite Hat2 by lia.
      destruct (Z.ltb_spec j Index) as [Hlt|Hge].
      - replace (Index <=? j) with false by (symmetry; apply Z.leb_gt; lia).
        cbn [andb]. apply Hat1; lia.
      - replace (Index <=? j) with true by (symmetry; apply Z.leb_le; lia).
        replace (j <? Index + (ArrayNum a - Index - Count)) with true
          by (symmetry; apply Z.ltb_lt; lia).
        cbn [andb]. replace (j - Index + (Index + Count)) with (j + Count) by lia.
        apply Hat1; lia. }
    set (a1 := mkTArray buf2 (ArrayNum a - Count) (ArrayMax a)).
    assert (Hrun1 : RemoveAtImpl a Index Count bAllowShrinking
                    = if bAllowShrinking then ResizeShrink a1 else Ok a1).
    { unfold RemoveAtImpl.
      replace (Count =? 0) with false by (symmetry; apply Z.eqb_neq; exact Hne).
      cbn [negb]. rewrite CheckInvariants_Ok by exact Hb. cbn [Result_bind].
      rewrite FSizeType_add_Ok by lia. cbn [Result_bind].
      rewrite !geb_true by lia.
      replace (Index + Count <=? ArrayNum a) with true by (symmetry; apply Z.leb_le; lia).
      cbn [andb NexusCheck Result_bind]. rewrite Hdes. cbn [Result_bind].
      replace (if negb (ArrayNum a - Index - Count =? 0)
               then Memmove buf1 Index (Index + Count) (ArrayNum a - Index - Count)
               else Ok buf1) with (Ok (A := Slots E) buf2).
      2:{ destruct (Z.eqb_spec (ArrayNum a - Index - Count) 0) as [Hz|_]; cbn [negb];
            [|symmetry; exact Hmove].
          rewrite Hz in Hmove. unfold Memmove in Hmove. cbn in Hmove. symmetry. exact Hmove. }
      reflexivity. }
    assert (Hres : forall a' : TArray E,
              ArrayNum a' = ArrayNum a - Count -> ArrayNum a - Count <= ArrayMax a' ->
              Z.of_nat (length (AllocatorInstance a')) = ArrayMax a' ->
              (forall j, 0 <= j < ArrayNum a - Count ->
                 AllocatorInstance a' !! Z.to_nat j = buf2 !! Z.to_nat j) ->
              WellFormed a' /\
              Holds a' (take (Z.to_nat Index) xs ++ drop (Z.to_nat (Index + Count)) xs)).
    { intros a' Hnum Hroom Hlen Hat. split.
      - constructor.
        + lia.
        + exact Hlen.
        + intros i Hi'. rewrite Hat by lia. rewrite Hslots by lia. apply Hl.
          destruct (i <? Index); lia.
      - split.
        + rewrite Hnum, length_app, length_take, length_drop. lia.
        + intros k y Hy.
          replace (Z.to_nat (Index + Count)) with (Z.to_nat Index + Z.to_nat Count)%nat in Hy
            by lia.
          apply lookup_without_range in Hy.
          assert (Hk : 0 <= Z.of_nat k < ArrayNum a - Count).
          { destruct Hy as [[Hk Hy]|[Hk Hy]]; apply lookup_lt_Some in Hy; lia. }
          specialize (Hat (Z.of_nat k) Hk). rewrite Nat2Z.id in Hat. rewrite Hat.
          specialize (Hslots (Z.of_nat k) Hk). rewrite Nat2Z.id in Hslots. rewrite Hslots.
          destruct Hy as [[Hlt Hy]|[Hge Hy]].
          * replace (Z.of_nat k <? Index) with true by (symmetry; apply Z.ltb_lt; lia).
            rewrite Nat2Z.id. exact (Hx _ _ Hy).
          * replace (Z.of_nat k <? Index) with false by (symmetry; apply Z.ltb_ge; lia).
            replace (Z.to_nat (Z.of_nat k + Count)) with (k + Z.to_nat Count)%nat by lia.
            exact (Hx _ _ Hy). }
    destruct bAllowShrinking.
    + destruct (ResizeShrink_keeps a1 (Hs eq_refl)) as (a' & Hrun & Hnum & Hroom & Hlen & Hat).
      * cbn [a1 ArrayNum ArrayMax]. lia.
      * cbn [a1 ArrayMax AllocatorInstance]. lia.
      * exists a'. split; [rewrite Hrun1; exact Hrun|].
        destruct (Hres a' Hnum Hroom Hlen Hat) as [Hw Hh'].
        split; [exact Hw|]. split; [exact Hh'|]. split; [discriminate | reflexivity].
    + exists a1. split; [exact Hrun1|].
      destruct (Hres a1) as [Hw Hh']; cbn [a1 ArrayNum ArrayMax AllocatorInstance];
        try lia; try reflexivity.
      split; [exact Hw|]. split; [exact Hh'|]. split; reflexivity.
Qed.

Lemma RelocateConstructItems_up (buf : Slots E) (i n : Z) :
  TIsBitwiseRelocatable = true \/ n - i <= 1 ->
  0 <= i <= n -> n + 1 <= Z.of_nat (length buf) ->
  (forall j, 0 <= j < n -> exists v, buf !! Z.to_nat j = Some (Some v)) ->
  exists buf', RelocateConstructItems buf (i + 1) i (n - i) = Ok buf' /\
    length buf' = length buf /\
    (forall j, 0 <= j < i -> buf' !! Z.to_nat j = buf !! Z.to_nat j) /\
    (forall j, i + 1 <= j < n + 1 -> buf' !! Z.to_nat j = buf !! Z.to_nat (j - 1)).
Proof.
  intros Hcase Hi Hlen Hlive. unfold RelocateConstructItems.
  replace (n - i <? 0) with false by (symmetry; apply Z.ltb_ge; lia).
  destruct TIsBitwiseRelocatable eqn:Hreloc.
  - destruct (Memmove_Ok buf (i + 1) i (n - i)) as (buf' & Hmove & Hl & Hat); try lia.
    exists buf'. split; [exact Hmove|]. split; [exact Hl|]. split.
    + intros j Hj. rewrite Hat by lia.
      replace (i + 1 <=? j) with false by (symmetry; apply Z.leb_gt; lia). reflexivity.
    + intros j Hj. rewrite Hat by lia.
      replace (i + 1 <=? j) with true by (symmetry; apply Z.leb_le; lia).
      replace (j <? i + 1 + (n - i)) with true by (symmetry; apply Z.ltb_lt; lia).
      cbn [andb]. f_equal. f_equal. lia.
  - destruct Hcase as [Hcase|Hcase]; [discriminate|].
    destruct (Z.eq_dec (n - i) 0) as [Hz|Hnz].
    + rewrite Hz. cbn [Z.to_nat RelocateConstructItems_loop].
      exists buf. split; [reflexivity|]. split; [reflexivity|]. split; [reflexivity|].
      intros j Hj. lia.
    + replace (n - i) with 1 by lia. change (Z.to_nat 1) with 1%nat.
      cbn [RelocateConstructItems_loop].
      destruct (Hlive i) as [v Hv]; [lia|].
      assert (Hld : load buf i = Ok v) by (apply load_Ok; split; [lia | exact Hv]).
      rewrite Hld. cbn [Result_bind].
      assert (Hst : store buf (i + 1) v = Ok (<[Z.to_nat (i + 1) := Some v]> buf))
        by (apply store_Ok; split; [lia | reflexivity]).
      rewrite Hst. cbn [Result_bind].
      eexists. split; [reflexivity|]. split; [rewrite !length_insert; reflexivity|]. split.
      * intros j Hj. rewrite !list_lookup_insert_ne by lia. reflexivity.
      * intros j Hj. assert (j = i + 1) as -> by lia.
        rewrite list_lookup_insert_ne by lia.
        rewrite list_lookup_insert_eq by lia.
        replace (i + 1 - 1) with i by lia. symmetry. exact Hv.
Qed.

(** X7: [Insert(x, Index)] with [Index <= ArrayNum] of an element that
    lives outside the array returns [Index] and a well-formed array that
    holds the elements before [Index], then [x], then the elements from
    [Index] on, when the element type is bitwise relocatable or when at most
    one element has to move. *)
Theorem Insert_puts_the_element_at_the_index
    (a : TArray E) (xs : list E) (x : E) (Index : Z) :
  GrowthCovers -> WellFormed a -> Holds a xs -> ArrayNum a < FSizeType_Max ->
  0 <= Index <= ArrayNum a ->
  TIsBitwiseRelocatable = true \/ ArrayNum a - Index <= 1 ->
  exists a', Insert a (Outside x) Index = Ok (Index, a') /\
    WellFormed a' /\
    Holds a' (take (Z.to_nat Index) xs ++ x :: drop (Z.to_nat Index) xs).
Proof.
  intros Hg Hwf Hh Hmax Hi Hcase. pose proof Hwf as [Hb Ha Hl]. pose proof Hh as [Hn Hx].
  destruct (grown_allocation a (ArrayNum a + 1) Hg Hwf ltac:(lia))
    as (Hnum & Hroom & Hlen & Hold).
  set (a2 := if ArrayNum a + 1 >? ArrayMax a
             then ResizeGrow (mkTArray (AllocatorInstance a) (ArrayNum a + 1) (ArrayMax a))
                    (ArrayNum a)
             else mkTArray (AllocatorInstance a) (ArrayNum a + 1) (ArrayMax a)) in *.
  destruct (RelocateConstructItems_up (AllocatorInstance a2) Index (ArrayNum a) Hcase)
    as (buf3 & Hrel & Hlen3 & Hlow & Hhigh); try lia.
  { intros j Hj. rewrite Hold by lia. apply Hl. exact Hj. }
  assert (Hst : store buf3 Index x = Ok (<[Z.to_nat Index := Some x]> buf3))
    by (apply store_Ok; split; [lia | reflexivity]).
  exists (mkTArray (<[Z.to_nat Index := Some x]> buf3) (ArrayNum a2) (ArrayMax a2)).
  assert (Hat : forall (k : nat) (y : E),
            (take (Z.to_nat Index) xs ++ x :: drop (Z.to_nat Index) xs) !! k = Some y ->
            <[Z.to_nat Index := Some x]> buf3 !! k = Some (Some y)).
  { intros k y Hy. apply lookup_with_inserted in Hy; [|lia].
    destruct Hy as [[Hk Hy]|[[-> ->]|[Hk Hy]]].
    - rewrite list_lookup_insert_ne by lia.
      specialize (Hlow (Z.of_nat k)). rewrite Nat2Z.id in Hlow. rewrite Hlow by lia.
      specialize (Hold (Z.of_nat k)). rewrite Nat2Z.id in Hold. rewrite Hold by lia.
      exact (Hx _ _ Hy).
    - apply list_lookup_insert_eq. lia.
    - pose proof (lookup_lt_Some _ _ _ Hy) as Hlt.
      rewrite list_lookup_insert_ne by lia.
      specialize (Hhigh (Z.of_nat k)). rewrite Nat2Z.id in Hhigh. rewrite Hhigh by lia.
      specialize (Hold (Z.of_nat k - 1)). rewrite Hold by lia.
      replace (Z.to_nat (Z.of_nat k - 1)) with (k - 1)%nat by lia.
      exact (Hx _ _ Hy). }
  assert (Hlength : length (take (Z.to_nat Index) xs ++ x :: drop (Z.to_nat Index) xs)
                    = Datatypes.S (length xs)).
  { rewrite length_app, length_take. cbn [length]. rewrite length_drop. lia. }
  split; [|split].
  - unfold Insert, InsertUninitialized. cbn [CheckAddress Result_bind].
    rewrite CheckInvariants_Ok by exact Hb. cbn [Result_bind].
    rewrite !geb_true by lia.
    replace (Index <=? ArrayNum a) with true by (symmetry; apply Z.leb_le; lia).
    cbn [andb NexusCheck Result_bind].
    replace (FSizeType_fits 1) with true
      by (symmetry; unfold FSizeType_fits; apply andb_true_iff;
          split; apply Z.leb_le; lia).
    cbn [NexusCheck Result_bind]. rewrite FSizeType_add_Ok by lia.
    cbn [Result_bind ArrayMax]. fold a2. unfold GetData at 1.
    rewrite Hrel. cbn [Result_bind deref GetData AllocatorInstance].
    rewrite Hst. reflexivity.
  - constructor; cbn [ArrayNum ArrayMax AllocatorInstance].
    + lia.
    + rewrite length_insert. lia.
    + intros i Hi'.
      destruct (lookup_lt_is_Some_2
                  (take (Z.to_nat Index) xs ++ x :: drop (Z.to_nat Index) xs) (Z.to_nat i))
        as [y Hy]; [lia|].
      exists y. exact (Hat _ _ Hy).
  - split; [cbn [ArrayNum]; lia | exact Hat].
Qed.

End ArrayRemoval.

(** ** Bit references, [operator[]] and the iterators *)

Section BitReferences.
Import BitArray.

(** X13: through the reference of bit [i], [operator|=] leaves the
    disjunction of the bit and the operand, [operator&=] their conjunction and
    the assignment of another reference that reference's bit; no other bit of
    the storage changes. *)
Theorem FBitReference_compound_assignments (d : Slots Z) (i j : Z) (b0 bj v : bool) :
  0 <= i -> 0 <= j -> bit_at d i = Some b0 -> bit_at d j = Some bj ->
  (exists d', FBitReference_or_assign d (i / 32) (2 ^ (i mod 32)) v = Ok d' /\
     bit_at d' i = Some (b0 || v) /\
     forall k, 0 <= k -> k <> i -> bit_at d' k = bit_at d k) /\
  (exists d', FBitReference_and_assign d (i / 32) (2 ^ (i mod 32)) v = Ok d' /\
     bit_at d' i = Some (b0 && v) /\
     forall k, 0 <= k -> k <> i -> bit_at d' k = bit_at d k) /\
  (exists d', FBitReference_copy_assign d (i / 32) (2 ^ (i mod 32))
                d (j / 32) (2 ^ (j mod 32)) = Ok d' /\
     bit_at d' i = Some bj /\
     forall k, 0 <= k -> k <> i -> bit_at d' k = bit_at d k).
Proof.
  intros Hi Hj Hb Hbj. split; [|split].
  - destruct v.
    + destruct (FBitReference_assign_at d i b0 true Hi Hb) as (d' & Hrun & _ & Hnew & Hrest).
      exists d'. rewrite orb_true_r. split; [exact Hrun|]. split; assumption.
    + exists d. rewrite orb_false_r. split; [reflexivity|]. split; [exact Hb | reflexivity].
  - destruct v.
    + exists d. rewrite andb_true_r. split; [reflexivity|]. split; [exact Hb | reflexivity].
    + destruct (FBitReference_assign_at d i b0 false Hi Hb) as (d' & Hrun & _ & Hnew & Hrest).
      exists d'. rewrite andb_false_r. split; [exact Hrun|]. split; assumption.
  - unfold FBitReference_copy_assign.
    rewrite (FBitReference_get_at d j bj Hj Hbj). cbn [Result_bind].
    destruct (FBitReference_assign_at d i b0 bj Hi Hb) as (d' & Hrun & _ & Hnew & Hrest).
    exists d'. split; [exact Hrun|]. split; assumption.
Qed.

Lemma get_bit_inv (a : TBitArray) (i : Z) (b : bool) :
  0 <= i -> get_bit a i = Ok b ->
  i < NumBits a /\ bit_at (AllocatorInstance a) i = Some b.
Proof.
  intros Hi Hrun. unfold get_bit, operator_index in Hrun.
  destruct (Z.ltb_spec i (NumBits a)) as [Hlt|Hge]; [|discriminate].
  cbn [NexusCheck Result_bind fst snd] in Hrun. split; [exact Hlt|].
  rewrite index_mask in Hrun by lia. unfold FBitReference_get in Hrun.
  apply Result_bind_Ok in Hrun as (w & Hld & Hrun). injection Hrun as <-.
  apply load_Ok in Hld as [_ Hw]. unfold GetData in Hw.
  change NUM_BITS_PER_DWORD with 32 in Hw. unfold bit_at. rewrite Hw.
  f_equal. symmetry. apply testbit_mask. apply Z.mod_pos_bound. lia.
Qed.

Lemma get_bit_bit_at (a a' : TBitArray) (i : Z) :
  0 <= i < NumBits a -> NumBits a' = NumBits a ->
  (exists b, bit_at (AllocatorInstance a) i = Some b) ->
  bit_at (AllocatorInstance a') i = bit_at (AllocatorInstance a) i ->
  get_bit a' i = get_bit a i.
Proof.
  intros Hi Hn [b Hb] Heq.
  rewrite (get_bit_at a i b) by assumption.
  apply get_bit_at; [lia | congruence].
Qed.

(** X14: a write through [operator[]] at an index below [NumBits] is read
    back by [operator[]], changes no counter and no other bit; at an index
    from [NumBits] on, [operator[]] fails its assertion, for a read and for a
    write. *)
Theorem operator_index_write_then_read (a : TBitArray) (i : Z) (v : bool) :
  BitsInitialised a -> 0 <= i ->
  (i < NumBits a ->
   exists a', set_bit a i v = Ok a' /\
     NumBits a' = NumBits a /\ MaxBits a' = MaxBits a /\
     get_bit a' i = Ok v /\
     forall j, 0 <= j < NumBits a -> j <> i -> get_bit a' j = get_bit a j) /\
  (NumBits a <= i ->
   get_bit a i = Fail AssertionFailed /\ set_bit a i v = Fail AssertionFailed).
Proof.
  intros Hinit Hi. split.
  - intros Hlt. destruct (Hinit i ltac:(lia)) as [b0 Hb0].
    destruct (FBitReference_assign_at (AllocatorInstance a) i b0 v Hi Hb0)
      as (d' & Hrun & _ & Hnew & Hrest).
    exists (mkTBitArray d' (NumBits a) (MaxBits a)).
    split; [|split; [reflexivity|split; [reflexivity|split]]].
    + unfold set_bit, operator_index.
      replace (i <? NumBits a) with true by (symmetry; apply Z.ltb_lt; lia).
      cbn [NexusCheck Result_bind fst snd]. rewrite index_mask by lia.
      unfold GetData. change NUM_BITS_PER_DWORD with 32. rewrite Hrun. reflexivity.
    + apply get_bit_at; [cbn [NumBits]; lia | exact Hnew].
    + intros j Hj Hne. apply get_bit_bit_at; cbn [NumBits AllocatorInstance].
      * exact Hj.
      * reflexivity.
      * apply Hinit. exact Hj.
      * apply Hrest; lia.
  - intros Hge. unfold get_bit, set_bit, operator_index.
    replace (i <? NumBits a) with false by (symmetry; apply Z.ltb_ge; lia).
    split; reflexivity.
Qed.

Lemma FIterator_ctor_incr (i : Z) :
  0 <= i -> i + 1 < 2 ^ 32 -> FIterator_incr (FIterator_ctor i) = FIterator_ctor (i + 1).
Proof.
  intros Hi Hlt. unfold FIterator_incr, FIterator_ctor, FRelativeBitReference_ctor.
  cbn [Index Ref Mask DwordIndex].
  rewrite !index_mask by lia. rewrite (wrap32_small (i + 1)) by lia.
  change NUM_BITS_PER_DWORD_LOG_TWO with 5.
  rewrite !Z.shiftr_div_pow2 by lia. change (2 ^ 5) with 32.
  rewrite Z.shiftl_mul_pow2 by lia. change (2 ^ 1) with 2.
  assert (Hm : 0 <= i mod 32 < 32) by (apply Z.mod_pos_bound; lia).
  replace (2 ^ (i mod 32) * 2) with (2 ^ (i mod 32 + 1))
    by (rewrite Z.pow_add_r by lia; reflexivity).
  destruct (Z.eq_dec (i mod 32) 31) as [H31|Hn31].
  - rewrite H31. change (wrap32 (2 ^ (31 + 1))) with 0. cbn [Z.eqb].
    assert (Hq : (i + 1) / 32 = i / 32 + 1) by (Z.div_mod_to_equations; lia).
    assert (Hr : (i + 1) mod 32 = 0) by (Z.div_mod_to_equations; lia).
    rewrite Hq, Hr. rewrite wrap32_small by (Z.div_mod_to_equations; lia). reflexivity.
  - pose proof (pow2_mask_range (i mod 32 + 1) ltac:(lia)) as Hp.
    rewrite wrap32_small by lia.
    destruct (Z.eqb_spec (2 ^ (i mod 32 + 1)) 0) as [Hz|_]; [lia|].
    assert (Hq : (i + 1) / 32 = i / 32) by (Z.div_mod_to_equations; lia).
    assert (Hr : (i + 1) mod 32 = i mod 32 + 1) by (Z.div_mod_to_equations; lia).
    rewrite Hq, Hr. reflexivity.
Qed.

(** X15: [n] increments of a forward iterator constructed at [StartIndex]
    give the iterator constructed at [StartIndex + n]; it is valid exactly
    while that index is below [Num], and the value of a valid one is the bit
    [operator[]] reads there. *)
Theorem FIterator_increments (a : TBitArray) (StartIndex : Z) (n : nat) :
  0 <= StartIndex -> StartIndex + Z.of_nat n < 2 ^ 32 ->
  Nat.iter n FIterator_incr (FIterator_ctor StartIndex)
    = FIterator_ctor (StartIndex + Z.of_nat n) /\
  FIterator_GetIndex (Nat.iter n FIterator_incr (FIterator_ctor StartIndex))
    = StartIndex + Z.of_nat n /\
  FIterator_valid a (Nat.iter n FIterator_incr (FIterator_ctor StartIndex))
    = (StartIndex + Z.of_nat n <? Num a) /\
  (StartIndex + Z.of_nat n < Num a ->
   FConstIterator_GetValue a (Nat.iter n FIterator_incr (FIterator_ctor StartIndex))
     = get_bit a (StartIndex + Z.of_nat n)).
Proof.
  intros Hs Hn.
  assert (Heq : Nat.iter n FIterator_incr (FIterator_ctor StartIndex)
                = FIterator_ctor (StartIndex + Z.of_nat n)).
  { induction n as [|n IH].
    - replace (StartIndex + Z.of_nat 0) with StartIndex by lia. reflexivity.
    - rewrite Nat.iter_succ, IH by lia. rewrite FIterator_ctor_incr by lia.
      replace (StartIndex + Z.of_nat n + 1) with (StartIndex + Z.of_nat (S n)) by lia.
      reflexivity. }
  rewrite Heq. split; [reflexivity|]. split; [reflexivity|]. split; [reflexivity|].
  intros Hlt. unfold FConstIterator_GetValue, get_bit, operator_index, Num in *.
  replace (StartIndex + Z.of_nat n <? NumBits a) with true
    by (symmetry; apply Z.ltb_lt; lia).
  cbn [NexusCheck Result_bind fst snd FIterator_ctor FRelativeBitReference_ctor
       Ref DwordIndex Mask].
  change NUM_BITS_PER_DWORD_LOG_TWO with 5. rewrite Z.shiftr_div_pow2 by lia.
  reflexivity.
Qed.


Lemma FConstReverseIterator_ctor_at (a : TBitArray) :
  0 < NumBits a <= 2 ^ 31 -> ReverseIteratorAt (FConstReverseIterator_ctor a) (NumBits a - 1).
Proof.
  intros Hn. unfold FConstReverseIterator_ctor, ReverseIteratorAt, Num.
  rewrite wrap32_small by lia. unfold FRelativeBitReference_ctor.
  cbn [RIndex RRef DwordIndex Mask]. rewrite index_mask by lia.
  change NUM_BITS_PER_DWORD_LOG_TWO with 5. rewrite Z.shiftr_div_pow2 by lia.
  unfold to_int32. destruct (Z.ltb_spec (NumBits a - 1) (2 ^ 31)); [|lia].
  repeat split.
Qed.

Lemma FConstReverseIterator_incr_at (it : FConstReverseIterator) (i : Z) :
  ReverseIteratorAt it i -> 0 < i < 2 ^ 31 ->
  exists it', FConstReverseIterator_incr it = Ok it' /\ ReverseIteratorAt it' (i - 1).
Proof.
  intros (Hidx & Hdw & Hmask) Hi. unfold FConstReverseIterator_incr.
  rewrite Hidx, Hdw, Hmask.
  destruct (Z.eqb_spec i (- 2 ^ 31)) as [?|_]; [lia|].
  assert (Hm : 0 <= i mod 32 < 32) by (apply Z.mod_pos_bound; lia).
  rewrite Z.shiftr_div_pow2 by lia. change (2 ^ 1) with 2.
  destruct (Z.eq_dec (i mod 32) 0) as [H0|Hn0].
  - rewrite H0. change (2 ^ 0 / 2) with 0. cbn [Z.eqb].
    eexists. split; [reflexivity|]. unfold ReverseIteratorAt.
    cbn [RIndex RRef DwordIndex Mask].
    assert (Hq : (i - 1) / 32 = i / 32 - 1) by (Z.div_mod_to_equations; lia).
    assert (Hr : (i - 1) mod 32 = 31) by (Z.div_mod_to_equations; lia).
    rewrite Hq, Hr. rewrite wrap32_small by (Z.div_mod_to_equations; lia).
    repeat split.
  - assert (Hp : 2 ^ (i mod 32) / 2 = 2 ^ (i mod 32 - 1)).
    { replace (i mod 32) with (i mod 32 - 1 + 1) at 1 by lia.
      rewrite Z.pow_add_r by lia. change (2 ^ 1) with 2.
      apply Z.div_mul. lia. }
    rewrite Hp.
    pose proof (pow2_mask_range (i mod 32 - 1) ltac:(lia)) as Hpos.
    destruct (Z.eqb_spec (2 ^ (i mod 32 - 1)) 0) as [?|_]; [lia|].
    eexists. split; [reflexivity|]. unfold ReverseIteratorAt.
    cbn [RIndex RRef DwordIndex Mask].
    assert (Hq : (i - 1) / 32 = i / 32) by (Z.div_mod_to_equations; lia).
    assert (Hr : (i - 1) mod 32 = i mod 32 - 1) by (Z.div_mod_to_equations; lia).
    rewrite Hq, Hr. repeat split.
Qed.

Lemma FConstReverseIterator_incr_last (it : FConstReverseIterator) :
  ReverseIteratorAt it 0 ->
  exists it', FConstReverseIterator_incr it = Ok it' /\ RIndex it' = -1.
Proof.
  intros (Hidx & Hdw & Hmask). unfold FConstReverseIterator_incr.
  rewrite Hidx, Hmask. cbn [Z.eqb]. change (Z.shiftr (2 ^ (0 mod 32)) 1) with 0.
  cbn [Z.eqb]. eexists. split; reflexivity.
Qed.

Lemma FConstReverseIterator_advance_at (n : nat) : forall (it : FConstReverseIterator) (i : Z),
  ReverseIteratorAt it i -> Z.of_nat n <= i < 2 ^ 31 ->
  exists it', FConstReverseIterator_advance n it = Ok it' /\
              ReverseIteratorAt it' (i - Z.of_nat n).
Proof.
  induction n as [|n IH]; intros it i Hat Hi.
  - exists it. split; [reflexivity|]. replace (i - Z.of_nat 0) with i by lia. exact Hat.
  - cbn [FConstReverseIterator_advance].
    destruct (FConstReverseIterator_incr_at it i Hat ltac:(lia)) as (it1 & Hinc & Hat1).
    rewrite Hinc. cbn [Result_bind].
    destruct (IH it1 (i - 1) Hat1 ltac:(lia)) as (it' & Hadv & Hat').
    exists it'. split; [exact Hadv|].
    replace (i - Z.of_nat (S n)) with (i - 1 - Z.of_nat n) by lia. exact Hat'.
Qed.

Lemma FConstReverseIterator_advance_app (n m : nat) : forall it : FConstReverseIterator,
  FConstReverseIterator_advance (n + m) it
  = Result_bind (FConstReverseIterator_advance n it) (FConstReverseIterator_advance m).
Proof.
  induction n as [|n IH]; intros it; [reflexivity|].
  cbn [Nat.add FConstReverseIterator_advance].
  destruct (FConstReverseIterator_incr it) as [it1|e]; cbn [Result_bind]; [apply IH | reflexivity].
Qed.

(** X16: on an array of at most [2^31] bits, [n < Num] increments of the
    reverse iterator lead to bit [Num - 1 - n]: the iterator is valid, its
    index is that number and its value is the bit [operator[]] reads there;
    after [Num] increments it is no longer valid.  On an empty array, and on
    one of more than [2^31] bits, the iterator is invalid from the start. *)
Theorem FConstReverseIterator_visits_bits_downwards (a : TBitArray) :
  0 <= NumBits a < 2 ^ 32 ->
  (NumBits a <= 2 ^ 31 ->
   (forall n : nat, Z.of_nat n < NumBits a ->
      exists it, FConstReverseIterator_advance n (FConstReverseIterator_ctor a) = Ok it /\
        FConstReverseIterator_valid it = true /\
        FConstReverseIterator_GetIndex it = NumBits a - 1 - Z.of_nat n /\
        FConstReverseIterator_GetValue a it = get_bit a (NumBits a - 1 - Z.of_nat n)) /\
   (exists it, FConstReverseIterator_advance (Z.to_nat (NumBits a))
                 (FConstReverseIterator_ctor a) = Ok it /\
      FConstReverseIterator_valid it = false)) /\
  (NumBits a = 0 \/ 2 ^ 31 < NumBits a ->
   FConstReverseIterator_valid (FConstReverseIterator_ctor a) = false).
Proof.
  intros Hu. split.
  - intros Hle.
    assert (Hsteps : forall n : nat, Z.of_nat n < NumBits a ->
              exists it, FConstReverseIterator_advance n (FConstReverseIterator_ctor a) = Ok it /\
                         ReverseIteratorAt it (NumBits a - 1 - Z.of_nat n)).
    { intros n Hn.
      apply FConstReverseIterator_advance_at; [|lia].
      apply FConstReverseIterator_ctor_at. lia. }
    split.
    + intros n Hn. destruct (Hsteps n Hn) as (it & Hadv & Hidx & Hdw & Hmask).
      exists it. split; [exact Hadv|].
      unfold FConstReverseIterator_valid, FConstReverseIterator_GetIndex,
        FConstReverseIterator_GetValue.
      rewrite Hidx, Hdw, Hmask. split; [apply geb_true; lia|]. split; [reflexivity|].
      unfold get_bit, operator_index.
      replace (NumBits a - 1 - Z.of_nat n <? NumBits a) with true
        by (symmetry; apply Z.ltb_lt; lia).
      cbn [NexusCheck Result_bind fst snd]. rewrite index_mask by lia. reflexivity.
    + destruct (Z.eq_dec (NumBits a) 0) as [H0|Hpos].
      * rewrite H0. cbn [Z.to_nat FConstReverseIterator_advance].
        eexists. split; [reflexivity|].
        unfold FConstReverseIterator_valid, FConstReverseIterator_ctor, Num.
        rewrite H0. reflexivity.
      * replace (Z.to_nat (NumBits a)) with (Z.to_nat (NumBits a - 1) + 1)%nat by lia.
        rewrite FConstReverseIterator_advance_app.
        destruct (Hsteps (Z.to_nat (NumBits a - 1)) ltac:(lia)) as (it & Hadv & Hat).
        rewrite Hadv. cbn [Result_bind FConstReverseIterator_advance].
        replace (NumBits a - 1 - Z.of_nat (Z.to_nat (NumBits a - 1))) with 0 in Hat by lia.
        destruct (FConstReverseIterator_incr_last it Hat) as (it' & Hinc & Hidx).
        rewrite Hinc. cbn [Result_bind]. exists it'. split; [reflexivity|].
        unfold FConstReverseIterator_valid. rewrite Hidx. reflexivity.
  - intros Hcase. unfold FConstReverseIterator_valid, FConstReverseIterator_ctor, Num.
    cbn [RIndex]. destruct Hcase as [H0|Hbig].
    + rewrite H0. reflexivity.
    + rewrite wrap32_small by lia. unfold to_int32.
      destruct (Z.ltb_spec (NumBits a - 1) (2 ^ 31)); [lia|].
      destruct (Z.geb_spec (NumBits a - 1 - 2 ^ 32) 0); [lia | reflexivity].
Qed.

End BitReferences.

(** ** Growing and filling a bit array *)

Lemma Memset_Ok {T : Type} (buf : Slots T) (off : Z) (v : T) (n : Z) :
  0 <= off -> 0 <= n -> off + n <= Z.of_nat (length buf) ->
  exists buf', Memset buf off v n = Ok buf' /\
    length buf' = length buf /\
    forall j : nat,
      buf' !! j = if (off <=? Z.of_nat j) && (Z.of_nat j <? off + n)
                  then Some (Some v) else buf !! j.
Proof.
  intros Ho Hn Hl. unfold Memset. destruct (Z.eqb_spec n 0) as [->|Hne].
  - exists buf. split; [reflexivity|]. split; [reflexivity|]. intros j.
    destruct (Z.leb_spec off (Z.of_nat j)), (Z.ltb_spec (Z.of_nat j) (off + 0));
      cbn [andb]; try reflexivity; lia.
  - assert (Hb : in_bounds buf off n = true) by (apply in_bounds_true; lia).
    rewrite Hb. eexists. split; [reflexivity|]. split; [apply length_inserts|].
    intros j.
    destruct (Z.leb_spec off (Z.of_nat j)), (Z.ltb_spec (Z.of_nat j) (off + n)); cbn [andb].
    + rewrite list_lookup_inserts by (rewrite ?length_replicate; lia).
      apply lookup_replicate_2. lia.
    + apply list_lookup_inserts_ge. rewrite length_replicate. lia.
    + apply list_lookup_inserts_lt. lia.
    + apply list_lookup_inserts_lt. lia.
Qed.

Lemma bit_at_word (d : Slots Z) (i w : Z) :
  0 <= i -> d !! Z.to_nat (i / 32) = Some (Some w) ->
  bit_at d i = Some (Z.testbit w (i mod 32)).
Proof. intros Hi Hw. unfold bit_at. rewrite Hw. reflexivity. Qed.

Lemma bit_at_same_word (d d' : Slots Z) (i : Z) :
  d' !! Z.to_nat (i / 32) = d !! Z.to_nat (i / 32) -> bit_at d' i = bit_at d i.
Proof. intros Hw. unfold bit_at. rewrite Hw. reflexivity. Qed.

Lemma testbit_all_ones (k : Z) : 0 <= k < 32 -> Z.testbit 4294967295 k = true.
Proof. intros Hk. change 4294967295 with (Z.ones 32). apply Z.ones_spec_low. lia. Qed.

Lemma WordsSet_bit (a : BitArray.TBitArray) (i : Z) :
  WordsSet a -> 0 <= i -> i / 32 < Z.of_nat (length (BitArray.AllocatorInstance a)) ->
  exists b, bit_at (BitArray.AllocatorInstance a) i = Some b.
Proof.
  intros Hset Hi Hl. destruct (Hset (Z.to_nat (i / 32))) as [w Hw].
  - assert (0 <= i / 32) by (Z.div_mod_to_equations; lia). lia.
  - unfold bit_at. rewrite Hw. eexists. reflexivity.
Qed.

Section BitArrayGrowth.
Context {Alloc : Allocator}.
Import BitArray.

Lemma Realloc_Ok (a : TBitArray) (PreviousNumBits : Z) :
  MaxBits a mod 32 = 0 -> 0 <= MaxBits a < 2 ^ 32 -> 0 <= PreviousNumBits <= MaxBits a ->
  exists buf', Realloc a PreviousNumBits = Ok (mkTBitArray buf' (NumBits a) (MaxBits a)) /\
    Z.of_nat (length buf') = MaxBits a / 32 /\
    (forall j : nat, Z.of_nat j < DivideAndRoundUp PreviousNumBits NUM_BITS_PER_DWORD ->
       (j < length (AllocatorInstance a))%nat -> buf' !! j = AllocatorInstance a !! j) /\
    (forall j : nat, DivideAndRoundUp PreviousNumBits NUM_BITS_PER_DWORD <= Z.of_nat j ->
       Z.of_nat j < MaxBits a / 32 -> buf' !! j = Some (Some 0)).
Proof.
  intros Hw Hu Hp. unfold Realloc.
  set (Prev := DivideAndRoundUp PreviousNumBits NUM_BITS_PER_DWORD).
  set (MaxDw := DivideAndRoundUp (MaxBits a) NUM_BITS_PER_DWORD).
  assert (HM : MaxDw = MaxBits a / 32) by (unfold MaxDw; zdiv).
  assert (HP : 0 <= Prev <= MaxDw) by (unfold Prev, MaxDw; zdiv).
  assert (HM' : 0 <= MaxDw < 2 ^ 27) by (unfold MaxDw; zdiv).
  set (buf := ResizeAllocation (AllocatorInstance a) Prev MaxDw).
  assert (Hlen : Z.of_nat (length buf) = MaxDw)
    by (unfold buf; rewrite ResizeAllocation_length; lia).
  assert (Hkeep : forall j : nat, Z.of_nat j < Prev ->
            (j < length (AllocatorInstance a))%nat -> buf !! j = AllocatorInstance a !! j).
  { intros j Hj Hjl. unfold buf. apply ResizeAllocation_lookup; lia. }
  destruct (Z.eqb_spec MaxDw 0) as [Hz|Hnz]; cbn [negb].
  - exists buf. split; [reflexivity|]. split; [lia|]. split; [exact Hkeep|].
    intros j Hj1 Hj2. lia.
  - rewrite (wrap32_small (MaxDw - Prev)) by lia.
    destruct (Memset_Ok buf Prev 0 (MaxDw - Prev) ltac:(lia) ltac:(lia) ltac:(lia))
      as (buf' & Hrun & Hlen' & Hlook).
    rewrite Hrun. cbn [Result_bind]. exists buf'. split; [reflexivity|].
    split; [lia|]. split.
    + intros j Hj Hjl. rewrite Hlook.
      destruct (Z.leb_spec Prev (Z.of_nat j)); cbn [andb]; [lia|]. apply Hkeep; assumption.
    + intros j Hj1 Hj2. rewrite Hlook.
      destruct (Z.leb_spec Prev (Z.of_nat j)), (Z.ltb_spec (Z.of_nat j) (Prev + (MaxDw - Prev)));
        cbn [andb]; try reflexivity; lia.
Qed.

Lemma Reserve_Ok (a : TBitArray) (Number : Z) :
  GrowthCovers -> GrowthWithinBits ->
  BitWellFormed a -> 0 <= Number <= 2 ^ 32 - 32 ->
  exists a', Reserve a Number = Ok a' /\
    BitWellFormed a' /\ NumBits a' = NumBits a /\
    Number <= MaxBits a' /\ MaxBits a <= MaxBits a' /\
    (Number <= MaxBits a -> a' = a) /\
    (forall j : nat, Z.of_nat j < DivideAndRoundUp (NumBits a) NUM_BITS_PER_DWORD ->
       AllocatorInstance a' !! j = AllocatorInstance a !! j) /\
    (WordsSet a -> WordsSet a').
Proof.
  intros Hg Hf Ha Hn. pose proof Ha as [Hb Hw Hu Hl].
  unfold Reserve. destruct (Z.gtb_spec Number (MaxBits a)) as [Hgt|Hle].
  2:{ exists a. repeat split; try assumption; try lia; try reflexivity. auto. }
  pose proof (Hg (DivideAndRoundUp Number NUM_BITS_PER_DWORD)
                 (DivideAndRoundUp (MaxBits a) NUM_BITS_PER_DWORD) 4) as Hge.
  pose proof (Hf (DivideAndRoundUp Number NUM_BITS_PER_DWORD)
                 (DivideAndRoundUp (MaxBits a) NUM_BITS_PER_DWORD)) as Hlt'.
  assert (Hd : 1 <= DivideAndRoundUp Number NUM_BITS_PER_DWORD < 2 ^ 27) by zdiv.
  assert (Hd' : Number <= DivideAndRoundUp Number NUM_BITS_PER_DWORD * 32) by zdiv.
  specialize (Hlt' ltac:(lia)).
  set (g := CalculateSlackGrow _ _ 4) in *.
  assert (Hnew : wrap32 (wrap32 g * NUM_BITS_PER_DWORD) = g * 32).
  { unfold wrap32, NUM_BITS_PER_DWORD.
    rewrite (Z.mod_small g) by lia. apply Z.mod_small. lia. }
  rewrite Hnew.
  set (a0 := mkTBitArray (AllocatorInstance a) (NumBits a) (g * 32)).
  destruct (Realloc_Ok a0 (NumBits a)) as (buf' & Hrun & Hlen & Hkeep & Hzero);
    cbn [MaxBits NumBits AllocatorInstance a0].
  - Z.div_mod_to_equations. lia.
  - lia.
  - lia.
  - cbn [MaxBits NumBits AllocatorInstance a0] in *.
    rewrite Hrun. eexists. split; [reflexivity|].
    cbn [MaxBits NumBits AllocatorInstance].
    assert (Hq : g * 32 / 32 = g) by (apply Z.div_mul; lia).
    split; [|split; [reflexivity|split; [lia|split; [lia|split; [lia|split]]]]].
    + constructor; cbn [MaxBits NumBits AllocatorInstance].
      * lia.
      * apply Z.mod_mul. lia.
      * lia.
      * exact Hlen.
    + intros j Hj. apply Hkeep; [exact Hj|]. zdiv.
    + intros Hset j Hj. cbn [AllocatorInstance] in Hj.
      destruct (Z.lt_ge_cases (Z.of_nat j) (DivideAndRoundUp (NumBits a) NUM_BITS_PER_DWORD))
        as [Hlow|Hhigh].
      * rewrite Hkeep by (try exact Hlow; zdiv). apply Hset. zdiv.
      * exists 0. apply Hzero; [exact Hhigh | lia].
Qed.

Lemma Empty_Ok (a : TBitArray) (ExpectedNumBits : Z) :
  BitWellFormed a -> 0 <= ExpectedNumBits <= 2 ^ 32 - 32 ->
  exists a', Empty a ExpectedNumBits = Ok a' /\
    BitWellFormed a' /\ NumBits a' = 0 /\
    MaxBits a' = DivideAndRoundUp ExpectedNumBits NUM_BITS_PER_DWORD * 32 /\
    (MaxBits a = DivideAndRoundUp ExpectedNumBits NUM_BITS_PER_DWORD * 32 ->
     AllocatorInstance a' = AllocatorInstance a) /\
    (MaxBits a <> DivideAndRoundUp ExpectedNumBits NUM_BITS_PER_DWORD * 32 ->
     forall j : nat, (j < length (AllocatorInstance a'))%nat ->
       AllocatorInstance a' !! j = Some (Some 0)).
Proof.
  intros Ha Hn. pose proof Ha as [Hb Hw Hu Hl]. unfold Empty.
  cbn [MaxBits NumBits AllocatorInstance].
  assert (Hexp : wrap32 (DivideAndRoundUp ExpectedNumBits NUM_BITS_PER_DWORD * NUM_BITS_PER_DWORD)
                 = DivideAndRoundUp ExpectedNumBits NUM_BITS_PER_DWORD * 32).
  { unfold NUM_BITS_PER_DWORD at 2. apply wrap32_small. zdiv. }
  rewrite Hexp. set (E' := DivideAndRoundUp ExpectedNumBits NUM_BITS_PER_DWORD * 32).
  assert (HE : 0 <= E' < 2 ^ 32 /\ E' mod 32 = 0) by (unfold E'; zdiv).
  destruct (Z.eqb_spec (MaxBits a) E') as [Heq|Hne]; cbn [negb].
  - eexists. split; [reflexivity|]. cbn [MaxBits NumBits AllocatorInstance].
    split; [|split; [reflexivity|split; [exact Heq|split; [reflexivity|]]]].
    + constructor; cbn [MaxBits NumBits AllocatorInstance]; try assumption; lia.
    + intros Hc. contradiction.
  - set (a0 := mkTBitArray (AllocatorInstance a) 0 E').
    destruct (Realloc_Ok a0 0) as (buf' & Hrun & Hlen & _ & Hzero);
      cbn [MaxBits NumBits AllocatorInstance a0]; try lia.
    cbn [MaxBits NumBits AllocatorInstance a0] in *. rewrite Hrun.
    eexists. split; [reflexivity|]. cbn [MaxBits NumBits AllocatorInstance].
    split; [|split; [reflexivity|split; [reflexivity|split]]].
    + constructor; cbn [MaxBits NumBits AllocatorInstance]; first [lia | exact Hlen].
    + intros Hc. contradiction.
    + intros _ j Hj. apply Hzero; [|lia].
      change (DivideAndRoundUp 0 NUM_BITS_PER_DWORD) with 0. lia.
Qed.

(** X17: [Init(bValue, InNumBits)] returns an array of [InNumBits] bits that
    all read [bValue], whatever the array held before; its capacity is
    [InNumBits] rounded up to whole words. *)
Theorem Init_sets_every_bit (a : TBitArray) (bValue : bool) (InNumBits : Z) :
  BitWellFormed a -> 0 <= InNumBits <= 2 ^ 32 - 32 ->
  exists a', Init a bValue InNumBits = Ok a' /\
    BitWellFormed a' /\
    NumBits a' = InNumBits /\
    MaxBits a' = DivideAndRoundUp InNumBits NUM_BITS_PER_DWORD * 32 /\
    forall i, 0 <= i < InNumBits -> get_bit a' i = Ok bValue.
Proof.
  intros Ha Hn. unfold Init.
  destruct (Empty_Ok a InNumBits Ha Hn) as (a1 & Hrun & Ha1 & Hnum & Hmax & _ & _).
  rewrite Hrun. cbn [Result_bind]. pose proof Ha1 as [Hb Hw Hu Hl].
  destruct (Z.eqb_spec InNumBits 0) as [H0|Hpos]; cbn [negb].
  - exists a1. split; [reflexivity|]. split; [exact Ha1|]. split; [lia|].
    split; [exact Hmax|]. intros i Hi. lia.
  - unfold GetData.
    assert (Hq : MaxBits a1 / 32 = DivideAndRoundUp InNumBits NUM_BITS_PER_DWORD)
      by (rewrite Hmax; apply Z.div_mul; lia).
    destruct (Memset_Ok (AllocatorInstance a1) 0 (if bValue then 4294967295 else 0)
                (DivideAndRoundUp InNumBits NUM_BITS_PER_DWORD))
      as (buf & Hms & Hlen & Hlook); [lia | zdiv | lia |].
    rewrite Hms. cbn [Result_bind]. eexists. split; [reflexivity|].
    cbn [MaxBits NumBits AllocatorInstance].
    split; [|split; [reflexivity|split; [exact Hmax|]]].
    + constructor; cbn [MaxBits NumBits AllocatorInstance]; try assumption.
      * rewrite Hmax. zdiv.
      * rewrite Hlen. exact Hl.
    + intros i Hi. apply get_bit_at; [cbn [NumBits]; lia|]. cbn [AllocatorInstance].
      assert (Hi32 : 0 <= i / 32 < DivideAndRoundUp InNumBits NUM_BITS_PER_DWORD) by zdiv.
      assert (Him : 0 <= i mod 32 < 32) by (apply Z.mod_pos_bound; lia).
      rewrite (bit_at_word buf i (if bValue then 4294967295 else 0)); [|lia|].
      * f_equal. destruct bValue; [apply testbit_all_ones; lia | apply Z.bits_0].
      * rewrite Hlook. rewrite Z2Nat.id by lia.
        destruct (Z.leb_spec 0 (i / 32)),
                 (Z.ltb_spec (i / 32) (0 + DivideAndRoundUp InNumBits NUM_BITS_PER_DWORD));
          cbn [andb]; try reflexivity; lia.
Qed.

(** X18: [Reserve(Number)] returns with room for [Number] bits and never
    with less room than before; it changes neither [NumBits] nor any bit, and
    nothing at all when the room is there already. *)
Theorem Reserve_keeps_the_bits (a : TBitArray) (Number : Z) :
  GrowthCovers -> GrowthWithinBits ->
  BitWellFormed a -> WordsSet a -> 0 <= Number <= 2 ^ 32 - 32 ->
  exists a', Reserve a Number = Ok a' /\
    NumBits a' = NumBits a /\
    Number <= MaxBits a' /\ MaxBits a <= MaxBits a' /\
    (Number <= MaxBits a -> a' = a) /\
    forall i, 0 <= i < NumBits a -> get_bit a' i = get_bit a i.
Proof.
  intros Hg Hf Ha Hset Hn.
  destruct (Reserve_Ok a Number Hg Hf Ha Hn)
    as (a' & Hrun & Ha' & Hnum & Hroom & Hmono & Hsame & Hkeep & _).
  exists a'. split; [exact Hrun|]. split; [exact Hnum|]. split; [exact Hroom|].
  split; [exact Hmono|]. split; [exact Hsame|].
  intros i Hi. destruct (WordsSet_bit a i Hset) as [b Hb]; [lia | |].
  - destruct Ha as [Hb Hw Hu Hl]. Z.div_mod_to_equations. lia.
  - apply get_bit_bit_at; [exact Hi | exact Hnum | eauto |].
    apply bit_at_same_word. apply Hkeep. zdiv.
Qed.

Lemma set_bit_Ok (a : TBitArray) (i : Z) (v : bool) :
  0 <= i < NumBits a -> (exists b, bit_at (AllocatorInstance a) i = Some b) ->
  exists d', set_bit a i v = Ok (mkTBitArray d' (NumBits a) (MaxBits a)) /\
    length d' = length (AllocatorInstance a) /\
    bit_at d' i = Some v /\
    forall j, 0 <= j -> j <> i -> bit_at d' j = bit_at (AllocatorInstance a) j.
Proof.
  intros Hi [b0 Hb0].
  destruct (FBitReference_assign_at (AllocatorInstance a) i b0 v ltac:(lia) Hb0)
    as (d' & Hrun & Hlen & Hnew & Hrest).
  exists d'. split; [|split; [exact Hlen|split; [exact Hnew | exact Hrest]]].
  unfold set_bit, operator_index.
  replace (i <? NumBits a) with true by (symmetry; apply Z.ltb_lt; lia).
  cbn [NexusCheck Result_bind fst snd]. rewrite index_mask by lia.
  unfold GetData. change NUM_BITS_PER_DWORD with 32. rewrite Hrun. reflexivity.
Qed.

Lemma AllSet_same_domain (d d' : Slots Z) :
  length d' = length d ->
  (forall i, 0 <= i -> i / 32 < Z.of_nat (length d) -> exists b, bit_at d' i = Some b) ->
  AllSet d'.
Proof.
  intros Hlen Hbits j Hj. destruct (Hbits (32 * Z.of_nat j)) as [b Hb]; [lia | |].
  - rewrite Z.mul_comm, Z.div_mul by lia. lia.
  - unfold bit_at in Hb. rewrite Z.mul_comm, Z.div_mul, Nat2Z.id in Hb by lia.
    destruct (d' !! j) as [[w|]|]; try discriminate. eauto.
Qed.

(** X19: [Add(bValue)] returns the number of bits before the call, makes
    the array one bit longer, with the new last bit reading [bValue], and
    changes no bit that was there. *)
Theorem Add_appends_a_bit (a : TBitArray) (bValue : bool) :
  GrowthCovers -> GrowthWithinBits ->
  BitWellFormed a -> WordsSet a -> NumBits a < 2 ^ 32 - 32 ->
  exists a', Add a bValue = Ok (NumBits a, a') /\
    BitWellFormed a' /\ WordsSet a' /\
    NumBits a' = NumBits a + 1 /\
    get_bit a' (NumBits a) = Ok bValue /\
    forall i, 0 <= i < NumBits a -> get_bit a' i = get_bit a i.
Proof.
  intros Hg Hf Ha Hset Hn. pose proof Ha as [Hb Hw Hu Hl]. unfold Add.
  rewrite (wrap32_small (NumBits a + 1)) by lia.
  destruct (Reserve_Ok a (NumBits a + 1) Hg Hf Ha ltac:(lia))
    as (a1 & Hrun & Ha1 & Hnum & Hroom & _ & _ & Hkeep & Hset1).
  specialize (Hset1 Hset). rewrite Hrun. cbn [Result_bind].
  rewrite Hnum, (wrap32_small (NumBits a + 1)) by lia.
  pose proof Ha1 as [Hb1 Hw1 Hu1 Hl1].
  set (a2 := mkTBitArray (AllocatorInstance a1) (NumBits a + 1) (MaxBits a1)).
  assert (Hbits1 : forall i, 0 <= i < MaxBits a1 ->
            exists b, bit_at (AllocatorInstance a1) i = Some b).
  { intros i Hi. apply WordsSet_bit; [exact Hset1 | lia |]. Z.div_mod_to_equations. lia. }
  destruct (set_bit_Ok a2 (NumBits a) bValue) as (d' & Hsb & Hlen & Hnew & Hrest);
    cbn [NumBits AllocatorInstance a2].
  - lia.
  - apply Hbits1. lia.
  - cbn [NumBits MaxBits AllocatorInstance a2] in Hsb, Hlen, Hrest. rewrite Hsb.
    cbn [Result_bind]. eexists. split; [reflexivity|].
    cbn [NumBits MaxBits AllocatorInstance].
    split; [|split; [|split; [reflexivity|split]]].
    + constructor; cbn [NumBits MaxBits AllocatorInstance];
        first [assumption | lia | (rewrite Hlen; exact Hl1)].
    + unfold WordsSet. cbn [AllocatorInstance].
      apply (AllSet_same_domain (AllocatorInstance a1)); [exact Hlen|].
      intros i Hi Hil. destruct (Z.eq_dec i (NumBits a)) as [->|Hne]; [eauto|].
      rewrite Hrest by lia. apply WordsSet_bit; assumption.
    + apply get_bit_at; [cbn [NumBits]; lia | exact Hnew].
    + intros i Hi.
      destruct (Hbits1 i ltac:(lia)) as [b Hb'].
      assert (Hold : bit_at (AllocatorInstance a1) i = bit_at (AllocatorInstance a) i).
      { apply bit_at_same_word. apply Hkeep. zdiv. }
      rewrite (get_bit_at a i b) by (try lia; congruence).
      apply get_bit_at; [cbn [NumBits]; lia|]. cbn [AllocatorInstance].
      rewrite Hrest by lia. exact Hb'.
Qed.

Lemma AddMany_loop_sets (fuel : nat) : forall (a : TBitArray) (It End : Z) (v : bool),
  0 <= It <= End -> End <= NumBits a -> End < 2 ^ 32 -> End - It < Z.of_nat fuel ->
  (forall i, 0 <= i -> i / 32 < Z.of_nat (length (AllocatorInstance a)) ->
     exists b, bit_at (AllocatorInstance a) i = Some b) ->
  End - 1 < 32 * Z.of_nat (length (AllocatorInstance a)) ->
  exists d', AddMany_loop fuel a It End v = Ok (mkTBitArray d' (NumBits a) (MaxBits a)) /\
    length d' = length (AllocatorInstance a) /\
    (forall i, It <= i < End -> bit_at d' i = Some v) /\
    (forall i, 0 <= i -> ~ (It <= i < End) -> bit_at d' i = bit_at (AllocatorInstance a) i) /\
    (forall i, 0 <= i -> i / 32 < Z.of_nat (length (AllocatorInstance a)) ->
       exists b, bit_at d' i = Some b).
Proof.
  induction fuel as [|fuel IH]; intros a It End v Hit Hend Hu Hfuel Hbits Hroom; [lia|].
  cbn [AddMany_loop]. destruct (Z.eqb_spec It End) as [Heq|Hne]; cbn [negb].
  - exists (AllocatorInstance a). split; [destruct a; reflexivity|]. split; [reflexivity|].
    split; [intros i Hi; lia|]. split; [reflexivity | exact Hbits].
  - destruct (set_bit_Ok a It v) as (d1 & Hsb & Hlen1 & Hnew1 & Hrest1); [lia | |].
    { apply Hbits; [lia|]. Z.div_mod_to_equations. lia. }
    rewrite Hsb. cbn [Result_bind]. rewrite (wrap32_small (It + 1)) by lia.
    destruct (IH (mkTBitArray d1 (NumBits a) (MaxBits a)) (It + 1) End v)
      as (d' & Hrun & Hlen & Hnew & Hrest & Hall);
      cbn [NumBits MaxBits AllocatorInstance]; try lia.
    + intros i Hi Hil. destruct (Z.eq_dec i It) as [->|Hd]; [eauto|].
      rewrite Hrest1 by lia. apply Hbits; [lia|]. rewrite <- Hlen1. exact Hil.
    + cbn [NumBits MaxBits AllocatorInstance] in *. exists d'.
      split; [exact Hrun|]. split; [lia|]. split; [|split].
      * intros i Hi. destruct (Z.eq_dec i It) as [->|Hd].
        -- rewrite Hrest by lia. exact Hnew1.
        -- apply Hnew. lia.
      * intros i Hi Hout. rewrite Hrest by lia. apply Hrest1; lia.
      * intros i Hi Hil. apply Hall; [lia|]. rewrite Hlen1. exact Hil.
Qed.

(** X20: [Add(Value, NumToAdd)] returns the number of bits before the call
    and makes the array [NumToAdd] bits longer; the new bits all read
    [Value] and no bit that was there changes. *)
Theorem Add_appends_many_bits (a : TBitArray) (Value : bool) (NumToAdd : Z) :
  GrowthCovers -> GrowthWithinBits ->
  BitWellFormed a -> WordsSet a -> 0 <= NumToAdd -> NumBits a + NumToAdd <= 2 ^ 32 - 32 ->
  exists a', AddMany a Value NumToAdd = Ok (NumBits a, a') /\
    BitWellFormed a' /\ WordsSet a' /\
    NumBits a' = NumBits a + NumToAdd /\
    (forall i, NumBits a <= i < NumBits a + NumToAdd -> get_bit a' i = Ok Value) /\
    (forall i, 0 <= i < NumBits a -> get_bit a' i = get_bit a i).
Proof.
  intros Hg Hf Ha Hset Hn Hroom. pose proof Ha as [Hb Hw Hu Hl]. unfold AddMany.
  rewrite (wrap32_small (NumBits a + NumToAdd)) by lia.
  destruct (Reserve_Ok a (NumBits a + NumToAdd) Hg Hf Ha ltac:(lia))
    as (a1 & Hrun & Ha1 & Hnum & Hroom1 & _ & _ & Hkeep & Hset1).
  specialize (Hset1 Hset). rewrite Hrun. cbn [Result_bind].
  rewrite Hnum, (wrap32_small (NumBits a + NumToAdd)) by lia.
  pose proof Ha1 as [Hb1 Hw1 Hu1 Hl1].
  set (a2 := mkTBitArray (AllocatorInstance a1) (NumBits a + NumToAdd) (MaxBits a1)).
  destruct (AddMany_loop_sets (S (Z.to_nat NumToAdd)) a2 (NumBits a)
              (NumBits a + NumToAdd) Value)
    as (d' & Hloop & Hlen & Hnew & Hrest & Hall); cbn [NumBits MaxBits AllocatorInstance a2];
    try lia.
  - intros i Hi Hil. apply WordsSet_bit; assumption.
  - Z.div_mod_to_equations. lia.
  - cbn [NumBits MaxBits AllocatorInstance a2] in *. rewrite Hloop. cbn [Result_bind].
    eexists. split; [reflexivity|]. cbn [NumBits MaxBits AllocatorInstance].
    split; [|split; [|split; [reflexivity|split]]].
    + constructor; cbn [NumBits MaxBits AllocatorInstance];
        first [assumption | lia | (rewrite Hlen; exact Hl1)].
    + unfold WordsSet. cbn [AllocatorInstance].
      apply (AllSet_same_domain (AllocatorInstance a1)); assumption.
    + intros i Hi. apply get_bit_at; [cbn [NumBits]; lia|]. apply Hnew. exact Hi.
    + intros i Hi.
      destruct (WordsSet_bit a1 i Hset1 ltac:(lia)) as [b Hb']; [Z.div_mod_to_equations; lia|].
      assert (Hold : bit_at (AllocatorInstance a1) i = bit_at (AllocatorInstance a) i).
      { apply bit_at_same_word. apply Hkeep. zdiv. }
      rewrite (get_bit_at a i b) by (try lia; congruence).
      apply get_bit_at; [cbn [NumBits]; lia|]. cbn [AllocatorInstance].
      rewrite Hrest by lia. exact Hb'.
Qed.

(** X21: [Empty(ExpectedNumBits)] leaves no bit and room for
    [ExpectedNumBits] bits rounded up to whole words, in storage that is
    left as it is when it has that size already and is zeroed otherwise;
    [Reset] leaves no bit, keeps the room and zeroes the words that held
    bits. *)
Theorem Empty_and_Reset_remove_every_bit (a : TBitArray) (ExpectedNumBits : Z) :
  BitWellFormed a -> 0 <= ExpectedNumBits <= 2 ^ 32 - 32 ->
  (exists a', Empty a ExpectedNumBits = Ok a' /\
     NumBits a' = 0 /\
     MaxBits a' = DivideAndRoundUp ExpectedNumBits NUM_BITS_PER_DWORD * 32 /\
     Z.of_nat (length (AllocatorInstance a')) = MaxBits a' / 32 /\
     (MaxBits a = MaxBits a' -> AllocatorInstance a' = AllocatorInstance a) /\
     (MaxBits a <> MaxBits a' ->
      forall j : nat, (j < length (AllocatorInstance a'))%nat ->
        AllocatorInstance a' !! j = Some (Some 0))) /\
  (exists a', Reset a = Ok a' /\
     NumBits a' = 0 /\ MaxBits a' = MaxBits a /\
     length (AllocatorInstance a') = length (AllocatorInstance a) /\
     forall j : nat,
       AllocatorInstance a' !! j
       = if Z.of_nat j <? DivideAndRoundUp (NumBits a) NUM_BITS_PER_DWORD
         then Some (Some 0) else AllocatorInstance a !! j).
Proof.
  intros Ha Hn. split.
  - destruct (Empty_Ok a ExpectedNumBits Ha Hn)
      as (a' & Hrun & Ha' & Hnum & Hmax & Hsame & Hzero).
    exists a'. split; [exact Hrun|]. split; [exact Hnum|]. split; [exact Hmax|].
    split; [apply Ha'|]. rewrite Hmax. split; assumption.
  - pose proof Ha as [Hb Hw Hu Hl]. unfold Reset, GetData.
    destruct (Memset_Ok (AllocatorInstance a) 0 0
                (DivideAndRoundUp (NumBits a) NUM_BITS_PER_DWORD))
      as (buf & Hms & Hlen & Hlook); [lia | zdiv | zdiv |].
    rewrite Hms. cbn [Result_bind]. eexists. split; [reflexivity|].
    cbn [NumBits MaxBits AllocatorInstance]. split; [reflexivity|]. split; [reflexivity|].
    split; [exact Hlen|]. intros j. rewrite Hlook.
    destruct (Z.leb_spec 0 (Z.of_nat j)); [|lia]. cbn [andb]. reflexivity.
Qed.

End BitArrayGrowth.

(** ** Ranges of bits *)


Lemma testbit_masked (v : bool) (w mask k : Z) :
  0 <= k < 32 ->
  Z.testbit (masked v w mask) k = if Z.testbit mask k then v else Z.testbit w k.
Proof.
  intros Hk. unfold masked. destruct v.
  - rewrite Z.lor_spec. destruct (Z.testbit mask k); [apply orb_true_r | apply orb_false_r].
  - unfold not32, wrap32.
    rewrite Z.land_spec, Z.mod_pow2_bits_low, Z.lnot_spec by lia.
    destruct (Z.testbit mask k); cbn [negb]; [apply andb_false_r | apply andb_true_r].
Qed.

Lemma testbit_StartMask (s k : Z) :
  0 <= s < 32 -> 0 <= k < 32 ->
  Z.testbit (wrap32 (Z.shiftl 4294967295 s)) k = (s <=? k).
Proof.
  intros Hs Hk. unfold wrap32. rewrite Z.mod_pow2_bits_low by lia.
  rewrite Z.shiftl_spec by lia. change 4294967295 with (Z.ones 32).
  destruct (Z.leb_spec s k).
  - apply Z.ones_spec_low. lia.
  - apply Z.testbit_neg_r. lia.
Qed.

Lemma testbit_EndMask (t k : Z) :
  0 <= t < 32 -> 0 <= k < 32 ->
  Z.testbit (Z.shiftr 4294967295 t) k = (k + t <? 32).
Proof.
  intros Ht Hk. rewrite Z.shiftr_spec by lia. change 4294967295 with (Z.ones 32).
  destruct (Z.ltb_spec (k + t) 32).
  - apply Z.ones_spec_low. lia.
  - apply Z.ones_spec_high. lia.
Qed.

Lemma SetRange_fill_Ok (n : nat) : forall (buf : Slots Z) (Data Fill : Z),
  0 <= Data -> Data + Z.of_nat n <= Z.of_nat (length buf) ->
  exists buf', BitArray.SetRange_fill n buf Data Fill = Ok (buf', Data + Z.of_nat n) /\
    length buf' = length buf /\
    forall j : nat,
      buf' !! j = if (Data <=? Z.of_nat j) && (Z.of_nat j <? Data + Z.of_nat n)
                  then Some (Some Fill) else buf !! j.
Proof.
  induction n as [|n IH]; intros buf Data Fill HD Hl.
  - exists buf. cbn [BitArray.SetRange_fill].
    replace (Data + Z.of_nat 0) with Data by lia. split; [reflexivity|].
    split; [reflexivity|]. intros j.
    destruct (Z.leb_spec Data (Z.of_nat j)), (Z.ltb_spec (Z.of_nat j) Data);
      cbn [andb]; try reflexivity; lia.
  - cbn [BitArray.SetRange_fill].
    assert (Hst : store buf Data Fill = Ok (<[Z.to_nat Data := Some Fill]> buf))
      by (apply store_Ok; split; [lia | reflexivity]).
    rewrite Hst. cbn [Result_bind].
    destruct (IH (<[Z.to_nat Data := Some Fill]> buf) (Data + 1) Fill)
      as (buf' & Hrun & Hlen & Hlook); [lia | rewrite length_insert; lia |].
    exists buf'. replace (Data + Z.of_nat (S n)) with (Data + 1 + Z.of_nat n) by lia.
    split; [exact Hrun|].
    split; [rewrite Hlen; apply length_insert|]. intros j. rewrite Hlook.
    destruct (Nat.eq_dec j (Z.to_nat Data)) as [->|Hne].
    + rewrite list_lookup_insert_eq by lia.
      destruct (Z.leb_spec (Data + 1) (Z.of_nat (Z.to_nat Data))),
               (Z.leb_spec Data (Z.of_nat (Z.to_nat Data))),
               (Z.ltb_spec (Z.of_nat (Z.to_nat Data)) (Data + 1 + Z.of_nat n));
        cbn [andb]; try reflexivity; lia.
    + rewrite list_lookup_insert_ne by lia.
      destruct (Z.leb_spec (Data + 1) (Z.of_nat j)), (Z.leb_spec Data (Z.of_nat j)),
               (Z.ltb_spec (Z.of_nat j) (Data + 1 + Z.of_nat n));
        cbn [andb]; try reflexivity; lia.
Qed.


Lemma SetRange_words_Ok (buf : Slots Z) (v : bool) (First Count StartMask EndMask : Z) :
  0 <= First -> 1 <= Count < 2 ^ 32 -> First + Count <= Z.of_nat (length buf) ->
  (forall j : nat, First <= Z.of_nat j < First + Count -> exists w, buf !! j = Some (Some w)) ->
  exists buf',
    (if v then
       if Count =? 1 then
         w <- load buf First ;;
         store buf First (Z.lor w (Z.land StartMask EndMask))
       else
         w <- load buf First ;;
         buf1 <- store buf First (Z.lor w StartMask) ;;
         r <- BitArray.SetRange_fill (Z.to_nat (wrap32 (Count - 2))) buf1 (First + 1)
                4294967295 ;;
         w' <- load (fst r) (snd r) ;;
         store (fst r) (snd r) (Z.lor w' EndMask)
     else
       if Count =? 1 then
         w <- load buf First ;;
         store buf First (Z.land w (not32 (Z.land StartMask EndMask)))
       else
         w <- load buf First ;;
         buf1 <- store buf First (Z.land w (not32 StartMask)) ;;
         r <- BitArray.SetRange_fill (Z.to_nat (wrap32 (Count - 2))) buf1 (First + 1) 0 ;;
         w' <- load (fst r) (snd r) ;;
         store (fst r) (snd r) (Z.land w' (not32 EndMask))) = Ok buf' /\
    length buf' = length buf /\
    forall (j : nat) (w : Z), buf !! j = Some (Some w) ->
      buf' !! j = Some (Some (SetRange_word v First Count StartMask EndMask (Z.of_nat j) w)).
Proof.
  intros HF HC Hl Hset.
  destruct (Hset (Z.to_nat First) ltac:(lia)) as [w0 Hw0].
  assert (Hld0 : load buf First = Ok w0) by (apply load_Ok; split; [lia | exact Hw0]).
  destruct (Z.eqb_spec Count 1) as [H1|Hn1].
  - (* one word *)
    exists (<[Z.to_nat First := Some (masked v w0 (Z.land StartMask EndMask))]> buf).
    split; [|split; [apply length_insert|]].
    + destruct v; rewrite Hld0; cbn [Result_bind]; apply store_Ok;
        (split; [lia | reflexivity]).
    + intros j w Hj. unfold SetRange_word. rewrite H1. cbn [Z.eqb Pos.eqb].
      destruct (Z.eqb_spec (Z.of_nat j) First) as [Heq|Hne].
      * assert (Hj' : j = Z.to_nat First) by lia. subst j.
        rewrite list_lookup_insert_eq by lia. congruence.
      * rewrite list_lookup_insert_ne by lia. exact Hj.
  - (* first word, whole words, last word *)
    set (Last := First + Count - 1).
    rewrite (wrap32_small (Count - 2)) by lia.
    set (buf1 := <[Z.to_nat First := Some (masked v w0 StartMask)]> buf).
    assert (Hst1 : forall x, x = masked v w0 StartMask -> store buf First x = Ok buf1).
    { intros x ->. apply store_Ok. split; [lia | reflexivity]. }
    destruct (SetRange_fill_Ok (Z.to_nat (Count - 2)) buf1 (First + 1)
                (if v then 4294967295 else 0))
      as (buf2 & Hfill & Hlen2 & Hlook2); [lia | unfold buf1; rewrite length_insert; lia |].
    replace (First + 1 + Z.of_nat (Z.to_nat (Count - 2))) with Last in Hfill, Hlook2
      by (unfold Last; lia).
    destruct (Hset (Z.to_nat Last) ltac:(unfold Last; lia)) as [wl Hwl].
    assert (Hwl2 : buf2 !! Z.to_nat Last = Some (Some wl)).
    { rewrite Hlook2.
      destruct (Z.leb_spec (First + 1) (Z.of_nat (Z.to_nat Last))),
               (Z.ltb_spec (Z.of_nat (Z.to_nat Last)) Last); cbn [andb]; try lia.
      all: unfold buf1; rewrite list_lookup_insert_ne by (unfold Last; lia); exact Hwl. }
    assert (Hldl : load buf2 Last = Ok wl)
      by (apply load_Ok; split; [unfold Last; lia | exact Hwl2]).
    exists (<[Z.to_nat Last := Some (masked v wl EndMask)]> buf2).
    split; [|split].
    + destruct v; rewrite Hld0; cbn [Result_bind];
        (erewrite Hst1 by reflexivity); cbn [Result_bind];
        rewrite Hfill; cbn [Result_bind fst snd]; rewrite Hldl; cbn [Result_bind];
        apply store_Ok; (split; [|reflexivity]); unfold Last; rewrite Hlen2; unfold buf1;
        rewrite length_insert; lia.
    + rewrite length_insert, Hlen2. unfold buf1. apply length_insert.
    + intros j w Hj. unfold SetRange_word. fold Last.
      destruct (Z.eqb_spec Count 1) as [?|_]; [lia|].
      destruct (Z.eqb_spec (Z.of_nat j) First) as [HjF|HjF].
      * assert (Hj' : j = Z.to_nat First) by lia. subst j.
        rewrite list_lookup_insert_ne by (unfold Last; lia). rewrite Hlook2.
        destruct (Z.leb_spec (First + 1) (Z.of_nat (Z.to_nat First))); cbn [andb]; [lia|].
        unfold buf1. rewrite list_lookup_insert_eq by lia. congruence.
      * destruct (Z.eqb_spec (Z.of_nat j) Last) as [HjL|HjL].
        -- assert (Hj' : j = Z.to_nat Last) by lia. subst j.
           rewrite list_lookup_insert_eq by (rewrite Hlen2; unfold buf1, Last;
                                            rewrite length_insert; lia).
           congruence.
        -- rewrite list_lookup_insert_ne by lia. rewrite Hlook2.
           destruct (Z.leb_spec (First + 1) (Z.of_nat j)), (Z.ltb_spec (Z.of_nat j) Last),
                    (Z.ltb_spec First (Z.of_nat j)); cbn [andb]; try lia; try reflexivity.
           all: unfold buf1; rewrite list_lookup_insert_ne by lia; exact Hj.
Qed.

Section SetRangeBits.
Import BitArray.

(** X22: [SetRange(Index, Num, bValue)] with [Index + Num <= NumBits]
    returns; afterwards every bit of [Index, Index + Num) reads [bValue],
    every other bit reads as before and the counters are unchanged. *)
Theorem SetRange_sets_the_range (a : TBitArray) (Index Num : Z) (bValue : bool) :
  BitWellFormed a -> BitsInitialised a ->
  0 <= Index -> 0 <= Num -> Index + Num <= NumBits a ->
  exists a', SetRange a Index Num bValue = Ok a' /\
    NumBits a' = NumBits a /\ MaxBits a' = MaxBits a /\
    (forall i, Index <= i < Index + Num -> get_bit a' i = Ok bValue) /\
    (forall i, 0 <= i < NumBits a -> ~ (Index <= i < Index + Num) ->
       get_bit a' i = get_bit a i).
Proof.
  intros Ha Hinit HI HN Hrange. pose proof Ha as [Hb Hw Hu Hl].
  assert (Hcap : NumBits a <= 2 ^ 32 - 32) by (Z.div_mod_to_equations; lia).
  unfold SetRange. rewrite (wrap32_small (Index + Num)) by lia.
  replace (Index + Num <=? NumBits a) with true by (symmetry; apply Z.leb_le; lia).
  cbn [NexusCheck Result_bind].
  destruct (Z.eqb_spec Num 0) as [H0|Hpos].
  { exists a. split; [reflexivity|]. split; [reflexivity|]. split; [reflexivity|].
    split; [intros i Hi; lia | reflexivity]. }
  cbv zeta. unfold GetData. change NUM_BITS_PER_DWORD with 32.
  set (E := Index + Num). set (First := Index / 32).
  rewrite (wrap32_small (E + (32 - 1))) by (unfold E; lia).
  set (Count := (E + (32 - 1)) / 32 - First).
  assert (HF : 0 <= First) by (unfold First; Z.div_mod_to_equations; lia).
  assert (HC : 1 <= Count < 2 ^ 32)
    by (unfold Count, First, E; Z.div_mod_to_equations; lia).
  rewrite (wrap32_small Count) by lia.
  set (StartMask := wrap32 (Z.shiftl 4294967295 (Index mod 32))).
  set (EndMask := Z.shiftr 4294967295 ((32 - E mod 32) mod 32)).
  assert (HLast : First + Count - 1 = (E - 1) / 32)
    by (unfold Count, First, E; Z.div_mod_to_equations; lia).
  assert (Hwords : forall j : nat, First <= Z.of_nat j < First + Count ->
            exists w, AllocatorInstance a !! j = Some (Some w)).
  { intros j Hj.
    destruct (Hinit (Z.max Index (32 * Z.of_nat j))) as [b Hbit].
    - unfold First, E in *. Z.div_mod_to_equations. lia.
    - unfold bit_at in Hbit.
      replace (Z.to_nat (Z.max Index (32 * Z.of_nat j) / 32)) with j in Hbit
        by (unfold First, E in *; Z.div_mod_to_equations; lia).
      destruct (AllocatorInstance a !! j) as [[w|]|]; try discriminate. eauto. }
  destruct (SetRange_words_Ok (AllocatorInstance a) bValue First Count StartMask EndMask)
    as (buf' & Hrun & Hlen & Hlook); try assumption.
  { unfold First, E, Count in *. Z.div_mod_to_equations. lia. }
  rewrite Hrun. cbn [Result_bind]. eexists. split; [reflexivity|].
  cbn [NumBits MaxBits AllocatorInstance]. split; [reflexivity|]. split; [reflexivity|].
  assert (Hbit' : forall i, 0 <= i < NumBits a ->
            bit_at buf' i
            = if (Index <=? i) && (i <? E) then Some bValue
              else bit_at (AllocatorInstance a) i).
  { intros i Hi. destruct (Hinit i Hi) as [b Hb0]. rewrite Hb0.
    unfold bit_at in Hb0 |- *.
    destruct (AllocatorInstance a !! Z.to_nat (i / 32)) as [[w|]|] eqn:Hwd; try discriminate.
    injection Hb0 as <-.
    rewrite (Hlook _ w Hwd). rewrite Z2Nat.id by (Z.div_mod_to_equations; lia).
    assert (Hk : 0 <= i mod 32 < 32) by (apply Z.mod_pos_bound; lia).
    assert (Hs : 0 <= Index mod 32 < 32) by (apply Z.mod_pos_bound; lia).
    assert (Ht : 0 <= (32 - E mod 32) mod 32 < 32) by (apply Z.mod_pos_bound; lia).
    assert (HSM : Z.testbit StartMask (i mod 32) = (Index mod 32 <=? i mod 32))
      by (apply testbit_StartMask; assumption).
    assert (HEM : Z.testbit EndMask (i mod 32)
                  = (i mod 32 + (32 - E mod 32) mod 32 <? 32))
      by (apply testbit_EndMask; assumption).
    unfold SetRange_word. rewrite HLast.
    destruct (Z.eqb_spec Count 1) as [Hone|Hmany].
    - destruct (Z.eqb_spec (i / 32) First) as [HiF|HiF].
      + rewrite testbit_masked, Z.land_spec, HSM, HEM by assumption.
        destruct (Z.leb_spec (Index mod 32) (i mod 32)),
                 (Z.ltb_spec (i mod 32 + (32 - E mod 32) mod 32) 32),
                 (Z.leb_spec Index i), (Z.ltb_spec i E); cbn [andb]; try reflexivity;
          exfalso; unfold First, E, Count in *; Z.div_mod_to_equations; lia.
      + destruct (Z.leb_spec Index i), (Z.ltb_spec i E); cbn [andb]; try reflexivity;
          exfalso; unfold First, E, Count in *; Z.div_mod_to_equations; lia.
    - destruct (Z.eqb_spec (i / 32) First) as [HiF|HiF].
      + rewrite testbit_masked, HSM by assumption.
        destruct (Z.leb_spec (Index mod 32) (i mod 32)),
                 (Z.leb_spec Index i), (Z.ltb_spec i E); cbn [andb]; try reflexivity;
          exfalso; unfold First, E, Count in *; Z.div_mod_to_equations; lia.
      + destruct (Z.eqb_spec (i / 32) ((E - 1) / 32)) as [HiL|HiL].
        * rewrite testbit_masked, HEM by assumption.
          destruct (Z.ltb_spec (i mod 32 + (32 - E mod 32) mod 32) 32),
                   (Z.leb_spec Index i), (Z.ltb_spec i E); cbn [andb]; try reflexivity;
            exfalso; unfold First, E, Count in *; Z.div_mod_to_equations; lia.
        * destruct (Z.ltb_spec First (i / 32)), (Z.ltb_spec (i / 32) ((E - 1) / 32)),
                   (Z.leb_spec Index i), (Z.ltb_spec i E); cbn [andb];
            try reflexivity;
            try (exfalso; unfold First, E, Count in *; Z.div_mod_to_equations; lia).
          destruct bValue; f_equal; [apply testbit_all_ones; lia | apply Z.bits_0]. }
  split.
  - intros i Hi. apply get_bit_at; [cbn [NumBits]; lia|]. cbn [AllocatorInstance].
    rewrite Hbit' by lia.
    destruct (Z.leb_spec Index i), (Z.ltb_spec i E); cbn [andb]; try reflexivity;
      unfold E in *; lia.
  - intros i Hi Hout. apply get_bit_bit_at; cbn [NumBits AllocatorInstance].
    + exact Hi.
    + reflexivity.
    + apply Hinit. exact Hi.
    + rewrite Hbit' by lia.
      destruct (Z.leb_spec Index i), (Z.ltb_spec i E); cbn [andb]; try reflexivity;
        unfold E in *; lia.
Qed.
End SetRangeBits.

(** ** Searching a bit array *)


Lemma uint32_of_bits (x : Z) :
  0 <= x -> (forall k, 32 <= k -> Z.testbit x k = false) -> x < 2 ^ 32.
Proof.
  intros Hx Hhigh. destruct (Z.lt_ge_cases x (2 ^ 32)) as [|Hge]; [assumption|].
  assert (Hlog : 32 <= Z.log2 x) by (apply Z.log2_le_pow2; lia).
  pose proof (Z.bit_log2 x ltac:(lia)) as Hbit.
  rewrite Hhigh in Hbit by exact Hlog. discriminate.
Qed.

Lemma uint32_high_bits (x k : Z) : 0 <= x < 2 ^ 32 -> 32 <= k -> Z.testbit x k = false.
Proof.
  intros Hx Hk. destruct (Z.eq_dec x 0) as [->|Hne]; [apply Z.bits_0|].
  apply Z.bits_above_log2; [lia|].
  assert (Z.log2 x < 32) by (apply Z.log2_lt_pow2; lia). lia.
Qed.

Lemma uint32_zero_bits (x : Z) :
  0 <= x < 2 ^ 32 -> (forall k, 0 <= k < 32 -> Z.testbit x k = false) -> x = 0.
Proof.
  intros Hx Hlow. apply Z.bits_inj'. intros k Hk. rewrite Z.bits_0.
  destruct (Z.lt_ge_cases k 32); [apply Hlow; lia | apply uint32_high_bits; assumption].
Qed.

Lemma not32_range (w : Z) : 0 <= not32 w < 2 ^ 32.
Proof. unfold not32, wrap32. apply Z.mod_pos_bound. lia. Qed.

Lemma testbit_not32 (w k : Z) : 0 <= k < 32 -> Z.testbit (not32 w) k = negb (Z.testbit w k).
Proof.
  intros Hk. unfold not32, wrap32. rewrite Z.mod_pow2_bits_low, Z.lnot_spec by lia.
  reflexivity.
Qed.

Lemma bits_with_value_range (v : bool) (w : Z) :
  0 <= w < 2 ^ 32 -> 0 <= bits_with_value v w < 2 ^ 32.
Proof. intros Hw. destruct v; cbn; [exact Hw | apply not32_range]. Qed.

Lemma testbit_bits_with_value (v : bool) (w k : Z) :
  0 <= k < 32 -> Z.testbit (bits_with_value v w) k = Bool.eqb (Z.testbit w k) v.
Proof.
  intros Hk. destruct v; cbn [bits_with_value].
  - destruct (Z.testbit w k); reflexivity.
  - rewrite testbit_not32 by exact Hk. destruct (Z.testbit w k); reflexivity.
Qed.

Lemma land_range (x m : Z) : 0 <= x < 2 ^ 32 -> 0 <= Z.land x m < 2 ^ 32.
Proof.
  intros Hx. assert (H0 : 0 <= Z.land x m) by (apply Z.land_nonneg; lia).
  split; [exact H0|]. apply uint32_of_bits; [exact H0|].
  intros k Hk. rewrite Z.land_spec, (uint32_high_bits x k) by assumption. reflexivity.
Qed.

(** A word is the test pattern of a search exactly when none of its bits
    has the value searched for; likewise under a mask. *)
Lemma masked_test_pattern (v : bool) (w m : Z) :
  0 <= w < 2 ^ 32 ->
  (Z.land w m =? Z.land (if v then 0 else 4294967295) m)
  = (Z.land (bits_with_value v w) m =? 0).
Proof.
  intros Hw. pose proof (bits_with_value_range v w Hw) as Hc.
  assert (HT : 0 <= (if v then 0 else 4294967295) < 2 ^ 32) by (destruct v; lia).
  destruct (Z.eqb_spec (Z.land (bits_with_value v w) m) 0) as [Hz|Hnz].
  - apply Z.eqb_eq. apply Z.bits_inj'. intros k Hk. rewrite !Z.land_spec.
    destruct (Z.lt_ge_cases k 32) as [Hlow|Hhigh].
    + assert (Hbit : Z.testbit (Z.land (bits_with_value v w) m) k = false)
        by (rewrite Hz; apply Z.bits_0).
      rewrite Z.land_spec, testbit_bits_with_value in Hbit by lia.
      destruct (Z.testbit m k); [|rewrite !andb_false_r; reflexivity].
      rewrite !andb_true_r in *. destruct v.
      * rewrite Z.bits_0. destruct (Z.testbit w k); [discriminate | reflexivity].
      * rewrite testbit_all_ones by lia.
        destruct (Z.testbit w k); [reflexivity | discriminate].
    + rewrite (uint32_high_bits w k), (uint32_high_bits _ k HT) by assumption. reflexivity.
  - apply Z.eqb_neq. intros Heq. apply Hnz.
    apply uint32_zero_bits; [apply land_range; exact Hc|].
    intros k Hk. rewrite Z.land_spec, testbit_bits_with_value by exact Hk.
    assert (Hbit : Z.testbit (Z.land w m) k
                   = Z.testbit (Z.land (if v then 0 else 4294967295) m) k) by (rewrite Heq; reflexivity).
    rewrite !Z.land_spec in Hbit.
    destruct (Z.testbit m k); [|apply andb_false_r].
    rewrite !andb_true_r in *. destruct v.
    + rewrite Z.bits_0 in Hbit. rewrite Hbit. reflexivity.
    + rewrite testbit_all_ones in Hbit by lia. rewrite Hbit. reflexivity.
Qed.

Lemma test_pattern (v : bool) (w : Z) :
  0 <= w < 2 ^ 32 ->
  (w =? (if v then 0 else 4294967295)) = (bits_with_value v w =? 0).
Proof.
  intros Hw. pose proof (masked_test_pattern v w 4294967295 Hw) as Hm.
  pose proof (bits_with_value_range v w Hw) as Hc.
  assert (Hones : forall x, 0 <= x < 2 ^ 32 -> Z.land x 4294967295 = x).
  { intros x Hx. change 4294967295 with (Z.ones 32). rewrite Z.land_ones by lia.
    apply Z.mod_small. exact Hx. }
  rewrite !Hones in Hm by (try assumption; destruct v; lia). exact Hm.
Qed.

Lemma Find_scan_Ok (d : Slots Z) (Test n : Z) (fuel : nat) : forall k : Z,
  0 <= k <= n -> n < 2 ^ 32 -> n - k < Z.of_nat fuel ->
  (forall j : nat, Z.of_nat j < n -> exists w, d !! j = Some (Some w)) ->
  exists r, BitArray.Find_scan fuel d Test n k = Ok r /\
    k <= r <= n /\
    (forall j : nat, k <= Z.of_nat j < r -> d !! j = Some (Some Test)) /\
    (r < n -> exists w, d !! Z.to_nat r = Some (Some w) /\ w <> Test).
Proof.
  induction fuel as [|fuel IH]; intros k Hk Hn Hfuel Hset; [lia|].
  cbn [BitArray.Find_scan]. destruct (Z.ltb_spec k n) as [Hlt|Hge].
  - destruct (Hset (Z.to_nat k) ltac:(lia)) as [w Hw].
    assert (Hld : load d k = Ok w) by (apply load_Ok; split; [lia | exact Hw]).
    rewrite Hld. cbn [Result_bind]. destruct (Z.eqb_spec w Test) as [Heq|Hne].
    + rewrite (wrap32_small (k + 1)) by lia.
      destruct (IH (k + 1) ltac:(lia) Hn ltac:(lia) Hset) as (r & Hrun & Hr & Hlow & Hat).
      exists r. split; [exact Hrun|]. split; [lia|]. split; [|exact Hat].
      intros j Hj. destruct (Z.eq_dec (Z.of_nat j) k) as [Hjk|Hjk].
      * replace j with (Z.to_nat k) by lia. rewrite Hw, Heq. reflexivity.
      * apply Hlow. lia.
    + exists k. split; [reflexivity|]. split; [lia|]. split; [intros j Hj; lia|].
      intros _. exists w. split; assumption.
  - exists k. split; [reflexivity|]. split; [lia|]. split; [intros j Hj; lia|].
    intros Hc. lia.
Qed.

Section Searches.
Context {Alloc : Allocator} {Core : CoreTypes}.
Import BitArray.

Lemma words_of_bits (a : TBitArray) :
  0 <= NumBits a -> BitsInitialised a ->
  forall j : nat, Z.of_nat j < DivideAndRoundUp (NumBits a) NUM_BITS_PER_DWORD ->
    exists w, AllocatorInstance a !! j = Some (Some w).
Proof.
  intros HN Hinit j Hj. destruct (Hinit (32 * Z.of_nat j)) as [b Hb]; [zdiv|].
  unfold bit_at in Hb. rewrite Z.mul_comm, Z.div_mul, Nat2Z.id in Hb by lia.
  destruct (AllocatorInstance a !! j) as [[w|]|]; try discriminate. eauto.
Qed.

(** Bit [i] of the array is not [v] when its word holds no bit of value
    [v] at its position. *)
Lemma bit_not_value (a : TBitArray) (v : bool) (i w : Z) :
  0 <= i < NumBits a ->
  AllocatorInstance a !! Z.to_nat (i / 32) = Some (Some w) ->
  Z.testbit (bits_with_value v w) (i mod 32) = false ->
  get_bit a i = Ok (negb v).
Proof.
  intros Hi Hw Hbit. apply get_bit_at; [exact Hi|].
  rewrite (bit_at_word _ i w) by (try lia; exact Hw). f_equal.
  rewrite testbit_bits_with_value in Hbit by (apply Z.mod_pos_bound; lia).
  destruct (Z.testbit w (i mod 32)), v; cbn in *; congruence.
Qed.

Lemma bit_has_value (a : TBitArray) (v : bool) (i w : Z) :
  0 <= i < NumBits a ->
  AllocatorInstance a !! Z.to_nat (i / 32) = Some (Some w) ->
  Z.testbit (bits_with_value v w) (i mod 32) = true ->
  get_bit a i = Ok v.
Proof.
  intros Hi Hw Hbit. apply get_bit_at; [exact Hi|].
  rewrite (bit_at_word _ i w) by (try lia; exact Hw). f_equal.
  rewrite testbit_bits_with_value in Hbit by (apply Z.mod_pos_bound; lia).
  destruct (Z.testbit w (i mod 32)), v; cbn in *; congruence.
Qed.

(** What [Find] returns. *)
Lemma Find_result (a : TBitArray) (bValue : bool) :
  0 <= NumBits a < 2 ^ 32 -> BitsInitialised a -> WordsAreUint32 (AllocatorInstance a) ->
  exists r, Find a bValue = Ok r /\
    ((0 <= r < NumBits a /\ get_bit a r = Ok bValue /\
      forall i, 0 <= i < r -> get_bit a i = Ok (negb bValue)) \/
     (r = INVALID_INDEX /\
      forall i, 0 <= i < NumBits a -> get_bit a i = Ok (negb bValue))).
Proof.
  intros HN Hinit Hu32. unfold Find. cbv zeta. unfold GetData.
  set (n := DivideAndRoundUp (NumBits a) NUM_BITS_PER_DWORD).
  assert (Hn : 0 <= n <= 2 ^ 27) by (unfold n; zdiv).
  pose proof (words_of_bits a ltac:(lia) Hinit) as Hset. fold n in Hset.
  destruct (Find_scan_Ok (AllocatorInstance a) (if bValue then 0 else 4294967295) n
              (S (Z.to_nat n)) 0 ltac:(lia) ltac:(lia) ltac:(lia) Hset)
    as (r & Hrun & Hr & Hlow & Hat).
  rewrite Hrun. cbn [Result_bind].
  (* no bit of the words below [r] reads [bValue] *)
  assert (Hbelow : forall i, 0 <= i < NumBits a -> i / 32 < r ->
            get_bit a i = Ok (negb bValue)).
  { intros i Hi Hir.
    assert (Hw : AllocatorInstance a !! Z.to_nat (i / 32)
                 = Some (Some (if bValue then 0 else 4294967295)))
      by (apply Hlow; Z.div_mod_to_equations; lia).
    apply (bit_not_value a bValue i _ Hi Hw).
    assert (Hz : bits_with_value bValue (if bValue then 0 else 4294967295) = 0)
      by (destruct bValue; reflexivity).
    rewrite Hz. apply Z.bits_0. }
  destruct (Z.ltb_spec r n) as [Hlt|Hge].
  2:{ eexists. split; [reflexivity|]. right. split; [reflexivity|].
      intros i Hi. apply Hbelow; [exact Hi|]. unfold n in *. zdiv. }
  destruct (Hat Hlt) as (w & Hw & Hne).
  assert (Hld : load (AllocatorInstance a) r = Ok w) by (apply load_Ok; split; [lia | exact Hw]).
  rewrite Hld. cbn [Result_bind].
  pose proof (Hu32 _ _ Hw) as Hwr.
  pose proof (bits_with_value_range bValue w Hwr) as HBr.
  fold (bits_with_value bValue w).
  assert (HBnz : bits_with_value bValue w <> 0).
  { intros Hz. apply Hne. apply Z.eqb_eq. rewrite test_pattern by exact Hwr.
    apply Z.eqb_eq. exact Hz. }
  destruct (Z.eqb_spec (bits_with_value bValue w) 0) as [?|_]; [contradiction|].
  destruct (CountTrailingZeros_spec (bits_with_value bValue w) ltac:(lia))
    as (Hc & Hcbit & Hclow).
  set (c := CountTrailingZeros (bits_with_value bValue w)) in *.
  change NUM_BITS_PER_DWORD_LOG_TWO with 5.
  rewrite Z.shiftl_mul_pow2 by lia. change (2 ^ 5) with 32.
  rewrite (wrap32_small (r * 32)) by lia. rewrite (wrap32_small (c + r * 32)) by lia.
  assert (Hq : (c + r * 32) / 32 = r) by (Z.div_mod_to_equations; lia).
  assert (Hm : (c + r * 32) mod 32 = c) by (Z.div_mod_to_equations; lia).
  (* no bit below [c + r * 32] reads [bValue] *)
  assert (Hnone : forall i, 0 <= i < NumBits a -> i < c + r * 32 ->
            get_bit a i = Ok (negb bValue)).
  { intros i Hi Hic. destruct (Z.lt_ge_cases (i / 32) r) as [Hir|Hir].
    - apply Hbelow; assumption.
    - assert (Hir' : i / 32 = r) by (Z.div_mod_to_equations; lia).
      apply (bit_not_value a bValue i w Hi); [rewrite Hir'; exact Hw|].
      apply Hclow. Z.div_mod_to_equations. lia. }
  destruct (Z.ltb_spec (c + r * 32) (NumBits a)) as [Hin|Hout].
  - eexists. split; [reflexivity|]. left. split; [lia|]. split.
    + apply (bit_has_value a bValue _ w); [lia | rewrite Hq; exact Hw | rewrite Hm; exact Hcbit].
    + intros i Hi. apply Hnone; lia.
  - eexists. split; [reflexivity|]. right. split; [reflexivity|].
    intros i Hi. apply Hnone; lia.
Qed.

(** X23: [Find(bValue)] returns the index of the first bit that reads
    [bValue]; it returns [INVALID_INDEX] when no bit does, on the empty
    array in particular. *)
Theorem Find_first_bit (a : TBitArray) (bValue : bool) :
  0 <= NumBits a < 2 ^ 32 -> BitsInitialised a -> WordsAreUint32 (AllocatorInstance a) ->
  exists r, Find a bValue = Ok r /\
    ((0 <= r < NumBits a /\ get_bit a r = Ok bValue /\
      forall i, 0 <= i < r -> get_bit a i = Ok (negb bValue)) \/
     (r = INVALID_INDEX /\
      forall i, 0 <= i < NumBits a -> get_bit a i = Ok (negb bValue))).
Proof. exact (Find_result a bValue). Qed.


Lemma FindLast_scan_Ok (d : Slots Z) (v : bool) (n SlackMask : Z) (fuel : nat) :
  forall k : Z,
  0 <= k <= n -> n < 2 ^ 32 -> k < Z.of_nat fuel ->
  (forall j : nat, Z.of_nat j < n -> exists w, d !! j = Some (Some w)) ->
  WordsAreUint32 d ->
  exists r, FindLast_scan fuel d (if v then 0 else 4294967295) k
              (FindLast_mask n SlackMask (k - 1)) = Ok r /\
    (forall (j : nat) (w : Z),
       match r with Some (k', _) => k' < Z.of_nat j | None => True end ->
       Z.of_nat j < k -> d !! j = Some (Some w) ->
       Z.land (bits_with_value v w) (FindLast_mask n SlackMask (Z.of_nat j)) = 0) /\
    match r with
    | None => True
    | Some (k', Mask') =>
        0 <= k' < k /\ Mask' = FindLast_mask n SlackMask k' /\
        exists w, d !! Z.to_nat k' = Some (Some w) /\
                  Z.land (bits_with_value v w) Mask' <> 0
    end.
Proof.
  induction fuel as [|fuel IH]; intros k Hk Hn Hfuel Hset Hu32; [lia|].
  cbn [FindLast_scan]. destruct (Z.eqb_spec k 0) as [H0|Hpos].
  - exists None. split; [reflexivity|]. split; [|exact I]. intros j w _ Hj. lia.
  - rewrite (wrap32_small (k - 1)) by lia.
    destruct (Hset (Z.to_nat (k - 1)) ltac:(lia)) as [w Hw].
    assert (Hld : load d (k - 1) = Ok w) by (apply load_Ok; split; [lia | exact Hw]).
    rewrite Hld. cbn [Result_bind].
    rewrite masked_test_pattern by (eapply Hu32; exact Hw).
    destruct (Z.eqb_spec (Z.land (bits_with_value v w) (FindLast_mask n SlackMask (k - 1))) 0)
      as [Hz|Hnz]; cbn [negb].
    + assert (Hmask : FindLast_mask n SlackMask (k - 1 - 1) = 4294967295).
      { unfold FindLast_mask. destruct (Z.eqb_spec (k - 1 - 1) (n - 1)); [lia | reflexivity]. }
      destruct (IH (k - 1) ltac:(lia) Hn ltac:(lia) Hset Hu32) as (r & Hrun & Hzero & Hres).
      rewrite Hmask in Hrun. exists r. split; [exact Hrun|]. split.
      * intros j w' Hr Hj Hw'. destruct (Z.eq_dec (Z.of_nat j) (k - 1)) as [Hjk|Hjk].
        -- rewrite Hjk. replace j with (Z.to_nat (k - 1)) in Hw' by lia.
           rewrite Hw in Hw'. injection Hw' as <-. exact Hz.
        -- apply Hzero; [exact Hr | lia | exact Hw'].
      * destruct r as [[k' M']|]; [|exact I].
        destruct Hres as (Hk' & HM' & Hex). split; [lia|]. split; assumption.
    + exists (Some (k - 1, FindLast_mask n SlackMask (k - 1))). split; [reflexivity|]. split.
      * intros j w' Hr Hj Hw'. lia.
      * split; [lia|]. split; [reflexivity|]. exists w. split; assumption.
Qed.

(** X24: [FindLast(bValue)] returns the index of the last bit that reads
    [bValue]; it returns [INVALID_INDEX] when no bit does, on the empty
    array in particular. *)
Theorem FindLast_last_bit (a : TBitArray) (bValue : bool) :
  0 <= NumBits a <= 2 ^ 32 - 32 -> BitsInitialised a ->
  WordsAreUint32 (AllocatorInstance a) ->
  exists r, FindLast a bValue = Ok r /\
    ((0 <= r < NumBits a /\ get_bit a r = Ok bValue /\
      forall i, r < i < NumBits a -> get_bit a i = Ok (negb bValue)) \/
     (r = INVALID_INDEX /\
      forall i, 0 <= i < NumBits a -> get_bit a i = Ok (negb bValue))).
Proof.
  intros HN Hinit Hu32. unfold FindLast. cbv zeta. unfold GetData.
  set (n := DivideAndRoundUp (NumBits a) NUM_BITS_PER_DWORD).
  assert (Hn : 0 <= n < 2 ^ 27) by (unfold n; zdiv).
  pose proof (words_of_bits a ltac:(lia) Hinit) as Hset. fold n in Hset.
  set (SlackIndex := wrap32 (wrap32 (NumBits a - 1) mod NUM_BITS_PER_DWORD + 1)).
  set (SlackMask := Z.shiftr 4294967295 (wrap32 (NUM_BITS_PER_DWORD - SlackIndex))).
  destruct (FindLast_scan_Ok (AllocatorInstance a) bValue n SlackMask (S (Z.to_nat n)) n
              ltac:(lia) ltac:(lia) ltac:(lia) Hset Hu32) as (r & Hrun & Hzero & Hres).
  assert (HM : FindLast_mask n SlackMask (n - 1) = SlackMask)
    by (unfold FindLast_mask; rewrite Z.eqb_refl; reflexivity).
  rewrite HM in Hrun. rewrite Hrun. cbn [Result_bind].
  (* the mask of a word covers the positions of its bits below [NumBits] *)
  assert (Hcover : forall i, 0 <= i < NumBits a ->
            Z.testbit (FindLast_mask n SlackMask (i / 32)) (i mod 32) = true).
  { intros i Hi. assert (Hk : 0 <= i mod 32 < 32) by (apply Z.mod_pos_bound; lia).
    unfold FindLast_mask. destruct (Z.eqb_spec (i / 32) (n - 1)) as [Hlast|_].
    - unfold SlackMask, SlackIndex. change NUM_BITS_PER_DWORD with 32.
      rewrite (wrap32_small (NumBits a - 1)) by lia.
      assert (Hs : 0 <= (NumBits a - 1) mod 32 < 32) by (apply Z.mod_pos_bound; lia).
      rewrite (wrap32_small ((NumBits a - 1) mod 32 + 1)) by lia.
      rewrite (wrap32_small (32 - ((NumBits a - 1) mod 32 + 1))) by lia.
      rewrite testbit_EndMask by lia. apply Z.ltb_lt.
      unfold n in Hlast. zdiv.
    - apply testbit_all_ones. exact Hk. }
  (* the mask of the last word covers no position from [NumBits] on *)
  assert (Hslack : forall i, 0 <= i -> i / 32 = n - 1 -> 0 < NumBits a ->
            Z.testbit SlackMask (i mod 32) = true -> i < NumBits a).
  { intros i Hi Hlast Hpos Hbit.
    assert (Hk : 0 <= i mod 32 < 32) by (apply Z.mod_pos_bound; lia).
    unfold SlackMask, SlackIndex in Hbit. change NUM_BITS_PER_DWORD with 32 in Hbit.
    rewrite (wrap32_small (NumBits a - 1)) in Hbit by lia.
    assert (Hs : 0 <= (NumBits a - 1) mod 32 < 32) by (apply Z.mod_pos_bound; lia).
    rewrite (wrap32_small ((NumBits a - 1) mod 32 + 1)) in Hbit by lia.
    rewrite (wrap32_small (32 - ((NumBits a - 1) mod 32 + 1))) in Hbit by lia.
    rewrite testbit_EndMask in Hbit by lia. apply Z.ltb_lt in Hbit.
    unfold n in Hlast. zdiv. }
  (* a word without a bit of the value under its mask *)
  assert (Hnone : forall i w, 0 <= i < NumBits a ->
            AllocatorInstance a !! Z.to_nat (i / 32) = Some (Some w) ->
            Z.land (bits_with_value bValue w) (FindLast_mask n SlackMask (i / 32)) = 0 ->
            get_bit a i = Ok (negb bValue)).
  { intros i w Hi Hw Hz. apply (bit_not_value a bValue i w Hi Hw).
    assert (Hbit : Z.testbit (Z.land (bits_with_value bValue w)
                                (FindLast_mask n SlackMask (i / 32))) (i mod 32) = false)
      by (rewrite Hz; apply Z.bits_0).
    rewrite Z.land_spec, Hcover, andb_true_r in Hbit by exact Hi. exact Hbit. }
  destruct r as [[k M]|].
  2:{ eexists. split; [reflexivity|]. right. split; [reflexivity|].
      intros i Hi. destruct (Hset (Z.to_nat (i / 32))) as [w Hw]; [unfold n; zdiv|].
      apply (Hnone i w Hi Hw).
      pose proof (Hzero (Z.to_nat (i / 32)) w I ltac:(unfold n; zdiv) Hw) as Hz.
      rewrite Z2Nat.id in Hz by (Z.div_mod_to_equations; lia). exact Hz. }
  destruct Hres as (Hk & HMk & w & Hw & Hnz).
  assert (Hld : load (AllocatorInstance a) k = Ok w) by (apply load_Ok; split; [lia | exact Hw]).
  rewrite Hld. cbn [Result_bind].
  pose proof (Hu32 _ _ Hw) as Hwr.
  pose proof (bits_with_value_range bValue w Hwr) as HBr.
  fold (bits_with_value bValue w).
  set (Bits := Z.land (bits_with_value bValue w) M) in *.
  assert (HBits : 0 < Bits < 2 ^ 32).
  { pose proof (land_range (bits_with_value bValue w) M HBr). fold Bits in H. lia. }
  destruct (Z.eqb_spec Bits 0) as [?|_]; [lia|].
  rewrite (CountLeadingZeros_spec Bits HBits).
  destruct (nonzero_has_bit Bits 32 ltac:(lia) HBits) as (Hlog & Hbit & Hhigh).
  set (h := Z.log2 Bits) in *.
  change NUM_BITS_PER_DWORD with 32. change NUM_BITS_PER_DWORD_LOG_TWO with 5.
  replace (32 - 1 - (31 - h)) with h by lia.
  rewrite Z.shiftl_mul_pow2 by lia. change (2 ^ 5) with 32.
  rewrite (wrap32_small h) by lia. rewrite (wrap32_small (k * 32)) by lia.
  rewrite (wrap32_small (h + k * 32)) by lia.
  assert (Hq : (h + k * 32) / 32 = k) by (Z.div_mod_to_equations; lia).
  assert (Hm : (h + k * 32) mod 32 = h) by (Z.div_mod_to_equations; lia).
  unfold Bits in Hbit. rewrite Z.land_spec in Hbit. apply andb_true_iff in Hbit as [Hbv HbM].
  assert (Hpos : 0 < NumBits a) by (unfold n in *; zdiv).
  assert (Hin : h + k * 32 < NumBits a).
  { destruct (Z.eq_dec k (n - 1)) as [Hlast|Hnl].
    - apply Hslack; [lia | lia | exact Hpos |]. rewrite Hm.
      rewrite HMk in HbM. unfold FindLast_mask in HbM.
      destruct (Z.eqb_spec k (n - 1)); [exact HbM | lia].
    - unfold n in *. zdiv. }
  eexists. split; [reflexivity|]. left. split; [lia|]. split.
  - apply (bit_has_value a bValue _ w); [lia | rewrite Hq; exact Hw | rewrite Hm; exact Hbv].
  - intros i Hi. destruct (Z.eq_dec (i / 32) k) as [Hik|Hik].
    + apply (bit_not_value a bValue i w); [lia | rewrite Hik; exact Hw |].
      assert (Hp : h < i mod 32) by (Z.div_mod_to_equations; lia).
      pose proof (Hhigh (i mod 32) Hp) as Hb. unfold Bits in Hb.
      rewrite Z.land_spec, HMk, <- Hik, Hcover, andb_true_r in Hb by lia. exact Hb.
    + destruct (Hset (Z.to_nat (i / 32))) as [w' Hw']; [unfold n; zdiv|].
      apply (Hnone i w' ltac:(lia) Hw').
      pose proof (Hzero (Z.to_nat (i / 32)) w' ltac:(Z.div_mod_to_equations; lia)
                    ltac:(unfold n; zdiv) Hw') as Hz.
      rewrite Z2Nat.id in Hz by (Z.div_mod_to_equations; lia). exact Hz.
Qed.

(** X25: [Contains(bValue)] is true exactly when some bit of the array
    reads [bValue], for an [INVALID_INDEX] that is no index of the array. *)
Theorem Contains_some_bit (a : TBitArray) (bValue : bool) :
  0 <= NumBits a < 2 ^ 32 -> BitsInitialised a -> WordsAreUint32 (AllocatorInstance a) ->
  NumBits a <= INVALID_INDEX ->
  exists b, Contains a bValue = Ok b /\
    (b = true <-> exists i, 0 <= i < NumBits a /\ get_bit a i = Ok bValue).
Proof.
  intros HN Hinit Hu32 Hinv. unfold Contains.
  destruct (Find_result a bValue HN Hinit Hu32) as (r & Hrun & Hcases).
  rewrite Hrun. cbn [Result_bind]. eexists. split; [reflexivity|].
  destruct Hcases as [(Hr & Hbit & _) | (-> & Hnone)].
  - destruct (Z.eqb_spec r INVALID_INDEX) as [Heq|_]; [lia|]. cbn [negb].
    split; [intros _; exists r; split; assumption | reflexivity].
  - rewrite Z.eqb_refl. cbn [negb]. split; [discriminate|].
    intros (i & Hi & Hbit). rewrite (Hnone i Hi) in Hbit.
    destruct bValue; discriminate.
Qed.

End Searches.

(** ** The words stay [uint32] values *)


Lemma WordsAreUint32_Forall (d : Slots Z) : WordsAreUint32 d <-> Forall uint32_slot d.
Proof.
  rewrite Forall_lookup. split.
  - intros Hd j [w|] Hj; [apply (Hd j w Hj) | exact I].
  - intros Hd j w Hj. apply (Hd j (Some w) Hj).
Qed.

Lemma lor_range (x y : Z) : 0 <= x < 2 ^ 32 -> 0 <= y < 2 ^ 32 -> 0 <= Z.lor x y < 2 ^ 32.
Proof.
  intros Hx Hy. assert (H0 : 0 <= Z.lor x y) by (apply Z.lor_nonneg; lia).
  split; [exact H0|]. apply uint32_of_bits; [exact H0|].
  intros k Hk. rewrite Z.lor_spec, !uint32_high_bits by assumption. reflexivity.
Qed.

Lemma wrap32_range (x : Z) : 0 <= wrap32 x < 2 ^ 32.
Proof. unfold wrap32. apply Z.mod_pos_bound. lia. Qed.

Lemma shiftr_range (x t : Z) : 0 <= x < 2 ^ 32 -> 0 <= t -> 0 <= Z.shiftr x t < 2 ^ 32.
Proof.
  intros Hx Ht. rewrite Z.shiftr_div_pow2 by exact Ht.
  assert (0 < 2 ^ t) by (apply Z.pow_pos_nonneg; lia).
  split; [apply Z.div_pos; lia|].
  apply Z.le_lt_trans with x; [|lia]. apply Z.div_le_upper_bound; [lia|]. nia.
Qed.

Lemma store_uint32 (buf buf' : Slots Z) (i v : Z) :
  WordsAreUint32 buf -> 0 <= v < 2 ^ 32 -> store buf i v = Ok buf' -> WordsAreUint32 buf'.
Proof.
  intros Hu Hv Hst. apply store_Ok in Hst as [_ ->].
  apply WordsAreUint32_Forall. apply Forall_insert; [apply WordsAreUint32_Forall; exact Hu|].
  exact Hv.
Qed.

Lemma Memset_uint32 (buf buf' : Slots Z) (off v n : Z) :
  WordsAreUint32 buf -> 0 <= v < 2 ^ 32 -> Memset buf off v n = Ok buf' -> WordsAreUint32 buf'.
Proof.
  intros Hu Hv Hrun. unfold Memset in Hrun.
  destruct (n =? 0); [injection Hrun as <-; exact Hu|].
  destruct (in_bounds buf off n); [|discriminate]. injection Hrun as <-.
  apply WordsAreUint32_Forall. apply Forall_inserts; [apply WordsAreUint32_Forall; exact Hu|].
  apply Forall_replicate. exact Hv.
Qed.

Lemma Memcpy_uint32 (buf buf' src : Slots Z) (n : Z) :
  WordsAreUint32 buf -> WordsAreUint32 src -> Memcpy id buf src n = Ok buf' ->
  WordsAreUint32 buf'.
Proof.
  intros Hu Hs Hrun. unfold Memcpy in Hrun.
  destruct (n =? 0); [injection Hrun as <-; exact Hu|].
  destruct (in_bounds buf 0 n && in_bounds src 0 n); [|discriminate]. injection Hrun as <-.
  apply WordsAreUint32_Forall. apply Forall_inserts; [apply WordsAreUint32_Forall; exact Hu|].
  apply Forall_fmap. apply Forall_take. apply WordsAreUint32_Forall in Hs.
  eapply Forall_impl; [exact Hs|]. intros [w|] Hw; exact Hw.
Qed.

Lemma ResizeAllocation_uint32 (buf : Slots Z) (p n : Z) :
  WordsAreUint32 buf -> WordsAreUint32 (ResizeAllocation buf p n).
Proof.
  intros Hu. apply WordsAreUint32_Forall. unfold ResizeAllocation.
  apply Forall_resize; [exact I|]. apply Forall_take. apply WordsAreUint32_Forall. exact Hu.
Qed.

Lemma FBitReference_assign_uint32 (buf buf' : Slots Z) (dword mask : Z) (v : bool) :
  WordsAreUint32 buf -> 0 <= mask < 2 ^ 32 ->
  BitArray.FBitReference_assign buf dword mask v = Ok buf' -> WordsAreUint32 buf'.
Proof.
  intros Hu Hm Hrun. unfold BitArray.FBitReference_assign in Hrun.
  apply Result_bind_Ok in Hrun as (w & Hld & Hst).
  apply load_Ok in Hld as [_ Hw]. pose proof (Hu _ _ Hw) as Hwr.
  apply (store_uint32 buf buf' dword _ Hu) in Hst; [exact Hst|].
  destruct v; [apply lor_range; assumption | apply land_range; exact Hwr].
Qed.

Section WordsStayUint32.
Context {Alloc : Allocator}.
Import BitArray.

Lemma Realloc_uint32 (a a' : TBitArray) (PreviousNumBits : Z) :
  WordsAreUint32 (AllocatorInstance a) -> Realloc a PreviousNumBits = Ok a' ->
  WordsAreUint32 (AllocatorInstance a').
Proof.
  intros Hu Hrun. unfold Realloc in Hrun.
  pose proof (ResizeAllocation_uint32 (AllocatorInstance a)
                (DivideAndRoundUp PreviousNumBits NUM_BITS_PER_DWORD)
                (DivideAndRoundUp (MaxBits a) NUM_BITS_PER_DWORD) Hu) as Hr.
  destruct (negb (DivideAndRoundUp (MaxBits a) NUM_BITS_PER_DWORD =? 0)).
  - apply Result_bind_Ok in Hrun as (buf' & Hms & Hrun). injection Hrun as <-.
    cbn [AllocatorInstance]. eapply Memset_uint32; [exact Hr | | exact Hms]. lia.
  - injection Hrun as <-. exact Hr.
Qed.

Lemma Empty_uint32 (a a' : TBitArray) (ExpectedNumBits : Z) :
  WordsAreUint32 (AllocatorInstance a) -> Empty a ExpectedNumBits = Ok a' ->
  WordsAreUint32 (AllocatorInstance a').
Proof.
  intros Hu Hrun. unfold Empty in Hrun. cbn [MaxBits NumBits AllocatorInstance] in Hrun.
  destruct (negb (MaxBits a =? _)).
  - eapply Realloc_uint32; [|exact Hrun]. exact Hu.
  - injection Hrun as <-. exact Hu.
Qed.

Lemma Reserve_uint32 (a a' : TBitArray) (Number : Z) :
  WordsAreUint32 (AllocatorInstance a) -> Reserve a Number = Ok a' ->
  WordsAreUint32 (AllocatorInstance a').
Proof.
  intros Hu Hrun. unfold Reserve in Hrun. destruct (Number >? MaxBits a).
  - eapply Realloc_uint32; [|exact Hrun]. exact Hu.
  - injection Hrun as <-. exact Hu.
Qed.

Lemma set_bit_uint32 (a a' : TBitArray) (i : Z) (v : bool) :
  WordsAreUint32 (AllocatorInstance a) -> set_bit a i v = Ok a' ->
  WordsAreUint32 (AllocatorInstance a').
Proof.
  intros Hu Hrun. unfold set_bit, operator_index in Hrun.
  apply Result_bind_Ok in Hrun as (r & Hidx & Hrun).
  apply Result_bind_Ok in Hidx as (u & _ & Hidx). injection Hidx as <-.
  apply Result_bind_Ok in Hrun as (buf & Hasg & Hrun). injection Hrun as <-.
  cbn [fst snd AllocatorInstance] in *.
  eapply FBitReference_assign_uint32; [exact Hu | | exact Hasg]. apply wrap32_range.
Qed.

Lemma AddMany_loop_uint32 (fuel : nat) : forall (a a' : TBitArray) (It End : Z) (v : bool),
  WordsAreUint32 (AllocatorInstance a) -> AddMany_loop fuel a It End v = Ok a' ->
  WordsAreUint32 (AllocatorInstance a').
Proof.
  induction fuel as [|fuel IH]; intros a a' It End v Hu Hrun; [discriminate|].
  cbn [AddMany_loop] in Hrun. destruct (negb (It =? End)).
  - apply Result_bind_Ok in Hrun as (a1 & Hsb & Hrun).
    apply set_bit_uint32 in Hsb; [|exact Hu]. eapply IH; eassumption.
  - injection Hrun as <-. exact Hu.
Qed.

Lemma SetRange_fill_uint32 (n : nat) : forall (buf buf' : Slots Z) (Data Fill Data' : Z),
  WordsAreUint32 buf -> 0 <= Fill < 2 ^ 32 ->
  SetRange_fill n buf Data Fill = Ok (buf', Data') -> WordsAreUint32 buf'.
Proof.
  induction n as [|n IH]; intros buf buf' Data Fill Data' Hu HF Hrun;
    cbn [SetRange_fill] in Hrun.
  - injection Hrun as <- _. exact Hu.
  - apply Result_bind_Ok in Hrun as (buf1 & Hst & Hrun).
    apply store_uint32 in Hst; [|exact Hu|exact HF]. eapply IH; eassumption.
Qed.

Lemma SetRange_uint32 (a a' : TBitArray) (Index Num : Z) (bValue : bool) :
  WordsAreUint32 (AllocatorInstance a) -> 0 <= Index -> SetRange a Index Num bValue = Ok a' ->
  WordsAreUint32 (AllocatorInstance a').
Proof.
  intros Hu HI Hrun. unfold SetRange in Hrun.
  apply Result_bind_Ok in Hrun as (u & _ & Hrun).
  destruct (Num =? 0); [injection Hrun as <-; exact Hu|].
  cbv zeta in Hrun. apply Result_bind_Ok in Hrun as (buf' & Hw & Hrun).
  injection Hrun as <-. cbn [AllocatorInstance]. unfold GetData in *.
  set (StartMask := wrap32 (Z.shiftl 4294967295 (Index mod NUM_BITS_PER_DWORD))) in *.
  set (EndMask := Z.shiftr 4294967295 _) in *.
  assert (HSM : 0 <= StartMask < 2 ^ 32) by apply wrap32_range.
  assert (HEM : 0 <= EndMask < 2 ^ 32).
  { apply shiftr_range; [lia|]. apply Z.mod_pos_bound. reflexivity. }
  assert (Hload : forall (d : Slots Z) (i w : Z),
            WordsAreUint32 d -> load d i = Ok w -> 0 <= w < 2 ^ 32).
  { intros d i w Hd Hld. apply load_Ok in Hld as [_ Hl]. exact (Hd _ _ Hl). }
  destruct bValue; match type of Hw with (if ?c then _ else _) = _ => destruct c end.
  all: apply Result_bind_Ok in Hw as (w & Hld & Hw); pose proof (Hload _ _ _ Hu Hld) as Hwr.
  1, 3: eapply store_uint32; [exact Hu | | exact Hw];
    first [apply lor_range; [exact Hwr | apply land_range; exact HSM]
          | apply land_range; exact Hwr].
  all: apply Result_bind_Ok in Hw as (buf1 & Hst & Hw);
    apply Result_bind_Ok in Hw as ([buf2 d] & Hfill & Hw);
    apply Result_bind_Ok in Hw as (w' & Hld' & Hst');
    cbn [fst snd] in Hld', Hst';
    apply store_uint32 in Hst;
      [|exact Hu|first [apply lor_range; assumption | apply land_range; exact Hwr]];
    apply SetRange_fill_uint32 in Hfill; [|exact Hst|lia];
    pose proof (Hload _ _ _ Hfill Hld') as Hwr';
    eapply store_uint32; [exact Hfill | | exact Hst'];
    first [apply lor_range; assumption | apply land_range; exact Hwr'].
Qed.

Lemma FIterator_incr_mask (it : FIterator) : 0 <= Mask (Ref (FIterator_incr it)) < 2 ^ 32.
Proof.
  unfold FIterator_incr. destruct (wrap32 (Z.shiftl (Mask (Ref it)) 1) =? 0);
    cbn [Ref Mask]; [lia | apply wrap32_range].
Qed.

Lemma RemoveAt_loop_uint32 (fuel : nat) :
  forall (a a' : TBitArray) (BaseIndex NumBitsToRemove : Z) (WriteIt ReadIt : FIterator),
  WordsAreUint32 (AllocatorInstance a) -> 0 <= Mask (Ref WriteIt) < 2 ^ 32 ->
  RemoveAt_loop fuel a BaseIndex NumBitsToRemove WriteIt ReadIt = Ok a' ->
  WordsAreUint32 (AllocatorInstance a').
Proof.
  induction fuel as [|fuel IH]; intros a a' B N W R Hu HW Hrun; [discriminate|].
  cbn [RemoveAt_loop] in Hrun.
  destruct (Index R <? Num a); [|injection Hrun as <-; exact Hu].
  destruct ((Index R <? B) || (Index R >=? wrap32 (B + N))).
  - apply Result_bind_Ok in Hrun as (a1 & Hwr & Hrun).
    refine (IH a1 a' B N _ _ _ (FIterator_incr_mask W) Hrun).
    destruct (negb (Index W =? Index R)).
    + apply Result_bind_Ok in Hwr as (b & _ & Hwr).
      apply Result_bind_Ok in Hwr as (buf & Hasg & Hwr). injection Hwr as <-.
      cbn [AllocatorInstance]. unfold GetData in Hasg.
      eapply FBitReference_assign_uint32; [exact Hu | exact HW | exact Hasg].
    + injection Hwr as <-. exact Hu.
  - eapply IH; eassumption.
Qed.

Lemma assign_copy_uint32 (a Copy a' : TBitArray) :
  WordsAreUint32 (AllocatorInstance a) -> WordsAreUint32 (AllocatorInstance Copy) ->
  assign_copy a Copy = Ok a' -> WordsAreUint32 (AllocatorInstance a').
Proof.
  intros Hu Hc Hrun. unfold assign_copy in Hrun.
  apply Result_bind_Ok in Hrun as (a1 & Hemp & Hrun).
  apply Empty_uint32 in Hemp; [|exact Hu].
  cbn [NumBits MaxBits AllocatorInstance] in Hrun.
  destruct (negb (NumBits Copy =? 0)).
  - apply Result_bind_Ok in Hrun as (buf & Hcpy & Hrun). injection Hrun as <-.
    cbn [AllocatorInstance]. unfold GetData in Hcpy.
    eapply Memcpy_uint32; [exact Hemp | exact Hc | exact Hcpy].
  - injection Hrun as <-. exact Hemp.
Qed.

Lemma bit_step_uint32 (op : Operation) (a a' : TBitArray) :
  BitCallInRange op -> BitOperandsUint32 op ->
  WordsAreUint32 (AllocatorInstance a) ->
  step op a = Ok a' -> WordsAreUint32 (AllocatorInstance a').
Proof.
  intros Hop Hops Hu Hrun.
  destruct op; cbn [step] in Hrun; cbn [BitCallInRange BitOperandsUint32] in Hop, Hops.
  - unfold Init in Hrun. apply Result_bind_Ok in Hrun as (a1 & Hemp & Hrun).
    apply Empty_uint32 in Hemp; [|exact Hu].
    destruct (negb (InNumBits =? 0)); [|injection Hrun as <-; exact Hemp].
    apply Result_bind_Ok in Hrun as (buf & Hms & Hrun). injection Hrun as <-.
    cbn [AllocatorInstance]. unfold GetData in Hms.
    eapply Memset_uint32; [exact Hemp | | exact Hms]. destruct bValue; lia.
  - eapply Reserve_uint32; eassumption.
  - eapply Empty_uint32; eassumption.
  - unfold Reset in Hrun. apply Result_bind_Ok in Hrun as (buf & Hms & Hrun).
    injection Hrun as <-. cbn [AllocatorInstance]. unfold GetData in Hms.
    eapply Memset_uint32; [exact Hu | | exact Hms]. lia.
  - apply Result_bind_Ok in Hrun as ([i b] & Hadd & Hrun). injection Hrun as <-.
    unfold Add in Hadd. apply Result_bind_Ok in Hadd as (a1 & Hres & Hadd).
    apply Result_bind_Ok in Hadd as (a3 & Hsb & Hadd). injection Hadd as _ <-.
    apply Reserve_uint32 in Hres; [|exact Hu].
    eapply set_bit_uint32; [|exact Hsb]. exact Hres.
  - apply Result_bind_Ok in Hrun as ([i b] & Hadd & Hrun). injection Hrun as <-.
    unfold AddMany in Hadd. apply Result_bind_Ok in Hadd as (a1 & Hres & Hadd).
    apply Result_bind_Ok in Hadd as (a3 & Hloop & Hadd). injection Hadd as _ <-.
    apply Reserve_uint32 in Hres; [|exact Hu].
    eapply AddMany_loop_uint32; [|exact Hloop]. exact Hres.
  - eapply set_bit_uint32; eassumption.
  - eapply SetRange_uint32; [exact Hu | | exact Hrun]. lia.
  - unfold RemoveAt in Hrun. apply Result_bind_Ok in Hrun as (u & _ & Hrun).
    apply Result_bind_Ok in Hrun as (a1 & Hloop & Hrun). injection Hrun as <-.
    cbn [AllocatorInstance].
    destruct (negb (wrap32 (BaseIndex + NumBitsToRemove) =? NumBits a)).
    + eapply RemoveAt_loop_uint32; [exact Hu | | exact Hloop].
      change (0 <= 1 < 2 ^ 32). lia.
    + injection Hloop as <-. exact Hu.
  - exact (assign_copy_uint32 _ _ _ Hu Hops Hrun).
  - apply Result_bind_Ok in Hrun as ([t f] & Hmv & Hrun). injection Hrun as <-.
    unfold assign_move, MoveOrCopy in Hmv. destruct SupportsMove.
    + cbn in Hmv. injection Hmv as <- _. cbn [fst AllocatorInstance].
      apply WordsAreUint32_Forall. apply Forall_fmap. apply WordsAreUint32_Forall in Hops.
      eapply Forall_impl; [exact Hops|]. intros [w|] Hw; exact Hw.
    + apply Result_bind_Ok in Hmv as (t' & Hcpy & Hmv). injection Hmv as <- _.
      exact (assign_copy_uint32 _ _ _ Hu Hops Hcpy).
Qed.

(** X30: after every call of a sequence of calls in range on a bit array
    that returns, the array is well formed, every bit has a value and every
    word is a [uint32], so that [Find], [FindLast] and [Contains] answer for
    it. *)
Theorem bit_array_stays_searchable (ops : list Operation) :
  GrowthCovers -> GrowthWithinBits ->
  Forall BitCallInRange ops -> Forall BitOperandsSet ops -> Forall BitOperandsUint32 ops ->
  forall (a : TBitArray) (states : list TBitArray),
    BitWellFormed a -> WordsSet a -> WordsAreUint32 (AllocatorInstance a) ->
    run ops a = Ok states ->
    Forall (fun s => BitWellFormed s /\ BitsInitialised s /\
                     WordsAreUint32 (AllocatorInstance s)) states.
Proof.
  intros Hg Hf Hops Hsets Hu32s. revert Hsets Hu32s.
  induction Hops as [|op ops Hop Hops IH]; intros Hsets Hu32s a states Ha Hset Hu Hrun.
  - injection Hrun as <-. constructor.
  - cbn [run] in Hrun.
    apply Result_bind_Ok in Hrun as (a1 & Hstep & Hrun).
    apply Result_bind_Ok in Hrun as (rest & Hrest & Hrun). injection Hrun as <-.
    inversion Hsets as [|? ? Hset1 Hsets']. subst.
    inversion Hu32s as [|? ? Hu1 Hu32s']. subst.
    assert (Ha1 : BitWellFormed a1) by exact (bit_step_inv op a a1 Hg Hf Hop Ha Hstep).
    assert (Hs1 : WordsSet a1) by exact (bit_step_set op a a1 Hop Hset1 Ha Hset Hstep).
    assert (Hu1' : WordsAreUint32 (AllocatorInstance a1))
      by exact (bit_step_uint32 op a a1 Hop Hu1 Hu Hstep).
    constructor.
    + split; [exact Ha1|]. split; [apply BitsInitialised_of_words; assumption | exact Hu1'].
    + exact (IH Hsets' Hu32s' a1 rest Ha1 Hs1 Hu1' Hrest).
Qed.

End WordsStayUint32.

(** ** Comparing and copying bit arrays *)

Lemma load_words_Ok (n : nat) : forall (buf : Slots Z) (i : Z),
  0 <= i ->
  (forall k : nat, (k < n)%nat -> exists w, buf !! (Z.to_nat i + k)%nat = Some (Some w)) ->
  exists ws, load_words n buf i = Ok ws /\ length ws = n /\
    forall k : nat, (k < n)%nat -> buf !! (Z.to_nat i + k)%nat = Some (ws !! k).
Proof.
  induction n as [|n IH]; intros buf i Hi Hset.
  - exists []. split; [reflexivity|]. split; [reflexivity|]. intros k Hk. lia.
  - cbn [load_words]. destruct (Hset 0%nat ltac:(lia)) as [w Hw].
    rewrite Nat.add_0_r in Hw.
    assert (Hld : load buf i = Ok w) by (apply load_Ok; split; [lia | exact Hw]).
    rewrite Hld. cbn [Result_bind].
    destruct (IH buf (i + 1) ltac:(lia)) as (ws & Hrun & Hlen & Hlook).
    { intros k Hk. destruct (Hset (S k) ltac:(lia)) as [w' Hw']. exists w'.
      rewrite <- Hw'. f_equal. lia. }
    rewrite Hrun. cbn [Result_bind]. exists (w :: ws). split; [reflexivity|].
    split; [cbn; lia|]. intros [|k] Hk.
    + rewrite Nat.add_0_r. exact Hw.
    + change ((w :: ws) !! S k) with (ws !! k).
      rewrite <- (Hlook k ltac:(lia)). f_equal. lia.
Qed.

Lemma compare_bytes_zero (xs : list Z) : forall ys : list Z,
  length xs = length ys -> (compare_bytes xs ys = 0 <-> xs = ys).
Proof.
  induction xs as [|x xs IH]; intros [|y ys] Hlen; try discriminate.
  - split; reflexivity.
  - cbn [compare_bytes]. destruct (Z.eqb_spec x y) as [->|Hne].
    + rewrite (IH ys) by (cbn in Hlen; lia). split; [intros ->; reflexivity|].
      intros Heq. injection Heq as ->. reflexivity.
    + split; [lia|]. intros Heq. injection Heq as Hxy _. contradiction.
Qed.

Lemma word_bytes_inj (w w' : Z) :
  0 <= w < 2 ^ 32 -> 0 <= w' < 2 ^ 32 -> word_bytes w = word_bytes w' -> w = w'.
Proof.
  intros Hw Hw' Heq. unfold word_bytes in Heq.
  injection Heq as H0 H1 H2 H3. Z.div_mod_to_equations. lia.
Qed.

Lemma concat_word_bytes_inj (xs : list Z) : forall ys : list Z,
  length xs = length ys ->
  Forall (fun w => 0 <= w < 2 ^ 32) xs -> Forall (fun w => 0 <= w < 2 ^ 32) ys ->
  concat (map word_bytes xs) = concat (map word_bytes ys) -> xs = ys.
Proof.
  induction xs as [|x xs IH]; intros [|y ys] Hlen Hxs Hys Heq; try discriminate.
  - reflexivity.
  - inversion Hxs as [|? ? Hx Hxs']. inversion Hys as [|? ? Hy Hys']. subst.
    cbn [map concat] in Heq. unfold word_bytes at 1 3 in Heq. cbn [app] in Heq.
    injection Heq as H0 H1 H2 H3 Hrest.
    assert (Hxy : x = y) by (Z.div_mod_to_equations; lia).
    rewrite Hxy. f_equal. apply IH; [cbn in Hlen; lia | assumption | assumption | exact Hrest].
Qed.

Lemma length_concat_word_bytes (xs : list Z) :
  length (concat (map word_bytes xs)) = (4 * length xs)%nat.
Proof.
  induction xs as [|x xs IH]; [reflexivity|].
  cbn [map concat]. rewrite length_app, IH. cbn [length word_bytes]. lia.
Qed.

(** [Memcmp] over whole words of [uint32] values is 0 exactly when the
    words are the same. *)
Lemma Memcmp_words (A B : Slots Z) (n : Z) :
  0 <= n ->
  (forall k : nat, Z.of_nat k < n -> exists w, A !! k = Some (Some w)) ->
  (forall k : nat, Z.of_nat k < n -> exists w, B !! k = Some (Some w)) ->
  WordsAreUint32 A -> WordsAreUint32 B ->
  exists r, Memcmp A B (n * 4) = Ok r /\
    (r = 0 <-> forall k : nat, Z.of_nat k < n -> A !! k = B !! k).
Proof.
  intros Hn HA HB HuA HuB. unfold Memcmp.
  destruct (Z.ltb_spec (n * 4) 0) as [?|_]; [lia|].
  replace ((n * 4 + 3) / 4) with n by (Z.div_mod_to_equations; lia).
  destruct (load_words_Ok (Z.to_nat n) A 0 ltac:(lia)) as (xs & Hxs & Hlx & Hlookx).
  { intros k Hk. apply HA. lia. }
  destruct (load_words_Ok (Z.to_nat n) B 0 ltac:(lia)) as (ys & Hys & Hly & Hlooky).
  { intros k Hk. apply HB. lia. }
  rewrite Hxs, Hys. cbn [Result_bind]. eexists. split; [reflexivity|].
  assert (Hx : forall k : nat, (k < Z.to_nat n)%nat -> A !! k = Some (xs !! k))
    by (intros k Hk; exact (Hlookx k Hk)).
  assert (Hy : forall k : nat, (k < Z.to_nat n)%nat -> B !! k = Some (ys !! k))
    by (intros k Hk; exact (Hlooky k Hk)).
  clear Hlookx Hlooky.
  rewrite !take_ge by (rewrite length_concat_word_bytes; lia).
  rewrite compare_bytes_zero by (rewrite !length_concat_word_bytes; lia).
  assert (Hrx : Forall (fun w => 0 <= w < 2 ^ 32) xs).
  { apply Forall_lookup. intros k w Hk.
    assert (Hkn : (k < Z.to_nat n)%nat) by (rewrite <- Hlx; eapply lookup_lt_Some; exact Hk).
    pose proof (Hx k Hkn) as Hl. rewrite Hk in Hl. exact (HuA _ _ Hl). }
  assert (Hry : Forall (fun w => 0 <= w < 2 ^ 32) ys).
  { apply Forall_lookup. intros k w Hk.
    assert (Hkn : (k < Z.to_nat n)%nat) by (rewrite <- Hly; eapply lookup_lt_Some; exact Hk).
    pose proof (Hy k Hkn) as Hl. rewrite Hk in Hl. exact (HuB _ _ Hl). }
  split.
  - intros Heq. apply concat_word_bytes_inj in Heq; [|lia|assumption|assumption].
    intros k Hk. rewrite (Hx k), (Hy k), Heq by lia. reflexivity.
  - intros Hsame. assert (Hxy : xs = ys); [|rewrite Hxy; reflexivity].
    apply list_eq. intros k.
    destruct (Nat.lt_ge_cases k (Z.to_nat n)) as [Hk|Hk].
    + pose proof (Hx k Hk) as Hxk. pose proof (Hy k Hk) as Hyk.
      rewrite (Hsame k ltac:(lia)), Hyk in Hxk. injection Hxk as Hxk. symmetry. exact Hxk.
    + rewrite !lookup_ge_None_2 by lia. reflexivity.
Qed.

Section BitArrayComparison.
Context {Alloc : Allocator}.
Import BitArray.

Lemma operator_eq_words (a b : TBitArray) :
  0 <= NumBits a <= 2 ^ 32 - 32 ->
  BitsInitialised a -> BitsInitialised b ->
  WordsAreUint32 (AllocatorInstance a) -> WordsAreUint32 (AllocatorInstance b) ->
  exists r, operator_eq a b = Ok r /\
    (r = true <->
     NumBits a = NumBits b /\
     forall j : nat, Z.of_nat j < DivideAndRoundUp (NumBits a) NUM_BITS_PER_DWORD ->
       AllocatorInstance a !! j = AllocatorInstance b !! j).
Proof.
  intros HN Hia Hib Hua Hub. unfold operator_eq, Num, GetData.
  destruct (Z.eqb_spec (NumBits a) (NumBits b)) as [Heq|Hne]; cbn [negb].
  2:{ exists false. split; [reflexivity|]. split; [discriminate|]. intros [Hc _]. contradiction. }
  set (n := DivideAndRoundUp (NumBits a) NUM_BITS_PER_DWORD).
  assert (Hn : 0 <= n < 2 ^ 27) by (unfold n; zdiv).
  rewrite (wrap32_small (n * 4)) by lia.
  destruct (Memcmp_words (AllocatorInstance a) (AllocatorInstance b) n ltac:(lia))
    as (r & Hrun & Hr); try assumption.
  - apply words_of_bits; [lia | exact Hia].
  - unfold n. rewrite Heq. apply words_of_bits; [lia | exact Hib].
  - rewrite Hrun. cbn [Result_bind]. eexists. split; [reflexivity|].
    rewrite Z.eqb_eq, Hr. split; [intros Hs; split; assumption | intros [_ Hs]; exact Hs].
Qed.

(** X26: [operator==] returns true exactly when the two arrays have the
    same number of bits and the same words up to the last word that holds a
    bit; two arrays that compare equal agree on every bit, and [operator!=]
    is the negation. *)
Theorem operator_eq_compares_the_words (a b : TBitArray) :
  0 <= NumBits a <= 2 ^ 32 - 32 ->
  BitsInitialised a -> BitsInitialised b ->
  WordsAreUint32 (AllocatorInstance a) -> WordsAreUint32 (AllocatorInstance b) ->
  exists r, operator_eq a b = Ok r /\ operator_ne a b = Ok (negb r) /\
    (r = true <->
     NumBits a = NumBits b /\
     forall j : nat, Z.of_nat j < DivideAndRoundUp (NumBits a) NUM_BITS_PER_DWORD ->
       AllocatorInstance a !! j = AllocatorInstance b !! j) /\
    (r = true ->
     Num a = Num b /\ forall i, 0 <= i < NumBits a -> get_bit a i = get_bit b i).
Proof.
  intros HN Hia Hib Hua Hub.
  destruct (operator_eq_words a b HN Hia Hib Hua Hub) as (r & Hrun & Hr).
  exists r. split; [exact Hrun|]. split; [unfold operator_ne; rewrite Hrun; reflexivity|].
  split; [exact Hr|]. intros Htrue. apply Hr in Htrue as [Hnum Hsame].
  split; [exact Hnum|]. intros i Hi.
  apply get_bit_bit_at; [rewrite <- Hnum; exact Hi | exact Hnum | apply Hib; lia |].
  apply bit_at_same_word. apply Hsame. zdiv.
Qed.

(** X28: the assignment [a = Copy] returns with the number of bits of
    [Copy], room for them rounded up to whole words and the bits of [Copy];
    the result compares equal to [Copy].  The copy constructor gives the
    same array from nothing. *)
Theorem assign_copy_copies_the_bits (a Copy : TBitArray) :
  BitWellFormed a -> BitWellFormed Copy -> BitsInitialised Copy ->
  WordsAreUint32 (AllocatorInstance Copy) ->
  exists a', assign_copy a Copy = Ok a' /\
    BitWellFormed a' /\
    NumBits a' = NumBits Copy /\
    MaxBits a' = DivideAndRoundUp (NumBits Copy) NUM_BITS_PER_DWORD * 32 /\
    (forall i, 0 <= i < NumBits Copy -> get_bit a' i = get_bit Copy i) /\
    operator_eq a' Copy = Ok true /\
    exists c, TBitArray_copy Copy = Ok c /\
      NumBits c = NumBits a' /\ MaxBits c = MaxBits a' /\
      forall i, 0 <= i < NumBits Copy -> get_bit c i = get_bit a' i.
Proof.
  assert (Hmain : forall a0 : TBitArray, BitWellFormed a0 -> BitWellFormed Copy ->
            BitsInitialised Copy -> WordsAreUint32 (AllocatorInstance Copy) ->
            exists a', assign_copy a0 Copy = Ok a' /\
              BitWellFormed a' /\ NumBits a' = NumBits Copy /\
              MaxBits a' = DivideAndRoundUp (NumBits Copy) NUM_BITS_PER_DWORD * 32 /\
              (forall j : nat,
                 Z.of_nat j < DivideAndRoundUp (NumBits Copy) NUM_BITS_PER_DWORD ->
                 AllocatorInstance a' !! j = AllocatorInstance Copy !! j) /\
              (NumBits Copy <> 0 -> WordsAreUint32 (AllocatorInstance a'))).
  { intros a0 Ha0 Hc Hic Huc. pose proof Hc as [Hcb Hcw Hcu Hcl].
    assert (Hcap : NumBits Copy <= 2 ^ 32 - 32) by (Z.div_mod_to_equations; lia).
    unfold assign_copy, Num.
    destruct (Empty_Ok a0 (NumBits Copy) Ha0 ltac:(lia))
      as (a1 & Hrun & Ha1 & Hnum1 & Hmax1 & _ & _).
    rewrite Hrun. cbn [Result_bind NumBits MaxBits AllocatorInstance].
    pose proof Ha1 as [Hb1 Hw1 Hu1 Hl1].
    set (n := DivideAndRoundUp (NumBits Copy) NUM_BITS_PER_DWORD) in *.
    assert (Hn : 0 <= n < 2 ^ 27) by (unfold n; zdiv).
    assert (Hq : MaxBits a1 / 32 = n) by (rewrite Hmax1; apply Z.div_mul; lia).
    destruct (Z.eqb_spec (NumBits Copy) 0) as [H0|Hpos]; cbn [negb].
    - eexists. split; [reflexivity|]. cbn [NumBits MaxBits AllocatorInstance].
      split; [|split; [reflexivity|split; [exact Hmax1|split]]].
      + constructor; cbn [NumBits MaxBits AllocatorInstance]; try assumption. lia.
      + intros j Hj. unfold n in Hj. rewrite H0 in Hj.
        change (DivideAndRoundUp 0 NUM_BITS_PER_DWORD) with 0 in Hj. lia.
      + intros Hc0. contradiction.
    - assert (Hdru : DivideAndRoundUp (MaxBits a1) NUM_BITS_PER_DWORD = n)
        by (rewrite Hmax1; unfold DivideAndRoundUp, NUM_BITS_PER_DWORD;
            Z.div_mod_to_equations; lia).
      rewrite Hdru. unfold GetData, Memcpy. cbn [AllocatorInstance].
      destruct (Z.eqb_spec n 0) as [?|_]; [unfold n in *; zdiv|].
      assert (Hb1' : in_bounds (AllocatorInstance a1) 0 n = true)
        by (apply in_bounds_true; lia).
      assert (Hb2 : in_bounds (AllocatorInstance Copy) 0 n = true).
      { apply in_bounds_true. split; [lia|]. split; [lia|]. unfold n. zdiv. }
      rewrite Hb1', Hb2. cbn [andb Result_bind].
      set (src := fmap (M:=list) (fmap (M:=option) id) (take (Z.to_nat n) (AllocatorInstance Copy))).
      assert (Hsrc : length src = Z.to_nat n).
      { unfold src. rewrite length_fmap, length_take.
        apply in_bounds_true in Hb2. lia. }
      assert (Hlook : forall j : nat, Z.of_nat j < n ->
                list_inserts 0 src (AllocatorInstance a1) !! j = AllocatorInstance Copy !! j).
      { intros j Hj. rewrite list_lookup_inserts by lia.
        rewrite Nat.sub_0_r. unfold src. rewrite list_lookup_fmap, lookup_take_lt by lia.
        destruct (AllocatorInstance Copy !! j) as [[w|]|]; reflexivity. }
      eexists. split; [reflexivity|]. cbn [NumBits MaxBits AllocatorInstance].
      split; [|split; [reflexivity|split; [exact Hmax1|split]]].
      + constructor; cbn [NumBits MaxBits AllocatorInstance]; try assumption.
        * rewrite Hmax1. unfold n. zdiv.
        * rewrite length_inserts. exact Hl1.
      + exact Hlook.
      + intros _ j w Hj.
        assert (Hjn : Z.of_nat j < n).
        { apply lookup_lt_Some in Hj. rewrite length_inserts in Hj. lia. }
        rewrite Hlook in Hj by exact Hjn. exact (Huc _ _ Hj). }
  assert (Hbits : forall a', NumBits a' = NumBits Copy -> BitsInitialised Copy ->
            (forall j : nat,
               Z.of_nat j < DivideAndRoundUp (NumBits Copy) NUM_BITS_PER_DWORD ->
               AllocatorInstance a' !! j = AllocatorInstance Copy !! j) ->
            forall i, 0 <= i < NumBits Copy -> get_bit a' i = get_bit Copy i).
  { intros a' Hnum Hic Hsame i Hi.
    apply get_bit_bit_at; [exact Hi | exact Hnum | apply Hic; exact Hi |].
    apply bit_at_same_word. apply Hsame. zdiv. }
  intros Ha Hc Hic Huc.
  destruct (Hmain a Ha Hc Hic Huc) as (a' & Hrun & Ha' & Hnum & Hmax & Hsame & Hu').
  exists a'. split; [exact Hrun|]. split; [exact Ha'|]. split; [exact Hnum|].
  split; [exact Hmax|]. split; [exact (Hbits a' Hnum Hic Hsame)|].
  pose proof Hc as [Hcb Hcw Hcu Hcl].
  assert (Hcap : NumBits Copy <= 2 ^ 32 - 32) by (Z.div_mod_to_equations; lia).
  split.
  - destruct (Z.eq_dec (NumBits Copy) 0) as [H0|Hpos].
    + unfold operator_eq, Num. rewrite Hnum, Z.eqb_refl. cbn [negb]. rewrite H0.
      reflexivity.
    + assert (Hia' : BitsInitialised a').
      { intros i Hi. rewrite Hnum in Hi. destruct (Hic i Hi) as [b Hb]. exists b.
        rewrite <- Hb. apply bit_at_same_word. apply Hsame. zdiv. }
      destruct (operator_eq_words a' Copy ltac:(lia) Hia' Hic (Hu' Hpos) Huc)
        as (r & Hr & Hiff).
      rewrite Hr. f_equal. apply Hiff. split; [exact Hnum|].
      rewrite Hnum. exact Hsame.
  - assert (He : BitWellFormed (mkTBitArray [] 0 0)).
    { constructor; cbn [NumBits MaxBits AllocatorInstance length]; try reflexivity; lia. }
    destruct (Hmain (mkTBitArray [] 0 0) He Hc Hic Huc)
      as (c & Hrunc & Hc' & Hnumc & Hmaxc & Hsamec & _).
    exists c. split; [exact Hrunc|]. split; [congruence|]. split; [congruence|].
    intros i Hi. rewrite (Hbits a' Hnum Hic Hsame i Hi). exact (Hbits c Hnumc Hic Hsamec i Hi).
Qed.

End BitArrayComparison.

(** X27: [operator==] does not follow from the bits alone: an array that
    was refilled after [Empty] and one built by [Init] hold the same single
    bit and compare unequal, by the bits of the word beyond [NumBits]. *)
Theorem operator_eq_reads_the_slack_bits :
  exists a b : BitArray.TBitArray,
    BitArray.run (Alloc := DoublingAllocator)
      [BitArray.OpInit true 32; BitArray.OpEmpty 32; BitArray.OpAdd false]
      (BitArray.mkTBitArray [] 0 0)
    = Ok [BitArray.mkTBitArray [Some 4294967295] 32 32;
          BitArray.mkTBitArray [Some 4294967295] 0 32; a] /\
    BitArray.run (Alloc := DoublingAllocator) [BitArray.OpInit false 1]
      (BitArray.mkTBitArray [] 0 0) = Ok [b] /\
    BitArray.Num a = 1 /\ BitArray.Num b = 1 /\
    BitArray.get_bit a 0 = Ok false /\ BitArray.get_bit b 0 = Ok false /\
    BitArray.operator_eq a b = Ok false /\ BitArray.operator_ne a b = Ok true.
Proof.
  exists (BitArray.mkTBitArray [Some 4294967294] 1 32), (BitArray.mkTBitArray [Some 0] 1 32).
  repeat split; vm_compute; reflexivity.
Qed.

(** ** Concrete runs of the theorems *)

(** A concrete array is well formed when its counters and slots say so. *)
Ltac live_slot i k :=
  first [ lia | destruct (Z.eq_dec i k) as [->|?]; [eexists; reflexivity|] ].

Ltac concrete_wf :=
  constructor; cbn [Array.ArrayNum Array.ArrayMax Array.AllocatorInstance length];
  [ lia | reflexivity
  | let i := fresh "i" in let Hi := fresh "Hi" in
    intros i Hi; live_slot i 0; live_slot i 1; live_slot i 2; live_slot i 3; lia ].

Lemma scenario_SetRange_Find_witness :
  5 <= 7 < 15 /\ BitArray.get_bit forty_bits_set 7 = Ok true.
Proof.
  split; [lia|].
  apply (proj1 (proj2 (proj2 (scenario_SetRange_Find (Core := AllOnesInvalidIndex))))).
  lia.
Defined.

Lemma zero_count_and_minimal_calls_change_nothing_witness :
  (0 <= 3 < 2 ^ 32 /\ 3 <= BitArray.NumBits forty_bits_set) /\
  BitArray.SetRange forty_bits_set 3 0 true = Ok forty_bits_set.
Proof.
  split; [cbn [BitArray.NumBits forty_bits_set]; lia|].
  apply (proj1 (proj2 (zero_count_and_minimal_calls_change_nothing
                         (E := Z) (Alloc := DoublingAllocator)
                         (Traits := Int32Elements true true)))).
  - lia.
  - cbn [BitArray.NumBits forty_bits_set]. lia.
Defined.

Lemma RemoveAt_suffix_only_shrinks_witness :
  (0 <= 30 /\ 0 <= 10 /\ BitArray.NumBits forty_bits_set < 2 ^ 32 /\
   30 + 10 = BitArray.NumBits forty_bits_set) /\
  BitArray.RemoveAt forty_bits_set 30 10
  = Ok (BitArray.mkTBitArray [Some 32736; Some 0] 30 64).
Proof.
  split; [cbn [BitArray.NumBits forty_bits_set]; lia|].
  apply (RemoveAt_suffix_only_shrinks forty_bits_set 30 10);
    cbn [BitArray.NumBits forty_bits_set]; lia.
Defined.

Lemma TBitArray_move_leaves_source_empty_run :
  exists t f,
    BitArray.assign_move (Alloc := DoublingAllocator) (BitArray.mkTBitArray [] 0 0)
      forty_bits_set = Ok (t, f) /\
    BitArray.Num f = 0 /\ BitArray.MaxBits f = 0 /\ BitArray.NumBits t = 40.
Proof.
  destruct (TBitArray_move_leaves_source_empty (Alloc := DoublingAllocator)
              (BitArray.mkTBitArray [] 0 0) forty_bits_set eq_refl)
    as (t & f & _ & _ & Hrun & Hnum & Hmax & _ & Ht & _).
  exists t, f. repeat split; assumption.
Defined.

Lemma MoveOrCopy_copy_copies_the_live_range_run :
  WellFormed (Array.mkTArray [Some true; Some false] 2 2) /\
  exists t,
    Array.MoveOrCopy_copy (Alloc := DoublingAllocator) (Conv := BoolToInt32)
      (Array.TArray_default (E := Z)) (Array.mkTArray [Some true; Some false] 2 2) 0
    = Ok (t, Array.mkTArray [Some true; Some false] 2 2) /\
    Array.AllocatorInstance t !! Z.to_nat 0 = Some (Some 1).
Proof.
  assert (Hwf : WellFormed (Array.mkTArray [Some true; Some false] 2 2)) by concrete_wf.
  split; [exact Hwf|].
  destruct (MoveOrCopy_copy_copies_the_live_range (Alloc := DoublingAllocator)
              (Conv := BoolToInt32) (Array.TArray_default (E := Z))
              (Array.mkTArray [Some true; Some false] 2 2) 0)
    as (t & Hrun & _ & _ & Hcopy).
  - exact Hwf.
  - cbn. lia.
  - reflexivity.
  - exists t. split; [exact Hrun|]. apply (Hcopy 0 true); [cbn; lia | reflexivity].
Defined.

Lemma Add_then_read_witness :
  WellFormed (Array.mkTArray [Some 1] 1 1) /\
  exists a',
    Array.Add (Alloc := DoublingAllocator) (Traits := Int32Elements false false)
      (Array.mkTArray [Some 1] 1 1) (Array.Outside 2) = Ok (1, a') /\
    Array.ArrayMax a' = 2 /\
    Array.operator_index (Alloc := DoublingAllocator) a' 1 = Ok 2.
Proof.
  assert (Hwf : WellFormed (Array.mkTArray [Some 1] 1 1)) by concrete_wf.
  split; [exact Hwf|].
  destruct (Add_then_read (Alloc := DoublingAllocator) (Traits := Int32Elements false false)
              (Array.mkTArray [Some 1] 1 1) 2)
    as (a' & Hrun & _ & Hmax & Hread).
  - exact Hwf.
  - cbn. lia.
  - intros _. cbn. lia.
  - exists a'. split; [exact Hrun|]. split; [exact Hmax | exact Hread].
Defined.

Lemma forty_bits_set_initialised : BitsInitialised forty_bits_set.
Proof.
  intros i Hi. cbn [BitArray.NumBits forty_bits_set] in Hi.
  unfold bit_at. cbn [BitArray.AllocatorInstance forty_bits_set].
  assert (Hq : i / 32 = 0 \/ i / 32 = 1) by (Z.div_mod_to_equations; lia).
  destruct Hq as [-> | ->]; eexists; reflexivity.
Defined.

Lemma RemoveAt_compacts_survivors_witness :
  (0 <= 3 /\ 0 <= 4 /\ 3 + 4 <= BitArray.NumBits forty_bits_set /\
   BitArray.NumBits forty_bits_set < 2 ^ 32 /\ BitsInitialised forty_bits_set) /\
  exists a', BitArray.RemoveAt forty_bits_set 3 4 = Ok a' /\
    BitArray.NumBits a' = 36 /\
    exists b, BitArray.get_bit forty_bits_set (3 + 4) = Ok b /\ BitArray.get_bit a' 3 = Ok b.
Proof.
  split.
  - cbn [BitArray.NumBits forty_bits_set].
    repeat split; try lia. exact forty_bits_set_initialised.
  - destruct (RemoveAt_compacts_survivors forty_bits_set 3 4) as (a' & Hrun & Hnum & _ & Hhigh);
      cbn [BitArray.NumBits forty_bits_set]; try lia.
    + exact forty_bits_set_initialised.
    + exists a'. split; [exact Hrun|]. split; [exact Hnum|].
      apply Hhigh. cbn [BitArray.NumBits forty_bits_set]. lia.
Defined.

(** The bit array built by [Init(false, 40)], [SetRange(5, 10, true)] and
    [RemoveAt(0, 5)] is well formed and has all its bits after each call. *)
Lemma bits_have_values_after_every_call_run :
  Forall (fun s => BitWellFormed s /\ BitsInitialised s)
    [BitArray.mkTBitArray [Some 0; Some 0] 40 64;
     BitArray.mkTBitArray [Some 32736; Some 0] 40 64;
     BitArray.mkTBitArray [Some 1023; Some 0] 35 64].
Proof.
  apply (bits_have_values_after_every_call (Alloc := DoublingAllocator)
           [BitArray.OpInit false 40; BitArray.OpSetRange 5 10 true;
            BitArray.OpRemoveAt 0 5]
           DoublingAllocator_covers DoublingAllocator_within_bits)
    with (a := BitArray.mkTBitArray [] 0 0).
  - repeat (constructor; [unfold BitCallInRange; lia|]). constructor.
  - repeat (constructor; [exact I|]). constructor.
  - constructor; cbn [BitArray.NumBits BitArray.MaxBits BitArray.AllocatorInstance length];
      try reflexivity; lia.
  - intros j Hj. cbn in Hj. lia.
  - vm_compute. reflexivity.
Defined.

(** ** Concrete runs on arrays *)

(** A concrete array holds a concrete list when its slots say so. *)
Ltac concrete_holds :=
  split; [reflexivity|];
  let k := fresh "k" in let x := fresh "x" in let Hk := fresh "Hk" in
  intros k x Hk;
  repeat (destruct k as [|k]; [injection Hk as <-; reflexivity|]);
  destruct k; discriminate Hk.

Lemma three_fit : Z.of_nat (length [1; 2; 3]) <= FSizeType_Max (Allocator := DoublingAllocator).
Proof. cbn. lia. Defined.

Lemma TArray_constructors_copy_the_source_run :
  Z.of_nat (length [1; 2; 3]) <= FSizeType_Max (Allocator := DoublingAllocator) /\
  exists a, Array.TArray_from_list (Alloc := DoublingAllocator)
              (Traits := Int32Elements true true) [1; 2; 3] = Ok a /\
    Holds a [1; 2; 3] /\ Array.ArrayMax a = Z.of_nat (length [1; 2; 3]).
Proof.
  split; [exact three_fit|].
  destruct (proj1 (TArray_constructors_copy_the_source (E := Z) (S := bool)
                     (Alloc := DoublingAllocator) (Traits := Int32Elements true true)
                     (Conv := BoolToInt32)) [1; 2; 3] three_fit)
    as (a & Hrun & _ & Hh & Hmax).
  exists a. split; [exact Hrun|]. split; [exact Hh | exact Hmax].
Defined.

Lemma assignment_replaces_the_elements_run :
  (WellFormed (Array.mkTArray [Some 1; None] 1 2) /\
   Z.of_nat (length [1; 2; 3]) <= FSizeType_Max (Allocator := DoublingAllocator)) /\
  exists a', Array.assign_list (Alloc := DoublingAllocator) (Traits := Int32Elements false false)
               (Array.mkTArray [Some 1; None] 1 2) [1; 2; 3] = Ok a' /\
    Holds a' [1; 2; 3] /\ Array.ArrayMax a' = Z.of_nat (length [1; 2; 3]).
Proof.
  assert (Hwf : WellFormed (Array.mkTArray [Some 1; None] 1 2)) by concrete_wf.
  split; [split; [exact Hwf | exact three_fit]|].
  destruct (proj1 (assignment_replaces_the_elements (Alloc := DoublingAllocator)
                     (Traits := Int32Elements false false)
                     (Array.mkTArray [Some 1; None] 1 2) Hwf) [1; 2; 3] three_fit)
    as (a' & Hrun & _ & Hh & Hmax).
  exists a'. split; [exact Hrun|]. split; [exact Hh | exact Hmax].
Defined.

Lemma Contains_some_element_run :
  Holds (Array.mkTArray [Some 1; Some 2] 2 2) [1; 2] /\
  exists r, Array.Contains (Traits := Int32Elements true true)
              (Array.mkTArray [Some 1; Some 2] 2 2) 2 = Ok r /\
    r = existsb (fun x => x =? 2) [1; 2].
Proof.
  assert (Hh : Holds (Array.mkTArray [Some 1; Some 2] 2 2) [1; 2]) by concrete_holds.
  split; [exact Hh|].
  destruct (Contains_some_element (Traits := Int32Elements true true)
              (Array.mkTArray [Some 1; Some 2] 2 2) [1; 2] 2 Hh) as (r & Hrun & Hr & _).
  exists r. split; [exact Hrun | exact Hr].
Defined.

Lemma Add_appends_the_element_run :
  (WellFormed (Array.mkTArray [Some 1] 1 1) /\ Holds (Array.mkTArray [Some 1] 1 1) [1]) /\
  exists a', Array.Add (Alloc := DoublingAllocator) (Traits := Int32Elements false false)
               (Array.mkTArray [Some 1] 1 1) (Array.Outside 2) = Ok (1, a') /\
    Holds a' ([1] ++ [2]).
Proof.
  assert (Hwf : WellFormed (Array.mkTArray [Some 1] 1 1)) by concrete_wf.
  assert (Hh : Holds (Array.mkTArray [Some 1] 1 1) [1]) by concrete_holds.
  split; [split; [exact Hwf | exact Hh]|].
  destruct (Add_appends_the_element (Alloc := DoublingAllocator)
              (Traits := Int32Elements false false)
              (Array.mkTArray [Some 1] 1 1) [1] 2 DoublingAllocator_covers Hwf Hh)
    as (a' & Hrun & _ & _ & Hh').
  - cbn. lia.
  - exists a'. split; [exact Hrun | exact Hh'].
Defined.

Lemma Shrink_gives_the_slack_back_run :
  (WellFormed (Array.mkTArray [Some 1; None] 1 2) /\
   Holds (Array.mkTArray [Some 1; None] 1 2) [1]) /\
  exists a', Array.Shrink
               (Array.mkTArray [Some 1; None] 1 2) = Ok a' /\
    Array.ArrayMax a' = 1 /\ Holds a' [1].
Proof.
  assert (Hwf : WellFormed (Array.mkTArray [Some 1; None] 1 2)) by concrete_wf.
  assert (Hh : Holds (Array.mkTArray [Some 1; None] 1 2) [1]) by concrete_holds.
  split; [split; [exact Hwf | exact Hh]|].
  destruct (Shrink_gives_the_slack_back
              (Array.mkTArray [Some 1; None] 1 2) [1] Hwf Hh)
    as (a' & Hrun & Hmax & _ & Hh').
  exists a'. split; [exact Hrun|]. split; [exact Hmax | exact Hh'].
Defined.

Lemma calls_out_of_range_fail_the_assertion_run :
  (CountersInOrder (Array.mkTArray [Some 1] 1 1) /\
   RequireRangeCheck (Allocator := DoublingAllocator) = true /\
   ~ (0 <= 5 < Array.ArrayNum (Array.mkTArray [Some 1] 1 1))) /\
  Array.operator_index (Alloc := DoublingAllocator) (Array.mkTArray [Some 1] 1 1) 5
  = Fail AssertionFailed.
Proof.
  assert (Hb : CountersInOrder (Array.mkTArray [Some 1] 1 1)) by (unfold CountersInOrder; cbn; lia).
  assert (Hout : ~ (0 <= 5 < Array.ArrayNum (Array.mkTArray [Some 1] 1 1))) by (cbn; lia).
  split; [split; [exact Hb | split; [reflexivity | exact Hout]]|].
  apply (proj1 (calls_out_of_range_fail_the_assertion (Alloc := DoublingAllocator)
                  (Traits := Int32Elements true true)
                  (Array.mkTArray [Some 1] 1 1) 5 Hb)); [reflexivity | exact Hout].
Defined.

Lemma RemoveAtImpl_removes_the_range_run :
  (WellFormed (Array.mkTArray [Some 10; Some 20; Some 30; None] 3 4) /\
   Holds (Array.mkTArray [Some 10; Some 20; Some 30; None] 3 4) [10; 20; 30]) /\
  exists a', Array.RemoveAtImpl (Alloc := DoublingAllocator) (Traits := Int32Elements false false)
               (Array.mkTArray [Some 10; Some 20; Some 30; None] 3 4) 0 2 true = Ok a' /\
    Holds a' (take (Z.to_nat 0) [10; 20; 30] ++ drop (Z.to_nat (0 + 2)) [10; 20; 30]).
Proof.
  assert (Hwf : WellFormed (Array.mkTArray [Some 10; Some 20; Some 30; None] 3 4))
    by concrete_wf.
  assert (Hh : Holds (Array.mkTArray [Some 10; Some 20; Some 30; None] 3 4) [10; 20; 30])
    by concrete_holds.
  split; [split; [exact Hwf | exact Hh]|].
  destruct (RemoveAtImpl_removes_the_range (Alloc := DoublingAllocator)
              (Traits := Int32Elements false false)
              (Array.mkTArray [Some 10; Some 20; Some 30; None] 3 4) [10; 20; 30] 0 2 true)
    as (a' & Hrun & _ & Hh' & _); try exact Hwf; try exact Hh; try (cbn; lia).
  exists a'. split; [exact Hrun | exact Hh'].
Defined.

Lemma Insert_puts_the_element_at_the_index_run :
  (WellFormed (Array.mkTArray [Some 10; Some 20; Some 30; None] 3 4) /\
   Holds (Array.mkTArray [Some 10; Some 20; Some 30; None] 3 4) [10; 20; 30]) /\
  exists a', Array.Insert (Alloc := DoublingAllocator) (Traits := Int32Elements true true)
               (Array.mkTArray [Some 10; Some 20; Some 30; None] 3 4) (Array.Outside 99) 1
             = Ok (1, a') /\
    Holds a' (take (Z.to_nat 1) [10; 20; 30] ++ 99 :: drop (Z.to_nat 1) [10; 20; 30]).
Proof.
  assert (Hwf : WellFormed (Array.mkTArray [Some 10; Some 20; Some 30; None] 3 4))
    by concrete_wf.
  assert (Hh : Holds (Array.mkTArray [Some 10; Some 20; Some 30; None] 3 4) [10; 20; 30])
    by concrete_holds.
  split; [split; [exact Hwf | exact Hh]|].
  destruct (Insert_puts_the_element_at_the_index (Alloc := DoublingAllocator)
              (Traits := Int32Elements true true)
              (Array.mkTArray [Some 10; Some 20; Some 30; None] 3 4) [10; 20; 30] 99 1
              DoublingAllocator_covers Hwf Hh)
    as (a' & Hrun & _ & Hh'); try (cbn; lia).
  exists a'. split; [exact Hrun | exact Hh'].
Defined.

(** ** Concrete runs on bit arrays *)

Lemma forty_bits_set_well_formed : BitWellFormed forty_bits_set.
Proof.
  constructor; cbn [BitArray.NumBits BitArray.MaxBits BitArray.AllocatorInstance
                    forty_bits_set length]; try reflexivity; lia.
Defined.

Lemma forty_bits_set_words : WordsSet forty_bits_set.
Proof.
  intros j Hj. cbn [BitArray.AllocatorInstance forty_bits_set length] in *.
  destruct j as [|[|j]]; [eexists; reflexivity | eexists; reflexivity | lia].
Defined.

Lemma forty_bits_set_uint32 : WordsAreUint32 (BitArray.AllocatorInstance forty_bits_set).
Proof.
  intros j w Hj. cbn [BitArray.AllocatorInstance forty_bits_set] in Hj.
  destruct j as [|[|j]]; cbn in Hj; [| |discriminate];
    injection Hj as <-; lia.
Defined.

Lemma forty_bits_well_formed : BitWellFormed forty_bits.
Proof.
  constructor; cbn [BitArray.NumBits BitArray.MaxBits BitArray.AllocatorInstance
                    forty_bits length]; try reflexivity; lia.
Defined.

Lemma forty_bits_initialised : BitsInitialised forty_bits.
Proof.
  intros i Hi. cbn [BitArray.NumBits forty_bits] in Hi.
  unfold bit_at. cbn [BitArray.AllocatorInstance forty_bits].
  assert (Hq : i / 32 = 0 \/ i / 32 = 1) by (Z.div_mod_to_equations; lia).
  destruct Hq as [-> | ->]; eexists; reflexivity.
Defined.

Lemma forty_bits_uint32 : WordsAreUint32 (BitArray.AllocatorInstance forty_bits).
Proof.
  intros j w Hj. cbn [BitArray.AllocatorInstance forty_bits] in Hj.
  destruct j as [|[|j]]; cbn in Hj; [| |discriminate];
    injection Hj as <-; lia.
Defined.

Lemma CountTrailingZeros_lowest_set_bit_run :
  0 <= 12 < 2 ^ 32 /\
  0 <= CountTrailingZeros 12 < 32 /\
  Z.testbit 12 (CountTrailingZeros 12) = true.
Proof.
  assert (H : 0 <= 12 < 2 ^ 32) by lia.
  split; [exact H|].
  destruct (proj2 (CountTrailingZeros_lowest_set_bit 12 H)) as (Hr & Hb & _); [lia|].
  split; [exact Hr | exact Hb].
Defined.

Lemma CountLeadingZeros_highest_set_bit_run :
  0 <= 12 < 2 ^ 32 /\ 31 - CountLeadingZeros 12 = Z.log2 12.
Proof.
  assert (H : 0 <= 12 < 2 ^ 32) by lia.
  split; [exact H|].
  destruct (proj2 (CountLeadingZeros_highest_set_bit 12 H)) as (Hl & _); [lia|].
  exact Hl.
Defined.

Lemma counts_of_64_bits_run :
  0 <= 2 ^ 40 < 2 ^ 64 /\ 63 - CountLeadingZeros64 (2 ^ 40) = Z.log2 (2 ^ 40).
Proof.
  assert (H : 0 <= 2 ^ 40 < 2 ^ 64) by lia.
  split; [exact H|].
  destruct (proj1 (proj2 (counts_of_64_bits (2 ^ 40) H))) as (Hl & _); [lia|].
  exact Hl.
Defined.

Lemma FBitReference_compound_assignments_run :
  (bit_at [Some 5] 0 = Some true /\ bit_at [Some 5] 1 = Some false) /\
  exists d', BitArray.FBitReference_and_assign [Some 5] (0 / 32) (2 ^ (0 mod 32)) false = Ok d' /\
    bit_at d' 0 = Some (true && false).
Proof.
  split; [split; reflexivity|].
  destruct (FBitReference_compound_assignments [Some 5] 0 1 true false false)
    as (_ & (d' & Hrun & Hbit & _) & _); try lia; try reflexivity.
  exists d'. split; [exact Hrun | exact Hbit].
Defined.

Lemma operator_index_write_then_read_run :
  (BitsInitialised forty_bits_set /\ 0 <= 7 < BitArray.NumBits forty_bits_set) /\
  exists a', BitArray.set_bit forty_bits_set 7 false = Ok a' /\
    BitArray.get_bit a' 7 = Ok false.
Proof.
  split; [split; [exact forty_bits_set_initialised | cbn; lia]|].
  destruct (proj1 (operator_index_write_then_read forty_bits_set 7 false
                     forty_bits_set_initialised ltac:(lia)))
    as (a' & Hrun & _ & _ & Hread & _); [cbn; lia|].
  exists a'. split; [exact Hrun | exact Hread].
Defined.

Lemma FIterator_increments_run :
  (0 <= 30 /\ 30 + Z.of_nat 5 < 2 ^ 32) /\
  BitArray.FIterator_GetIndex (Nat.iter 5 BitArray.FIterator_incr (BitArray.FIterator_ctor 30))
  = 30 + Z.of_nat 5.
Proof.
  split; [lia|].
  apply (proj1 (proj2 (FIterator_increments forty_bits_set 30 5 ltac:(lia) ltac:(lia)))).
Defined.

Lemma FConstReverseIterator_visits_bits_downwards_run :
  0 <= BitArray.NumBits forty_bits_set < 2 ^ 32 /\
  exists it, BitArray.FConstReverseIterator_advance 3
               (BitArray.FConstReverseIterator_ctor forty_bits_set) = Ok it /\
    BitArray.FConstReverseIterator_GetIndex it = BitArray.NumBits forty_bits_set - 1 - Z.of_nat 3.
Proof.
  assert (H : 0 <= BitArray.NumBits forty_bits_set < 2 ^ 32) by (cbn; lia).
  split; [exact H|].
  destruct (proj1 (FConstReverseIterator_visits_bits_downwards forty_bits_set H)) as [Hn _];
    [cbn; lia|].
  destruct (Hn 3%nat) as (it & Hrun & _ & Hidx & _); [cbn; lia|].
  exists it. split; [exact Hrun | exact Hidx].
Defined.

Lemma Init_sets_every_bit_run :
  (BitWellFormed forty_bits_set /\ 0 <= 10 <= 2 ^ 32 - 32) /\
  exists a', BitArray.Init forty_bits_set true 10 = Ok a' /\
    BitArray.NumBits a' = 10 /\ BitArray.get_bit a' 9 = Ok true.
Proof.
  split; [split; [exact forty_bits_set_well_formed | lia]|].
  destruct (Init_sets_every_bit forty_bits_set true 10
              forty_bits_set_well_formed ltac:(lia))
    as (a' & Hrun & _ & Hnum & _ & Hbits).
  exists a'. split; [exact Hrun|]. split; [exact Hnum|]. apply Hbits. lia.
Defined.

Lemma Reserve_keeps_the_bits_run :
  (BitWellFormed forty_bits_set /\ WordsSet forty_bits_set /\ 0 <= 100 <= 2 ^ 32 - 32) /\
  exists a', BitArray.Reserve (Alloc := DoublingAllocator) forty_bits_set 100 = Ok a' /\
    BitArray.NumBits a' = BitArray.NumBits forty_bits_set /\ 100 <= BitArray.MaxBits a'.
Proof.
  split; [split; [exact forty_bits_set_well_formed|split; [exact forty_bits_set_words | lia]]|].
  destruct (Reserve_keeps_the_bits (Alloc := DoublingAllocator) forty_bits_set 100
              DoublingAllocator_covers DoublingAllocator_within_bits
              forty_bits_set_well_formed forty_bits_set_words ltac:(lia))
    as (a' & Hrun & Hnum & Hmax & _).
  exists a'. split; [exact Hrun|]. split; [exact Hnum | exact Hmax].
Defined.

Lemma Add_appends_a_bit_run :
  (BitWellFormed forty_bits_set /\ WordsSet forty_bits_set /\
   BitArray.NumBits forty_bits_set < 2 ^ 32 - 32) /\
  exists a', BitArray.Add (Alloc := DoublingAllocator) forty_bits_set true
             = Ok (BitArray.NumBits forty_bits_set, a') /\
    BitArray.get_bit a' (BitArray.NumBits forty_bits_set) = Ok true.
Proof.
  assert (H : BitArray.NumBits forty_bits_set < 2 ^ 32 - 32) by (cbn; lia).
  split; [split; [exact forty_bits_set_well_formed|split; [exact forty_bits_set_words | exact H]]|].
  destruct (Add_appends_a_bit (Alloc := DoublingAllocator) forty_bits_set true
              DoublingAllocator_covers DoublingAllocator_within_bits
              forty_bits_set_well_formed forty_bits_set_words H)
    as (a' & Hrun & _ & _ & _ & Hbit & _).
  exists a'. split; [exact Hrun | exact Hbit].
Defined.

Lemma Add_appends_many_bits_run :
  (BitWellFormed forty_bits_set /\ WordsSet forty_bits_set /\
   0 <= 30 /\ BitArray.NumBits forty_bits_set + 30 <= 2 ^ 32 - 32) /\
  exists a', BitArray.AddMany (Alloc := DoublingAllocator) forty_bits_set true 30
             = Ok (BitArray.NumBits forty_bits_set, a') /\
    BitArray.NumBits a' = BitArray.NumBits forty_bits_set + 30.
Proof.
  assert (H : BitArray.NumBits forty_bits_set + 30 <= 2 ^ 32 - 32) by (cbn; lia).
  split; [split; [exact forty_bits_set_well_formed|
                  split; [exact forty_bits_set_words | split; [lia | exact H]]]|].
  destruct (Add_appends_many_bits (Alloc := DoublingAllocator) forty_bits_set true 30
              DoublingAllocator_covers DoublingAllocator_within_bits
              forty_bits_set_well_formed forty_bits_set_words ltac:(lia) H)
    as (a' & Hrun & _ & _ & Hnum & _).
  exists a'. split; [exact Hrun | exact Hnum].
Defined.

Lemma Empty_and_Reset_remove_every_bit_run :
  (BitWellFormed forty_bits_set /\ 0 <= 0 <= 2 ^ 32 - 32) /\
  exists a', BitArray.Reset forty_bits_set = Ok a' /\
    BitArray.NumBits a' = 0 /\ BitArray.MaxBits a' = BitArray.MaxBits forty_bits_set.
Proof.
  split; [split; [exact forty_bits_set_well_formed | lia]|].
  destruct (proj2 (Empty_and_Reset_remove_every_bit
                     forty_bits_set 0 forty_bits_set_well_formed ltac:(lia)))
    as (a' & Hrun & Hnum & Hmax & _).
  exists a'. split; [exact Hrun|]. split; [exact Hnum | exact Hmax].
Defined.

Lemma SetRange_sets_the_range_run :
  (BitWellFormed forty_bits_set /\ BitsInitialised forty_bits_set /\
   0 <= 20 /\ 0 <= 15 /\ 20 + 15 <= BitArray.NumBits forty_bits_set) /\
  exists a', BitArray.SetRange forty_bits_set 20 15 true = Ok a' /\
    BitArray.get_bit a' 34 = Ok true.
Proof.
  assert (H : 20 + 15 <= BitArray.NumBits forty_bits_set) by (cbn; lia).
  split; [split; [exact forty_bits_set_well_formed|
                  split; [exact forty_bits_set_initialised | repeat split; try lia; exact H]]|].
  destruct (SetRange_sets_the_range forty_bits_set 20 15 true
              forty_bits_set_well_formed forty_bits_set_initialised
              ltac:(lia) ltac:(lia) H)
    as (a' & Hrun & _ & _ & Hin & _).
  exists a'. split; [exact Hrun|]. apply Hin. lia.
Defined.

Lemma Find_first_bit_run :
  (0 <= BitArray.NumBits forty_bits_set < 2 ^ 32 /\ BitsInitialised forty_bits_set /\
   WordsAreUint32 (BitArray.AllocatorInstance forty_bits_set)) /\
  exists r, BitArray.Find (Core := AllOnesInvalidIndex)
              forty_bits_set true = Ok r.
Proof.
  assert (H : 0 <= BitArray.NumBits forty_bits_set < 2 ^ 32) by (cbn; lia).
  split; [split; [exact H | split; [exact forty_bits_set_initialised
                                   | exact forty_bits_set_uint32]]|].
  destruct (Find_first_bit (Core := AllOnesInvalidIndex)
              forty_bits_set true H forty_bits_set_initialised forty_bits_set_uint32)
    as (r & Hrun & _).
  exists r. exact Hrun.
Defined.

Lemma FindLast_last_bit_run :
  (0 <= BitArray.NumBits forty_bits_set <= 2 ^ 32 - 32 /\ BitsInitialised forty_bits_set /\
   WordsAreUint32 (BitArray.AllocatorInstance forty_bits_set)) /\
  exists r, BitArray.FindLast (Core := AllOnesInvalidIndex)
              forty_bits_set true = Ok r.
Proof.
  assert (H : 0 <= BitArray.NumBits forty_bits_set <= 2 ^ 32 - 32) by (cbn; lia).
  split; [split; [exact H | split; [exact forty_bits_set_initialised
                                   | exact forty_bits_set_uint32]]|].
  destruct (FindLast_last_bit (Core := AllOnesInvalidIndex)
              forty_bits_set true H forty_bits_set_initialised forty_bits_set_uint32)
    as (r & Hrun & _).
  exists r. exact Hrun.
Defined.

Lemma Contains_some_bit_run :
  (0 <= BitArray.NumBits forty_bits_set < 2 ^ 32 /\ BitsInitialised forty_bits_set /\
   WordsAreUint32 (BitArray.AllocatorInstance forty_bits_set) /\
   BitArray.NumBits forty_bits_set <= INVALID_INDEX (CoreTypes := AllOnesInvalidIndex)) /\
  exists b, BitArray.Contains (Core := AllOnesInvalidIndex)
              forty_bits_set true = Ok b.
Proof.
  assert (H : 0 <= BitArray.NumBits forty_bits_set < 2 ^ 32) by (cbn; lia).
  assert (H' : BitArray.NumBits forty_bits_set <= INVALID_INDEX (CoreTypes := AllOnesInvalidIndex))
    by (cbn; lia).
  split; [split; [exact H | split; [exact forty_bits_set_initialised
                                   | split; [exact forty_bits_set_uint32 | exact H']]]|].
  destruct (Contains_some_bit (Core := AllOnesInvalidIndex)
              forty_bits_set true H forty_bits_set_initialised forty_bits_set_uint32 H')
    as (b & Hrun & _).
  exists b. exact Hrun.
Defined.

(** The bit array built by [Init(false, 40)], [SetRange(5, 10, true)] and
    [RemoveAt(0, 5)] can be searched after each call. *)
Lemma bit_array_stays_searchable_run :
  Forall (fun s => BitWellFormed s /\ BitsInitialised s /\
                   WordsAreUint32 (BitArray.AllocatorInstance s))
    [BitArray.mkTBitArray [Some 0; Some 0] 40 64;
     BitArray.mkTBitArray [Some 32736; Some 0] 40 64;
     BitArray.mkTBitArray [Some 1023; Some 0] 35 64].
Proof.
  apply (bit_array_stays_searchable (Alloc := DoublingAllocator)
           [BitArray.OpInit false 40; BitArray.OpSetRange 5 10 true;
            BitArray.OpRemoveAt 0 5]
           DoublingAllocator_covers DoublingAllocator_within_bits)
    with (a := BitArray.mkTBitArray [] 0 0).
  - repeat (constructor; [unfold BitCallInRange; lia|]). constructor.
  - repeat (constructor; [exact I|]). constructor.
  - repeat (constructor; [exact I|]). constructor.
  - constructor; cbn [BitArray.NumBits BitArray.MaxBits BitArray.AllocatorInstance length];
      try reflexivity; lia.
  - intros j Hj. cbn in Hj. lia.
  - intros j w Hj. destruct j; discriminate.
  - vm_compute. reflexivity.
Defined.

Lemma operator_eq_compares_the_words_run :
  (0 <= BitArray.NumBits forty_bits_set <= 2 ^ 32 - 32 /\
   BitsInitialised forty_bits_set /\ BitsInitialised forty_bits /\
   WordsAreUint32 (BitArray.AllocatorInstance forty_bits_set) /\
   WordsAreUint32 (BitArray.AllocatorInstance forty_bits)) /\
  exists r, BitArray.operator_eq forty_bits_set forty_bits = Ok r /\
    BitArray.operator_ne forty_bits_set forty_bits = Ok (negb r).
Proof.
  assert (H : 0 <= BitArray.NumBits forty_bits_set <= 2 ^ 32 - 32) by (cbn; lia).
  split.
  - split; [exact H|]. split; [exact forty_bits_set_initialised|].
    split; [exact forty_bits_initialised|].
    split; [exact forty_bits_set_uint32 | exact forty_bits_uint32].
  - destruct (operator_eq_compares_the_words
                forty_bits_set forty_bits H forty_bits_set_initialised forty_bits_initialised
                forty_bits_set_uint32 forty_bits_uint32)
      as (r & Heq & Hne & _).
    exists r. split; [exact Heq | exact Hne].
Defined.

Lemma assign_copy_copies_the_bits_run :
  (BitWellFormed forty_bits /\ BitWellFormed forty_bits_set /\
   BitsInitialised forty_bits_set /\
   WordsAreUint32 (BitArray.AllocatorInstance forty_bits_set)) /\
  exists a', BitArray.assign_copy forty_bits forty_bits_set = Ok a' /\
    BitArray.NumBits a' = BitArray.NumBits forty_bits_set /\
    BitArray.operator_eq a' forty_bits_set = Ok true.
Proof.
  split.
  - split; [exact forty_bits_well_formed|]. split; [exact forty_bits_set_well_formed|].
    split; [exact forty_bits_set_initialised | exact forty_bits_set_uint32].
  - destruct (assign_copy_copies_the_bits
                forty_bits forty_bits_set forty_bits_well_formed forty_bits_set_well_formed
                forty_bits_set_initialised forty_bits_set_uint32)
      as (a' & Hrun & _ & Hnum & _ & _ & Heq & _).
    exists a'. split; [exact Hrun|]. split; [exact Hnum | exact Heq].
Defined.
